(* ===== verification/_CoqProject ===== *)
-Q . S2P
Prelude.v
GoStr.v
UInt32Set.v
HashSet.v
SortedSet.v
SetAgree.v
GoNet.v
GoMemory.v
GoJson.v
ApiTypes.v
ApiLayout.v
ApiV1alpha1.v
ApiNetwork.v
ApiConversion.v
SubnetStrategy.v
FieldSelect.v
Registry.v
Informers.v
ApiJson.v
OpenApiSpec.v
OpenApi.v
ApiDocs.v
ApiDocsRuns.v
ApiScheme.v
ApiServer.v
GoRegexp.v
IpLock.v
KosApi.v
KosRest.v
Ipam.v
IpamCorrect.v
IpamCache.v
KosListers.v
IpamHistory.v
IpamRuns.v
IpamMain.v
Addresses.v
AddressSteps.v
AddressRuns.v
Fabric.v
AgentIds.v
Agent.v
ApiUpdates.v
ApiRuns.v
AgentNets.v
AgentIfcs.v
AgentCorrect.v
AgentSettles.v
AgentFabric.v
AgentStart.v
AgentRuns.v
AddressAgents.v
AddressSystem.v
AgentSelect.v
AgentMain.v
Ovs.v
OvsOps.v
OvsParse.v
OvsList.v
OvsCorrect.v
OvsRuns.v
Driver.v
DriverWork.v
DriverRun.v
DriverThread.v
DriverCorrect.v
DriverStart.v
DriverMain.v
DriverAddrs.v
DriverRuns.v
