(* ===== verification/Prelude.v ===== *)
(** * KOS: a verification development

    KOS ("Kubernetes On Subnets", [src/staging/kos]) is an extension of Kubernetes
    that gives each [NetworkAttachment] an IPv4 address of its [Subnet] and a Linux
    network interface on its node.  This library models the parts of KOS that carry
    its logic and proves what makes them correct.

    ** How the parts interact

    The API server stores [Subnet], [NetworkAttachment] and [IPLock] objects; its
    strategy for subnets ([pkg/registry/network/subnet/strategy.go]) rejects bad
    ones.  The IPAM controller ([pkg/controllers/ipam/ipam.go]) watches all three
    through informers, keeps a cache of locked addresses in sorted integer sets
    ([pkg/uint32set]), locks an address for an attachment by creating an [IPLock]
    whose name spells the VNI and the address, and records it in the status of the
    attachment.  A connection agent on each node
    ([pkg/controllers/connectionagent]) then creates, updates and deletes the
    local and remote network interfaces through a network fabric
    ([pkg/networkfabric]).

    ** Files

    - [Prelude]: fixed-width integers, results that may panic ([res]), the state
      monad [M] and its Hoare triple [runs], lemmas on lists and ranges.
    - [GoStr], [GoNet]: what the source uses of Go's strconv, fmt, strings and net
      packages, with round trips.  The language's library, so not in the map.
    - [UInt32Set]: [types.go], the interfaces as classes, and their contracts as
      law classes [SetLaws], [ChooserLaws], [CheckerLaws].
    - [SortedSet], [HashSet]: [sortedset.go] and [hashset.go], each operation by
      name, and instances of the laws.  The skip list that [sortedset.go] wraps is
      vendored: the class [SortedSetLib] with laws [SortedSetLaws], and an instance
      over sorted lists shows that they can hold.
    - [SetAgree]: an abstract set, the refinement by both implementations, and the
      differential test of [uin32set_test.go] for all inputs.
    - [ApiTypes]: the API objects ([pkg/apis/network]), errors of the API
      machinery, [pkg/util/data.go], [pkg/controllers/utils].
    - [GoMemory]: the heap of Go as the source uses it: typed arrays, slices, pointers,
      what an object in memory stands for, and programs that only add to memory.
      [ApiLayout]: the metadata of API objects, a library: the class [MetaV1] with laws.
      [ApiV1alpha1], [ApiNetwork]: the types of the two versions of the API as they lie
      in memory, and the deep copies; [ApiConversion]: the conversions between them
      ([zz_generated.deepcopy.go], [zz_generated.conversion.go]); [ApiScheme]: what the
      scheme of the API server is told ([register.go], [install.go]); [ApiUpdates]: how
      the controllers make the objects that they send; [ApiRuns]: concrete objects.
    - [GoJson]: JSON, the coercion of strings to UTF-8, and codecs made of the tags of fields.  [ApiJson]: the API objects as
      JSON.  [OpenApiSpec], [OpenApi]: what a document admits, and the documents of
      [zz_generated.openapi.go]; [ApiDocs]: they are about the objects of [ApiJson];
      [ApiDocsRuns]: metadata types with the laws, and concrete objects.
    - [SubnetStrategy]: validation of subnets, and the store of subnets under a
      sequence of validated requests.
    - [IpLock]: lock names, parsed locks and lock lists of [ipam.go].
    - [KosApi]: the generated API client as a class [KosClient] over an abstract
      world; [KosLaws] says what it is documented to do while other clients act
      between any two calls; a plain store is an instance.
    - [KosRest]: the typed clients ([pkg/client/clientset/versioned]) over the REST client,
      a library: they are a [KosClient] with the laws; how a set of clients is made.
    - [Ipam]: the IPAM controller: [State] is its struct (attachment data, address
      cache, the calls made on the work queue, the world), one definition per
      method.  The informer caches are arguments ([Listers]).
    - [IpamCorrect], [IpamRuns]: its theorems, for any set and client with the
      laws, and concrete runs.  [IpamCache]: the address cache after any history of lock
      notifications.  [IpamHistory]: all of it at work, from the start, as a
      machine of notifications, work items and steps of other clients in any order.
    - [KosListers]: the listers of the generated client ([pkg/client/listers]) over the
      indexers of the informers, and why [Listers] keeps what [IpamCorrect] assumes.
    - [Addresses]: who holds which address, as an abstract system: the shared state
      of the API server, the steps that the controller's workers and everybody
      else may take, the invariant, and what a worker can rely on.  Its
      [controller_step] is a specification and translates no code; that the code keeps to
      it is shown in [AddressSteps] and [AddressAgents].
    - [AddressSteps]: the refinement: what [Ipam] does to the server is made of steps
      of [Addresses] ([KosShared]: the promises of the server this needs, in terms
      of the shared state; [sees]: in what respects the caches must be up to date).
    - [AddressSystem]: runs of the code of controllers and agents in any order, on one
      server, and what holds of its addresses.
    - [AddressRuns]: a server with these laws; the run with a stale cache.
    - [Fabric]: the network fabric interface as the class [NetFabric] with its
      contract [NetFabricLaws], the registry of fabrics, and the logger fabric, an
      instance ([pkg/networkfabric]).
    - [AgentIds], [Agent]: the connection agent ([connectionagent.go],
      [attachment-testing.go]): names of interfaces; [State] is the struct, one
      definition per method, over any fabric and client.  The informer caches are
      arguments ([AgentEnv]); remote informers are stop channels, commands launches.
    - [AgentNets], [AgentIfcs]: invariants and rules of the two halves of its state,
      virtual networks and interfaces; [AgentCorrect] puts them together: the outcome
      of a work item and the agent as an event machine.
    - [AgentSettles], [AgentFabric], [AgentStart], [AgentRuns]: a pass leaves nothing
      to do; the fabric holds what the agent records; the start; concrete runs.
    - [AddressAgents]: the agent as one of the others of the abstract address system.
    - [FieldSelect]: field selectors of the API machinery as a class with laws, and an
      instance over their text.  [Registry]: the strategies, attributes and field labels
      of the three kinds ([pkg/registry], [v1alpha1/register.go]).  [AgentSelect]: the
      selectors of the agent's informers.
    - [GoRegexp]: the regular expressions of Go that the Open vSwitch fabric uses,
      and how a match is found in the middle of a text.
    - [Ovs]: the Open vSwitch fabric ([pkg/networkfabric/ovs/ovs.go]), one definition
      per method, over a class [OvsTool] that answers the commands.  [OvsOps]: its
      operations and the pairs they lock; [OvsParse], [OvsList], [OvsCorrect]: what it
      reads in the texts that the commands print, up to whole listings; [OvsRuns]:
      runs on a simulated tool.
    - [Driver]: the attachment throughput driver ([cmd/attachment-tput-driver/main.go]),
      its package variables and one definition per function; the loop of a thread takes
      a list of rounds, each with what other threads and notifications do around it.
      [DriverMain]: [main] up to the threads: flags, exit codes, jobs, informers;
      [DriverWork]: the division of the work; [DriverRun]: steps that keep the shared
      data and the indices of a thread's slots; [DriverThread], [DriverCorrect]: a round,
      the loop, the names; [DriverStart]: the networks; [DriverAddrs]: the owners of
      addresses, notifications of other namespaces; [DriverRuns]: two threads at work.
    - [Informers]: the factories of shared informers (generated, but they decide what
      runs) and the calls of a process on the informer library; [wired] and [waits_for]
      say how it must be called.  [IpamMain], [AgentMain], [ApiServer]: the processes of
      the IPAM controller, of the agent ([cmd/controllers]) and of the API server
      ([cmd/network-apiserver], [pkg/cmd/server], [pkg/apiserver], [etcd.go]), over an
      environment that answers for files, clients and the generic server.

    ** What is shown

    - Sets: each operation of the sorted set keeps the runs disjoint and separated,
      does what the abstract set does and never panics, its self-checks included;
      each free number can be chosen; the two sets agree on every call sequence.
    - Subnets: validation accepts exactly the acceptable subnets, and one request
      at a time keeps the subnets of a VNI disjoint and in one namespace.
    - API objects: a deep copy is a new object of the same value in memory of its own,
      so the controllers leave the caches of the informers as they are; conversions
      are inverse and share the memory; every kind of v1alpha1 is known internally; what
      is written as JSON is read back, output that is not UTF-8 and fractions of seconds
      apart, and is as the published documents say, nil lists and zero times apart.
    - IPAM: lock names are injective; the choice between locks is deterministic;
      the cache follows the notifications about locks, and so the locks, if no address has
      two; a status only names an address that a lock of
      the attachment supports (or one whose lock the server had refused for good, as the last
      thing before the status was written); exactly the superfluous locks are deleted.  Along every
      history of notifications and work items only a tombstone of a subnet or a lock
      makes it panic, each event queues exactly the attachments it concerns, and
      the address of every lock last seen existing stays in the cache.
    - Addresses: after any sequence of runs of controllers and agents no two attachments
      have one address of one VNI; the reason is that processing an attachment refines the
      abstract system while others interfere, if the caches are up to date for the attachment, its name is
      not used in another namespace and no lock is refused for good.  The first and
      the last two conditions are needed: three runs show what happens without.  The
      agents refine it with caches of any age.  The others of the system give an
      address to no attachment: the API server does not enforce this on users (its
      strategy for attachments takes the status of a new one as it comes).
    - Connection agent: it never panics, from any proper node ([node_ok]) and in any order of
      events ([event_ok]); it watches exactly the virtual networks of its local attachments; a work item
      gives an attachment its interface or takes it away, and a second pass finds
      nothing to do; an attachment about which the caches disagree counts as deleted; the
      fabric holds the recorded interfaces, those of their owners, after the start, and
      after each pass that succeeds; reports of commands reach the status; the API
      server gives its caches exactly the attachments they are meant for.
    - Open vSwitch fabric: whatever the commands answer, it has at most one interface
      of a VNI and address, creating one locks its address or, on an error, runs the
      deletion of the device last; local interfaces, and
      remote ones with distinct cookies, are read back from the flows, in any order,
      with any statistics and among any others.
    - Throughput driver: the threads share out all slots; each ends, within two rounds
      per attachment, with its attachments made and deleted in the order of its slots, among
      polite threads and notifications; no name is used twice; the owners of addresses.
    - Clients: the listers over caches of validated objects and the typed clients over a server as
      documented keep what the theorems on the controllers assume of caches and clients.
    - Processes: when each exits, and with which code; each informer gets its handlers
      and indices before it runs, and runs once, from factories that are started too;
      workers wait for the caches; the threads of the driver get proper jobs.

    Findings, each with its theorem or lemma: a stale cache makes the controller delete
    the lock of a published address, which is then given twice; an IPv6 subnet panics
    the validation; the lock index ignores namespaces, so deleting an attachment releases the locks of its
    namesakes; a refused lock leaves an unlocked address in a status; tombstones
    panic two handlers; the comment at the choice of a lock says newest where the
    code takes the oldest;
    an attachment that both caches of the agent hold is processed as deleted, against
    the comment; addresses that differ in some bits of the first byte share a MAC
    address; a late deletion takes the interface of a reused address if the fabric
    accepted that one; an attachment that moved keeps a record without interface at the
    start; a device stays, with its address unlocked, when its clean up fails; the cookies of remote interfaces of one VNI collide, so that
    a restart lists them as one; deleting a device that is not there is an error,
    against the interface; an attachment of another namespace or a tombstone can end the driver, an
    early notification makes it count an owner too many, and a thread without slots
    or a run without threads divides by zero; a malformed host address is published
    as no address; a report whose output is not UTF-8 comes back different and is sent
    again each time; a zero time in a report and nil items of a list are written against the document, and one
    document refers to nothing; the API server validates subnets before its cache has synced.

    ** Bounds and fuel

    A loop whose end depends on data takes fuel and panics when it runs out; the
    theorems say [runs], which excludes a panic.  Walks over a set get the number
    of its elements or its width, always enough; a thread of the driver takes at most
    two rounds per attachment; the agent's search for the API service takes as many
    tries as the environment makes it (any more fuel gives the same).  The lock creation loop repeats
    only while the server says a lock exists and then that it does not:
    [server_settles fuel] states that this ends, and holds with fuel 1 when no
    other client deletes locks.

    ** Not modelled

    Logging, metrics and locking of mutexes (a worker's access to
    an attachment's data is exclusive by the work queue's contract; each operation
    on the address cache is atomic under its mutex); other generated
    code; the pace of the throughput driver's operations, its
    floating-point sizes and its files; fakes and the clients of the internal version (generated);
    what informers do, the generic API server and what Open vSwitch does with the
    commands are libraries. *)

From stdpp Require Export base tactics numbers list strings gmap fin_maps sets sorting.
From Stdlib Require Export ZArith Lia Ascii.
From Stdlib Require String.

#[global] Open Scope Z_scope.

(** ** Machine integers

    A Go [uint32], [uint16] or [uint8] is a [Z]; each arithmetic operation of
    the source that can wrap is written with the matching truncation. *)

Abbreviation W32 := 4294967296.

Definition u32 (z : Z) : Z := z mod W32.
Definition u16 (z : Z) : Z := z mod 65536.
Definition u8 (z : Z) : Z := z mod 256.
Definition u64 (z : Z) : Z := z mod 18446744073709551616.

Definition is_u32 (z : Z) : Prop := 0 ≤ z < W32.
Definition is_u8 (z : Z) : Prop := 0 ≤ z < 256.

Declare Scope kos_scope.
Delimit Scope kos_scope with kos.
#[global] Open Scope kos_scope.
Notation "a +₃₂ b" := (u32 (a + b)) (at level 50, left associativity) : kos_scope.
Notation "a -₃₂ b" := (u32 (a - b)) (at level 50, left associativity) : kos_scope.

#[global] Instance is_u32_dec z : Decision (is_u32 z).
Proof. unfold is_u32. apply _. Defined.
#[global] Instance is_u8_dec z : Decision (is_u8 z).
Proof. unfold is_u8. apply _. Defined.

(** Linear arithmetic with the wrap-around operations unfolded. *)
Ltac u32_lia :=
  unfold is_u32, is_u8, u32, u16, u8 in *; Z.div_mod_to_equations; lia.

Lemma u32_small z : is_u32 z → u32 z = z.
Proof. unfold is_u32, u32. apply Z.mod_small. Qed.

Lemma u64_small z : 0 ≤ z < 2 ^ 64 → u64 z = z.
Proof. intros Hz. by apply Z.mod_small. Qed.

Lemma u32_range z : is_u32 (u32 z).
Proof. unfold is_u32, u32. apply Z.mod_pos_bound. lia. Qed.

Lemma u8_small z : is_u8 z → u8 z = z.
Proof. unfold is_u8, u8. apply Z.mod_small. Qed.

Lemma u8_range z : is_u8 (u8 z).
Proof. unfold is_u8, u8. apply Z.mod_pos_bound. lia. Qed.

Create HintDb kos.
Create Rewrite HintDb kos.
#[export] Hint Resolve u32_range u8_range : kos.
#[export] Hint Rewrite u32_small u8_small using (assumption || u32_lia) : kos.

(** ** Panics and errors

    A Go function that can panic (index out of range, failed type assertion,
    explicit [panic]) returns a [res]; a Go [(T, error)] pair whose value is
    meaningless when the error is set is a sum [string + T] ([inl] is the
    error). *)

Inductive res (A : Type) : Type :=
| Ok (a : A)
| Panic (msg : string).
Arguments Ok {A} a.
Arguments Panic {A} msg.

#[export] Instance res_ret : MRet res := @Ok.
#[export] Instance res_bind : MBind res := λ A B f m,
  match m with Ok a => f a | Panic e => Panic e end.

(** Stateful code: a state [S] threaded through, with panics. *)
Definition M (S A : Type) : Type := S → res (A * S).

#[export] Instance M_ret {S} : MRet (M S) := λ A a s, Ok (a, s).
#[export] Instance M_bind {S} : MBind (M S) := λ A B f m s,
  match m s with Ok (a, s') => f a s' | Panic e => Panic e end.

Definition get {S} : M S S := λ s, Ok (s, s).
Definition put {S} (s : S) : M S unit := λ _, Ok (tt, s).
Definition gets {S A} (f : S → A) : M S A := λ s, Ok (f s, s).
Definition modify {S} (f : S → S) : M S unit := λ s, Ok (tt, f s).
Definition panic {S A} (msg : string) : M S A := λ _, Panic msg.

(** Total correctness of a stateful computation: it does not panic and its
    result and final state satisfy [Q]. *)
Definition runs {S A} (m : M S A) (s : S) (Q : A → S → Prop) : Prop :=
  match m s with Ok (a, s') => Q a s' | Panic _ => False end.

Section Runs.
Context {S : Type}.

Lemma runs_ret {A} (a : A) (s : S) (Q : A → S → Prop) :
  Q a s → runs (mret a) s Q.
Proof. done. Qed.

Lemma runs_bind {A B} (m : M S A) (f : A → M S B) s (Q : B → S → Prop) :
  runs m s (λ a s', runs (f a) s' Q) → runs (m ≫= f) s Q.
Proof. unfold runs, mbind, M_bind. by destruct (m s) as [[??]|]. Qed.

Lemma runs_conseq {A} (m : M S A) s (Q Q' : A → S → Prop) :
  runs m s Q → (∀ a s', Q a s' → Q' a s') → runs m s Q'.
Proof. unfold runs. destruct (m s) as [[??]|]; naive_solver. Qed.

Lemma runs_and {A} (m : M S A) s (Q Q' : A → S → Prop) :
  runs m s Q → runs m s Q' → runs m s (λ a s', Q a s' ∧ Q' a s').
Proof. unfold runs. destruct (m s) as [[??]|]; done. Qed.

Lemma runs_assoc {A B C} (m : M S A) (f : A → M S B) (g : B → M S C) s Q :
  runs ((m ≫= f) ≫= g) s Q → runs (m ≫= λ a, f a ≫= g) s Q.
Proof. unfold runs, mbind, M_bind. by destruct (m s) as [[??]|]. Qed.

Lemma runs_get s (Q : S → S → Prop) : Q s s → runs get s Q.
Proof. done. Qed.
Lemma runs_put s s' (Q : unit → S → Prop) : Q tt s' → runs (put s') s Q.
Proof. done. Qed.
Lemma runs_gets {A} (f : S → A) s (Q : A → S → Prop) :
  Q (f s) s → runs (gets f) s Q.
Proof. done. Qed.
Lemma runs_modify f s (Q : unit → S → Prop) : Q tt (f s) → runs (modify f) s Q.
Proof. done. Qed.

Lemma runs_eq {A} (m : M S A) s a s' (Q : A → S → Prop) :
  m s = Ok (a, s') → Q a s' → runs m s Q.
Proof. unfold runs. by intros ->. Qed.

Lemma runs_inv {A} (m : M S A) s (Q : A → S → Prop) :
  runs m s Q → ∃ a s', m s = Ok (a, s') ∧ Q a s'.
Proof. unfold runs. destruct (m s) as [[a s']|]; naive_solver. Qed.
End Runs.

#[export] Hint Resolve runs_ret runs_get runs_put runs_gets runs_modify : kos.

(** [ends m s Q]: when the computation does not panic, [Q] holds in the end. *)
Definition ends {S A} (m : M S A) (s : S) (Q : A → S → Prop) : Prop :=
  match m s with Ok (a, s') => Q a s' | Panic _ => True end.

Section Ends.
Context {S : Type}.

Lemma ends_ret {A} (a : A) (s : S) (Q : A → S → Prop) : Q a s → ends (mret a) s Q.
Proof. done. Qed.

Lemma ends_bind {A B} (m : M S A) (f : A → M S B) s (Q : B → S → Prop) :
  ends m s (λ a s', ends (f a) s' Q) → ends (m ≫= f) s Q.
Proof. unfold ends, mbind, M_bind. by destruct (m s) as [[??]|]. Qed.

Lemma ends_conseq {A} (m : M S A) s (Q Q' : A → S → Prop) :
  ends m s Q → (∀ a s', Q a s' → Q' a s') → ends m s Q'.
Proof. unfold ends. destruct (m s) as [[??]|]; naive_solver. Qed.

(** What holds of the computations that end holds of one that is known to end. *)
Lemma runs_ends {A} (m : M S A) s (P Q : A → S → Prop) : runs m s P → ends m s Q → runs m s Q.
Proof. unfold runs, ends. by destruct (m s) as [[??]|]. Qed.
End Ends.

(** Step through a monadic computation. *)
Ltac mstep :=
  lazymatch goal with
  | |- runs (_ ≫= _) _ _ => apply runs_bind
  | |- runs (mret _) _ _ => apply runs_ret
  | |- runs get _ _ => apply runs_get
  | |- runs (put _) _ _ => apply runs_put
  | |- runs (gets _) _ _ => apply runs_gets
  | |- runs (modify _) _ _ => apply runs_modify
  end; simpl.

(** ** Lists *)

Section Lists.
Context {A : Type}.
Implicit Types l : list A.

Lemma lookup_app_length l k x : (l ++ x :: k) !! length l = Some x.
Proof. by rewrite lookup_app_r, Nat.sub_diag by lia. Qed.

Lemma find_app_none (P : A → bool) l k :
  Forall (λ x, P x = false) l → List.find P (l ++ k) = List.find P k.
Proof. induction 1 as [|x l Hx _ IH]; [done|]. simpl. by rewrite Hx. Qed.

Lemma list_filter_all (P : A → Prop) `{∀ x, Decision (P x)} l :
  Forall P l → filter P l = l.
Proof.
  induction 1 as [|x l Hx _ IH]; [done|].
  rewrite filter_cons_True by done. by f_equal.
Qed.

Lemma list_filter_none (P : A → Prop) `{∀ x, Decision (P x)} l :
  Forall (λ x, ¬ P x) l → filter P l = [].
Proof. induction 1 as [|x l Hx _ IH]; [done|]. by rewrite filter_cons_False. Qed.

(** A list split at its last element. *)
Lemma list_last_case l : l = [] ∨ ∃ k x, l = k ++ [x].
Proof. induction l as [|x l _] using rev_ind; naive_solver. Qed.
End Lists.

(** A property of all bytes, by cases. *)
Lemma byte_cases (P : Z → Prop) : Forall P (seqZ 0 256) → ∀ b, is_u8 b → P b.
Proof. intros H b Hb. rewrite Forall_forall in H. apply H, elem_of_seqZ. unfold is_u8 in Hb. lia. Qed.

(** The ascending list of the integers of [lo, hi]. *)
Definition zrange (lo hi : Z) : list Z := seqZ lo (hi - lo + 1).

Lemma elem_of_zrange lo hi x : x ∈ zrange lo hi ↔ lo ≤ x ≤ hi.
Proof. unfold zrange. rewrite elem_of_seqZ. lia. Qed.

Lemma zrange_cons lo hi : lo ≤ hi → zrange lo hi = lo :: zrange (lo + 1) hi.
Proof. intros. unfold zrange. rewrite seqZ_cons by lia. do 2 f_equal; lia. Qed.

Lemma zrange_snoc lo hi : lo ≤ hi → zrange lo hi = zrange lo (hi - 1) ++ [hi].
Proof.
  intros. unfold zrange. replace (hi - lo + 1) with (hi - 1 - lo + 1 + 1) by lia.
  rewrite seqZ_app by lia. f_equal. rewrite seqZ_cons, seqZ_nil by lia. f_equal; lia.
Qed.

Lemma zrange_single x : zrange x x = [x].
Proof. rewrite zrange_cons by lia. unfold zrange. by rewrite seqZ_nil by lia. Qed.

Lemma zrange_nil lo hi : hi < lo → zrange lo hi = [].
Proof. intros. unfold zrange. by rewrite seqZ_nil by lia. Qed.

(** Induction on the upper end of a range. *)
Lemma zrange_ind (P : Z → Prop) lo hi :
  P (lo - 1) → (∀ k, lo ≤ k ≤ hi → P (k - 1) → P k) → lo - 1 ≤ hi → P hi.
Proof.
  intros H0 HS Hle. replace hi with (lo - 1 + Z.of_nat (Z.to_nat (hi - lo + 1))) by lia.
  assert (Hn : (Z.to_nat (hi - lo + 1) <= Z.to_nat (hi - lo + 1))%nat) by lia.
  revert Hn. generalize (Z.to_nat (hi - lo + 1)) at 1 3. intros n.
  induction n as [|n IH]; intros Hn; [by replace (lo - 1 + Z.of_nat 0) with (lo - 1) by lia|].
  apply HS; [lia|]. replace (lo - 1 + Z.of_nat (S n) - 1) with (lo - 1 + Z.of_nat n) by lia.
  apply IH. lia.
Qed.

Lemma zrange_sorted lo hi : StronglySorted Z.lt (zrange lo hi).
Proof.
  destruct (decide (lo - 1 ≤ hi)) as [Hle|]; [|rewrite zrange_nil by lia; constructor].
  apply (zrange_ind (λ h, StronglySorted Z.lt (zrange lo h)) lo hi); [| |done].
  - rewrite zrange_nil by lia. constructor.
  - intros k Hk IH. rewrite zrange_snoc by lia. apply StronglySorted_app. split_and!.
    + intros x y Hx%elem_of_zrange ->%list_elem_of_singleton. lia.
    + done.
    + repeat constructor.
Qed.

Lemma StronglySorted_filter {A} (R : relation A) (P : A → Prop) `{∀ x, Decision (P x)} l :
  StronglySorted R l → StronglySorted R (filter P l).
Proof.
  induction 1 as [|x l Hl IH Hx]; [constructor|]. rewrite filter_cons.
  destruct (decide (P x)); [|done]. constructor; [done|].
  rewrite Forall_forall in Hx |- *. intros y [_ Hy]%list_elem_of_filter. by apply Hx.
Qed.

(** Strictly ascending lists with the same elements are equal. *)
Lemma sorted_lt_unique (l1 l2 : list Z) :
  StronglySorted Z.lt l1 → StronglySorted Z.lt l2 → (∀ x, x ∈ l1 ↔ x ∈ l2) → l1 = l2.
Proof.
  assert (Hnd : ∀ l, StronglySorted Z.lt l → NoDup l).
  { induction 1 as [|x l _ IH Hx]; [constructor|]. constructor; [|done].
    intros Hin. rewrite Forall_forall in Hx. specialize (Hx _ Hin). lia. }
  assert (AntiSymm (=) Z.lt) by (intros x y ??; lia).
  intros H1 H2 Heq. apply (StronglySorted_unique Z.lt); [done|done|].
  apply NoDup_Permutation; auto.
Qed.
