(* ===== verification/GoStr.v ===== *)
(** * Strings and number formatting of the Go standard library

    Executable counterparts of the parts of [strconv], [strings] and [fmt]
    that the modelled sources use: [strconv.ParseUint], [strconv.FormatUint],
    the [%d], [%x] and [%08x] verbs, [strings.Split], [Join], [Contains],
    [ToLower], [Replace], with the round trips the components rely on. *)

From S2P Require Import Prelude.

(** ** Characters *)

(** A newline. *)
Definition nl : string := String.String "010" EmptyString.

Definition digit_char (d : Z) : ascii :=
  if d <? 10 then ascii_of_N (48 + Z.to_N d) else ascii_of_N (87 + Z.to_N d).

(** Value of a digit character as [strconv.ParseUint] reads it. *)
Definition digit_val (c : ascii) : option Z :=
  let n := Z.of_N (N_of_ascii c) in
  if (48 <=? n) && (n <=? 57) then Some (n - 48)
  else if (97 <=? n) && (n <=? 122) then Some (n - 87)
  else if (65 <=? n) && (n <=? 90) then Some (n - 55)
  else None.

Lemma digit_val_char d : 0 ≤ d < 36 → digit_val (digit_char d) = Some d.
Proof.
  intros Hd. destruct (decide (d < 36)) as [_|]; [|lia].
  rewrite <- (Z2Nat.id d) by lia. assert (Hn : (Z.to_nat d < 36)%nat) by lia.
  revert Hn. generalize (Z.to_nat d). intros n Hn.
  do 36 (destruct n as [|n]; [reflexivity|]). lia.
Qed.

(** All characters of a string satisfy a test. *)
Fixpoint str_forall (P : ascii → bool) (s : string) : bool :=
  match s with
  | EmptyString => true
  | String c s => P c && str_forall P s
  end.

Lemma str_forall_app P s1 s2 :
  str_forall P (s1 +:+ s2) = str_forall P s1 && str_forall P s2.
Proof. induction s1 as [|c s1 IH]; [done|]. simpl. by rewrite IH, andb_assoc. Qed.

Lemma str_app_assoc (s1 s2 s3 : string) : (s1 +:+ s2) +:+ s3 = s1 +:+ (s2 +:+ s3).
Proof. induction s1 as [|c s1 IH]; [done|]. apply (f_equal (String c) IH). Qed.

Lemma str_app_nil_r (s : string) : s +:+ "" = s.
Proof. induction s as [|c s IH]; [done|]. apply (f_equal (String c) IH). Qed.

Lemma str_forall_impl (P Q : ascii → bool) s :
  (∀ c, P c = true → Q c = true) → str_forall P s = true → str_forall Q s = true.
Proof.
  intros HPQ. induction s as [|c s IH]; [done|]. simpl.
  intros [??]%andb_true_iff. apply andb_true_iff. auto.
Qed.

Definition is_dec_digit (c : ascii) : bool :=
  let n := Z.of_N (N_of_ascii c) in (48 <=? n) && (n <=? 57).

Definition char_is (c d : ascii) : bool := bool_decide (c = d).

(** ** Printing unsigned integers *)

Fixpoint fmt_go (fuel : nat) (base n : Z) (acc : string) : string :=
  match fuel with
  | O => acc
  | S fuel =>
      if n <? base then String (digit_char n) acc
      else fmt_go fuel base (n / base) (String (digit_char (n mod base)) acc)
  end.

(** [strconv.FormatUint(n, base)]; 64 digits are enough for any [uint64] in
    any base, as [parse_fmt_uint] shows. *)
Definition FormatUint (n base : Z) : string := fmt_go 64 base n EmptyString.

Definition fmt_d (n : Z) : string := FormatUint n 10.
Definition fmt_x (n : Z) : string := FormatUint n 16.

Fixpoint repeat_char (k : nat) (c : ascii) (s : string) : string :=
  match k with O => s | S k => String c (repeat_char k c s) end.

(** Left padding with zeros, as the [0] flag of [fmt] does. *)
Definition pad0 (width : nat) (s : string) : string :=
  repeat_char (width - String.length s) "0"%char s.

(** The [%08x] and [%06x] verbs. *)
Definition fmt_08x (n : Z) : string := pad0 8 (fmt_x n).
Definition fmt_06x (n : Z) : string := pad0 6 (fmt_x n).

(** ** Parsing unsigned integers *)

Inductive parse_result : Type :=
| PVal (n : Z)
| PSyntax
| PRange (limit : Z).

Definition parse_digit (base : Z) (c : ascii) : option Z :=
  d ← digit_val c; if d <? base then Some d else None.

Fixpoint parse_go (base limit n : Z) (s : string) : parse_result :=
  match s with
  | EmptyString => PVal n
  | String c s =>
      match parse_digit base c with
      | None => PSyntax
      | Some d =>
          let n' := n * base + d in
          if limit <? n' then PRange limit else parse_go base limit n' s
      end
  end.

(** [strconv.ParseUint(s, base, bitSize)] for a base of at least 2. *)
Definition ParseUint (s : string) (base bitSize : Z) : parse_result :=
  match s with
  | EmptyString => PSyntax
  | _ => parse_go base (2 ^ bitSize - 1) 0 s
  end.

(** The value [strconv.ParseUint] returns when its error is ignored. *)
Definition parsed_value (r : parse_result) : Z :=
  match r with PVal n => n | PSyntax => 0 | PRange limit => limit end.

Section RoundTrip.
Variables (base limit : Z).
Hypothesis Hbase : 2 ≤ base ≤ 36.

Lemma parse_digit_char d : 0 ≤ d < base → parse_digit base (digit_char d) = Some d.
Proof.
  intros Hd. unfold parse_digit. rewrite digit_val_char by lia. simpl.
  destruct (Z.ltb_spec d base); [done|lia].
Qed.

Lemma parse_go_digit n d s :
  0 ≤ d < base → n * base + d ≤ limit →
  parse_go base limit n (String (digit_char d) s) = parse_go base limit (n * base + d) s.
Proof.
  intros Hd Hn. simpl. rewrite parse_digit_char by done.
  destruct (Z.ltb_spec limit (n * base + d)); [lia|done].
Qed.

Lemma parse_fmt_go fuel n acc :
  0 ≤ n < base ^ Z.of_nat fuel → n ≤ limit →
  parse_go base limit 0 (fmt_go fuel base n acc) = parse_go base limit n acc.
Proof.
  revert n acc. induction fuel as [|fuel IH]; intros n acc Hn Hl.
  { change (base ^ Z.of_nat 0) with 1 in Hn. by replace n with 0 by lia. }
  cbn [fmt_go]. destruct (Z.ltb_spec n base) as [Hlt|Hge].
  { rewrite parse_go_digit by lia. f_equal; lia. }
  assert (Hq := Z.div_mod n base ltac:(lia)).
  assert (Hr := Z.mod_pos_bound n base ltac:(lia)).
  rewrite IH.
  - rewrite parse_go_digit by nia. f_equal; nia.
  - split; [apply Z.div_pos; lia|]. apply Z.div_lt_upper_bound; [lia|].
    rewrite <- Z.pow_succ_r, <- Nat2Z.inj_succ by lia. apply Hn.
  - nia.
Qed.

Lemma fmt_go_nonempty fuel n acc :
  fuel ≠ O → 0 ≤ n → fmt_go fuel base n acc ≠ EmptyString.
Proof.
  intros Hf _. destruct fuel as [|fuel]; [done|]. clear Hf. revert n acc.
  induction fuel as [|fuel IH]; intros n acc; simpl.
  - by case_match.
  - case_match; [done|]. apply IH.
Qed.

Lemma fmt_go_forall (P : ascii → bool) fuel n acc :
  (∀ d, 0 ≤ d < base → P (digit_char d) = true) → 0 ≤ n →
  str_forall P acc = true → str_forall P (fmt_go fuel base n acc) = true.
Proof.
  intros HP. revert n acc. induction fuel as [|fuel IH]; intros n acc Hn Hacc; [done|].
  simpl. destruct (Z.ltb_spec n base).
  - simpl. rewrite HP, Hacc by lia. done.
  - apply IH; [apply Z.div_pos; lia|]. simpl. rewrite HP, Hacc; [done|].
    apply Z.mod_pos_bound. lia.
Qed.
End RoundTrip.

Lemma pow64_bound base n : 2 ≤ base → 0 ≤ n < 2 ^ 64 → n < base ^ Z.of_nat 64.
Proof.
  intros Hb Hn. eapply Z.lt_le_trans; [apply Hn|]. apply Z.pow_le_mono_l. lia.
Qed.

Lemma ParseUint_FormatUint base bits n :
  2 ≤ base ≤ 36 → 0 ≤ bits ≤ 64 → 0 ≤ n < 2 ^ bits →
  ParseUint (FormatUint n base) base bits = PVal n.
Proof.
  intros Hb Hbits Hn. unfold ParseUint.
  pose proof (fmt_go_nonempty base 64 n EmptyString ltac:(done) ltac:(lia)) as Hne.
  fold (FormatUint n base) in Hne. destruct (FormatUint n base) eqn:E; [done|].
  rewrite <- E. unfold FormatUint. rewrite parse_fmt_go; [done|done| |lia].
  split; [lia|]. apply pow64_bound; [lia|]. split; [lia|].
  eapply Z.lt_le_trans; [apply Hn|]. apply Z.pow_le_mono_r; lia.
Qed.

Lemma FormatUint_inj base n m :
  2 ≤ base ≤ 36 → 0 ≤ n < 2 ^ 64 → 0 ≤ m < 2 ^ 64 →
  FormatUint n base = FormatUint m base → n = m.
Proof.
  intros Hb Hn Hm E. assert (PVal n = PVal m) as [=]; [|done].
  rewrite <- (ParseUint_FormatUint base 64 n), <- (ParseUint_FormatUint base 64 m) by lia.
  by rewrite E.
Qed.

(** A test on the digits of a base holds of every number. *)
Lemma FormatUint_forall (P : ascii → bool) base n :
  2 ≤ base ≤ 36 → 0 ≤ n → Forall (λ d, P (digit_char d) = true) (seqZ 0 base) → str_forall P (FormatUint n base) = true.
Proof.
  intros Hb Hn HP. apply fmt_go_forall; [done| |done|done]. intros d Hd. rewrite Forall_forall in HP.
  apply HP, elem_of_seqZ. lia.
Qed.

Lemma fmt_d_digits n : 0 ≤ n → str_forall is_dec_digit (fmt_d n) = true.
Proof. intros Hn. apply FormatUint_forall; [lia|done|]. by repeat constructor. Qed.

Lemma fmt_d_nonempty n : 0 ≤ n → fmt_d n ≠ EmptyString.
Proof. intros. by apply fmt_go_nonempty. Qed.

Lemma parse_pad base limit k s :
  2 ≤ base → 0 ≤ limit →
  parse_go base limit 0 (repeat_char k "0" s) = parse_go base limit 0 s.
Proof.
  intros Hb Hl. induction k as [|k IH]; [done|]. cbn [repeat_char parse_go].
  assert (parse_digit base "0" = Some 0) as ->.
  { unfold parse_digit. change (digit_val "0") with (Some 0). simpl.
    by rewrite (proj2 (Z.ltb_lt 0 base)) by lia. }
  replace (0 * base + 0) with 0 by lia. destruct (Z.ltb_spec limit 0); [lia|done].
Qed.

Lemma fmt_08x_inj n m : is_u32 n → is_u32 m → fmt_08x n = fmt_08x m → n = m.
Proof.
  unfold is_u32. intros Hn Hm E.
  assert (H : ∀ k, 0 ≤ k < W32 → parse_go 16 W32 0 (fmt_08x k) = PVal k).
  { intros k Hk. unfold fmt_08x, pad0. rewrite parse_pad by lia.
    unfold fmt_x, FormatUint. rewrite parse_fmt_go; [done|lia| |lia].
    split; [lia|]. apply pow64_bound; lia. }
  assert (PVal n = PVal m) as [=]; [|done].
  rewrite <- (H n), <- (H m) by done. by rewrite E.
Qed.

(** ** Splitting and joining *)

(** [strings.Split] with a one-character separator. *)
Fixpoint split_on (sep : ascii) (s : string) : list string :=
  match s with
  | EmptyString => [EmptyString]
  | String c s =>
      if char_is c sep then EmptyString :: split_on sep s
      else match split_on sep s with
           | w :: ws => String c w :: ws
           | [] => [String c EmptyString]
           end
  end.

(** [strings.Join]. *)
Fixpoint str_join (sep : string) (l : list string) : string :=
  match l with
  | [] => EmptyString
  | [w] => w
  | w :: ws => w +:+ sep +:+ str_join sep ws
  end.

Definition lacks (sep : ascii) (s : string) : bool :=
  str_forall (λ c, negb (char_is c sep)) s.

Lemma split_on_lacks sep s : lacks sep s = true → split_on sep s = [s].
Proof.
  induction s as [|c s IH]; [done|]. simpl. intros [Hc Hs]%andb_true_iff.
  rewrite IH by done. by destruct (char_is c sep).
Qed.

(** A string is split in one way at the first character of a kind. *)
Lemma split_at c a b a' b' :
  lacks c a = true → lacks c a' = true → a +:+ String c b = a' +:+ String c b' → a = a' ∧ b = b'.
Proof.
  revert a'. induction a as [|x a IH]; intros [|y a'] Ha Ha' E.
  - by injection E.
  - injection E as <- _. unfold lacks, char_is in Ha'. cbn in Ha'. by rewrite bool_decide_eq_true_2 in Ha'.
  - injection E as -> _. unfold lacks, char_is in Ha. cbn in Ha. by rewrite bool_decide_eq_true_2 in Ha.
  - injection E as -> E. unfold lacks in *. cbn [str_forall] in *.
    apply andb_true_iff in Ha as [_ Ha], Ha' as [_ Ha']. destruct (IH a' Ha Ha' E) as [-> ->]. done.
Qed.

Lemma split_on_app sep s t :
  lacks sep s = true → split_on sep (s +:+ String sep t) = s :: split_on sep t.
Proof.
  induction s as [|c s IH]; simpl.
  - intros _. unfold char_is. by rewrite bool_decide_eq_true_2.
  - intros [Hc Hs]%andb_true_iff. rewrite IH by done. by destruct (char_is c sep).
Qed.

Lemma split_on_join sep l :
  l ≠ [] → Forall (λ w, lacks sep w = true) l →
  split_on sep (str_join (String sep EmptyString) l) = l.
Proof.
  intros Hne Hl. induction Hl as [|w l Hw Hl IH]; [done|]. simpl.
  destruct l as [|w' l]; [by apply split_on_lacks|].
  change (String sep EmptyString +:+ ?x) with (String sep x).
  rewrite split_on_app by done. f_equal. by apply IH.
Qed.

Lemma fmt_d_lacks sep n : 0 ≤ n → is_dec_digit sep = false → lacks sep (fmt_d n) = true.
Proof.
  intros Hn Hsep. eapply str_forall_impl; [|by apply fmt_d_digits].
  intros c Hc. unfold char_is. rewrite bool_decide_eq_false_2; [done|]. congruence.
Qed.

(** ** Searching and replacing *)

Fixpoint has_prefix (p s : string) : bool :=
  match p, s with
  | EmptyString, _ => true
  | String a p, String b s => char_is a b && has_prefix p s
  | _, _ => false
  end.

(** [strings.Contains]. *)
Fixpoint str_contains (s sub : string) : bool :=
  has_prefix sub s ||
  match s with EmptyString => false | String _ s => str_contains s sub end.

Fixpoint str_drop (n : nat) (s : string) : string :=
  match n, s with
  | O, _ => s
  | S n, String _ s => str_drop n s
  | S _, EmptyString => EmptyString
  end.

Definition lower_char (c : ascii) : ascii :=
  let n := N_of_ascii c in
  if ((65 <=? n)%N && (n <=? 90)%N) then ascii_of_N (n + 32) else c.

(** [strings.ToLower] on ASCII text. *)
Fixpoint ToLower (s : string) : string :=
  match s with
  | EmptyString => EmptyString
  | String c s => String (lower_char c) (ToLower s)
  end.

Fixpoint replace_go (fuel : nat) (old new s : string) : string :=
  match fuel, s with
  | S fuel, String c s' =>
      if has_prefix old s then new +:+ replace_go fuel old new (str_drop (String.length old) s)
      else String c (replace_go fuel old new s')
  | _, _ => s
  end.

(** [strings.Replace(s, old, new, -1)] for a non-empty [old]. *)
Definition Replace (s old new : string) : string :=
  replace_go (String.length s) old new s.
