(* ===== verification/UInt32Set.v ===== *)
(** * Sets of uint32: the interfaces of [pkg/uint32set/types.go]

    The Go interfaces [UInt32Set], [UInt32SetChooser] and [UInt32SetChecker]
    are operation classes; what their doc comments promise is stated by the law
    classes [SetLaws], [ChooserLaws] and [CheckerLaws], against a membership
    predicate.  The implementations are in [HashSet] and [SortedSet]; the IPAM
    controller is verified against the classes of this file. *)

From S2P Require Import Prelude.

(** The values one call of [AddOneInRange] draws from [math/rand]. *)
Record rng := Rng { Intn : Z → Z; Int63n : Z → Z }.

(** Documented behaviour of [rand.Intn] and [rand.Int63n]. *)
Definition rng_ok (r : rng) : Prop :=
  ∀ n, 0 < n → 0 ≤ Intn r n < n ∧ 0 ≤ Int63n r n < n.

(** ** Operations *)

Class UInt32Set (S : Type) := {
  set_IsEmpty : M S bool;
  set_Has : Z → M S bool;
  set_Add : Z → M S bool;
  set_Remove : Z → M S bool;
  set_Export : M S (list Z);
  set_RExport : M S (list Z);
  set_String : M S string
}.

Class UInt32SetChooser (S : Type) :=
  set_AddOneInRange : rng → Z → Z → M S (Z * bool).

Class UInt32SetChecker (S : Type) :=
  set_CouldAddInRange : Z → Z → Z → bool → M S bool.

(** ** Runs

    [RExport] returns a set as a flat list first, last, first, last, ... *)

(** Runs that start at or above [lo], ascending, separated by gaps. *)
Fixpoint runs_from (lo : Z) (rs : list (Z * Z)) : Prop :=
  match rs with
  | [] => True
  | (f, l) :: rs => lo ≤ f ∧ f ≤ l ∧ l < W32 ∧ runs_from (l + 2) rs
  end.

Definition in_runs (x : Z) (rs : list (Z * Z)) : Prop :=
  Exists (λ r, r.1 ≤ x ≤ r.2) rs.

Definition flatten_runs (rs : list (Z * Z)) : list Z :=
  rs ≫= λ r, [r.1; r.2].

Lemma runs_from_weaken lo lo' rs : lo' ≤ lo → runs_from lo rs → runs_from lo' rs.
Proof. destruct rs as [|[f l] rs]; simpl; [done|]. intuition lia. Qed.

Lemma runs_from_in lo rs x : runs_from lo rs → in_runs x rs → lo ≤ x < W32.
Proof.
  revert lo. induction rs as [|[f l] rs IH]; intros lo; [by inversion 2|].
  intros (?&?&?&Hrs) Hx. apply Exists_cons in Hx as [?|Hx]; simpl in *; [lia|].
  specialize (IH _ Hrs Hx). lia.
Qed.

Lemma in_runs_cons x f l rs : in_runs x ((f, l) :: rs) ↔ f ≤ x ≤ l ∨ in_runs x rs.
Proof. apply Exists_cons. Qed.

Lemma in_runs_app x a b : in_runs x (a ++ b) ↔ in_runs x a ∨ in_runs x b.
Proof. apply Exists_app. Qed.

Lemma in_runs_nil x : ¬ in_runs x [].
Proof. by inversion 1. Qed.

Lemma runs_from_raise lo k rs :
  runs_from lo rs → Forall (λ r, k ≤ r.1) rs → runs_from k rs.
Proof. destruct rs as [|[f l] rs]; simpl; [done|]. rewrite Forall_cons. simpl. tauto. Qed.

Lemma runs_from_app lo a b :
  runs_from lo (a ++ b) ↔
  runs_from lo a ∧ runs_from lo b ∧ (∀ r s, r ∈ a → s ∈ b → r.2 + 2 ≤ s.1).
Proof.
  revert lo. induction a as [|[f l] a IH]; intros lo; simpl; [set_solver|].
  rewrite IH. split.
  - intros (?&?&?&?&Hb&Hab). split_and!; try done.
    + eapply runs_from_weaken; [|done]. lia.
    + intros r s [->|?]%elem_of_cons Hs; [|by apply Hab]. simpl.
      clear -Hb Hs. revert Hb. generalize (l + 2). intros k. revert k.
      induction b as [|[f' l'] b IH]; intros k; [set_solver|]. intros (?&?&?&Hb).
      apply elem_of_cons in Hs as [->|Hs]; [done|]. specialize (IH Hs _ Hb). lia.
  - intros ((?&?&?&?)&Hb&Hab). split_and!; try done.
    + apply (runs_from_raise lo); [done|]. apply Forall_forall. intros s Hs.
      apply (Hab (f, l) s); [by apply elem_of_cons; left|done].
    + intros r s Hr. apply Hab. by apply elem_of_cons; right.
Qed.

Lemma runs_from_snoc lo rs f l :
  runs_from lo rs → (∀ r, r ∈ rs → r.2 + 2 ≤ f) → lo ≤ f → f ≤ l → l < W32 →
  runs_from lo (rs ++ [(f, l)]).
Proof.
  intros. apply runs_from_app. split_and!; [done|done|].
  intros r s Hr ->%list_elem_of_singleton. auto.
Qed.

Lemma in_runs_single x f l : in_runs x [(f, l)] ↔ f ≤ x ≤ l.
Proof. rewrite in_runs_cons. pose proof (in_runs_nil x). tauto. Qed.

(** Two canonical run lists for the same set are equal: a run list is a
    canonical form. *)
Lemma runs_from_unique lo rs1 rs2 :
  runs_from lo rs1 → runs_from lo rs2 → (∀ x, in_runs x rs1 ↔ in_runs x rs2) →
  rs1 = rs2.
Proof.
  revert lo rs2. induction rs1 as [|[f1 l1] rs1 IH]; intros lo [|[f2 l2] rs2] H1 H2 Heq.
  - done.
  - exfalso. apply (in_runs_nil f2), Heq, in_runs_cons. simpl in H2. lia.
  - exfalso. apply (in_runs_nil f1), Heq, in_runs_cons. simpl in H1. lia.
  - destruct H1 as (?&?&?&H1), H2 as (?&?&?&H2).
    assert (Hin1 := λ x, runs_from_in _ _ x H1).
    assert (Hin2 := λ x, runs_from_in _ _ x H2).
    assert (Hc : ∀ x, (f1 ≤ x ≤ l1 ∨ in_runs x rs1) ↔ (f2 ≤ x ≤ l2 ∨ in_runs x rs2)).
    { intros x. by rewrite <- !in_runs_cons. }
    assert (f1 = f2) as ->.
    { destruct (proj1 (Hc f1)) as [?|?%Hin2]; [lia| |];
      destruct (proj2 (Hc f2)) as [?|?%Hin1]; lia. }
    assert (l1 = l2) as ->.
    { destruct (Z.lt_trichotomy l1 l2) as [?|[?|?]]; [|done|].
      - destruct (proj2 (Hc (l1 + 1))) as [?|?%Hin1]; lia.
      - destruct (proj1 (Hc (l2 + 1))) as [?|?%Hin2]; lia. }
    f_equal. apply (IH (l2 + 2)); [done|done|]. intros x. specialize (Hc x).
    split; intros Hx.
    + pose proof (Hin1 _ Hx). destruct (proj1 Hc); [auto|lia|done].
    + pose proof (Hin2 _ Hx). destruct (proj2 Hc); [auto|lia|done].
Qed.

Lemma flatten_runs_inj rs1 rs2 : flatten_runs rs1 = flatten_runs rs2 → rs1 = rs2.
Proof.
  revert rs2. induction rs1 as [|[f1 l1] rs1 IH]; intros [|[f2 l2] rs2]; simpl; try done.
  intros [= -> -> E]. f_equal. by apply IH.
Qed.

(** ** Laws *)

Section Laws.
Context (S : Type) `{UInt32Set S}.

(** What [types.go] says of each operation of [UInt32Set]. *)
Class SetLaws := {
  set_ok : S → Prop;
  set_mem : S → Z → Prop;
  set_mem_u32 s x : set_ok s → set_mem s x → is_u32 x;
  set_mem_dec s x : set_ok s → set_mem s x ∨ ¬ set_mem s x;
  set_IsEmpty_spec s : set_ok s →
    runs set_IsEmpty s (λ b s', (set_ok s' ∧ ∀ y, set_mem s' y ↔ set_mem s y) ∧
      (b = true ↔ ∀ x, ¬ set_mem s x));
  set_Has_spec s x : set_ok s → is_u32 x →
    runs (set_Has x) s (λ b s', (set_ok s' ∧ ∀ y, set_mem s' y ↔ set_mem s y) ∧
      (b = true ↔ set_mem s x));
  set_Add_spec s x : set_ok s → is_u32 x →
    runs (set_Add x) s (λ b s', set_ok s' ∧ (∀ y, set_mem s' y ↔ y = x ∨ set_mem s y) ∧
      (b = true ↔ ¬ set_mem s x));
  set_Remove_spec s x : set_ok s → is_u32 x →
    runs (set_Remove x) s (λ b s', set_ok s' ∧
      (∀ y, set_mem s' y ↔ y ≠ x ∧ set_mem s y) ∧ (b = true ↔ set_mem s x));
  set_Export_spec s : set_ok s →
    runs set_Export s (λ l s', (set_ok s' ∧ ∀ y, set_mem s' y ↔ set_mem s y) ∧
      StronglySorted Z.lt l ∧ ∀ x, x ∈ l ↔ set_mem s x);
  set_RExport_spec s : set_ok s →
    runs set_RExport s (λ l s', (set_ok s' ∧ ∀ y, set_mem s' y ↔ set_mem s y) ∧
      ∃ rs, l = flatten_runs rs ∧ runs_from 0 rs ∧ ∀ x, in_runs x rs ↔ set_mem s x)
}.

Context `{UInt32SetChooser S, UInt32SetChecker S, SetLaws}.

(** [AddOneInRange]: a free number of the range is added and returned when
    there is one; otherwise nothing changes. *)
Class ChooserLaws :=
  set_AddOneInRange_spec r s min max :
    rng_ok r → set_ok s → is_u32 min → is_u32 max →
    runs (set_AddOneInRange r min max) s (λ xb s', is_u32 xb.1 ∧
      if xb.2
      then min ≤ xb.1 ≤ max ∧ ¬ set_mem s xb.1 ∧ set_ok s' ∧
           (∀ y, set_mem s' y ↔ y = xb.1 ∨ set_mem s y)
      else (set_ok s' ∧ ∀ y, set_mem s' y ↔ set_mem s y) ∧
           ∀ y, min ≤ y ≤ max → set_mem s y).

(** [CouldAddInRange]: the verdict, and the add when one was possible. *)
Class CheckerLaws :=
  set_CouldAddInRange_spec s min max x could :
    set_ok s → is_u32 x →
    runs (set_CouldAddInRange min max x could) s (λ b s',
      set_ok s' ∧
      (b = true ↔ (could = true ↔ (min ≤ x ≤ max ∧ ¬ set_mem s x))) ∧
      (∀ y, set_mem s' y ↔ (y = x ∧ min ≤ x ≤ max) ∨ set_mem s y)).
End Laws.

#[export] Hint Mode SetLaws ! - : typeclass_instances.
Arguments set_ok {S _ _} _ : simpl never.
Arguments set_mem {S _ _} _ _ : simpl never.
