(* ===== verification/HashSet.v ===== *)
(** * The hash set of [pkg/uint32set/hashset.go]

    [HashUInt32Set] with its high- and low-water marks.  Every operation of
    the file is a definition; the loops of [Export], [RExport] and [String]
    walk from [low] to [high], with fuel [high - low + 1], which the theorems
    show to be enough (running out of fuel is a panic). *)

From S2P Require Import Prelude GoStr UInt32Set.

Module HashSet.

Definition Last : Z := u32 (u64 (Z.shiftl 1 32 - 1)).

Record t := Mk { low : Z; high : Z; members : gmap Z unit }.

Definition NewHashUInt32Set : t := Mk Last 0 ∅.

Definition has (s : t) (x : Z) : bool := bool_decide (is_Some (members s !! x)).

Definition IsEmpty : M t bool := gets (λ s, Nat.eqb (size (members s)) 0).

Definition Has (x : Z) : M t bool := gets (λ s, has s x).

Definition add_state (x : Z) (s : t) : t :=
  Mk (if x <? low s then x else low s)
     (if high s <? x then x else high s)
     (<[x := tt]> (members s)).

Definition Add (x : Z) : M t bool :=
  s ← get;
  if has s x then mret false
  else put (add_state x s);; mret true.

Definition CouldAddInRange (min max x : Z) (could : bool) : M t bool :=
  c ← (if (x <? min) || (max <? x) then mret false : M t bool
       else h ← Has x;
            if (h : bool) then mret false else Add x;; mret true : M t bool);
  mret (Bool.eqb c could).

Definition Remove (x : Z) : M t bool :=
  s ← get;
  if negb (has s x) then mret false
  else
    let m := delete x (members s) in
    put (if Nat.eqb (size m) 0 then Mk Last 0 m else Mk (low s) (high s) m);;
    mret true.

(** The walk shared by the three export loops: [f] sees each number from
    [x] on, with its membership, and its state [a]. *)
Fixpoint walk {A} (fuel : nat) (s : t) (f : Z → bool → A → A) (x : Z) (a : A) : res (Z * A) :=
  match fuel with
  | O => Panic "fuel"
  | Datatypes.S fuel =>
      let a := f x (has s x) a in
      if high s <=? x then Ok (x, a) else walk fuel s f (u32 (x + 1)) a
  end.

Definition walk_all {A} (f : Z → bool → A → A) (a : A) : M t (Z * A) := λ s,
  xa ← walk (Datatypes.S (Z.to_nat (high s - low s))) s f (low s) a; Ok (xa, s).

Definition Export : M t (list Z) :=
  xa ← walk_all (λ x ok ans, if ok then ans ++ [x] else ans) [];
  mret xa.2.

Definition rexport_step (x : Z) (ok : bool) (st : list Z * bool) : list Z * bool :=
  let '(ans, isin) := st in
  if ok && negb isin then (ans ++ [x], true)
  else if isin && negb ok then (ans ++ [u32 (x - 1)], false)
  else (ans, isin).

Definition RExport : M t (list Z) :=
  xa ← walk_all rexport_step ([], false);
  let '(x, (ans, isin)) := xa in
  mret (if isin : bool then ans ++ [x] else ans).

Definition string_step (x : Z) (ok : bool) (st : string * bool) : string * bool :=
  let '(b, gotSome) := st in
  if ok then ((if gotSome : bool then b +:+ ", " else b) +:+ fmt_08x x, true) else st.

Definition String : M t string :=
  xa ← walk_all string_step ("{", false);
  mret (xa.2.1 +:+ "}").

#[global] Instance hash_set : UInt32Set t := {|
  set_IsEmpty := IsEmpty; set_Has := Has; set_Add := Add; set_Remove := Remove;
  set_Export := Export; set_RExport := RExport; set_String := String |}.
#[global] Instance hash_checker : UInt32SetChecker t := CouldAddInRange.

(** ** Correctness *)

(** The water marks bound the members, and are reset when the set empties. *)
Record inv (s : t) : Prop := Inv {
  inv_mem x : is_Some (members s !! x) → is_u32 x ∧ low s ≤ x ≤ high s;
  inv_low : is_u32 (low s);
  inv_high : is_u32 (high s);
  inv_empty : members s = ∅ → low s = Last ∧ high s = 0
}.

Definition mem (s : t) (x : Z) : Prop := is_Some (members s !! x).

Lemma has_spec s x : has s x = true ↔ mem s x.
Proof. apply bool_decide_eq_true. Qed.

Lemma hash_new_inv : inv NewHashUInt32Set.
Proof.
  split; simpl; [|done|done|done]. intros x. rewrite lookup_empty. by intros [??].
Qed.

Lemma size_zero (m : gmap Z unit) : Nat.eqb (size m) 0 = true ↔ m = ∅.
Proof. rewrite Nat.eqb_eq. apply map_size_empty_iff. Qed.

Lemma add_state_inv x s : inv s → is_u32 x → inv (add_state x s).
Proof.
  intros [Hm Hl Hh He] Hx. split; simpl.
  - intros y. rewrite lookup_insert_is_Some. intros [<-|[Hne Hy]].
    + split; [done|]. destruct (Z.ltb_spec x (low s)), (Z.ltb_spec (high s) x); lia.
    + destruct (Hm y Hy). split; [done|].
      destruct (Z.ltb_spec x (low s)), (Z.ltb_spec (high s) x); lia.
  - by case_match.
  - by case_match.
  - intros E. by destruct (insert_non_empty (members s) x tt).
Qed.

Lemma add_state_mem x s y : mem (add_state x s) y ↔ y = x ∨ mem s y.
Proof.
  unfold mem. simpl. rewrite lookup_insert_is_Some. destruct (decide (x = y)); naive_solver.
Qed.

Lemma Add_spec s x :
  inv s → is_u32 x →
  runs (Add x) s (λ b s', inv s' ∧ (∀ y, mem s' y ↔ y = x ∨ mem s y) ∧ (b = true ↔ ¬ mem s x)).
Proof.
  intros Hs Hx. unfold Add. repeat mstep. pose proof (has_spec s x) as Hh.
  destruct (has s x); repeat mstep.
  - split_and!; [done| |]; [|naive_solver].
    intros y. split; [auto|]. intros [->|?]; [by apply Hh|done].
  - split_and!; [by apply add_state_inv|apply add_state_mem|naive_solver].
Qed.

Lemma delete_mem x s y : is_Some (delete x (members s) !! y) ↔ y ≠ x ∧ mem s y.
Proof. rewrite lookup_delete_is_Some. unfold mem. naive_solver. Qed.

Lemma remove_inv x s :
  inv s → inv (if Nat.eqb (size (delete x (members s))) 0
               then Mk Last 0 (delete x (members s))
               else Mk (low s) (high s) (delete x (members s))).
Proof.
  intros [Hm Hl Hh He]. destruct (Nat.eqb _ 0) eqn:E.
  - apply size_zero in E. split; simpl; [|done|done|done].
    intros y. rewrite E, lookup_empty. by intros [??].
  - split; simpl; [|done|done|].
    + intros y [_ Hy]%delete_mem. by apply Hm.
    + intros E'. apply size_zero in E'. congruence.
Qed.

Lemma Remove_spec s x :
  inv s → is_u32 x →
  runs (Remove x) s (λ b s', inv s' ∧ (∀ y, mem s' y ↔ y ≠ x ∧ mem s y) ∧ (b = true ↔ mem s x)).
Proof.
  intros Hs Hx. unfold Remove. repeat mstep. pose proof (has_spec s x) as Hhas.
  destruct (has s x); simpl; repeat mstep; (split; [|split]).
  - by apply remove_inv.
  - intros y. rewrite <- delete_mem. unfold mem. by case_match.
  - tauto.
  - done.
  - intros y. split; [|by intros [_ ?]]. intros Hy. split; [|done]. intros ->.
    by apply Hhas in Hy.
  - tauto.
Qed.

Lemma CouldAddInRange_spec s min max x could :
  inv s → is_u32 x →
  runs (CouldAddInRange min max x could) s (λ b s', inv s' ∧
    (b = true ↔ (could = true ↔ (min ≤ x ≤ max ∧ ¬ mem s x))) ∧
    (∀ y, mem s' y ↔ (y = x ∧ min ≤ x ≤ max) ∨ mem s y)).
Proof.
  intros Hs Hx. unfold CouldAddInRange, Has. mstep.
  destruct (Z.ltb_spec x min), (Z.ltb_spec max x); simpl; repeat mstep;
    try (split_and!; [done|destruct could; simpl; naive_solver lia|naive_solver lia]).
  pose proof (has_spec s x) as Hh. destruct (has s x) eqn:E; repeat mstep.
  - split_and!; [done| |].
    + destruct could; simpl; naive_solver.
    + intros y. split; [auto|]. intros [[-> _]|?]; [by apply Hh|done].
  - eapply runs_conseq; [by apply Add_spec|]. intros b s' (Hs'&Hmem&_). repeat mstep.
    split_and!; [done| |].
    + assert (¬ mem s x) by naive_solver. destruct could; simpl; naive_solver lia.
    + intros y. rewrite Hmem. naive_solver lia.
Qed.

(** *** The walk *)

(** The last number the walk visits. *)
Definition last_visited (s : t) : Z := Z.max (low s) (high s).

Lemma walk_S {A} fuel s (f : Z → bool → A → A) x a :
  walk (Datatypes.S fuel) s f x a =
    if high s <=? x then Ok (x, f x (has s x) a)
    else walk fuel s f (u32 (x + 1)) (f x (has s x) a).
Proof. done. Qed.

Lemma walk_foldl {A} (f : Z → bool → A → A) s fuel x a :
  inv s → is_u32 x → fuel = Datatypes.S (Z.to_nat (high s - x)) →
  walk fuel s f x a =
    Ok (Z.max x (high s), foldl (λ a y, f y (has s y) a) a (zrange x (Z.max x (high s)))).
Proof.
  intros Hs Hx ->. remember (Z.to_nat (high s - x)) as n eqn:Hn. revert x a Hx Hn.
  induction n as [|n IH]; intros x a Hx Hn; rewrite walk_S;
    destruct (Z.leb_spec (high s) x) as [Hle|Hlt]; try lia.
  - by rewrite Z.max_l, zrange_single by lia.
  - pose proof (inv_high _ Hs). unfold is_u32 in *.
    rewrite u32_small by (unfold is_u32; lia). rewrite IH by lia.
    rewrite (zrange_cons x) by lia.
    by rewrite (Z.max_r x), (Z.max_r (x + 1)) by lia.
Qed.

Lemma walk_all_runs {A} (f : Z → bool → A → A) a s (Q : Z * A → t → Prop) :
  inv s →
  Q (last_visited s, foldl (λ a y, f y (has s y) a) a (zrange (low s) (last_visited s))) s →
  runs (walk_all f a) s Q.
Proof.
  intros Hs HQ. unfold runs, walk_all. rewrite walk_foldl by (done || by apply inv_low). done.
Qed.

Lemma mem_visited s x : inv s → mem s x → low s ≤ x ≤ last_visited s.
Proof. intros Hs Hx. destruct (inv_mem _ Hs _ Hx). unfold last_visited. lia. Qed.

Lemma export_foldl s l acc :
  foldl (λ ans y, if has s y then ans ++ [y] else ans) acc l =
  acc ++ filter (λ y, mem s y) l.
Proof.
  revert acc. induction l as [|y l IH]; intros acc; simpl; [by rewrite app_nil_r|].
  rewrite IH, filter_cons. pose proof (has_spec s y).
  destruct (has s y); case_decide; try naive_solver. by rewrite <- app_assoc.
Qed.

Lemma hash_Export_runs s (Q : list Z → t → Prop) :
  inv s → Q (filter (λ y, mem s y) (zrange (low s) (last_visited s))) s →
  runs Export s Q.
Proof.
  intros Hs HQ. unfold Export. mstep. apply walk_all_runs; [done|]. mstep.
  by rewrite export_foldl.
Qed.

(** What [RExport] has accumulated when the walk has passed [y]. *)
Definition rexport_inv (s : t) (lo y : Z) (st : list Z * bool) : Prop :=
  ∃ rs, runs_from lo rs ∧ (∀ z, in_runs z rs ↔ lo ≤ z ≤ y ∧ mem s z) ∧
    if st.2 : bool
    then ∃ rs' f, rs = rs' ++ [(f, y)] ∧ st.1 = flatten_runs rs' ++ [f]
    else st.1 = flatten_runs rs ∧ (∀ r, r ∈ rs → r.2 < y).

Lemma flatten_runs_snoc rs f l : flatten_runs (rs ++ [(f, l)]) = flatten_runs rs ++ [f; l].
Proof. unfold flatten_runs. by rewrite bind_app. Qed.

Lemma rexport_step_inv s lo y st :
  inv s → 0 ≤ lo ≤ y → y < W32 → rexport_inv s lo (y - 1) st →
  rexport_inv s lo y (rexport_step y (has s y) st).
Proof.
  intros Hs Hlo Hy (rs & Hwf & Hin & Hst). pose proof (has_spec s y) as Hhas.
  destruct st as [ans isin]; simpl in Hst. destruct isin; destruct (has s y) eqn:E; simpl.
  - destruct Hst as (rs' & f & -> & ->).
    exists (rs' ++ [(f, y)]). apply runs_from_app in Hwf as (Hwf & Hl & Hap). simpl in Hl.
    split_and!.
    + apply runs_from_snoc; try done; [|lia..]. intros r Hr. by apply (Hap r (f, y - 1)), list_elem_of_singleton.
    + intros z. specialize (Hin z). rewrite in_runs_app, in_runs_single in Hin |- *.
      destruct (decide (z = y)) as [->|]; [|naive_solver lia].
      split; [|intros _; lia]. intros _. split; [lia|]. by apply Hhas.
    + by exists rs', f.
  - destruct Hst as (rs' & f & -> & ->). exists (rs' ++ [(f, y - 1)]). split; [done|split; [|split]].
    + intros z. rewrite Hin. destruct (decide (z = y)) as [->|]; [|naive_solver lia].
      split; [lia|]. intros [_ ?%Hhas]. congruence.
    + rewrite flatten_runs_snoc, u32_small by (apply runs_from_app in Hwf; simpl in Hwf; u32_lia).
      by rewrite <- app_assoc.
    + apply runs_from_app in Hwf as (Hwf & Hl & Hap). simpl in Hl.
      intros r [Hr| ->%list_elem_of_singleton]%elem_of_app; [|simpl; lia].
      specialize (Hap r (f, y - 1) Hr). rewrite list_elem_of_singleton in Hap.
      specialize (Hap eq_refl). simpl in Hap. lia.
  - destruct Hst as [-> Hlt]. exists (rs ++ [(y, y)]). split_and!.
    + apply runs_from_snoc; try done; [|lia]. intros r Hr.
      destruct (decide (r.2 = y - 1)); [|specialize (Hlt _ Hr); lia].
      specialize (Hlt _ Hr). lia.
    + intros z. specialize (Hin z). rewrite in_runs_app, in_runs_single, Hin.
      destruct (decide (z = y)) as [->|]; [|naive_solver lia].
      split; [|intros; lia]. intros _. split; [lia|]. by apply Hhas.
    + by exists rs, y.
  - destruct Hst as [-> Hlt]. exists rs. split; [done|split; [|split; [done|]]].
    + intros z. rewrite Hin. destruct (decide (z = y)) as [->|]; [|naive_solver lia].
      split; [lia|]. intros [_ ?%Hhas]. congruence.
    + intros r Hr. specialize (Hlt _ Hr). lia.
Qed.

Lemma rexport_foldl s :
  inv s →
  rexport_inv s (low s) (last_visited s)
    (foldl (λ a y, rexport_step y (has s y) a) ([], false) (zrange (low s) (last_visited s))).
Proof.
  intros Hs. pose proof (inv_low _ Hs). pose proof (inv_high _ Hs). unfold is_u32 in *.
  apply (zrange_ind (λ h, rexport_inv s (low s) h
    (foldl (λ a y, rexport_step y (has s y) a) ([], false) (zrange (low s) h)))
    (low s) (last_visited s)).
  - rewrite zrange_nil by lia. exists []. split; [done|split; [|split; [done|by intros ? ?%elem_of_nil]]].
    intros z. pose proof (in_runs_nil z). split; [done|lia].
  - intros k Hk IH. rewrite (zrange_snoc (low s) k), foldl_app by lia. simpl.
    apply rexport_step_inv; try done; [lia|]. unfold last_visited in Hk. lia.
  - unfold last_visited. lia.
Qed.

Lemma hash_RExport_runs s (Q : list Z → t → Prop) :
  inv s →
  (∀ rs, runs_from 0 rs → (∀ x, in_runs x rs ↔ mem s x) → Q (flatten_runs rs) s) →
  runs RExport s Q.
Proof.
  intros Hs HQ. unfold RExport. mstep. apply walk_all_runs; [done|].
  pose proof (rexport_foldl s Hs) as (rs & Hwf & Hin & Hst).
  destruct (foldl _ _ _) as [ans isin]. simpl in Hst. mstep.
  assert (Hwf0 : runs_from 0 rs).
  { eapply runs_from_weaken; [|done]. apply (inv_low _ Hs). }
  assert (Hmem : ∀ x, in_runs x rs ↔ mem s x).
  { intros x. rewrite Hin. split; [tauto|]. intros Hx. split; [|done]. by apply mem_visited. }
  destruct isin.
  - destruct Hst as (rs' & f & -> & ->). specialize (HQ _ Hwf0 Hmem).
    rewrite flatten_runs_snoc in HQ. by rewrite <- app_assoc.
  - destruct Hst as [-> _]. by apply HQ.
Qed.

#[global] Instance hash_laws : SetLaws t.
Proof.
  refine {| set_ok := inv; set_mem := mem |}.
  - intros s x Hs Hx. by apply (inv_mem s Hs).
  - intros s x _. unfold mem. destruct (decide (is_Some (members s !! x))); auto.
  - intros s Hs. unfold set_IsEmpty; simpl. unfold IsEmpty. mstep. split; [done|].
    rewrite size_zero. unfold mem. split; [intros ->|].
    + intros x. rewrite lookup_empty. by intros [??].
    + intros Hn. apply map_empty. intros x. specialize (Hn x). by apply eq_None_not_Some.
  - intros s x Hs Hx. unfold set_Has; simpl. unfold Has. mstep. split; [done|apply has_spec].
  - apply Add_spec.
  - apply Remove_spec.
  - intros s Hs. apply hash_Export_runs; [done|]. split; [done|]. split.
    + apply StronglySorted_filter, zrange_sorted.
    + intros x. rewrite list_elem_of_filter, elem_of_zrange. split; [tauto|].
      intros Hx. split; [done|]. by apply mem_visited.
  - intros s Hs. apply hash_RExport_runs; [done|]. intros rs Hwf Hmem. split; [done|]. by exists rs.
Defined.

#[global] Instance hash_checker_laws : CheckerLaws t.
Proof. intros s min max x could. apply CouldAddInRange_spec. Qed.

End HashSet.
