(* ===== verification/SortedSet.v ===== *)
(** * The sorted set of [pkg/uint32set/sortedset.go]

    [SortedUInt32Set] keeps a set of uint32 as a sorted list of runs in a
    skip list of the library [github.com/wangjia184/sortedset].  That library
    is not part of the repository: it is the class [SortedSetLib] of its
    operations, with its documented behaviour as the laws [SortedSetLaws]; the
    instance on plain lists shows the laws can hold.  Node pointers are node
    values here: the source only reads them, and compares two of them, which
    for nodes of one set is the comparison of their keys. *)

From S2P Require Import Prelude GoStr UInt32Set.

(** ** The skip-list library *)

(** [sortedset.SortedSetNode]: key, score (int64) and value; the source stores
    a uint32 as the value. *)
Record ssnode := Node { Key : string; Score : Z; Value : Z }.

#[export] Instance ssnode_eq_dec : EqDecision ssnode.
Proof. solve_decision. Defined.

Class SortedSetLib (T : Type) := {
  ss_New : T;
  ss_GetCount : T → Z;
  ss_GetByKey : string → T → option ssnode;
  ss_AddOrUpdate : string → Z → Z → T → T;
  ss_Remove : string → T → T;
  ss_FindRank : string → T → Z;
  ss_GetByRank : Z → T → option ssnode      (* remove = false *)
}.

(** Nodes are ordered by score, then key. *)
Definition node_before (a b : ssnode) : bool :=
  (Score a <? Score b) || ((Score a =? Score b) && String.ltb (Key a) (Key b)).

Fixpoint insert_node (n : ssnode) (l : list ssnode) : list ssnode :=
  match l with
  | [] => [n]
  | m :: l => if node_before n m then n :: m :: l else m :: insert_node n l
  end.

Definition drop_key (k : string) (l : list ssnode) : list ssnode :=
  filter (λ n, Key n ≠ k) l.

(** 1-based position of a key; 0 when it is absent. *)
Fixpoint rank_of (k : string) (l : list ssnode) : Z :=
  match l with
  | [] => 0
  | n :: l =>
      if bool_decide (Key n = k) then 1
      else let r := rank_of k l in if r =? 0 then 0 else r + 1
  end.

Definition find_key (k : string) (l : list ssnode) : option ssnode :=
  List.find (λ n, bool_decide (Key n = k)) l.

Class SortedSetLaws (T : Type) `{SortedSetLib T} := {
  ss_nodes : T → list ssnode;
  ss_nodes_New : ss_nodes ss_New = [];
  ss_GetCount_law t : ss_GetCount t = Z.of_nat (length (ss_nodes t));
  ss_GetByKey_law k t : ss_GetByKey k t = find_key k (ss_nodes t);
  ss_AddOrUpdate_law k sc v t :
    ss_nodes (ss_AddOrUpdate k sc v t) =
      insert_node (Node k sc v) (drop_key k (ss_nodes t));
  ss_Remove_law k t : ss_nodes (ss_Remove k t) = drop_key k (ss_nodes t);
  ss_FindRank_law k t : ss_FindRank k t = rank_of k (ss_nodes t);
  ss_GetByRank_law r t : 1 ≤ r →
    ss_GetByRank r t = ss_nodes t !! Z.to_nat (r - 1)
}.

(** The laws can hold: nodes in a plain list. *)
#[export] Instance list_sortedset : SortedSetLib (list ssnode) := {|
  ss_New := [];
  ss_GetCount l := Z.of_nat (length l);
  ss_GetByKey := find_key;
  ss_AddOrUpdate k sc v l := insert_node (Node k sc v) (drop_key k l);
  ss_Remove := drop_key;
  ss_FindRank := rank_of;
  ss_GetByRank r l := l !! Z.to_nat (r - 1)
|}.

#[export] Instance list_sortedset_laws : SortedSetLaws (list ssnode).
Proof. by refine {| ss_nodes := λ l : list ssnode, l |}. Defined.

Module SortedSet.
Section Model.
Context {T : Type} `{SortedSetLib T}.

(** ** The operations of [sortedset.go] *)

Record t := Mk { ss : T; CheckLevel : Z }.

Definition NewSortedUInt32Set (checkLevel : Z) : t := Mk ss_New checkLevel.

(** A read of the skip list, and an update of it. *)
Definition rd {A} (f : T → A) : M t A := gets (λ s, f (ss s)).
Definition upd (f : T → T) : M t unit := modify (λ s, Mk (f (ss s)) (CheckLevel s)).

(** Dereferencing a node pointer panics on nil. *)
Definition deref (n : option ssnode) : M t ssnode :=
  match n with Some n => mret n | None => panic "nil pointer" end.

(** [sortedset.SCORE(x)] of a uint32 is exact; [uint32(node.Score())] wraps. *)
Definition first_of (n : ssnode) : Z := u32 (Score n).

Definition IsEmpty : M t bool := c ← rd ss_GetCount; mret (c =? 0).

Definition Find (x : Z) : M t (option ssnode * Z) :=
  let xS := fmt_08x x in
  rank ← rd (ss_FindRank xS);
  if 0 <? rank then
    n ← rd (ss_GetByRank rank); mret (n, rank)
  else
    upd (ss_AddOrUpdate xS x x);;
    rankNext ← rd (ss_FindRank xS);
    upd (ss_Remove xS);;
    if 1 <? rankNext then
      anode ← rd (ss_GetByRank (rankNext - 1)) ≫= deref;
      if x <=? Value anode then mret (Some anode, rankNext - 1)
      else mret (None, rankNext)
    else mret (None, rankNext).

Definition Has (x : Z) : M t bool :=
  nr ← Find x; mret (bool_decide (is_Some nr.1)).

(** The consistency checks; [panic] when one fails. *)
Definition guard (b : bool) (msg : string) : M t unit :=
  if b then panic msg else mret tt.

Fixpoint check_hard (fuel : nat) (rank count : Z) (lastNode : ssnode) : M t ssnode :=
  match fuel with
  | O => panic "fuel"
  | Datatypes.S fuel =>
      if count <? rank then mret lastNode
      else
        n ← rd (ss_GetByRank rank);
        match n with
        | None => panic "lacks expected node at rank"
        | Some node =>
            guard (first_of node <=? Value lastNode +₃₂ 1) "has bad gap";;
            guard (Value node <? first_of node) "has inverted node";;
            check_hard fuel (rank + 1) count node
        end
  end.

Definition Check (hard : bool) : M t unit :=
  count ← rd ss_GetCount;
  first ← rd (ss_GetByRank 1);
  (if count =? 0 then guard (bool_decide (is_Some first)) "has wrong GetCount()"
   else
     match first with
     | None => panic "has no nodes"
     | Some firstNode =>
         guard (Value firstNode <? first_of firstNode) "has inverted first node";;
         lastNode ← (if hard then check_hard (Z.to_nat count) 2 count firstNode
                     else n ← rd (ss_GetByRank count);
                          match n with
                          | None => panic "has GetCount() too big"
                          | Some n => mret n
                          end);
         guard (Value lastNode <? first_of lastNode) "has inverted last node"
     end);;
  extra ← rd (ss_GetByRank (count + 1));
  guard (bool_decide (is_Some extra)) "has GetCount() too small".

Definition check_level : M t unit :=
  s ← get;
  if 0 <? CheckLevel s then Check (1 <? CheckLevel s) else mret tt.

(** The second half of [Add], after the previous run was examined. *)
Definition add_merge (x : Z) (xS : string) (rankX : Z) (prevNode : option ssnode)
    (mergeWithPrev : bool) : M t bool :=
  nextNode ← rd (ss_GetByRank (rankX + 1));
  let mergeWithNext :=
    match nextNode with Some n => x +₃₂ 1 =? Score n | None => false end in
  (if mergeWithPrev then
     prev ← deref prevNode;
     upd (ss_Remove xS);;
     if mergeWithNext : bool then
       next ← deref nextNode;
       upd (ss_Remove (Key next));;
       upd (ss_AddOrUpdate (Key prev) (Score prev) (Value next))
     else upd (ss_AddOrUpdate (Key prev) (Score prev) x)
   else if mergeWithNext : bool then
     next ← deref nextNode;
     upd (ss_Remove (Key next));;
     upd (ss_AddOrUpdate xS x (Value next))
   else mret tt);;
  check_level;;
  mret true.

Definition Add (x : Z) : M t bool :=
  let xS := fmt_08x x in
  xN ← rd (ss_GetByKey xS);
  match xN with
  | Some _ => mret false
  | None =>
      upd (ss_AddOrUpdate xS x x);;
      rankX ← rd (ss_FindRank xS);
      if 1 <? rankX then
        prevNode ← rd (ss_GetByRank (rankX - 1)) ≫= deref;
        if x <=? Value prevNode then
          upd (ss_Remove xS);; mret false
        else add_merge x xS rankX (Some prevNode) (Value prevNode +₃₂ 1 =? x)
      else add_merge x xS rankX None false
  end.

Definition innerRemove (x : Z) : M t bool :=
  let xS := fmt_08x x in
  xN ← rd (ss_GetByKey xS);
  match xN with
  | Some n =>
      upd (ss_Remove xS);;
      (if negb (x =? Value n) then
         let y := x +₃₂ 1 in upd (ss_AddOrUpdate (fmt_08x y) y (Value n))
       else mret tt);;
      mret true
  | None =>
      upd (ss_AddOrUpdate xS x x);;
      rankX ← rd (ss_FindRank xS);
      upd (ss_Remove xS);;
      if 1 <? rankX then
        prevNode ← rd (ss_GetByRank (rankX - 1)) ≫= deref;
        let prevLast := Value prevNode in
        if prevLast <? x then mret false
        else
          upd (ss_AddOrUpdate (Key prevNode) (Score prevNode) (x -₃₂ 1));;
          (if x <? prevLast then
             let y := x +₃₂ 1 in upd (ss_AddOrUpdate (fmt_08x y) y prevLast)
           else mret tt);;
          mret true
      else mret false
  end.

Definition Remove (x : Z) : M t bool :=
  ans ← innerRemove x; check_level;; mret ans.

(** [AddOneInRange]; the two random draws come from [r].  An [int] of the
    source is 64 bits wide and counts runs: it cannot overflow. *)
Definition AddOneInRange (r : rng) (min max : Z) : M t (Z * bool) :=
  if max <? min then mret (0, false)
  else
    min_nr ← Find min;
    max_nr ← Find max;
    let '(onMin, minR) := min_nr in
    let '(onMax, maxR) := max_nr in
    if bool_decide (onMin = onMax) && bool_decide (is_Some onMin) then mret (0, false)
    else
      let bias := if bool_decide (is_Some onMin) then 1 else 0 in
      let saib := if bool_decide (is_Some onMax) then 1 else 0 in
      let nGaps := 1 + maxR - minR + saib in
      if nGaps <=? bias + saib then panic "AddOneInRange fail"
      else
        let gapNum := bias + Intn r (nGaps - (bias + saib)) in
        first ← (if 0 <? gapNum then
                   n ← rd (ss_GetByRank (minR + gapNum - 1));
                   match n with
                   | None => panic "lacks expected run"
                   | Some prevNode => mret (Value prevNode +₃₂ 1)
                   end
                 else mret min);
        last ← (if gapNum <? nGaps - 1 then
                  n ← rd (ss_GetByRank (minR + gapNum));
                  match n with
                  | None => panic "lacks expected run"
                  | Some nextNode => mret (first_of nextNode -₃₂ 1)
                  end
                else mret max);
        let x := first +₃₂ u32 (Int63n r (1 + (last -₃₂ first))) in
        ok ← Add x;
        if negb ok then panic "chosen from gap was already in the set"
        else mret (x, true).

(** [Export]: the inner loop over one run, then the loop over the ranks. *)
Fixpoint export_run (fuel : nat) (x l : Z) (ans : list Z) : res (list Z) :=
  match fuel with
  | O => Panic "fuel"
  | Datatypes.S fuel =>
      let ans := ans ++ [x] in
      if l <=? x then Ok ans else export_run fuel (u32 (x + 1)) l ans
  end.

Fixpoint export_ranks (fuel : nat) (rank : Z) (s : t) (ans : list Z) : res (list Z) :=
  match fuel with
  | O => Panic "fuel"
  | Datatypes.S fuel =>
      match ss_GetByRank rank (ss s) with
      | None => Ok ans
      | Some node =>
          let i := first_of node in let l := Value node in
          ans ← export_run (Datatypes.S (Z.to_nat (l - i))) i l ans;
          export_ranks fuel (rank + 1) s ans
      end
  end.

Definition Export : M t (list Z) := λ s,
  l ← export_ranks (Datatypes.S (Z.to_nat (ss_GetCount (ss s)))) 1 s []; Ok (l, s).

Fixpoint rexport_ranks (fuel : nat) (rank : Z) (s : t) (ans : list Z) : res (list Z) :=
  match fuel with
  | O => Panic "fuel"
  | Datatypes.S fuel =>
      match ss_GetByRank rank (ss s) with
      | None => Ok ans
      | Some node => rexport_ranks fuel (rank + 1) s (ans ++ [first_of node; Value node])
      end
  end.

Definition RExport : M t (list Z) := λ s,
  l ← rexport_ranks (Datatypes.S (Z.to_nat (ss_GetCount (ss s)))) 1 s []; Ok (l, s).

(** The loop of [String] over the pairs of [RExport]. *)
Fixpoint string_runs (first : bool) (runs : list Z) : string :=
  match runs with
  | f :: l :: rest =>
      (if first then "" else ", ") +:+ fmt_08x f +:+ "--" +:+ fmt_08x l +:+
      string_runs false rest
  | _ => ""
  end.

Definition String : M t string :=
  runs ← RExport; mret ("{" +:+ string_runs true runs +:+ "}").

#[global] Instance sorted_set : UInt32Set t := {|
  set_IsEmpty := IsEmpty; set_Has := Has; set_Add := Add; set_Remove := Remove;
  set_Export := Export; set_RExport := RExport; set_String := String |}.
#[global] Instance sorted_chooser : UInt32SetChooser t := AddOneInRange.

(** ** Runs and nodes *)

Definition run_node (r : Z * Z) : ssnode := Node (fmt_08x r.1) r.1 r.2.

Definition below (x : Z) (rs : list (Z * Z)) : Prop := Forall (λ r, is_u32 r.1 ∧ r.1 < x) rs.
Definition above (x : Z) (rs : list (Z * Z)) : Prop := Forall (λ r, is_u32 r.1 ∧ x < r.1) rs.

Lemma key_ne f x : is_u32 f → is_u32 x → f ≠ x → fmt_08x f ≠ fmt_08x x.
Proof. intros ??? E. by apply fmt_08x_inj in E. Qed.

Lemma drop_key_absent x rs :
  is_u32 x → Forall (λ r, is_u32 r.1 ∧ r.1 ≠ x) rs →
  drop_key (fmt_08x x) (run_node <$> rs) = run_node <$> rs.
Proof.
  intros Hx Hrs. apply list_filter_all. apply Forall_fmap. eapply Forall_impl; [done|].
  intros [f l] [??]. by apply key_ne.
Qed.

Lemma below_absent x rs : below x rs → Forall (λ r, is_u32 r.1 ∧ r.1 ≠ x) rs.
Proof. intros H'. eapply Forall_impl; [exact H'|]. intros ? [??]. split; [done|lia]. Qed.
Lemma above_absent x rs : above x rs → Forall (λ r, is_u32 r.1 ∧ r.1 ≠ x) rs.
Proof. intros H'. eapply Forall_impl; [exact H'|]. intros ? [??]. split; [done|lia]. Qed.

Section AtKey.
Variables (x v : Z) (pre post : list (Z * Z)).
Hypotheses (Hx : is_u32 x) (Hpre : below x pre) (Hpost : above x post).

Lemma drop_key_at :
  drop_key (fmt_08x x) (run_node <$> (pre ++ (x, v) :: post)) = run_node <$> (pre ++ post).
Proof using Hpost Hpre Hx.
  rewrite !fmap_app. unfold drop_key. rewrite filter_app, fmap_cons, filter_cons_False;
    [|by simpl; auto].
  change (filter _ ?l) with (drop_key (fmt_08x x) l).
  by rewrite !drop_key_absent by auto using below_absent, above_absent.
Qed.

Lemma drop_key_none :
  drop_key (fmt_08x x) (run_node <$> (pre ++ post)) = run_node <$> (pre ++ post).
Proof using Hpost Hpre Hx.
  apply drop_key_absent; [done|]. apply Forall_app. auto using below_absent, above_absent.
Qed.

Lemma insert_node_at :
  insert_node (Node (fmt_08x x) x v) (run_node <$> (pre ++ post)) =
  run_node <$> (pre ++ (x, v) :: post).
Proof using Hpost Hpre Hx.
  clear Hx. induction Hpre as [|[f l] pre' [? Hf] Hpre' IH]; simpl.
  - destruct Hpost as [|[f l] post' [? Hf] _]; simpl; [done|].
    unfold node_before; simpl in *. by rewrite (proj2 (Z.ltb_lt x f)).
  - unfold node_before at 1; simpl in *.
    rewrite (proj2 (Z.ltb_ge x f)), (proj2 (Z.eqb_neq x f)) by lia. simpl.
    f_equal. by apply IH.
Qed.

Lemma find_key_at :
  find_key (fmt_08x x) (run_node <$> (pre ++ (x, v) :: post)) = Some (run_node (x, v)).
Proof using Hpre Hx.
  unfold find_key. rewrite fmap_app, find_app_none.
  - simpl. by rewrite bool_decide_eq_true_2.
  - apply Forall_fmap. eapply Forall_impl; [by apply below_absent|].
    intros [f l] [??]. simpl. by apply bool_decide_eq_false_2, key_ne.
Qed.

Lemma rank_of_at :
  rank_of (fmt_08x x) (run_node <$> (pre ++ (x, v) :: post)) = Z.of_nat (length pre) + 1.
Proof using Hpre Hx.
  induction Hpre as [|[f l] pre' [? Hf] Hpre' IH]; cbn [app length];
    rewrite fmap_cons; cbn [rank_of run_node Key fst].
  - by rewrite bool_decide_eq_true_2.
  - rewrite bool_decide_eq_false_2 by (apply key_ne; simpl in *; [done|done|lia]).
    rewrite IH by done. destruct (Z.eqb_spec (Z.of_nat (length pre') + 1) 0); lia.
Qed.
End AtKey.

Lemma find_key_absent x rs :
  is_u32 x → Forall (λ r, is_u32 r.1 ∧ r.1 ≠ x) rs →
  find_key (fmt_08x x) (run_node <$> rs) = None.
Proof.
  intros Hx Hrs. unfold find_key. rewrite <- (app_nil_r (run_node <$> rs)).
  rewrite find_app_none; [done|]. apply Forall_fmap. eapply Forall_impl; [done|].
  intros [f l] [??]. simpl. by apply bool_decide_eq_false_2, key_ne.
Qed.

Lemma rank_of_absent x rs :
  is_u32 x → Forall (λ r, is_u32 r.1 ∧ r.1 ≠ x) rs →
  rank_of (fmt_08x x) (run_node <$> rs) = 0.
Proof.
  intros Hx. induction 1 as [|[f l] rs [??] _ IH]; [done|].
  rewrite fmap_cons. cbn [rank_of run_node Key fst].
  rewrite bool_decide_eq_false_2 by by apply key_ne. by rewrite IH.
Qed.

(** ** The library's operations on a set that represents runs *)

Context `{!SortedSetLaws T}.

(** [s] has check level [c] and holds the runs [rs]. *)
Definition repr (c : Z) (s : t) (rs : list (Z * Z)) : Prop :=
  CheckLevel s = c ∧ ss_nodes (ss s) = run_node <$> rs.

Section Ops.
Variables (c : Z) (s : t) (x v w : Z) (pre post : list (Z * Z)).
Hypotheses (Hx : is_u32 x) (Hpre : below x pre) (Hpost : above x post).

Lemma step_add (Q : unit → t → Prop) :
  repr c s (pre ++ post) → (∀ s', repr c s' (pre ++ (x, v) :: post) → Q tt s') →
  runs (upd (ss_AddOrUpdate (fmt_08x x) x v)) s Q.
Proof using Hpost Hpre Hx.
  intros [Hc E] HQ. apply runs_modify, HQ. split; [done|]. simpl.
  by rewrite ss_AddOrUpdate_law, E, drop_key_none, insert_node_at.
Qed.

Lemma step_update (Q : unit → t → Prop) :
  repr c s (pre ++ (x, w) :: post) → (∀ s', repr c s' (pre ++ (x, v) :: post) → Q tt s') →
  runs (upd (ss_AddOrUpdate (fmt_08x x) x v)) s Q.
Proof using Hpost Hpre Hx.
  intros [Hc E] HQ. apply runs_modify, HQ. split; [done|]. simpl.
  by rewrite ss_AddOrUpdate_law, E, drop_key_at, insert_node_at.
Qed.

Lemma step_remove (Q : unit → t → Prop) :
  repr c s (pre ++ (x, w) :: post) → (∀ s', repr c s' (pre ++ post) → Q tt s') →
  runs (upd (ss_Remove (fmt_08x x))) s Q.
Proof using Hpost Hpre Hx.
  intros [Hc E] HQ. apply runs_modify, HQ. split; [done|]. simpl.
  by rewrite ss_Remove_law, E, drop_key_at.
Qed.

Lemma step_rank (Q : Z → t → Prop) :
  repr c s (pre ++ (x, w) :: post) → Q (Z.of_nat (length pre) + 1) s →
  runs (rd (ss_FindRank (fmt_08x x))) s Q.
Proof using Hpre Hx.
  intros [Hc E] HQ. apply runs_gets. by rewrite ss_FindRank_law, E, rank_of_at.
Qed.

Lemma step_rank_absent (Q : Z → t → Prop) :
  repr c s (pre ++ post) → Q 0 s → runs (rd (ss_FindRank (fmt_08x x))) s Q.
Proof using Hpost Hpre Hx.
  intros [Hc E] HQ. apply runs_gets. rewrite ss_FindRank_law, E, rank_of_absent; [done|done|].
  apply Forall_app. auto using below_absent, above_absent.
Qed.

Lemma step_key (Q : option ssnode → t → Prop) :
  repr c s (pre ++ (x, w) :: post) → Q (Some (run_node (x, w))) s →
  runs (rd (ss_GetByKey (fmt_08x x))) s Q.
Proof using Hpre Hx.
  intros [Hc E] HQ. apply runs_gets. by rewrite ss_GetByKey_law, E, find_key_at.
Qed.

Lemma step_key_absent (Q : option ssnode → t → Prop) :
  repr c s (pre ++ post) → Q None s → runs (rd (ss_GetByKey (fmt_08x x))) s Q.
Proof using Hpost Hpre Hx.
  intros [Hc E] HQ. apply runs_gets. rewrite ss_GetByKey_law, E, find_key_absent; [done|done|].
  apply Forall_app. auto using below_absent, above_absent.
Qed.
End Ops.

Lemma byrank_repr c s rs r :
  repr c s rs → 1 ≤ r → ss_GetByRank r (ss s) = run_node <$> rs !! Z.to_nat (r - 1).
Proof. intros [_ E] Hr. by rewrite ss_GetByRank_law, E, list_lookup_fmap. Qed.

Lemma count_repr c s rs : repr c s rs → ss_GetCount (ss s) = Z.of_nat (length rs).
Proof. intros [_ E]. by rewrite ss_GetCount_law, E, length_fmap. Qed.

Lemma step_byrank c s rs r i (Q : option ssnode → t → Prop) :
  repr c s rs → r = Z.of_nat i + 1 → Q (run_node <$> rs !! i) s →
  runs (rd (ss_GetByRank r)) s Q.
Proof.
  intros E -> HQ. apply runs_gets. rewrite (byrank_repr c s rs) by (done || lia).
  by replace (Z.to_nat _) with i by lia.
Qed.

Lemma step_byrank_deref c s rs r i p (Q : ssnode → t → Prop) :
  repr c s rs → r = Z.of_nat i + 1 → rs !! i = Some p → Q (run_node p) s →
  runs (rd (ss_GetByRank r) ≫= deref) s Q.
Proof.
  intros E Hr Hi HQ. apply runs_bind. eapply step_byrank; [done..|]. by rewrite Hi.
Qed.

Lemma step_count c s rs (Q : Z → t → Prop) :
  repr c s rs → Q (Z.of_nat (length rs)) s → runs (rd ss_GetCount) s Q.
Proof. intros E HQ. apply runs_gets. by rewrite (count_repr c s rs). Qed.

(** *** Splitting the runs at a number *)

Lemma runs_from_u32 lo rs : 0 ≤ lo → runs_from lo rs → Forall (λ r, is_u32 r.1) rs.
Proof.
  revert lo. induction rs as [|[f l] rs IH]; intros lo Hlo; [constructor|].
  intros (?&?&?&Hrs). constructor; [simpl; u32_lia|]. eapply IH; [|done]. lia.
Qed.

Lemma split_runs x rs :
  runs_from 0 rs → ∃ pre post, rs = pre ++ post ∧ below x pre ∧
    (above x post ∨ ∃ l post', post = (x, l) :: post' ∧ above x post').
Proof.
  intros Hrs. pose proof (runs_from_u32 0 rs ltac:(lia) Hrs) as Hu.
  revert Hrs Hu. assert (H0 : 0 ≤ 0) by lia. revert H0. generalize 0 at 2 3.
  induction rs as [|[f l] rs IH]; intros lo Hlo Hrs Hu.
  - exists [], []. split_and!; [done|constructor|left; constructor].
  - destruct Hrs as (?&?&?&Hrs). apply Forall_cons in Hu as [Hf Hu]. simpl in Hf.
    assert (Hab : ∀ y, y < l + 2 → above y rs).
    { intros y Hy. clear -Hrs Hu Hy. revert Hrs Hy. generalize (l + 2).
      induction Hu as [|[f' l'] rs Hf' _ IH]; [constructor|]. intros k (?&?&?&Hrs) Hy.
      constructor; [split; [done|simpl; lia]|]. eapply IH; [done|]. lia. }
    destruct (Z.lt_trichotomy f x) as [?|[->|?]].
    + destruct (IH (l + 2)) as (pre & post & -> & Hpre & Hpost); [lia|done|done|].
      exists ((f, l) :: pre), post. split_and!; [done|by constructor|done].
    + exists [], ((x, l) :: rs). split_and!; [done|constructor|].
      right. exists l, rs. split; [done|]. apply Hab. lia.
    + exists [], ((f, l) :: rs). split_and!; [done|constructor|].
      left. constructor; [done|]. apply Hab. lia.
Qed.

Lemma runs_lookup_order lo rs i j r r' :
  runs_from lo rs → rs !! i = Some r → rs !! j = Some r' → (i < j)%nat → r.2 + 2 ≤ r'.1.
Proof.
  intros Hrs Hi Hj Hij. pose proof (lookup_lt_Some _ _ _ Hj).
  rewrite <- (take_drop j rs) in Hrs. apply runs_from_app in Hrs as (_&_&Hab).
  apply Hab.
  - apply list_elem_of_lookup. exists i. by rewrite lookup_take_lt.
  - apply list_elem_of_lookup. exists 0%nat. by rewrite lookup_drop, Nat.add_0_r.
Qed.

Lemma runs_lookup_wf lo rs i r :
  runs_from lo rs → rs !! i = Some r → lo ≤ r.1 ≤ r.2 ∧ r.2 < W32.
Proof.
  intros Hrs Hi. apply list_elem_of_split_length in Hi as (a & b & -> & _).
  apply runs_from_app in Hrs as (_ & Hb & _). destruct r. simpl in *. lia.
Qed.

Lemma in_runs_lookup x rs :
  in_runs x rs ↔ ∃ i r, rs !! i = Some r ∧ r.1 ≤ x ≤ r.2.
Proof.
  unfold in_runs. rewrite Exists_exists. setoid_rewrite list_elem_of_lookup. naive_solver.
Qed.

(** ** Find *)

(** [find_at x rs n rank]: [n] is the run of [rs] that has [x] and [rank] its
    1-based position, or [n] is nil and [rank] the position [x] would have. *)
Inductive find_at (x : Z) (rs : list (Z * Z)) : option ssnode → Z → Prop :=
| find_in i r : rs !! i = Some r → r.1 ≤ x ≤ r.2 →
    find_at x rs (Some (run_node r)) (Z.of_nat i + 1)
| find_out i : (i <= length rs)%nat →
    (∀ k r, rs !! k = Some r → ((k < i)%nat → r.2 < x) ∧ ((i <= k)%nat → x < r.1)) →
    find_at x rs None (Z.of_nat i + 1).

Lemma find_out_split x pre post :
  (∀ r, r ∈ pre → r.2 < x) → above x post →
  find_at x (pre ++ post) None (Z.of_nat (length pre) + 1).
Proof.
  intros Hpre Hpost. constructor; [rewrite length_app; lia|]. intros k r Hk. split; intros Hlt.
  - rewrite lookup_app_l in Hk by done. apply Hpre, list_elem_of_lookup. eauto.
  - rewrite lookup_app_r in Hk by done. apply list_elem_of_lookup_2 in Hk.
    unfold above in Hpost. rewrite Forall_forall in Hpost. by apply Hpost.
Qed.

Lemma pre_before lo x pre pf pl post r :
  runs_from lo ((pre ++ [(pf, pl)]) ++ post) → pl < x → r ∈ pre ++ [(pf, pl)] → r.2 < x.
Proof.
  intros Hrs Hpl [Hr| ->%list_elem_of_singleton]%elem_of_app; [|done].
  apply runs_from_app in Hrs as (Hrs&_&_). apply runs_from_app in Hrs as (_&Hp&Hab).
  specialize (Hab r (pf, pl) Hr). rewrite list_elem_of_singleton in Hab.
  specialize (Hab eq_refl). simpl in *. lia.
Qed.

(** The positions next to a split. *)
Lemma lookup_prev {A} (pre : list A) p post : ((pre ++ [p]) ++ post) !! length pre = Some p.
Proof. rewrite <- app_assoc. apply lookup_app_length. Qed.

Lemma lookup_next {A} (pre : list A) q post :
  (pre ++ q :: post) !! Datatypes.S (length pre) = head post.
Proof.
  rewrite lookup_app_r by lia. rewrite Nat.sub_succ_l, Nat.sub_diag by lia. by destruct post.
Qed.

Ltac len_lia := rewrite ?length_app; cbn [length]; lia.

Lemma Find_spec c s rs x :
  repr c s rs → runs_from 0 rs → is_u32 x →
  runs (Find x) s (λ nr s', repr c s' rs ∧ find_at x rs nr.1 nr.2).
Proof.
  intros E Hrs Hx. unfold Find.
  destruct (split_runs x rs Hrs) as (pre & post & -> & Hpre & [Hpost|(l & post' & -> & Hpost)]).
  - mstep. eapply step_rank_absent; [done..|]. simpl.
    mstep. eapply step_add; [done..|]. intros s1 E1.
    mstep. eapply step_rank; [done..|].
    mstep. eapply step_remove; [done..|]. intros s2 E2.
    destruct (list_last_case pre) as [->|(pre' & [pf pl] & ->)].
    + simpl. mstep. split; [done|].
      apply (find_out_split x []); [intros ? ?%elem_of_nil; done|done].
    + rewrite (proj2 (Z.ltb_lt 1 _)) by len_lia. mstep.
      eapply (step_byrank_deref _ _ _ _ (length pre')); [done|len_lia|apply lookup_prev|]. simpl.
      destruct (Z.leb_spec x pl); mstep; (split; [done|]).
      * rewrite length_app. simpl.
        replace (Z.of_nat (length pre' + 1) + 1 - 1) with (Z.of_nat (length pre') + 1) by lia.
        apply (find_in x _ _ (pf, pl)); [apply lookup_prev|].
        simpl. split; [|done]. apply Forall_app in Hpre as [_ Hp].
        apply Forall_cons in Hp as [[_ ?] _]. simpl in *. lia.
      * apply find_out_split; [|done]. intros r Hr. eapply pre_before; eauto.
  - mstep. eapply step_rank; [done..|].
    rewrite (proj2 (Z.ltb_lt 0 _)) by lia.
    mstep. eapply step_byrank; [done|reflexivity|]. rewrite lookup_app_length.
    mstep. split; [done|]. apply (find_in x _ _ (x, l)); [apply lookup_app_length|].
    apply runs_from_app in Hrs as (_ & Hrs & _). simpl in *. lia.
Qed.

(** ** The self check never fails on a well formed set *)

Lemma step_guard b msg s (Q : unit → t → Prop) : b = false → Q tt s → runs (guard b msg) s Q.
Proof. by intros ->. Qed.

Lemma first_of_run r : is_u32 r.1 → first_of (run_node r) = r.1.
Proof. apply u32_small. Qed.

Lemma runs_lookup_u32 rs i r : runs_from 0 rs → rs !! i = Some r → is_u32 r.1 ∧ is_u32 r.2.
Proof. intros Hrs Hi. pose proof (runs_lookup_wf _ _ _ _ Hrs Hi). unfold is_u32. lia. Qed.

Lemma check_hard_spec c s rs fuel i p :
  repr c s rs → runs_from 0 rs → rs !! i = Some p →
  (length rs < fuel + S i)%nat →
  runs (check_hard fuel (Z.of_nat i + 2) (Z.of_nat (length rs)) (run_node p)) s
    (λ n s', s' = s ∧ ∃ j q, rs !! j = Some q ∧ n = run_node q).
Proof.
  intros E Hrs. revert i p. induction fuel as [|fuel IH]; intros i p Hi Hf; simpl.
  { apply lookup_lt_Some in Hi. lia. }
  destruct (Z.ltb_spec (Z.of_nat (length rs)) (Z.of_nat i + 2)) as [|Hlt]; mstep.
  { split; [done|]. eauto. }
  destruct (lookup_lt_is_Some_2 rs (S i)) as [q Hq]; [lia|].
  apply (step_byrank c s rs _ (S i)); [done|lia|]. rewrite Hq. simpl.
  pose proof (runs_lookup_order _ _ _ _ _ _ Hrs Hi Hq ltac:(lia)).
  pose proof (runs_lookup_wf _ _ _ _ Hrs Hq). pose proof (runs_lookup_wf _ _ _ _ Hrs Hi).
  destruct (runs_lookup_u32 _ _ _ Hrs Hq).
  rewrite first_of_run by done. simpl.
  mstep. apply step_guard; [apply Z.leb_gt; u32_lia|].
  mstep. apply step_guard; [apply Z.ltb_ge; lia|].
  replace (Z.of_nat i + 2 + 1) with (Z.of_nat (S i) + 2) by lia. apply IH; [done|lia].
Qed.

Lemma Check_spec c s rs hard :
  repr c s rs → runs_from 0 rs → runs (Check hard) s (λ _ s', s' = s).
Proof.
  intros E Hrs. unfold Check.
  mstep. eapply step_count; [done|]. mstep. apply (step_byrank c s rs _ 0); [done..|].
  mstep. apply (runs_conseq _ _ (λ _ s', s' = s)).
  - destruct rs as [|p rs'] eqn:Hp; [by apply step_guard|].
    rewrite (proj2 (Z.eqb_neq _ 0)) by (simpl; lia). rewrite <- Hp in *.
    assert (Hq0 : rs !! 0%nat = Some p) by by subst. rewrite Hq0. cbn [fmap option_fmap option_map].
    assert (Hok : ∀ j q, rs !! j = Some q → (Value (run_node q) <? first_of (run_node q)) = false).
    { intros j q Hq. destruct (runs_lookup_u32 _ _ _ Hrs Hq). rewrite first_of_run by done.
      pose proof (runs_lookup_wf _ _ _ _ Hrs Hq). apply Z.ltb_ge. simpl. lia. }
    mstep. apply step_guard; [by apply (Hok 0%nat)|]. mstep.
    apply (runs_conseq _ _ (λ n s', s' = s ∧ ∃ j q, rs !! j = Some q ∧ n = run_node q)).
    + destruct hard; [apply (check_hard_spec c s rs _ 0 p); [done..|lia]|].
      assert (Hn : (0 < length rs)%nat) by (subst; simpl; lia).
      destruct (lookup_lt_is_Some_2 rs (length rs - 1)%nat) as [q Hq]; [lia|].
      mstep. apply (step_byrank c s rs _ (length rs - 1)); [done|lia|]. rewrite Hq. simpl.
      mstep. eauto.
    + intros n s' (-> & j & q & Hj & ->). apply step_guard; [by apply (Hok j)|done].
  - intros _ s' ->. mstep. apply (step_byrank c s rs _ (length rs)); [done|lia|].
    rewrite lookup_ge_None_2 by lia. by apply step_guard.
Qed.

Lemma check_level_spec c s rs (Q : unit → t → Prop) :
  repr c s rs → runs_from 0 rs → Q tt s → runs check_level s Q.
Proof.
  intros E Hrs HQ. unfold check_level. apply runs_bind, runs_get. case_match; [|done].
  eapply runs_conseq; [by eapply Check_spec|]. by intros [] s' ->.
Qed.

(** ** Add *)

(** [s] holds exactly the numbers of [P]. *)
Definition holds (c : Z) (s : t) (P : Z → Prop) : Prop :=
  ∃ rs, repr c s rs ∧ runs_from 0 rs ∧ ∀ y, in_runs y rs ↔ P y.

(** Runs around a given one. *)
Lemma runs_from_mid lo a f l b :
  runs_from lo (a ++ (f, l) :: b) ↔
  runs_from lo a ∧ Forall (λ r, r.2 + 2 ≤ f) a ∧ lo ≤ f ∧ f ≤ l ∧ l < W32 ∧ runs_from (l + 2) b.
Proof.
  revert lo. induction a as [|[f' l'] a IH]; intros lo; simpl; [rewrite Forall_nil; tauto|].
  rewrite IH, Forall_cons. simpl. intuition lia.
Qed.

Lemma above_runs x lo rs : 0 ≤ lo → x < lo → runs_from lo rs → above x rs.
Proof.
  intros H0 Hlo Hrs. apply Forall_forall. intros r Hr.
  pose proof (runs_from_u32 _ _ H0 Hrs) as Hu. rewrite Forall_forall in Hu. split; [by apply Hu|].
  apply list_elem_of_lookup in Hr as [i Hi].
  destruct (runs_lookup_wf _ _ _ _ Hrs Hi). lia.
Qed.

Lemma above_run_start x lo f l rs :
  runs_from lo ((f, l) :: rs) → x ≤ l → 0 ≤ lo → above x rs.
Proof. intros (?&?&?&Hrs) ??. eapply above_runs; [|..|done]; lia. Qed.

Lemma below_runs x lo rs : 0 ≤ lo → runs_from lo rs → Forall (λ r, r.2 < x) rs → below x rs.
Proof.
  intros H0 Hrs Hx. apply Forall_forall. intros r Hr.
  pose proof (runs_from_u32 _ _ H0 Hrs) as Hu. rewrite Forall_forall in Hu, Hx. split; [by apply Hu|].
  specialize (Hx _ Hr). apply list_elem_of_lookup in Hr as [i Hi].
  destruct (runs_lookup_wf _ _ _ _ Hrs Hi). lia.
Qed.

Lemma ends_weaken x y (rs : list (Z * Z)) :
  Forall (λ r, r.2 + 2 ≤ x) rs → x ≤ y + 1 → Forall (λ r, r.2 < y) rs.
Proof. intros Hrs ?. eapply Forall_impl; [done|]. simpl. lia. Qed.

Lemma ends_mono x y (rs : list (Z * Z)) :
  Forall (λ r, r.2 + 2 ≤ x) rs → x ≤ y → Forall (λ r, r.2 + 2 ≤ y) rs.
Proof. intros Hrs ?. eapply Forall_impl; [done|]. simpl. lia. Qed.

#[local] Hint Resolve ends_weaken ends_mono : kos.
Ltac side := first [done | lia | u32_lia | (eapply below_runs; [|done|eapply ends_weaken; [done|]]; lia)
  | (eapply above_runs; [|..|done]; lia)].
Lemma below_snoc x pre f l : below x pre → is_u32 f → f < x → below x (pre ++ [(f, l)]).
Proof. intros. apply Forall_app. split; [done|]. apply Forall_singleton. done. Qed.
Lemma below_mono x y rs : below x rs → x ≤ y → below y rs.
Proof. intros ??. eapply Forall_impl; [done|]. simpl. intuition lia. Qed.
Lemma runs_from_lower lo rs lo' : runs_from lo rs → lo' ≤ lo → runs_from lo' rs.
Proof. intros ??. by eapply runs_from_weaken. Qed.
Ltac step_with lem := eapply lem; [| | |eassumption|]; [side..|].
Ltac runs_tac := rewrite ?runs_from_mid, ?Forall_app, ?Forall_cons; simpl;
  intuition (eauto 3 using runs_from_lower with lia kos).
Ltac in_runs_tac := intros y; pose proof (in_runs_nil y); rewrite ?in_runs_app, ?in_runs_cons, ?in_runs_app, ?in_runs_cons; intuition lia.

Section Merge.
Variables (c x : Z) (pre post : list (Z * Z)).
Hypotheses (Hx : is_u32 x) (Hpre : runs_from 0 pre).
Let adds (rs : list (Z * Z)) (y : Z) : Prop := y = x ∨ in_runs y rs.

Lemma merge_none s :
  Forall (λ r, r.2 + 2 ≤ x) pre → runs_from (x + 2) post →
  repr c s (pre ++ (x, x) :: post) → holds c s (adds (pre ++ post)).
Proof using Hpre Hx.
  intros Hend Hpost E. eexists. split; [exact E|]. unfold is_u32 in Hx. split; [runs_tac|].
  unfold adds. in_runs_tac.
Qed.

Lemma merge_next s nl :
  Forall (λ r, r.2 + 2 ≤ x) pre → runs_from (x + 1) ((x + 1, nl) :: post) →
  repr c s (pre ++ (x, x) :: (x + 1, nl) :: post) →
  runs (upd (ss_Remove (fmt_08x (x + 1)));; upd (ss_AddOrUpdate (fmt_08x x) x nl)) s
    (λ _ s', holds c s' (adds (pre ++ (x + 1, nl) :: post))).
Proof using Hpre Hx.
  intros Hend (_&?&?&Hpost) E. unfold is_u32 in Hx. mstep.
  apply (step_remove c _ (x + 1) nl (pre ++ [(x, x)]) post).
  - u32_lia.
  - apply below_snoc; side.
  - side.
  - by rewrite <- app_assoc.
  - intros s1 E1. rewrite <- app_assoc in E1. step_with step_update.
    intros s2 E2. eexists. split; [exact E2|]. split; [runs_tac|]. unfold adds. in_runs_tac.
Qed.

Lemma merge_prev s pf :
  Forall (λ r, r.2 + 2 ≤ pf) pre → 0 ≤ pf ≤ x - 1 → runs_from (x + 2) post →
  repr c s ((pre ++ [(pf, x - 1)]) ++ (x, x) :: post) →
  runs (upd (ss_Remove (fmt_08x x));; upd (ss_AddOrUpdate (fmt_08x pf) pf x)) s
    (λ _ s', holds c s' (adds ((pre ++ [(pf, x - 1)]) ++ post))).
Proof using Hpre Hx.
  intros Hend ? Hpost E. unfold is_u32 in Hx. mstep.
  eapply step_remove; [done| |side|done|].
  - apply below_snoc; side.
  - intros s1 E1. rewrite <- app_assoc in E1. step_with step_update.
    intros s2 E2. eexists. split; [exact E2|]. split; [runs_tac|]. unfold adds. in_runs_tac.
Qed.

Lemma merge_both s pf nl :
  Forall (λ r, r.2 + 2 ≤ pf) pre → 0 ≤ pf ≤ x - 1 → runs_from (x + 1) ((x + 1, nl) :: post) →
  repr c s ((pre ++ [(pf, x - 1)]) ++ (x, x) :: (x + 1, nl) :: post) →
  runs (upd (ss_Remove (fmt_08x x));; upd (ss_Remove (fmt_08x (x + 1)));;
        upd (ss_AddOrUpdate (fmt_08x pf) pf nl)) s
    (λ _ s', holds c s' (adds ((pre ++ [(pf, x - 1)]) ++ (x + 1, nl) :: post))).
Proof using Hpre Hx.
  intros Hend ? (_&?&?&Hpost) E. unfold is_u32 in Hx.
  assert (Hb : below x (pre ++ [(pf, x - 1)])).
  { apply below_snoc; side. }
  mstep. eapply step_remove; [done|done| |done|].
  { constructor; [simpl; u32_lia|side]. }
  intros s1 E1. mstep. eapply (step_remove c _ (x + 1) nl _ post); [u32_lia| |side|done|].
  { eapply below_mono; [done|lia]. }
  intros s2 E2. rewrite <- app_assoc in E2. step_with step_update.
  intros s3 E3. eexists. split; [exact E3|]. split; [runs_tac|]. unfold adds. in_runs_tac.
Qed.
End Merge.

(** Whether the run after [x] starts right behind it. *)
Definition next_adjacent (x : Z) (n : option ssnode) : bool :=
  match n with Some n => x +₃₂ 1 =? Score n | None => false end.

Lemma next_adjacent_head x post :
  is_u32 x → runs_from (x + 1) post →
  if next_adjacent x (run_node <$> head post)
  then ∃ nl post', post = (x + 1, nl) :: post'
  else runs_from (x + 2) post.
Proof.
  intros Hx Hpost. destruct post as [|[nf nl] post]; [done|]. simpl in *.
  destruct (Z.eqb_spec (x +₃₂ 1) nf) as [<-|].
  - rewrite u32_small by u32_lia. eauto.
  - destruct Hpost as (?&?&?&?). split_and!; [u32_lia|done..].
Qed.

Lemma merge_right c s x pre post :
  is_u32 x → runs_from 0 pre → Forall (λ r, r.2 + 2 ≤ x) pre → runs_from (x + 1) post →
  repr c s (pre ++ (x, x) :: post) →
  runs (if next_adjacent x (run_node <$> head post) then
          next ← deref (run_node <$> head post);
          upd (ss_Remove (Key next));;
          upd (ss_AddOrUpdate (fmt_08x x) x (Value next))
        else mret tt) s
    (λ _ s', holds c s' (λ y, y = x ∨ in_runs y (pre ++ post))).
Proof.
  intros Hx Hpre Hend Hpost E. pose proof (next_adjacent_head x post Hx Hpost) as Hn.
  destruct (next_adjacent _ _).
  - destruct Hn as (nl & post' & ->). simpl. mstep. by apply merge_next.
  - mstep. by apply merge_none.
Qed.

Lemma add_merge_spec c s pre post x :
  repr c s (pre ++ (x, x) :: post) → runs_from 0 (pre ++ post) → is_u32 x →
  Forall (λ r, r.2 < x) pre → runs_from (x + 1) post →
  runs (add_merge x (fmt_08x x) (Z.of_nat (length pre) + 1) (run_node <$> last pre)
          (match last pre with Some p => p.2 +₃₂ 1 =? x | None => false end)) s
    (λ b s', b = true ∧ holds c s' (λ y, y = x ∨ in_runs y (pre ++ post))).
Proof.
  intros E Hrs Hx Hpre Hpost. unfold add_merge.
  mstep. eapply (step_byrank c s _ _ (Datatypes.S (length pre))); [done|lia|]. rewrite lookup_next.
  change (match run_node <$> head post with Some n => x +₃₂ 1 =? Score n | None => false end)
    with (next_adjacent x (run_node <$> head post)).
  apply runs_bind, (runs_conseq _ _ (λ _ s', holds c s' (λ y, y = x ∨ in_runs y (pre ++ post))));
    cycle 1.
  { intros _ s' (rs' & E' & Hrs' & HP). mstep. eapply check_level_spec; [done..|]. mstep.
    split; [done|]. by exists rs'. }
  apply runs_from_app in Hrs as (Hp & _ & Hpp).
  destruct (list_last_case pre) as [->|(pre' & [pf pl] & ->)].
  { simpl. by apply (merge_right c s x [] post). }
  rewrite last_snoc. simpl. apply Forall_app in Hpre as [_ [? _]%Forall_cons]. simpl in *.
  pose proof Hp as (Hp' & Hend & ?&?&?&_)%runs_from_mid.
  destruct (Z.eqb_spec (pl +₃₂ 1) x) as [Ex|Ex].
  - assert (pl = x - 1) as -> by u32_lia. simpl. mstep.
    pose proof (next_adjacent_head x post Hx Hpost) as Hn. destruct (next_adjacent _ _).
    + destruct Hn as (nl & post' & ->). simpl. by apply merge_both.
    + by apply merge_prev.
  - apply merge_right; [done..| |done|done]. apply Forall_app. split.
    + eapply ends_mono; [done|]. lia.
    + constructor; [simpl; u32_lia|done].
Qed.

Lemma holds_same c s rs (P : Z → Prop) :
  repr c s rs → runs_from 0 rs → (∀ y, in_runs y rs ↔ P y) → holds c s P.
Proof. intros. by exists rs. Qed.

(** Where a number that is not the start of a run falls. *)
Lemma in_runs_prev pre pf pl post x :
  runs_from 0 ((pre ++ [(pf, pl)]) ++ post) → pf < x → above x post →
  in_runs x ((pre ++ [(pf, pl)]) ++ post) ↔ x ≤ pl.
Proof.
  rewrite <- app_assoc. simpl. intros (Hpre&Hend&?&?&?&?)%runs_from_mid ? Hab.
  rewrite in_runs_app, in_runs_cons. split; [|lia]. intros [Hin|[?|Hin]]; [|lia|].
  - apply Exists_exists in Hin as (r & Hr & ?). rewrite Forall_forall in Hend.
    specialize (Hend _ Hr). simpl in *. lia.
  - apply Exists_exists in Hin as (r & Hr & ?). unfold above in Hab. rewrite Forall_forall in Hab.
    specialize (Hab _ Hr). lia.
Qed.

Lemma in_runs_above x post : above x post → ¬ in_runs x post.
Proof.
  intros Hab Hin. apply Exists_exists in Hin as (r & Hr & ?). unfold above in Hab.
  rewrite Forall_forall in Hab. specialize (Hab _ Hr). lia.
Qed.

Lemma runs_from_above x k rs : runs_from k rs → above x rs → runs_from (x + 1) rs.
Proof.
  intros Hrs Hab. eapply runs_from_raise; [done|]. eapply Forall_impl; [done|]. simpl. lia.
Qed.

Lemma Add_runs c s rs x :
  repr c s rs → runs_from 0 rs → is_u32 x →
  runs (Add x) s (λ b s', holds c s' (λ y, y = x ∨ in_runs y rs) ∧ (b = true ↔ ¬ in_runs x rs)).
Proof.
  intros E Hrs Hx. unfold Add.
  destruct (split_runs x rs Hrs) as (pre & post & -> & Hpre & [Hpost|(l & post' & -> & Hpost)]).
  - mstep. eapply step_key_absent; [done..|]. mstep. eapply step_add; [done..|]. intros s1 E1.
    mstep. eapply step_rank; [done..|].
    assert (Hpost' : runs_from (x + 1) post).
    { apply runs_from_app in Hrs as (_ & Hrs & _). by eapply runs_from_above. }
    destruct (list_last_case pre) as [->|(pre' & [pf pl] & ->)].
    + eapply runs_conseq; [by apply (add_merge_spec c s1 [] post x)|].
      intros b s' [-> Hh]. split; [done|]. split; [|done]. by intros _ ?%in_runs_above.
    + rewrite (proj2 (Z.ltb_lt 1 _)) by len_lia. mstep.
      eapply (step_byrank_deref _ _ _ _ (length pre')); [done|len_lia|apply lookup_prev|].
      simpl. apply Forall_app in Hpre as Hpre2. destruct Hpre2 as [_ [[_ ?] _]%Forall_cons]. simpl in *.
      pose proof (in_runs_prev _ _ _ _ _ Hrs ltac:(eassumption) Hpost) as Hin.
      destruct (Z.leb_spec x pl).
      * mstep. eapply step_remove; [done..|]. intros s2 E2. mstep. split; [|naive_solver].
        eapply holds_same; [done..|]. intros y. naive_solver.
      * pose proof (add_merge_spec c s1 (pre' ++ [(pf, pl)]) post x E1 Hrs Hx) as Hm.
        rewrite last_snoc in Hm. simpl in Hm.
        eapply runs_conseq; [apply Hm; [|done]|].
        { apply Forall_forall. intros r Hr. by eapply pre_before. }
        intros b s' [-> Hh]. split; [done|]. split; [|done]. intros _. rewrite Hin. lia.
  - mstep. eapply step_key; [done..|]. mstep.
    apply runs_from_mid in Hrs as Hmid.
    assert (in_runs x (pre ++ (x, l) :: post')).
    { rewrite in_runs_app, in_runs_cons. intuition lia. }
    split; [|naive_solver]. eapply holds_same; [done..|]. intros y. naive_solver.
Qed.

(** ** Remove *)

(** Dropping the first number of a run. *)
Lemma remove_head c s x l pre post :
  runs_from 0 (pre ++ (x, l) :: post) → is_u32 x → repr c s (pre ++ post) →
  runs (if negb (x =? l) then
          let y := x +₃₂ 1 in upd (ss_AddOrUpdate (fmt_08x y) y l)
        else mret tt) s
    (λ _ s', holds c s' (λ y, y ≠ x ∧ in_runs y (pre ++ (x, l) :: post))).
Proof.
  intros (Hpre&Hend&?&?&?&Hpost)%runs_from_mid Hx E.
  pose proof (λ y, runs_from_in _ _ y Hpost) as Hin.
  assert (Hpin : ∀ y, in_runs y pre → y < x).
  { intros y (r & Hr & ?)%Exists_exists. rewrite Forall_forall in Hend.
    specialize (Hend _ Hr). simpl in *. lia. }
  destruct (Z.eqb_spec x l) as [->|Hne]; simpl.
  - mstep. eexists. split; [exact E|]. split.
    + apply runs_from_app. split; [done|]. split; [eapply runs_from_weaken; [|done]; lia|].
      intros r r' Hr Hr'. rewrite Forall_forall in Hend. specialize (Hend _ Hr). simpl in Hend.
      apply list_elem_of_lookup in Hr' as [i Hi].
      pose proof (runs_lookup_wf _ _ _ _ Hpost Hi). lia.
    + intros y. specialize (Hin y). specialize (Hpin y). rewrite !in_runs_app, in_runs_cons.
      intuition lia.
  - rewrite u32_small by u32_lia. step_with step_add. intros s1 E1.
    eexists. split; [exact E1|]. split; [runs_tac|].
    intros y. specialize (Hin y). specialize (Hpin y). rewrite !in_runs_app, !in_runs_cons.
    intuition lia.
Qed.

(** Dropping a number in the middle or at the end of a run. *)
Lemma remove_inner c s x pf pl pre post :
  runs_from 0 (pre ++ (pf, pl) :: post) → pf < x ≤ pl → repr c s (pre ++ (pf, pl) :: post) →
  runs (upd (ss_AddOrUpdate (fmt_08x pf) pf (x -₃₂ 1));;
        (if x <? pl then
           let y := x +₃₂ 1 in upd (ss_AddOrUpdate (fmt_08x y) y pl)
         else mret tt)) s
    (λ _ s', holds c s' (λ y, y ≠ x ∧ in_runs y (pre ++ (pf, pl) :: post))).
Proof.
  intros Hrs Hx E. apply runs_from_mid in Hrs as (Hpre&Hend&?&?&?&Hpost).
  pose proof (λ y, runs_from_in _ _ y Hpost) as Hin.
  assert (Hpin : ∀ y, in_runs y pre → y < pf).
  { intros y (r & Hr & ?)%Exists_exists. rewrite Forall_forall in Hend.
    specialize (Hend _ Hr). simpl in *. lia. }
  rewrite (u32_small (x - 1)) by u32_lia. mstep. step_with step_update. intros s1 E1.
  destruct (Z.ltb_spec x pl) as [Hlt|].
  - rewrite u32_small by u32_lia.
    apply (step_add c _ (x + 1) pl (pre ++ [(pf, x - 1)]) post).
    + u32_lia.
    + apply below_snoc; [|u32_lia..]. side.
    + side.
    + by rewrite <- app_assoc.
    + intros s2 E2. rewrite <- app_assoc in E2. simpl in E2.
      eexists. split; [exact E2|]. split; [runs_tac|].
      intros y. specialize (Hin y). specialize (Hpin y). simpl.
      rewrite !in_runs_app, !in_runs_cons. intuition lia.
  - mstep. eexists. split; [exact E1|]. split; [runs_tac|].
    intros y. specialize (Hin y). specialize (Hpin y). rewrite !in_runs_app, !in_runs_cons.
    intuition lia.
Qed.

Lemma innerRemove_runs c s rs x :
  repr c s rs → runs_from 0 rs → is_u32 x →
  runs (innerRemove x) s (λ b s', holds c s' (λ y, y ≠ x ∧ in_runs y rs) ∧
    (b = true ↔ in_runs x rs)).
Proof.
  intros E Hrs Hx. unfold innerRemove.
  destruct (split_runs x rs Hrs) as (pre & post & -> & Hpre & [Hpost|(l & post' & -> & Hpost)]).
  - mstep. eapply step_key_absent; [done..|]. mstep. eapply step_add; [done..|]. intros s1 E1.
    mstep. eapply step_rank; [done..|]. mstep. eapply step_remove; [done..|]. intros s2 E2.
    assert (Hnone : ¬ in_runs x (pre ++ post) →
      holds c s2 (λ y, y ≠ x ∧ in_runs y (pre ++ post)) ∧ (false = true ↔ in_runs x (pre ++ post))).
    { intros Hn. split; [|naive_solver]. eapply holds_same; [done..|]. intros y.
      split; [|tauto]. intros Hy. split; [|done]. by intros ->. }
    destruct (list_last_case pre) as [->|(pre' & [pf pl] & ->)].
    + apply runs_ret, Hnone. by apply in_runs_above.
    + rewrite (proj2 (Z.ltb_lt 1 _)) by len_lia. mstep.
      eapply (step_byrank_deref _ _ _ _ (length pre')); [done|len_lia|apply lookup_prev|].
      simpl. apply Forall_app in Hpre as [_ [[_ ?] _]%Forall_cons]. simpl in *.
      pose proof (in_runs_prev _ _ _ _ _ Hrs ltac:(eassumption) Hpost) as Hin.
      destruct (Z.ltb_spec pl x).
      * mstep. apply Hnone. rewrite Hin. lia.
      * rewrite <- app_assoc in *. simpl in *.
        pose proof (remove_inner c s2 x pf pl pre' post Hrs ltac:(lia) E2) as Hr.
        apply runs_assoc, runs_bind. eapply runs_conseq; [exact Hr|]. intros ? s3 Hh.
        mstep. split; [done|]. rewrite Hin. intuition lia.
  - mstep. eapply step_key; [done..|]. mstep. eapply step_remove; [done..|]. intros s1 E1.
    mstep. eapply runs_conseq; [by apply (remove_head c s1 x l pre post')|].
    intros ? s2 Hh. mstep. split; [done|]. apply runs_from_mid in Hrs.
    rewrite in_runs_app, in_runs_cons. intuition lia.
Qed.

Lemma Remove_runs c s rs x :
  repr c s rs → runs_from 0 rs → is_u32 x →
  runs (Remove x) s (λ b s', holds c s' (λ y, y ≠ x ∧ in_runs y rs) ∧ (b = true ↔ in_runs x rs)).
Proof.
  intros E Hrs Hx. unfold Remove. apply runs_bind.
  eapply runs_conseq; [by eapply innerRemove_runs|]. intros b s' [(rs' & E' & Hrs' & HP) Hb].
  mstep. eapply check_level_spec; [done..|]. mstep. split; [|done]. by exists rs'.
Qed.

(** ** AddOneInRange *)

(** [find_pos x rs i on]: [x] is in run [i] (when [on]), or falls between the
    runs [i - 1] and [i]. *)
Record find_pos (x : Z) (rs : list (Z * Z)) (i : nat) (on : bool) : Prop := FindPos {
  fp_len : (i <= length rs)%nat;
  fp_before k r : rs !! k = Some r → (k < i)%nat → r.2 < x;
  fp_at : if on then ∃ r, rs !! i = Some r ∧ r.1 ≤ x ≤ r.2
          else ∀ k r, rs !! k = Some r → (i <= k)%nat → x < r.1
}.

Lemma find_at_pos x rs n rank :
  runs_from 0 rs → find_at x rs n rank →
  ∃ i on, find_pos x rs i on ∧ rank = Z.of_nat i + 1 ∧
    n = if on : bool then run_node <$> rs !! i else None.
Proof.
  intros Hrs [i r Hi Hr|i Hi Hk].
  - exists i, true. rewrite Hi. split_and!; [|done|done]. split; [|intros k q Hk Hlt|eauto].
    + apply lookup_lt_Some in Hi. lia.
    + pose proof (runs_lookup_order _ _ _ _ _ _ Hrs Hk Hi Hlt). lia.
  - exists i, false. split_and!; [|done|done]. split; [done| |]; intros k r Hr ?; by apply (Hk k r Hr).
Qed.

Lemma find_pos_unique x rs i on i' on' :
  runs_from 0 rs → find_pos x rs i on → find_pos x rs i' on' → i = i' ∧ on = on'.
Proof.
  intros Hrs. assert (Hlt : ∀ i on i' on', find_pos x rs i on → find_pos x rs i' on' → ¬ (i < i')%nat).
  { clear i on i' on'. intros i on i' on' [_ _ Hat] [Hlen Hb _] Hlt.
    destruct (lookup_lt_is_Some_2 rs i) as [r Hi]; [lia|]. specialize (Hb _ _ Hi Hlt).
    pose proof (runs_lookup_wf _ _ _ _ Hrs Hi). destruct on.
    - destruct Hat as (q & Hq & ?). simplify_eq. lia.
    - specialize (Hat _ _ Hi ltac:(lia)). lia. }
  intros H1 H2. assert (i = i') as ->.
  { pose proof (Hlt _ _ _ _ H1 H2). pose proof (Hlt _ _ _ _ H2 H1). lia. }
  split; [done|]. destruct H1 as [_ _ H1], H2 as [_ _ H2].
  destruct on, on'; [done| | |done].
  - destruct H1 as (r & Hr & ?). specialize (H2 _ _ Hr ltac:(lia)). lia.
  - destruct H2 as (r & Hr & ?). specialize (H1 _ _ Hr ltac:(lia)). lia.
Qed.

Lemma find_pos_total x rs : runs_from 0 rs → ∃ i on, find_pos x rs i on.
Proof.
  intros Hrs. destruct (decide (Exists (λ r : Z * Z, x ≤ r.2) rs)) as [Hex|Hno].
  - apply (Exists_exists _ rs) in Hex as (r & Hr & Hle).
    destruct (list_find_elem_of (λ r : Z * Z, x ≤ r.2) rs r Hr Hle) as ([i q] & Hf).
    apply list_find_Some in Hf as (Hi & Hq & Hb).
    assert (Hbefore : ∀ k r, rs !! k = Some r → (k < i)%nat → r.2 < x).
    { intros k p Hk Hlt. specialize (Hb k p Hk Hlt). lia. }
    pose proof (lookup_lt_Some _ _ _ Hi).
    exists i, (bool_decide (q.1 ≤ x)). split; [lia|done|]. case_bool_decide; [eauto|].
    intros k p Hk Hle'. destruct (decide (k = i)) as [->|]; [simplify_eq; lia|].
    pose proof (runs_lookup_order _ _ _ _ _ _ Hrs Hi Hk ltac:(lia)).
    pose proof (runs_lookup_wf _ _ _ _ Hrs Hi). lia.
  - apply not_Exists_Forall in Hno; [|apply _]. exists (length rs), false. split; [done| |].
    + intros k r Hk _. rewrite Forall_lookup in Hno. specialize (Hno _ _ Hk). simpl in Hno. lia.
    + intros k r Hk ?. apply lookup_lt_Some in Hk. lia.
Qed.

Lemma find_pos_in x rs i on : runs_from 0 rs → find_pos x rs i on → (on = true ↔ in_runs x rs).
Proof.
  intros Hrs [_ Hb Hat]. rewrite in_runs_lookup. destruct on; [naive_solver|].
  split; [done|]. intros (k & r & Hk & ?). destruct (decide (k < i)%nat) as [Hlt|].
  - specialize (Hb _ _ Hk Hlt). lia.
  - specialize (Hat _ _ Hk ltac:(lia)). lia.
Qed.

Lemma Find_runs c s rs x i on :
  repr c s rs → runs_from 0 rs → is_u32 x → find_pos x rs i on →
  runs (Find x) s (λ nr s', repr c s' rs ∧
    nr = (if on then run_node <$> rs !! i else None, Z.of_nat i + 1)).
Proof.
  intros E Hrs Hx Hp. eapply runs_conseq; [by eapply Find_spec|].
  intros [n rank] s' [E' Hf]. split; [done|]. apply find_at_pos in Hf as (i' & on' & Hp' & Hr & Hn);
    [|done]. simpl in *. by destruct (find_pos_unique _ _ _ _ _ _ Hrs Hp Hp') as [<- <-]; subst.
Qed.

(** The gaps between the runs that meet [min, max].  Gap [p] lies before run
    [p]; [min] is at position [i] and [max] at [j]. *)
Section Gaps.
Variables (rs : list (Z * Z)) (min max : Z) (i j : nat) (a b : bool).
Hypotheses (Hrs : runs_from 0 rs) (Hmin : is_u32 min) (Hmax : is_u32 max) (Hle : min ≤ max).
Hypotheses (Hi : find_pos min rs i a) (Hj : find_pos max rs j b).

Definition gap_lo (p : nat) : Z :=
  if decide (p = i) then min
  else match rs !! (p - 1)%nat with Some r => r.2 + 1 | None => 0 end.
Definition gap_hi (p : nat) : Z :=
  if decide (p = j) then
    if b then match rs !! p with Some r => r.1 - 1 | None => 0 end else max
  else match rs !! p with Some r => r.1 - 1 | None => 0 end.

Lemma positions_ordered : (i <= j)%nat ∧ (i = j → a = true → b = true).
Proof using Hi Hj Hle Hrs.
  destruct Hi as [Hil Hib Hia], Hj as [Hjl Hjb Hja]. split.
  - destruct (decide (i <= j)%nat) as [|Hn]; [done|].
    destruct (lookup_lt_is_Some_2 rs j) as [r Hr]; [lia|].
    specialize (Hib _ _ Hr ltac:(lia)). pose proof (runs_lookup_wf _ _ _ _ Hrs Hr). destruct b.
    + destruct Hja as (q & Hq & ?). simplify_eq. lia.
    + specialize (Hja _ _ Hr ltac:(lia)). lia.
  - intros Heq Ha. destruct b; [done|]. subst. destruct Hia as (r & Hr & ?).
    specialize (Hja _ _ Hr ltac:(lia)). lia.
Qed.

Lemma gap_free p :
  (i + Nat.b2n a <= p <= j)%nat →
  min ≤ gap_lo p ∧ gap_lo p ≤ gap_hi p ∧ gap_hi p ≤ max ∧
  ∀ y, gap_lo p ≤ y ≤ gap_hi p → ¬ in_runs y rs.
Proof using Hi Hj Hle Hrs.
  intros Hp. destruct Hi as [Hil Hib Hia], Hj as [Hjl Hjb Hja].
  assert (Hlo : min ≤ gap_lo p ≤ max ∧ ∀ k r, rs !! k = Some r → (k < p)%nat → r.2 < gap_lo p).
  { unfold gap_lo. destruct (decide (p = i)) as [->|]; [split; [lia|done]|].
    destruct (lookup_lt_is_Some_2 rs (p - 1)) as [q Hq]; [lia|]. rewrite Hq.
    specialize (Hjb _ _ Hq ltac:(lia)). pose proof (runs_lookup_wf _ _ _ _ Hrs Hq). split.
    - split; [|lia]. destruct a.
      + destruct Hia as (r & Hr & ?). destruct (decide (p - 1 = i)%nat) as [E|]; [simplify_eq; lia|].
        pose proof (runs_lookup_order _ _ _ _ _ _ Hrs Hr Hq ltac:(lia)). lia.
      + specialize (Hia _ _ Hq ltac:(lia)). lia.
    - intros k r Hr Hk. destruct (decide (k = p - 1)%nat) as [->|]; [simplify_eq; lia|].
      pose proof (runs_lookup_order _ _ _ _ _ _ Hrs Hr Hq ltac:(lia)). lia. }
  assert (Hhi : gap_lo p ≤ gap_hi p ≤ max ∧ ∀ k r, rs !! k = Some r → (p <= k)%nat → gap_hi p < r.1).
  { destruct Hlo as [Hlo1 Hlo2].
    destruct (decide (p = j ∧ b = false)) as [[-> Hb]|Hn].
    { unfold gap_hi. rewrite decide_True, Hb by done. rewrite Hb in Hja. split; [lia|done]. }
    assert (∃ r, rs !! p = Some r ∧ r.1 ≤ max) as (r & Hr & Hrm).
    { destruct (decide (p = j)) as [->|].
      - destruct b; [naive_solver|tauto].
      - destruct (lookup_lt_is_Some_2 rs p) as [r Hr]; [lia|]. exists r. split; [done|].
        specialize (Hjb _ _ Hr ltac:(lia)). pose proof (runs_lookup_wf _ _ _ _ Hrs Hr). lia. }
    assert (gap_hi p = r.1 - 1) as ->.
    { unfold gap_hi. rewrite Hr. destruct (decide (p = j)); [|done]. by destruct b; [|tauto]. }
    split; [split; [|lia]|].
    - unfold gap_lo. destruct (decide (p = i)) as [->|].
      + destruct a; [simpl in Hp; lia|]. specialize (Hia _ _ Hr ltac:(lia)). lia.
      + destruct (lookup_lt_is_Some_2 rs (p - 1)) as [q Hq]; [lia|]. rewrite Hq.
        pose proof (runs_lookup_order _ _ _ _ _ _ Hrs Hq Hr ltac:(lia)). lia.
    - intros k q Hq Hk. destruct (decide (k = p)) as [->|]; [simplify_eq; lia|].
      pose proof (runs_lookup_order _ _ _ _ _ _ Hrs Hr Hq ltac:(lia)).
      pose proof (runs_lookup_wf _ _ _ _ Hrs Hr). lia. }
  destruct Hlo as [Hlo1 Hlo2], Hhi as [Hhi1 Hhi2]. split_and!; [lia..|].
  intros y Hy (k & r & Hk & ?)%in_runs_lookup. destruct (decide (k < p)%nat) as [Hlt|].
  - specialize (Hlo2 _ _ Hk Hlt). lia.
  - specialize (Hhi2 _ _ Hk ltac:(lia)). lia.
Qed.

Lemma gap_covers y :
  min ≤ y ≤ max → ¬ in_runs y rs →
  ∃ p, (i + Nat.b2n a <= p <= j)%nat ∧ gap_lo p ≤ y ≤ gap_hi p.
Proof using Hi Hj Hle Hrs.
  intros Hy Hfree. destruct (find_pos_total y rs Hrs) as (p & [] & Hp).
  { exfalso. apply Hfree. by eapply find_pos_in. }
  pose proof Hi as [Hil Hib Hia]. pose proof Hj as [Hjl Hjb Hja]. pose proof Hp as [Hpl Hpb Hpa].
  assert (Hip : (i + Nat.b2n a <= p)%nat).
  { destruct (decide (i + Nat.b2n a <= p)%nat) as [|Hn]; [done|]. exfalso. destruct a; simpl in Hn.
    - destruct Hia as (r & Hr & ?). specialize (Hpa _ _ Hr ltac:(lia)). lia.
    - destruct (lookup_lt_is_Some_2 rs p) as [r Hr]; [lia|].
      specialize (Hib _ _ Hr ltac:(lia)). specialize (Hpa _ _ Hr ltac:(lia)).
      pose proof (runs_lookup_wf _ _ _ _ Hrs Hr). lia. }
  assert (Hpj : (p <= j)%nat).
  { destruct (decide (p <= j)%nat) as [|Hn]; [done|]. exfalso.
    destruct (lookup_lt_is_Some_2 rs j) as [r Hr]; [lia|].
    specialize (Hpb _ _ Hr ltac:(lia)). destruct b.
    - destruct Hja as (q & Hq & ?). simplify_eq. lia.
    - specialize (Hja _ _ Hr ltac:(lia)). pose proof (runs_lookup_wf _ _ _ _ Hrs Hr). lia. }
  exists p. split; [done|]. split.
  - unfold gap_lo. destruct (decide (p = i)); [lia|].
    destruct (lookup_lt_is_Some_2 rs (p - 1)) as [q Hq]; [lia|]. rewrite Hq.
    specialize (Hpb _ _ Hq ltac:(lia)). lia.
  - assert (Hr : ∀ r, rs !! p = Some r → y < r.1) by (intros r Hr; by apply (Hpa p)).
    unfold gap_hi. destruct (decide (p = j)) as [->|].
    + destruct b; [|lia]. destruct Hja as (q & Hq & ?). rewrite Hq. specialize (Hr _ Hq). lia.
    + destruct (lookup_lt_is_Some_2 rs p) as [q Hq]; [lia|]. rewrite Hq. specialize (Hr _ Hq). lia.
Qed.
End Gaps.

(** The run the chosen gap starts after, and the one it ends before. *)
Lemma step_gap_lo c s rs min i p Q :
  repr c s rs → runs_from 0 rs → (i <= p <= length rs)%nat → is_u32 (gap_lo rs min i p) →
  Q (gap_lo rs min i p) s →
  runs (if 0 <? Z.of_nat p - Z.of_nat i then
          n ← rd (ss_GetByRank (Z.of_nat i + 1 + (Z.of_nat p - Z.of_nat i) - 1));
          match n with
          | None => panic "lacks expected run"
          | Some prevNode => mret (Value prevNode +₃₂ 1)
          end
        else mret min) s Q.
Proof.
  intros E Hrs Hp Hu HQ. unfold gap_lo in *. destruct (decide (p = i)) as [->|].
  - rewrite Z.sub_diag. done.
  - rewrite (proj2 (Z.ltb_lt 0 _)) by lia. mstep.
    apply (step_byrank c s rs _ (p - 1)); [done|lia|].
    destruct (lookup_lt_is_Some_2 rs (p - 1)) as [r Hr]; [lia|]. rewrite Hr in *. simpl.
    mstep. by rewrite u32_small.
Qed.

Lemma step_gap_hi c s rs max i j b p Q :
  repr c s rs → runs_from 0 rs → find_pos max rs j b → (i <= p <= j)%nat →
  is_u32 (gap_hi rs max j b p) → Q (gap_hi rs max j b p) s →
  runs (if Z.of_nat p - Z.of_nat i <?
           1 + (Z.of_nat j + 1) - (Z.of_nat i + 1) + (if b then 1 else 0) - 1 then
          n ← rd (ss_GetByRank (Z.of_nat i + 1 + (Z.of_nat p - Z.of_nat i)));
          match n with
          | None => panic "lacks expected run"
          | Some nextNode => mret (first_of nextNode -₃₂ 1)
          end
        else mret max) s Q.
Proof.
  intros E Hrs Hj Hp Hu HQ. unfold gap_hi in *. destruct Hj as [Hjl _ Hja].
  assert (Hrun : ∀ r, rs !! p = Some r → is_u32 (r.1 - 1) → Q (r.1 - 1) s →
    runs (n ← rd (ss_GetByRank (Z.of_nat i + 1 + (Z.of_nat p - Z.of_nat i)));
          match n with
          | None => panic "lacks expected run"
          | Some nextNode => mret (first_of nextNode -₃₂ 1)
          end) s Q).
  { intros r Hr Hr1 HQr. mstep. apply (step_byrank c s rs _ p); [done|lia|]. rewrite Hr. simpl.
    mstep. rewrite first_of_run by by eapply runs_lookup_u32. by rewrite u32_small. }
  destruct (decide (p = j)) as [->|].
  - destruct b; [|rewrite (proj2 (Z.ltb_ge _ _)) by lia; done].
    destruct Hja as (r & Hr & ?). rewrite Hr in *. rewrite (proj2 (Z.ltb_lt _ _)) by lia. eauto.
  - destruct (lookup_lt_is_Some_2 rs p) as [r Hr]; [lia|]. rewrite Hr in *.
    rewrite (proj2 (Z.ltb_lt _ _)) by (destruct b; lia). eauto.
Qed.

Lemma run_node_inj r r' : run_node r = run_node r' → r = r'.
Proof. destruct r, r'. by intros [= _ -> ->]. Qed.

Section Choose.
Variables (c : Z) (s : t) (rs : list (Z * Z)) (min max : Z) (i j : nat) (a b : bool).
Hypotheses (E : repr c s rs) (Hrs : runs_from 0 rs).
Hypotheses (Hmin : is_u32 min) (Hmax : is_u32 max) (Hle : min ≤ max).
Hypotheses (Hi : find_pos min rs i a) (Hj : find_pos max rs j b).

(** The same run at both ends: no free number, no draw. *)
Lemma choose_full r :
  i = j → a = true →
  runs (AddOneInRange r min max) s (λ xb s', xb = (0, false) ∧ repr c s' rs).
Proof using E Hi Hj Hle Hmax Hmin Hrs.
  intros <- ->. unfold AddOneInRange. rewrite (proj2 (Z.ltb_ge _ _)) by done.
  destruct (positions_ordered rs min max i i true b Hrs Hle Hi Hj) as [_ Hb].
  specialize (Hb eq_refl eq_refl). subst b.
  apply runs_bind. eapply runs_conseq; [by eapply Find_runs|]. intros n1 s1 [E1 ->].
  apply runs_bind. eapply runs_conseq; [by eapply Find_runs|]. intros n2 s2 [E2 ->].
  destruct Hi as [_ _ (q & Hq & _)]. rewrite Hq. simpl.
  rewrite bool_decide_eq_true_2 by done. simpl. by mstep.
Qed.

(** Otherwise the draws pick a gap and a place in it. *)
Lemma choose_gap r g k :
  ¬ (i = j ∧ a = true) →
  Intn r (Z.of_nat j - Z.of_nat i + 1 - Z.b2z a) = g →
  0 ≤ g < Z.of_nat j - Z.of_nat i + 1 - Z.b2z a →
  let p := (i + Nat.b2n a + Z.to_nat g)%nat in
  let lo := gap_lo rs min i p in let hi := gap_hi rs max j b p in
  Int63n r (1 + (hi - lo)) = k → 0 ≤ k < 1 + (hi - lo) →
  runs (AddOneInRange r min max) s (λ xb s', xb = (lo + k, true) ∧
    holds c s' (λ y, y = lo + k ∨ in_runs y rs)).
Proof using E Hi Hj Hle Hmax Hmin Hrs.
  intros Hne Hg Hg' p lo hi Hk Hk'. unfold AddOneInRange.
  rewrite (proj2 (Z.ltb_ge _ _)) by done.
  destruct (positions_ordered rs min max i j a b Hrs Hle Hi Hj) as [Hij Hb].
  assert (Hp : (i + Nat.b2n a <= p <= j)%nat) by (subst p; destruct a; simpl in *; lia).
  destruct (gap_free rs min max i j a b Hrs Hle Hi Hj p Hp) as (H1 & H2 & H3 & Hfree).
  fold lo hi in H1, H2, H3, Hfree. unfold is_u32 in Hmin, Hmax.
  apply runs_bind. eapply runs_conseq; [by eapply Find_runs|]. intros n1 s1 [E1 ->].
  apply runs_bind. eapply runs_conseq; [by eapply Find_runs|]. intros n2 s2 [E2 ->].
  assert (Hd : bool_decide ((if a then run_node <$> rs !! i else None) =
                            (if b then run_node <$> rs !! j else None)) &&
               bool_decide (is_Some (if a then run_node <$> rs !! i else None)) = false).
  { apply not_true_is_false. rewrite andb_true_iff, !bool_decide_eq_true. intros [Heq Hs].
    destruct a; [|by destruct Hs]. destruct b; [|by rewrite Heq in Hs; destruct Hs].
    destruct Hi as [_ _ (q & Hq & ?)], Hj as [_ _ (q' & Hq' & ?)]. rewrite Hq, Hq' in Heq.
    apply (inj Some), run_node_inj in Heq as <-. destruct (decide (i = j)) as [|Hn]; [tauto|].
    pose proof (runs_lookup_order _ _ _ _ _ _ Hrs Hq Hq' ltac:(lia)).
    pose proof (runs_lookup_wf _ _ _ _ Hrs Hq). lia. }
  rewrite Hd.
  assert (Ha : (if bool_decide (is_Some (if a then run_node <$> rs !! i else None)) then 1 else 0)
               = Z.b2z a).
  { destruct a; [|done]. destruct Hi as [_ _ (q & -> & _)]. done. }
  assert (Hbb : (if bool_decide (is_Some (if b then run_node <$> rs !! j else None)) then 1 else 0)
               = (if b then 1 else 0)).
  { destruct b; [|done]. destruct Hj as [_ _ (q & -> & _)]. done. }
  rewrite Ha, Hbb.
  rewrite (proj2 (Z.leb_gt _ _)) by (destruct a, b; simpl in *; lia).
  replace (1 + (Z.of_nat j + 1) - (Z.of_nat i + 1) + (if b then 1 else 0) -
    (Z.b2z a + (if b then 1 else 0))) with (Z.of_nat j - Z.of_nat i + 1 - Z.b2z a) by lia.
  rewrite Hg. replace (Z.b2z a + g) with (Z.of_nat p - Z.of_nat i)
    by (subst p; destruct a; simpl in *; lia).
  apply runs_bind, (step_gap_lo c s2 rs min i p); [done|done|pose proof (fp_len _ _ _ _ Hj); lia| |].
  { fold lo. u32_lia. }
  apply runs_bind, (step_gap_hi c s2 rs max i j b p); [done|done|done|lia| |].
  { fold hi. u32_lia. }
  fold lo hi. rewrite (u32_small (hi - lo)) by u32_lia. rewrite Hk.
  rewrite (u32_small k) by u32_lia. rewrite (u32_small (lo + k)) by u32_lia.
  apply runs_bind. eapply runs_conseq; [eapply Add_runs; [done|done|u32_lia]|].
  intros ok s3 [Hh Hok]. rewrite (proj2 Hok) by (apply Hfree; lia). simpl. by mstep.
Qed.
End Choose.

(** ** Export and RExport *)

Lemma export_run_spec fuel x l ans :
  is_u32 x → is_u32 l → x ≤ l → (Z.to_nat (l - x) < fuel)%nat →
  export_run fuel x l ans = Ok (ans ++ zrange x l).
Proof.
  revert x ans. induction fuel as [|fuel IH]; intros x ans Hx Hl Hle Hf; [lia|]. simpl.
  destruct (Z.leb_spec l x).
  - replace l with x by lia. by rewrite zrange_single.
  - rewrite u32_small by u32_lia. rewrite IH by (done || u32_lia || lia).
    by rewrite <- app_assoc, (zrange_cons x l) by lia.
Qed.

Definition run_members (rs : list (Z * Z)) : list Z := rs ≫= λ r, zrange r.1 r.2.

Lemma elem_of_run_members x rs : x ∈ run_members rs ↔ in_runs x rs.
Proof.
  unfold run_members, in_runs. rewrite list_elem_of_bind, Exists_exists.
  setoid_rewrite elem_of_zrange. naive_solver.
Qed.

Lemma run_members_sorted lo rs : runs_from lo rs → StronglySorted Z.lt (run_members rs).
Proof.
  revert lo. induction rs as [|[f l] rs IH]; intros lo; [constructor|]. intros (?&?&?&Hrs).
  change (run_members ((f, l) :: rs)) with (zrange f l ++ run_members rs).
  apply StronglySorted_app. split_and!; [|apply zrange_sorted|by eapply IH].
  intros x y Hx%elem_of_zrange Hy%elem_of_run_members.
  pose proof (runs_from_in _ _ _ Hrs Hy). lia.
Qed.

Lemma export_ranks_spec c s rs fuel i ans :
  repr c s rs → runs_from 0 rs → (i <= length rs)%nat → (length rs < fuel + i)%nat →
  export_ranks fuel (Z.of_nat i + 1) s ans = Ok (ans ++ run_members (drop i rs)).
Proof.
  intros E Hrs. revert i ans. induction fuel as [|fuel IH]; intros i ans Hi Hf; [lia|]. simpl.
  rewrite (byrank_repr c s rs) by (done || lia).
  replace (Z.to_nat _) with i by lia. destruct (rs !! i) as [r|] eqn:Hr; simpl.
  - destruct (runs_lookup_u32 _ _ _ Hrs Hr). pose proof (runs_lookup_wf _ _ _ _ Hrs Hr).
    rewrite first_of_run by done.
    pose proof (lookup_lt_Some _ _ _ Hr).
    change (if r.2 <=? r.1 then Ok (ans ++ [r.1])
      else export_run (Z.to_nat (r.2 - r.1)) (u32 (r.1 + 1)) r.2 (ans ++ [r.1]))
      with (export_run (S (Z.to_nat (r.2 - r.1))) r.1 r.2 ans).
    rewrite export_run_spec by (done || lia). simpl.
    replace (Z.of_nat i + 1 + 1) with (Z.of_nat (S i) + 1) by lia. rewrite IH by lia.
    by rewrite <- app_assoc, (drop_S _ _ _ Hr).
  - apply lookup_ge_None in Hr. rewrite drop_ge by lia. by rewrite app_nil_r.
Qed.

Lemma rexport_ranks_spec c s rs fuel i ans :
  repr c s rs → runs_from 0 rs → (i <= length rs)%nat → (length rs < fuel + i)%nat →
  rexport_ranks fuel (Z.of_nat i + 1) s ans = Ok (ans ++ flatten_runs (drop i rs)).
Proof.
  intros E Hrs. revert i ans. induction fuel as [|fuel IH]; intros i ans Hi Hf; [lia|]. simpl.
  rewrite (byrank_repr c s rs) by (done || lia).
  replace (Z.to_nat _) with i by lia. destruct (rs !! i) as [r|] eqn:Hr; simpl.
  - destruct (runs_lookup_u32 _ _ _ Hrs Hr). rewrite first_of_run by done.
    pose proof (lookup_lt_Some _ _ _ Hr).
    replace (Z.of_nat i + 1 + 1) with (Z.of_nat (S i) + 1) by lia. rewrite IH by lia.
    by rewrite <- app_assoc, (drop_S _ _ _ Hr).
  - apply lookup_ge_None in Hr. rewrite drop_ge by lia. by rewrite app_nil_r.
Qed.

Lemma Export_runs c s rs Q :
  repr c s rs → runs_from 0 rs → Q (run_members rs) s → runs Export s Q.
Proof.
  intros E Hrs HQ. unfold runs, Export.
  pose proof (export_ranks_spec c s rs (Datatypes.S (Z.to_nat (ss_GetCount (ss s)))) 0 [] E Hrs) as Hx.
  change (Z.of_nat 0 + 1) with 1 in Hx. rewrite Hx by (rewrite ?(count_repr c s rs) by done; lia). done.
Qed.

Lemma RExport_runs c s rs Q :
  repr c s rs → runs_from 0 rs → Q (flatten_runs rs) s → runs RExport s Q.
Proof.
  intros E Hrs HQ. unfold runs, RExport.
  pose proof (rexport_ranks_spec c s rs (Datatypes.S (Z.to_nat (ss_GetCount (ss s)))) 0 [] E Hrs) as Hx.
  change (Z.of_nat 0 + 1) with 1 in Hx. rewrite Hx by (rewrite ?(count_repr c s rs) by done; lia). done.
Qed.

(** ** The laws of the interfaces *)

Definition inv (s : t) : Prop := ∃ rs, repr (CheckLevel s) s rs ∧ runs_from 0 rs.
Definition mem (s : t) (x : Z) : Prop := Exists (λ n, Score n ≤ x ≤ Value n) (ss_nodes (ss s)).

Lemma mem_repr c s rs x : repr c s rs → mem s x ↔ in_runs x rs.
Proof. intros [_ E]. unfold mem, in_runs. rewrite E. apply Exists_fmap. Qed.

Lemma inv_repr c s rs : repr c s rs → runs_from 0 rs → inv s.
Proof. intros [<- E] Hrs. by exists rs. Qed.

Lemma holds_inv c s P : holds c s P → inv s ∧ ∀ y, mem s y ↔ P y.
Proof.
  intros (rs & E & Hrs & HP). split; [by eapply inv_repr|]. intros y. by rewrite mem_repr.
Qed.

Lemma new_inv c : inv (NewSortedUInt32Set c) ∧ ∀ x, ¬ mem (NewSortedUInt32Set c) x.
Proof.
  split; [exists []; split; [split; [done|apply ss_nodes_New]|done]|].
  intros x. unfold mem. simpl. rewrite ss_nodes_New. by inversion 1.
Qed.

#[global] Instance sorted_laws : SetLaws t.
Proof.
  refine {| set_ok := inv; set_mem := mem |}.
  - intros s x (rs & E & Hrs) Hx. rewrite mem_repr in Hx by done. by eapply runs_from_in.
  - intros s x (rs & E & Hrs). rewrite mem_repr by done. unfold in_runs.
    destruct (decide (Exists (λ r : Z * Z, r.1 ≤ x ≤ r.2) rs)); auto.
  - intros s (rs & E & Hrs). unfold set_IsEmpty; simpl. unfold IsEmpty. mstep.
    eapply step_count; [done|]. mstep. split; [split; [by exists rs|done]|].
    setoid_rewrite (λ y, mem_repr _ s rs y E). destruct rs as [|[f l] rs]; simpl.
    + split; [by intros _ x ?%in_runs_nil|done].
    + split; [done|]. intros Hn. destruct (Hn f). apply in_runs_cons. simpl in Hrs. lia.
  - intros s x (rs & E & Hrs) Hx. unfold set_Has; simpl. unfold Has. mstep.
    destruct (find_pos_total x rs Hrs) as (i & on & Hp).
    eapply runs_conseq; [by eapply Find_runs|]. intros n s' [E' ->]. mstep.
    split; [split; [by eapply inv_repr|]|].
    + intros y. by rewrite !mem_repr.
    + rewrite mem_repr, <- find_pos_in, bool_decide_eq_true by done. destruct on.
      * destruct Hp as [_ _ (r & -> & _)]. simpl. split; [done|]. intros _. eauto.
      * split; [by intros [? ?]|done].
  - intros s x (rs & E & Hrs) Hx. eapply runs_conseq; [by eapply Add_runs|].
    intros b s' [[? Hm]%holds_inv Hb]. setoid_rewrite (λ y, mem_repr _ s rs y E). done.
  - intros s x (rs & E & Hrs) Hx. eapply runs_conseq; [by eapply Remove_runs|].
    intros b s' [[? Hm]%holds_inv Hb]. setoid_rewrite (λ y, mem_repr _ s rs y E). done.
  - intros s (rs & E & Hrs). eapply Export_runs; [done..|]. split; [split; [by exists rs|done]|].
    split; [by eapply run_members_sorted|]. intros x. by rewrite elem_of_run_members, mem_repr.
  - intros s (rs & E & Hrs). eapply RExport_runs; [done..|]. split; [split; [by exists rs|done]|].
    exists rs. split_and!; [done..|]. intros x. by rewrite mem_repr.
Defined.

Lemma AddOneInRange_spec r s min max :
  rng_ok r → inv s → is_u32 min → is_u32 max →
  runs (AddOneInRange r min max) s (λ xb s', is_u32 xb.1 ∧
    if xb.2
    then min ≤ xb.1 ≤ max ∧ ¬ mem s xb.1 ∧ inv s' ∧ (∀ y, mem s' y ↔ y = xb.1 ∨ mem s y)
    else (inv s' ∧ ∀ y, mem s' y ↔ mem s y) ∧ ∀ y, min ≤ y ≤ max → mem s y).
Proof.
  intros Hr (rs & E & Hrs) Hmin Hmax.
  assert (Hm : ∀ y, mem s y ↔ in_runs y rs) by (intros; by eapply mem_repr).
  destruct (Z.ltb_spec max min) as [Hlt|Hle].
  { unfold AddOneInRange. rewrite (proj2 (Z.ltb_lt _ _)) by done. mstep.
    split; [done|]. split; [split; [by exists rs|done]|]. lia. }
  destruct (find_pos_total min rs Hrs) as (i & a & Hi).
  destruct (find_pos_total max rs Hrs) as (j & b & Hj).
  destruct (positions_ordered rs min max i j a b Hrs Hle Hi Hj) as [Hij Hb].
  destruct (decide (i = j ∧ a = true)) as [[-> ->]|Hne].
  - eapply runs_conseq; [by eapply choose_full|]. intros xb s' [-> E']. simpl.
    split; [done|]. split; [split; [by eapply inv_repr|]|].
    + intros y. by rewrite !mem_repr.
    + destruct Hi as [_ _ (q & Hq & ?)], Hj as [_ _ Hjat]. rewrite Hb in Hjat by done.
      destruct Hjat as (q' & Hq' & ?). simplify_eq. intros y Hy. apply Hm, in_runs_lookup.
      exists j, q. split; [done|lia].
  - set (n := Z.of_nat j - Z.of_nat i + 1 - Z.b2z a).
    assert (Hn : 0 < n) by (subst n; destruct a; simpl; [|lia]; destruct (decide (i = j)); [tauto|lia]).
    destruct (Hr n Hn) as [Hg _]. set (p := (i + Nat.b2n a + Z.to_nat (Intn r n))%nat).
    assert (Hp : (i + Nat.b2n a <= p <= j)%nat) by (subst p n; destruct a; simpl in *; lia).
    destruct (gap_free rs min max i j a b Hrs Hle Hi Hj p Hp) as (H1 & H2 & H3 & Hfree).
    destruct (Hr (1 + (gap_hi rs max j b p - gap_lo rs min i p)) ltac:(lia)) as [_ Hk].
    eapply runs_conseq; [by eapply choose_gap|]. intros xb s' [-> [Hs' HP]%holds_inv]. simpl.
    fold n p. unfold is_u32 in *. split_and!; [lia..| |done|].
    + rewrite Hm. apply Hfree. fold n p in Hk. lia.
    + intros y. rewrite HP, Hm. done.
Qed.

#[global] Instance sorted_chooser_laws : ChooserLaws t.
Proof. intros r s min max. apply AddOneInRange_spec. Qed.

(** Draws that land on a given gap and place. *)
Definition rng_at (g k : Z) : rng :=
  Rng (λ n, Z.max 0 (Z.min g (n - 1))) (λ n, Z.max 0 (Z.min k (n - 1))).

Lemma rng_at_ok g k : rng_ok (rng_at g k).
Proof. intros n Hn. simpl. lia. Qed.

(** C10: every free number of the range can be chosen: for each of them some draws of
    the generator make [AddOneInRange] take it. *)
Theorem AddOneInRange_reaches s min max y :
  inv s → is_u32 min → is_u32 max → min ≤ y ≤ max → ¬ mem s y →
  ∃ r, rng_ok r ∧ runs (AddOneInRange r min max) s (λ xb _, xb = (y, true)).
Proof.
  intros (rs & E & Hrs) Hmin Hmax Hy Hfree. rewrite mem_repr in Hfree by done.
  destruct (find_pos_total min rs Hrs) as (i & a & Hi).
  destruct (find_pos_total max rs Hrs) as (j & b & Hj). assert (Hle : min ≤ max) by lia.
  destruct (gap_covers rs min max i j a b Hrs Hle Hi Hj y Hy Hfree) as (p & Hp & Hyp).
  set (g := Z.of_nat p - Z.of_nat i - Z.b2z a). set (k := y - gap_lo rs min i p).
  assert (Hpg : (i + Nat.b2n a + Z.to_nat g)%nat = p) by (subst g; destruct a; simpl in *; lia).
  exists (rng_at g k). split; [apply rng_at_ok|].
  assert (Hg : Intn (rng_at g k) (Z.of_nat j - Z.of_nat i + 1 - Z.b2z a) = g)
    by (subst g; simpl; destruct a; simpl in *; lia).
  eapply runs_conseq.
  - apply (choose_gap _ s rs min max i j a b E Hrs Hmin Hmax Hle Hi Hj _ g k); [|done|..].
    + intros [-> ->]. simpl in Hp. lia.
    + subst g. destruct a; simpl in *; lia.
    + rewrite Hpg. simpl. lia.
    + rewrite Hpg. lia.
  - rewrite Hpg. intros xb s' [-> _]. f_equal. lia.
Qed.

End Model.
Arguments t T : clear implicits.

Lemma AddOneInRange_reaches_witness :
  ∃ r, rng_ok r ∧
    runs (AddOneInRange r 5 9) (NewSortedUInt32Set (T := list ssnode) 1) (λ xb _, xb = (7, true)).
Proof.
  destruct (new_inv (T := list ssnode) 1) as [Hi Hm].
  apply (AddOneInRange_reaches (T := list ssnode) (NewSortedUInt32Set 1) 5 9 7 Hi);
    [unfold is_u32; lia|unfold is_u32; lia|lia|apply Hm].
Defined.

End SortedSet.
