(* ===== verification/SetAgree.v ===== *)
(** * The two sets agree

    The abstract specification of a set of uint32 as a relation on membership
    predicates, the theorem that every implementation with the laws of
    [UInt32Set] refines it, and its consequence for operation sequences run on
    two implementations side by side, as [uin32set_test.go] does with the
    sorted set and the hash set. *)

From S2P Require Import Prelude GoStr UInt32Set HashSet SortedSet.

Module Agree.

Inductive op :=
| OpIsEmpty | OpHas (x : Z) | OpAdd (x : Z) | OpRemove (x : Z) | OpExport | OpRExport.

Inductive ret := RBool (b : bool) | RList (l : list Z).

(** The arguments a Go caller can pass. *)
Definition op_ok (o : op) : Prop :=
  match o with OpHas x | OpAdd x | OpRemove x => is_u32 x | _ => True end.

(** ** The abstract set *)

Definition same (m m' : Z → Prop) : Prop := ∀ y, m' y ↔ m y.

(** [spec o m r m']: operation [o] on the set [m] returns [r] and leaves [m']. *)
Inductive spec : op → (Z → Prop) → ret → (Z → Prop) → Prop :=
| spec_IsEmpty m m' b : same m m' → (b = true ↔ ∀ x, ¬ m x) → spec OpIsEmpty m (RBool b) m'
| spec_Has m m' x b : same m m' → (b = true ↔ m x) → spec (OpHas x) m (RBool b) m'
| spec_Add m m' x b :
    (∀ y, m' y ↔ y = x ∨ m y) → (b = true ↔ ¬ m x) → spec (OpAdd x) m (RBool b) m'
| spec_Remove m m' x b :
    (∀ y, m' y ↔ y ≠ x ∧ m y) → (b = true ↔ m x) → spec (OpRemove x) m (RBool b) m'
| spec_Export m m' l :
    same m m' → StronglySorted Z.lt l → (∀ x, x ∈ l ↔ m x) → spec OpExport m (RList l) m'
| spec_RExport m m' rs :
    same m m' → runs_from 0 rs → (∀ x, in_runs x rs ↔ m x) →
    spec OpRExport m (RList (flatten_runs rs)) m'.

Lemma bool_eq_iff (a b : bool) (P Q : Prop) :
  (a = true ↔ P) → (b = true ↔ Q) → (P ↔ Q) → a = b.
Proof. destruct a, b; naive_solver. Qed.

(** The specification determines the result and the members. *)
Lemma spec_functional o m1 m2 r1 r2 m1' m2' :
  same m1 m2 → spec o m1 r1 m1' → spec o m2 r2 m2' → r1 = r2 ∧ same m1' m2'.
Proof.
  intros Hm H1 H2. unfold same in *.
  inversion H1; subst; inversion H2; subst; unfold same in *; split;
    try (intros y; naive_solver); f_equal; try (eapply bool_eq_iff; [done..|]; naive_solver).
  - apply sorted_lt_unique; [done|done|]. naive_solver.
  - f_equal. apply (runs_from_unique 0); [done|done|]. naive_solver.
Qed.

(** ** Implementations *)

Definition exec {S} `{UInt32Set S} (o : op) : M S ret :=
  match o with
  | OpIsEmpty => b ← set_IsEmpty; mret (RBool b)
  | OpHas x => b ← set_Has x; mret (RBool b)
  | OpAdd x => b ← set_Add x; mret (RBool b)
  | OpRemove x => b ← set_Remove x; mret (RBool b)
  | OpExport => l ← set_Export; mret (RList l)
  | OpRExport => l ← set_RExport; mret (RList l)
  end.

Lemma exec_spec {S} `{UInt32Set S, !SetLaws S} o s :
  op_ok o → set_ok s →
  runs (exec o) s (λ r s', set_ok s' ∧ spec o (set_mem s) r (set_mem s')).
Proof.
  intros Ho Hs. destruct o; simpl in *; apply runs_bind.
  - eapply runs_conseq; [by apply set_IsEmpty_spec|]. intros b s' [[??]?]. split; [done|by constructor].
  - eapply runs_conseq; [by apply set_Has_spec|]. intros b s' [[??]?]. split; [done|by constructor].
  - eapply runs_conseq; [by apply set_Add_spec|]. intros b s' (?&?&?). split; [done|by constructor].
  - eapply runs_conseq; [by apply set_Remove_spec|]. intros b s' (?&?&?). split; [done|by constructor].
  - eapply runs_conseq; [by apply set_Export_spec|]. intros l s' ([??]&?&?). split; [done|by constructor].
  - eapply runs_conseq; [by apply set_RExport_spec|]. intros l s' ([??]&rs&->&?&?).
    split; [done|by constructor].
Qed.

(** ** Side by side *)

Section Pair.
Context {S1 S2 : Type}.
Context `{UInt32Set S1, !UInt32SetChooser S1, UInt32Set S2, !UInt32SetChecker S2}.

(** A call of the test: an operation on both sets, or a choice by the first
    that the second checks. *)
Inductive call := Op (o : op) | Choose (r : rng) (min max : Z).

Definition call_ok (c : call) : Prop :=
  match c with
  | Op o => op_ok o
  | Choose r min max => rng_ok r ∧ is_u32 min ∧ is_u32 max
  end.

(** The two results the test compares, and the states after. *)
Definition step (c : call) (s : S1 * S2) : res ((ret * ret) * (S1 * S2)) :=
  match c with
  | Op o => '(r1, s1) ← exec o s.1; '(r2, s2) ← exec o s.2; Ok ((r1, r2), (s1, s2))
  | Choose r min max =>
      '((x, ok), s1) ← set_AddOneInRange r min max s.1;
      '(b, s2) ← set_CouldAddInRange min max x ok s.2;
      Ok ((RBool true, RBool b), (s1, s2))
  end.

Fixpoint run (cs : list call) (s : S1 * S2) : res (list (ret * ret) * (S1 * S2)) :=
  match cs with
  | [] => Ok ([], s)
  | c :: cs => '(r, s) ← step c s; '(rs, s) ← run cs s; Ok (r :: rs, s)
  end.

Context `{!SetLaws S1, !ChooserLaws S1, !SetLaws S2, !CheckerLaws S2}.

Definition agree (s : S1 * S2) : Prop :=
  set_ok s.1 ∧ set_ok s.2 ∧ same (set_mem s.1) (set_mem s.2).

Lemma op_agree o s :
  op_ok o → agree s → ∃ r s', step (Op o) s = Ok ((r, r), s') ∧ agree s'.
Proof.
  intros Ho (H1 & H2 & Hm). destruct s as [s1 s2]; simpl in *.
  destruct (runs_inv _ _ _ (exec_spec o s1 Ho H1)) as (r1 & s1' & E1 & Hok1 & Hs1).
  destruct (runs_inv _ _ _ (exec_spec o s2 Ho H2)) as (r2 & s2' & E2 & Hok2 & Hs2).
  destruct (spec_functional _ _ _ _ _ _ _ Hm Hs1 Hs2) as [-> Hm'].
  unfold mbind, res_bind. rewrite E1, E2. by exists r2, (s1', s2').
Qed.

Lemma choose_agree r min max s :
  call_ok (Choose r min max) → agree s →
  ∃ s', step (Choose r min max) s = Ok ((RBool true, RBool true), s') ∧ agree s'.
Proof.
  intros (Hr & Hmin & Hmax) (H1 & H2 & Hm). destruct s as [s1 s2]; simpl in *.
  destruct (runs_inv _ _ _ (set_AddOneInRange_spec S1 r s1 min max Hr H1 Hmin Hmax))
    as ([x ok] & s1' & E1 & Hx & Hc). simpl in Hx, Hc.
  destruct (runs_inv _ _ _ (set_CouldAddInRange_spec S2 s2 min max x ok H2 Hx))
    as (b & s2' & E2 & Hok2 & Hb & Hm2).
  unfold mbind, res_bind. rewrite E1, E2. unfold same in *. destruct ok.
  - destruct Hc as (Hrange & Hfree & Hok1 & Hm1). assert (b = true) as ->.
    { apply Hb. split; [intros _; split; [done|]|done]. by rewrite Hm. }
    exists (s1', s2'). split; [done|]. split_and!; [done..|]. simpl. intros y.
    rewrite Hm2, Hm1, Hm. split; [tauto|]. intros [->|?]; tauto.
  - destruct Hc as ((Hok1 & Hm1) & Hfull). assert (b = true) as ->.
    { apply Hb. split; [done|]. intros [Hrange Hn]. destruct Hn. by apply Hm, Hfull. }
    exists (s1', s2'). split; [done|]. split_and!; [done..|]. simpl. intros y.
    rewrite Hm2, Hm1, Hm. split; [|tauto]. intros [[-> ?]|?]; [by apply Hfull|done].
Qed.

Lemma step_agree c s : call_ok c → agree s → ∃ r s', step c s = Ok ((r, r), s') ∧ agree s'.
Proof.
  intros Hc Ha. destruct c as [o|r min max]; [by apply op_agree|].
  destruct (choose_agree r min max s Hc Ha) as (s' & E & Ha'). eauto.
Qed.

Lemma run_agree cs s :
  Forall call_ok cs → agree s →
  ∃ rs s', run cs s = Ok ((λ r, (r, r)) <$> rs, s') ∧ agree s'.
Proof.
  intros Hcs. revert s. induction Hcs as [|c cs Hc _ IH]; intros s Ha; simpl.
  - by exists [], s.
  - destruct (step_agree c s Hc Ha) as (r & s1 & -> & Ha1). simpl.
    destruct (IH s1 Ha1) as (rs & s2 & -> & Ha2). by exists (r :: rs), s2.
Qed.
End Pair.
Arguments call : clear implicits.

(** C7: the sorted set and the hash set, started empty and driven by the same
    calls, never panic, return equal results, and every [AddOneInRange] outcome
    of the sorted set is accepted by [CouldAddInRange] of the hash set. *)
Theorem sorted_hash_agree {T} `{SortedSetLib T, !SortedSetLaws T} level cs :
  Forall call_ok cs →
  ∃ rs s', run cs (SortedSet.NewSortedUInt32Set (T := T) level, HashSet.NewHashUInt32Set)
    = Ok ((λ r, (r, r)) <$> rs, s') ∧ agree s'.
Proof.
  intros Hcs. apply run_agree; [done|]. split_and!.
  - apply SortedSet.new_inv.
  - apply HashSet.hash_new_inv.
  - intros y. split; [by intros [? ?]|].
    intros E. by destruct (proj2 (SortedSet.new_inv level) y).
Qed.

Lemma sorted_hash_agree_witness :
  ∃ rs s', run [Op (OpAdd 5); Choose (Rng (λ _, 0) (λ _, 0)) 5 9; Op (OpHas 6)]
      (SortedSet.NewSortedUInt32Set (T := list ssnode) 1, HashSet.NewHashUInt32Set)
    = Ok ((λ r, (r, r)) <$> rs, s') ∧ agree s'.
Proof.
  apply (sorted_hash_agree (T := list ssnode) 1).
  repeat apply Forall_cons_2; [| | |apply Forall_nil_2]; unfold call_ok, op_ok, rng_ok, is_u32; simpl;
    repeat split; intros; lia.
Defined.

End Agree.
