(* ===== verification/GoNet.v ===== *)
(** * IP addresses of the Go standard library

    Executable counterpart of the parts of package [net] that the sources use
    (Go 1.10 to 1.16): [IP] with [To4], [Equal], [String], [Mask] and [IPv4];
    [ParseIP] and [ParseCIDR] for both address families; [CIDRMask] and
    [IPMask.Size].  The lemmas give the IPv4 path its meaning: the printed form
    of an address parses back, and the network of an IPv4 CIDR block is the
    aligned block of its prefix. *)

From S2P Require Import Prelude GoStr.

Module GoNet.

(** A slice of bytes; the nil slice is the empty list. *)
Abbreviation IP := (list Z).
Abbreviation IPMask := (list Z).
Record IPNet := MkIPNet { net_IP : IP; net_Mask : IPMask }.

Definition v4InV6Prefix : IP := [0; 0; 0; 0; 0; 0; 0; 0; 0; 0; 255; 255].

(** [net.IPv4]: the 16-byte form. *)
Definition IPv4_16 (a b c d : Z) : IP := v4InV6Prefix ++ [a; b; c; d].

Definition To4 (ip : IP) : IP :=
  if (length ip =? 4)%nat then ip
  else if (length ip =? 16)%nat && bool_decide (take 12 ip = v4InV6Prefix)
  then drop 12 ip else [].

Definition Equal (ip x : IP) : bool :=
  if (length ip =? length x)%nat then bool_decide (ip = x)
  else if (length ip =? 4)%nat && (length x =? 16)%nat then
    bool_decide (take 12 x = v4InV6Prefix) && bool_decide (ip = drop 12 x)
  else if (length ip =? 16)%nat && (length x =? 4)%nat then
    bool_decide (take 12 ip = v4InV6Prefix) && bool_decide (drop 12 ip = x)
  else false.

(** ** Hardware addresses *)

Abbreviation HardwareAddr := (list Z).

(** One byte as two hexadecimal digits. *)
Definition hex2 (b : Z) : string :=
  String (digit_char (b / 16)) (String (digit_char (b mod 16)) EmptyString).

(** [HardwareAddr.String]. *)
Definition MAC_String (a : HardwareAddr) : string := str_join ":" (hex2 <$> a).

(** ** Parsing *)

(** [dtoi] and [xtoi]: value, unread rest; [None] when no digit is read or the
    value reaches [big]. *)
Definition big : Z := 16777215.

Fixpoint digits_go (base n : Z) (any : bool) (s : string) : option (Z * string) :=
  match s with
  | EmptyString => if any then Some (n, s) else None
  | String c s' =>
      match parse_digit base c with
      | None => if any then Some (n, s) else None
      | Some d => let n := n * base + d in
                  if big <=? n then None else digits_go base n true s'
      end
  end.

Definition dtoi (s : string) := digits_go 10 0 false s.
Definition xtoi (s : string) := digits_go 16 0 false s.

(** [parseIPv4]; [k] octets are still to read, the first without a dot. *)
Fixpoint parse_octets (k : nat) (first : bool) (s : string) : option (list Z) :=
  match k with
  | O => match s with EmptyString => Some [] | _ => None end
  | S k =>
      s ← (if first then Some s
           else match s with String c s => if char_is c "." then Some s else None | _ => None end);
      '(n, s) ← dtoi s;
      if 255 <? n then None
      else rest ← parse_octets k false s; Some (n :: rest)
  end.

Definition parseIPv4 (s : string) : option IP :=
  p ← parse_octets 4 true s; Some (v4InV6Prefix ++ p).

(** [parseIPv6] without a zone: [acc] are the bytes so far, [ell] the
    position of the ellipsis. *)
Fixpoint parse_groups (fuel : nat) (acc : list Z) (ell : option nat) (s : string)
    : option (list Z * option nat) :=
  match fuel with
  | O => match s with EmptyString => Some (acc, ell) | _ => None end
  | S fuel =>
      if (16 <=? length acc)%nat then
        match s with EmptyString => Some (acc, ell) | _ => None end
      else
        '(n, s') ← xtoi s;
        if 65535 <? n then None
        else
          match s' with
          | String c rest =>
              if char_is c "." then
                if match ell with None => negb (length acc =? 12)%nat | Some _ => false end
                then None
                else if (16 <? length acc + 4)%nat then None
                else p ← parse_octets 4 true s; Some (acc ++ p, ell)
              else
                let acc := acc ++ [n / 256; n mod 256] in
                if negb (char_is c ":") then None
                else
                  match rest with
                  | EmptyString => None
                  | String c' rest' =>
                      if char_is c' ":" then
                        match ell with
                        | Some _ => None
                        | None =>
                            match rest' with
                            | EmptyString => Some (acc, Some (length acc))
                            | _ => parse_groups fuel acc (Some (length acc)) rest'
                            end
                        end
                      else parse_groups fuel acc ell rest
                  end
          | EmptyString => Some (acc ++ [n / 256; n mod 256], ell)
          end
  end.

Definition expand_ellipsis (acc : list Z) (ell : option nat) : option IP :=
  if (length acc <? 16)%nat then
    match ell with
    | None => None
    | Some e => Some (take e acc ++ repeat 0 (16 - length acc) ++ drop e acc)
    end
  else match ell with Some _ => None | None => Some acc end.

Definition parseIPv6 (s : string) : option IP :=
  match s with
  | String ":" (String ":" EmptyString) => Some (repeat 0 16)
  | String ":" (String ":" s) =>
      '(acc, ell) ← parse_groups 9 [] (Some 0%nat) s; expand_ellipsis acc ell
  | _ => '(acc, ell) ← parse_groups 9 [] None s; expand_ellipsis acc ell
  end.

(** [ParseIP]: the first dot or colon decides the family; nil on failure. *)
Fixpoint parse_ip_kind (s : string) : option ascii :=
  match s with
  | EmptyString => None
  | String c s => if char_is c "." || char_is c ":" then Some c else parse_ip_kind s
  end.

Definition ParseIP (s : string) : IP :=
  match parse_ip_kind s with
  | Some c => default [] (if char_is c "." then parseIPv4 s else parseIPv6 s)
  | None => []
  end.

(** ** Masks and CIDR blocks *)

(** [CIDRMask(ones, bits)] for arguments in range. *)
Fixpoint mask_bytes (k : nat) (ones : Z) : IPMask :=
  match k with
  | O => []
  | S k =>
      (if 8 <=? ones then 255 else u8 (Z.lnot (Z.shiftr 255 ones)))
      :: mask_bytes k (if 8 <=? ones then ones - 8 else 0)
  end.
Definition CIDRMask (ones bits : Z) : IPMask := mask_bytes (Z.to_nat (bits / 8)) ones.

Definition allFF (b : list Z) : bool := forallb (λ c, c =? 255) b.

Definition Mask (ip : IP) (mask : IPMask) : IP :=
  let mask := if (length mask =? 16)%nat && (length ip =? 4)%nat && allFF (take 12 mask)
              then drop 12 mask else mask in
  let ip := if (length mask =? 4)%nat && (length ip =? 16)%nat &&
               bool_decide (take 12 ip = v4InV6Prefix) then drop 12 ip else ip in
  if negb (length ip =? length mask)%nat then [] else zip_with Z.land ip mask.

(** [simpleMaskLength]: -1 when the mask is not canonical. *)
Fixpoint leading_ones (fuel : nat) (v n : Z) : Z * Z :=
  match fuel with
  | O => (n, v)
  | S fuel => if Z.testbit v 7 then leading_ones fuel (u8 (Z.shiftl v 1)) (n + 1) else (n, v)
  end.

Fixpoint simpleMaskLength (n : Z) (mask : IPMask) : Z :=
  match mask with
  | [] => n
  | v :: rest =>
      if v =? 255 then simpleMaskLength (n + 8) rest
      else
        let '(n, v) := leading_ones 8 v n in
        if negb (v =? 0) then -1
        else if forallb (λ b, b =? 0) rest then n else -1
  end.

(** [IPMask.Size]. *)
Definition Size (m : IPMask) : Z * Z :=
  let ones := simpleMaskLength 0 m in
  if ones =? -1 then (0, 0) else (ones, Z.of_nat (length m) * 8).

(** [byteIndex] and the cut at the slash. *)
Fixpoint cut_slash (s : string) : option (string * string) :=
  match s with
  | EmptyString => None
  | String c s =>
      if char_is c "/" then Some (EmptyString, s)
      else '(a, b) ← cut_slash s; Some (String c a, b)
  end.

Definition ParseCIDR (s : string) : option (IP * IPNet) :=
  '(addr, mask) ← cut_slash s;
  '(iplen, ip) ← match parseIPv4 addr with
                 | Some ip => Some (4, ip)
                 | None => ip ← parseIPv6 addr; Some (16, ip)
                 end;
  '(n, rest) ← dtoi mask;
  if negb (bool_decide (rest = EmptyString)) || (8 * iplen <? n) then None
  else let m := CIDRMask n (8 * iplen) in Some (ip, MkIPNet (Mask ip m) m).

(** ** Printing *)

Definition dotted (p : list Z) : string := str_join "." (fmt_d <$> p).

Fixpoint groups (p : list Z) : list Z :=
  match p with a :: b :: p => a * 256 + b :: groups p | _ => [] end.

(** The zero run that [String] elides: its first group and its length. *)
Fixpoint zero_prefix (g : list Z) : nat :=
  match g with x :: g => if x =? 0 then S (zero_prefix g) else O | [] => O end.

Fixpoint longest_zeros (fuel i : nat) (g : list Z) (best : nat * nat) : nat * nat :=
  match fuel, g with
  | S fuel, _ :: g' =>
      let z := zero_prefix g in
      if (best.2 <? z)%nat then longest_zeros fuel (i + z + 1) (drop (z + 1) g) (i, z)
      else longest_zeros fuel (i + 1) g' best
  | _, _ => best
  end.

Fixpoint hex_groups (first : bool) (g : list Z) : string :=
  match g with
  | [] => EmptyString
  | x :: g => (if first then "" else ":") +:+ fmt_x x +:+ hex_groups false g
  end.

Definition String6 (p : IP) : string :=
  let g := groups p in
  let '(e, n) := longest_zeros 8 0 g (0, 0)%nat in
  if (n <=? 1)%nat then hex_groups true g
  else hex_groups true (take e g) +:+ "::" +:+ hex_groups true (drop (e + n) g).

Definition IP_String (ip : IP) : string :=
  match ip with
  | [] => "<nil>"
  | _ =>
      match To4 ip with
      | [] => if (length ip =? 16)%nat then String6 ip
              else "?" +:+ String.concat "" (pad0 2 <$> (fmt_x <$> ip))
      | p4 => dotted p4
      end
  end.

Example parse_v4 : ParseIP "192.168.000.017" = IPv4_16 192 168 0 17.
Proof. reflexivity. Qed.
Example parse_v6 : ParseIP "fe80::1:2" = [254; 128; 0; 0; 0; 0; 0; 0; 0; 0; 0; 0; 0; 1; 0; 2].
Proof. reflexivity. Qed.
Example parse_mapped : ParseIP "::ffff:10.0.0.1" = IPv4_16 10 0 0 1.
Proof. reflexivity. Qed.
Example print_v6 : IP_String [254; 128; 0; 0; 0; 0; 0; 0; 0; 0; 0; 0; 0; 1; 0; 2] = "fe80::1:2".
Proof. reflexivity. Qed.
Example parse_block : ParseCIDR "10.1.2.3/20" =
  Some (IPv4_16 10 1 2 3, MkIPNet [10; 1; 0; 0] [255; 255; 240; 0]).
Proof. reflexivity. Qed.

(** ** The IPv4 path *)

Definition bytes4 (p : list Z) : Prop := length p = 4%nat ∧ Forall is_u8 p.

Lemma parse_digit_dot : parse_digit 10 "." = None.
Proof. reflexivity. Qed.

Lemma digits_go_step base n any d s :
  2 ≤ base ≤ 36 → 0 ≤ d < base → n * base + d < big →
  digits_go base n any (String (digit_char d) s) = digits_go base (n * base + d) true s.
Proof.
  intros Hb Hd Hn. cbn [digits_go]. rewrite parse_digit_char by done.
  by rewrite (proj2 (Z.leb_gt _ _)).
Qed.

Lemma digits_go_fmt base fuel n acc :
  2 ≤ base ≤ 36 → 0 ≤ n < base ^ Z.of_nat fuel → n < big → (fuel ≠ 0)%nat →
  ∀ any, digits_go base 0 any (fmt_go fuel base n acc) = digits_go base n true acc.
Proof.
  intros Hb. revert n acc. induction fuel as [|fuel IH]; intros n acc Hn Hbig Hf any; [done|].
  cbn [fmt_go]. destruct (Z.ltb_spec n base).
  { rewrite digits_go_step by lia. f_equal; lia. }
  assert (Hq := Z.div_mod n base ltac:(lia)).
  assert (Hr := Z.mod_pos_bound n base ltac:(lia)).
  rewrite IH.
  - rewrite digits_go_step by nia. f_equal; nia.
  - split; [apply Z.div_pos; lia|]. apply Z.div_lt_upper_bound; [lia|].
    rewrite <- Z.pow_succ_r, <- Nat2Z.inj_succ by lia. apply Hn.
  - nia.
  - intros ->. change (base ^ Z.of_nat 1) with (base ^ 1) in Hn. rewrite Z.pow_1_r in Hn. lia.
Qed.

Lemma fmt_go_app fuel base n acc : fmt_go fuel base n acc = fmt_go fuel base n "" +:+ acc.
Proof.
  revert n acc. induction fuel as [|fuel IH]; intros n acc; [done|]. simpl.
  destruct (n <? base); [done|]. rewrite IH, (IH _ (String _ "")).
  by rewrite str_app_assoc.
Qed.

(** [dtoi] reads back a printed octet and leaves what follows it. *)
Lemma dtoi_fmt_d n s :
  is_u8 n → (∀ c s', s = String c s' → parse_digit 10 c = None) →
  dtoi (fmt_d n +:+ s) = Some (n, s).
Proof.
  intros Hn Hs. unfold dtoi, fmt_d, FormatUint. rewrite <- fmt_go_app.
  unfold is_u8 in Hn. rewrite digits_go_fmt; [|lia| |unfold big; lia|done].
  - destruct s as [|c s']; [done|]. cbn [digits_go]. by rewrite (Hs c s').
  - split; [lia|]. apply pow64_bound; lia.
Qed.

Lemma char_is_refl c : char_is c c = true.
Proof. unfold char_is. by rewrite bool_decide_eq_true_2. Qed.

(** The octets after the first one, as [dotted] prints them. *)
Fixpoint dots (p : list Z) : string :=
  match p with [] => "" | n :: p => String "." (fmt_d n +:+ dots p) end.

Lemma dotted_dots n p : dotted (n :: p) = fmt_d n +:+ dots p.
Proof.
  revert n. induction p as [|m p IH]; intros n.
  - unfold dotted. simpl. by rewrite str_app_nil_r.
  - change (dotted (n :: m :: p)) with (fmt_d n +:+ String "." "" +:+ dotted (m :: p)).
    by rewrite IH.
Qed.

Lemma dots_stop p c s : dots p = String c s → parse_digit 10 c = None.
Proof. destruct p; [done|]. intros [= <- _]. done. Qed.

Lemma parse_octets_dots p : Forall is_u8 p → parse_octets (length p) false (dots p) = Some p.
Proof.
  induction 1 as [|n p Hn Hp IH]; [done|]. cbn [length parse_octets dots].
  rewrite char_is_refl. simpl. rewrite dtoi_fmt_d by (done || apply dots_stop). simpl.
  unfold is_u8 in Hn. rewrite (proj2 (Z.ltb_ge _ _)) by lia. by rewrite IH.
Qed.

Lemma parse_octets_dotted n p :
  is_u8 n → Forall is_u8 p → parse_octets (S (length p)) true (dotted (n :: p)) = Some (n :: p).
Proof.
  intros Hn Hp. rewrite dotted_dots. cbn [parse_octets]. simpl.
  rewrite dtoi_fmt_d by (done || apply dots_stop). simpl.
  unfold is_u8 in Hn. rewrite (proj2 (Z.ltb_ge _ _)) by lia. by rewrite parse_octets_dots.
Qed.

Lemma parseIPv4_dotted p : bytes4 p → parseIPv4 (dotted p) = Some (v4InV6Prefix ++ p).
Proof.
  intros [Hl Hp]. destruct p as [|n p]; [done|]. apply Forall_cons in Hp as [Hn Hp].
  unfold parseIPv4. change 4%nat with (S 3). injection Hl as <-. by rewrite parse_octets_dotted.
Qed.

Lemma parse_ip_kind_digits s t :
  str_forall is_dec_digit s = true → parse_ip_kind (s +:+ String "." t) = Some "."%char.
Proof.
  induction s as [|c s IH]; [done|]. simpl. intros [Hc Hs]%andb_true_iff.
  assert (char_is c "." || char_is c ":" = false) as ->; [|by apply IH].
  unfold char_is. apply orb_false_iff. split; apply bool_decide_eq_false_2; intros ->; done.
Qed.

Lemma To4_mapped p : length p = 4%nat → To4 (v4InV6Prefix ++ p) = p.
Proof. intros Hl. do 5 (destruct p as [|? p]; try discriminate Hl). done. Qed.

Lemma To4_length ip : To4 ip ≠ [] → length (To4 ip) = 4%nat.
Proof.
  unfold To4. destruct (Nat.eqb_spec (length ip) 4) as [->|]; [done|].
  destruct (Nat.eqb_spec (length ip) 16) as [E|]; simpl; [|done].
  case_bool_decide; [|done]. intros _. rewrite length_drop. lia.
Qed.

Lemma IP_String_v4 p : length p = 4%nat → IP_String (v4InV6Prefix ++ p) = dotted p.
Proof.
  intros Hl. unfold IP_String. rewrite To4_mapped by done.
  by do 5 (destruct p as [|? p]; try discriminate Hl).
Qed.

Lemma dotted_inj p q :
  bytes4 p → bytes4 q → dotted p = dotted q → p = q.
Proof.
  intros Hp Hq E. pose proof (parseIPv4_dotted _ Hp) as E1. rewrite E, parseIPv4_dotted in E1 by done.
  by injection E1 as ->.
Qed.

(** The printed form of an IPv4 address parses back to it. *)
Lemma ParseIP_String p : bytes4 p → ParseIP (IP_String (v4InV6Prefix ++ p)) = v4InV6Prefix ++ p.
Proof.
  intros Hp. destruct Hp as [Hl Hu]. rewrite IP_String_v4 by done. unfold ParseIP.
  assert (parse_ip_kind (dotted p) = Some "."%char) as ->.
  { destruct p as [|n [|m p]]; try discriminate Hl. rewrite dotted_dots. simpl.
    apply parse_ip_kind_digits, fmt_d_digits. apply Forall_cons in Hu as [? _]. u32_lia. }
  simpl. by rewrite parseIPv4_dotted.
Qed.

(** *** Parsing gives octets *)

Lemma digits_go_nonneg base n any s m t :
  0 ≤ base → 0 ≤ n → digits_go base n any s = Some (m, t) → 0 ≤ m.
Proof.
  intros Hb. revert n any. induction s as [|c s IH]; intros n any Hn; simpl.
  - destruct any; [|done]. by intros [= <- _].
  - destruct (parse_digit base c) as [d|] eqn:Ed.
    + case_match; [done|]. apply IH. unfold parse_digit in Ed.
      destruct (digit_val c) as [d'|] eqn:Ev; [|done]. simpl in Ed. case_match; [|done].
      simplify_eq. assert (0 ≤ d); [|nia]. clear -Ev. unfold digit_val in Ev.
      repeat case_match; simplify_eq; lia.
    + destruct any; [|done]. by intros [= <- _].
Qed.

Lemma parse_octets_bytes k first s p :
  parse_octets k first s = Some p → length p = k ∧ Forall is_u8 p.
Proof.
  revert first s p. induction k as [|k IH]; intros first s p; simpl.
  { by destruct s; intros [= <-]. }
  intros (s1 & _ & Hp)%bind_Some. apply bind_Some in Hp as ([n s2] & Hn & Hp).
  destruct (Z.ltb_spec 255 n); [done|]. apply bind_Some in Hp as (rest & Hr & [= <-]).
  destruct (IH _ _ _ Hr) as [<- ?]. split; [done|]. constructor; [|done].
  apply digits_go_nonneg in Hn; [|lia..]. unfold is_u8. lia.
Qed.

Lemma parseIPv4_bytes s ip : parseIPv4 s = Some ip → ∃ p, bytes4 p ∧ ip = v4InV6Prefix ++ p.
Proof.
  intros (p & Hp & [= <-])%bind_Some. exists p. split; [|done]. by eapply parse_octets_bytes.
Qed.

(** *** Blocks *)

(** The number four bytes stand for, most significant first. *)
Definition be (p : list Z) : Z := foldl (λ n b, n * 256 + b) 0 p.

Lemma bytes4_inv p : bytes4 p → ∃ a b c d, p = [a; b; c; d] ∧ is_u8 a ∧ is_u8 b ∧ is_u8 c ∧ is_u8 d.
Proof.
  intros [Hl Hp]. do 5 (destruct p as [|? p]; try discriminate Hl).
  rewrite !Forall_cons in Hp. do 4 eexists. split; [done|]. tauto.
Qed.

Lemma be_range p : bytes4 p → is_u32 (be p).
Proof. intros (a & b & c & d & -> & ?&?&?&?)%bytes4_inv. unfold be, is_u8, is_u32 in *. simpl. lia. Qed.

Lemma be_inj p q : bytes4 p → bytes4 q → be p = be q → p = q.
Proof.
  intros (a & b & c & d & -> & ?&?&?&?)%bytes4_inv (a' & b' & c' & d' & -> & ?&?&?&?)%bytes4_inv.
  unfold be, is_u8 in *. simpl. intros E. repeat f_equal; lia.
Qed.

Lemma land_byte x j : is_u8 x → 0 ≤ j ≤ 8 → Z.land x (256 - 2 ^ j) = x - x mod 2 ^ j.
Proof.
  intros Hx Hj.
  assert (Hall : forallb (λ x, forallb (λ j, Z.land x (256 - 2 ^ j) =? x - x mod 2 ^ j) (seqZ 0 9))
    (seqZ 0 256) = true) by by vm_compute.
  rewrite forallb_forall in Hall. specialize (Hall x).
  rewrite forallb_forall in Hall. apply Z.eqb_eq, Hall; apply list_elem_of_In, elem_of_seqZ.
  - unfold is_u8 in Hx. lia.
  - lia.
Qed.

(** A property of the 33 prefix lengths, by cases. *)
Lemma prefix_cases (P : Z → Prop) : Forall P (seqZ 0 33) → ∀ n, 0 ≤ n ≤ 32 → P n.
Proof. intros H n Hn. rewrite Forall_forall in H. apply H, elem_of_seqZ. lia. Qed.

Lemma CIDRMask_Size n : 0 ≤ n ≤ 32 → Size (CIDRMask n 32) = (n, 32).
Proof. revert n. apply prefix_cases. repeat constructor. Qed.

Lemma CIDRMask_bytes n :
  0 ≤ n ≤ 32 → ∃ i j k l, CIDRMask n 32 = [256 - 2 ^ i; 256 - 2 ^ j; 256 - 2 ^ k; 256 - 2 ^ l] ∧
    i = Z.max 0 (8 - n) ∧ j = Z.max 0 (Z.min 8 (16 - n)) ∧ k = Z.max 0 (Z.min 8 (24 - n)) ∧
    l = Z.min 8 (32 - n).
Proof.
  revert n. apply prefix_cases. repeat constructor; do 4 eexists; (split; [|by repeat split]);
    vm_compute; reflexivity.
Qed.

Lemma mod_low_byte h x j : 0 ≤ j ≤ 8 → (h * 256 + x) mod 2 ^ j = x mod 2 ^ j.
Proof.
  intros Hj. replace (h * 256 + x) with (x + h * 2 ^ (8 - j) * 2 ^ j).
  - apply Z_mod_plus_full.
  - rewrite <- Z.mul_assoc, <- Z.pow_add_r by lia. replace (8 - j + j) with 8 by lia. lia.
Qed.

(** Clearing the low [j] bits of the byte [x] and all of the rest [r]. *)
Lemma clear_host h x r w j :
  0 ≤ j ≤ 8 → 0 < w → 0 ≤ r < w →
  ((h * 256 + x) * w + r) / (2 ^ j * w) * (2 ^ j * w) = (h * 256 + (x - x mod 2 ^ j)) * w.
Proof.
  intros Hj Hw Hr. assert (0 < 2 ^ j) by (apply Z.pow_pos_nonneg; lia).
  rewrite (Z.mul_comm (2 ^ j)), <- Z.div_div by lia.
  rewrite Z.add_comm, Z.div_add, (Z.div_small r) by lia.
  replace (0 + (h * 256 + x)) with (h * 256 + x) by lia.
  assert (E := Z.div_mod (h * 256 + x) (2 ^ j) ltac:(lia)). rewrite mod_low_byte in E by done. nia.
Qed.

Lemma byte_full x : is_u8 x → x - x mod 2 ^ 0 = x ∧ x - x mod 2 ^ 8 = 0.
Proof. intros Hx. unfold is_u8 in Hx. change (2 ^ 0) with 1. change (2 ^ 8) with 256. 
  rewrite Z.mod_1_r, Z.mod_small by lia. lia. Qed.

(** Masking clears the host part. *)
Lemma be_mask p n :
  bytes4 p → 0 ≤ n ≤ 32 →
  be (zip_with Z.land p (CIDRMask n 32)) = be p / 2 ^ (32 - n) * 2 ^ (32 - n).
Proof.
  intros (a & b & c & d & -> & Ha & Hb & Hc & Hd)%bytes4_inv Hn.
  destruct (CIDRMask_bytes n Hn) as (i & j & k & l & -> & Hi & Hj & Hk & Hl). simpl.
  rewrite !land_byte by (done || lia). unfold be. simpl.
  pose proof (byte_full b Hb) as [Hb0 Hb8]. pose proof (byte_full c Hc) as [Hc0 Hc8].
  pose proof (byte_full d Hd) as [Hd0 Hd8]. pose proof (byte_full a Ha) as [Ha0 Ha8].
  unfold is_u8 in *.
  destruct (decide (n ≤ 8)); [|destruct (decide (n ≤ 16)); [|destruct (decide (n ≤ 24))]].
  - assert (j = 8) as -> by lia. assert (k = 8) as -> by lia. assert (l = 8) as -> by lia.
    pose proof (clear_host 0 a (b * 65536 + c * 256 + d) 16777216 i) as E.
    replace (2 ^ i * 16777216) with (2 ^ (32 - n)) in E
      by (replace (32 - n) with (i + 24) by lia; rewrite Z.pow_add_r by lia; done).
    rewrite Hb8, Hc8, Hd8.
    match goal with |- _ = ?x / _ * _ => replace x with
      ((0 * 256 + a) * 16777216 + (b * 65536 + c * 256 + d)) by lia end.
    rewrite E by lia. lia.
  - assert (i = 0) as -> by lia. assert (k = 8) as -> by lia. assert (l = 8) as -> by lia.
    pose proof (clear_host a b (c * 256 + d) 65536 j) as E.
    replace (2 ^ j * 65536) with (2 ^ (32 - n)) in E
      by (replace (32 - n) with (j + 16) by lia; rewrite Z.pow_add_r by lia; done).
    rewrite Ha0, Hc8, Hd8.
    match goal with |- _ = ?x / _ * _ => replace x with
      ((a * 256 + b) * 65536 + (c * 256 + d)) by lia end.
    rewrite E by lia. lia.
  - assert (i = 0) as -> by lia. assert (j = 0) as -> by lia. assert (l = 8) as -> by lia.
    pose proof (clear_host (a * 256 + b) c d 256 k) as E.
    replace (2 ^ k * 256) with (2 ^ (32 - n)) in E
      by (replace (32 - n) with (k + 8) by lia; rewrite Z.pow_add_r by lia; done).
    rewrite Ha0, Hb0, Hd8.
    match goal with |- _ = ?x / _ * _ => replace x with
      (((a * 256 + b) * 256 + c) * 256 + d) by lia end.
    rewrite E by lia. lia.
  - assert (i = 0) as -> by lia. assert (j = 0) as -> by lia. assert (k = 0) as -> by lia.
    pose proof (clear_host ((a * 256 + b) * 256 + c) d 0 1 l) as E.
    replace (2 ^ l * 1) with (2 ^ (32 - n)) in E by (replace (32 - n) with l by lia; lia).
    rewrite Ha0, Hb0, Hc0.
    match goal with |- _ = ?x / _ * _ => replace x with
      ((((a * 256 + b) * 256 + c) * 256 + d) * 1 + 0) by lia end.
    rewrite E by lia. lia.
Qed.

Lemma land_byte_range x j : is_u8 x → 0 ≤ j ≤ 8 → is_u8 (Z.land x (256 - 2 ^ j)).
Proof.
  intros Hx Hj. rewrite land_byte by done. assert (0 < 2 ^ j) by (apply Z.pow_pos_nonneg; lia).
  unfold is_u8 in *. pose proof (Z.mod_pos_bound x (2 ^ j) ltac:(done)).
  pose proof (Z.mod_le x (2 ^ j) ltac:(lia) ltac:(done)). lia.
Qed.

Lemma zip_land_bytes p n : bytes4 p → 0 ≤ n ≤ 32 → bytes4 (zip_with Z.land p (CIDRMask n 32)).
Proof.
  intros (a & b & c & d & -> & Ha & Hb & Hc & Hd)%bytes4_inv Hn.
  destruct (CIDRMask_bytes n Hn) as (i & j & k & l & -> & Hi & Hj & Hk & Hl). split; [done|].
  simpl. rewrite !Forall_cons. split_and!; try done; apply land_byte_range; done || lia.
Qed.

Lemma Mask_v4 p n :
  bytes4 p → 0 ≤ n ≤ 32 → Mask (v4InV6Prefix ++ p) (CIDRMask n 32) = zip_with Z.land p (CIDRMask n 32).
Proof.
  intros (a & b & c & d & -> & Ha & Hb & Hc & Hd)%bytes4_inv Hn.
  by destruct (CIDRMask_bytes n Hn) as (i & j & k & l & -> & _).
Qed.

(** What [ParseCIDR] returns for an IPv4 block: the address, the aligned network
    and the mask of its prefix length. *)
Lemma ParseCIDR_v4 s addr mask ip0 ip net :
  cut_slash s = Some (addr, mask) → parseIPv4 addr = Some ip0 → ParseCIDR s = Some (ip, net) →
  ∃ p n, bytes4 p ∧ 0 ≤ n ≤ 32 ∧ ip = v4InV6Prefix ++ p ∧
    net = MkIPNet (zip_with Z.land p (CIDRMask n 32)) (CIDRMask n 32).
Proof.
  intros Hcut Haddr. unfold ParseCIDR. rewrite Hcut. simpl. rewrite Haddr. simpl.
  intros ([n rest] & Hn & Hp)%bind_Some. apply digits_go_nonneg in Hn; [|lia..].
  change (8 * 4) with 32 in Hp.
  destruct (negb (bool_decide (rest = EmptyString)) || (32 <? n)) eqn:E; [done|]. apply orb_false_iff in E as [_ E%Z.ltb_ge].
  destruct (parseIPv4_bytes _ _ Haddr) as (p & Hb & ->). injection Hp as <- <-.
  exists p, n. by rewrite <- Mask_v4 by (done || lia).
Qed.

(** *** The mapped path

    An IPv6 block whose network is IPv4-mapped is the IPv4 block of the last
    four bytes. *)

Lemma parse_groups_bytes fuel acc ell s acc' ell' :
  Nat.Even (length acc) → (length acc <= 16)%nat → Forall is_u8 acc →
  parse_groups fuel acc ell s = Some (acc', ell') →
  (length acc' <= 16)%nat ∧ Forall is_u8 acc'.
Proof.
  revert acc ell s. induction fuel as [|fuel IH]; intros acc ell s Hev Hl Hu; cbn [parse_groups].
  { destruct s; [|done]. by intros [= <- <-]. }
  destruct (Nat.leb_spec 16 (length acc)) as [|Hlt]; [destruct s; [|done]; by intros [= <- <-]|].
  intros ([n s'] & Hn & Hp)%bind_Some. apply digits_go_nonneg in Hn; [|lia..].
  destruct (Z.ltb_spec 65535 n); [done|].
  assert (Hacc : (length (acc ++ [n / 256; n mod 256]%Z) <= 16)%nat ∧
    Nat.Even (length (acc ++ [n / 256; n mod 256])) ∧ Forall is_u8 (acc ++ [n / 256; n mod 256])).
  { rewrite length_app. simpl. destruct Hev as [m Hm]. split_and!; [lia|exists (S m); lia|].
    apply Forall_app. split; [done|]. rewrite !Forall_cons. unfold is_u8.
    split_and!; try apply Forall_nil_2; Z.div_mod_to_equations; lia. }
  destruct Hacc as (Hl' & Hev' & Hu').
  destruct s' as [|c rest]; [by injection Hp as <- <-|].
  destruct (char_is c "."); cbn [negb] in Hp.
  - case_match; [done|]. case_match eqn:E16; [done|]. apply Nat.ltb_ge in E16.
    apply bind_Some in Hp as (p & Hp & [= <- <-]). apply parse_octets_bytes in Hp as [Hpl Hpu].
    rewrite length_app, Hpl. split; [lia|by apply Forall_app].
  - destruct (char_is c ":"); cbn [negb] in Hp; [|done]. destruct rest as [|c' rest']; [done|].
    destruct (char_is c' ":"); [|exact (IH _ _ _ Hev' Hl' Hu' Hp)].
    destruct ell; [done|]. destruct rest'; [by injection Hp as <- <-|exact (IH _ _ _ Hev' Hl' Hu' Hp)].
Qed.

Lemma expand_ellipsis_bytes acc ell ip :
  (length acc <= 16)%nat → Forall is_u8 acc → expand_ellipsis acc ell = Some ip →
  length ip = 16%nat ∧ Forall is_u8 ip.
Proof.
  intros Hl Hu. unfold expand_ellipsis. destruct (Nat.ltb_spec (length acc) 16).
  - destruct ell as [e|]; [|done]. intros [= <-]. split.
    + rewrite !length_app, repeat_length, length_take, length_drop. lia.
    + apply Forall_app. split; [by apply Forall_take|]. apply Forall_app.
      split; [|by apply Forall_drop]. apply Forall_forall. intros x Hx%list_elem_of_In%repeat_spec.
      by subst.
  - destruct ell; [done|]. intros [= <-]. split; [lia|done].
Qed.

Lemma parseIPv6_bytes s ip : parseIPv6 s = Some ip → length ip = 16%nat ∧ Forall is_u8 ip.
Proof.
  assert (Hgo : ∀ ell s ip, ('(acc, ell) ← parse_groups 9 [] ell s; expand_ellipsis acc ell) = Some ip →
    length ip = 16%nat ∧ Forall is_u8 ip).
  { clear s ip. intros ell s ip ([acc ell'] & Hg & He)%bind_Some.
    apply parse_groups_bytes in Hg as [??]; [|by exists 0%nat|simpl; lia|done].
    by eapply expand_ellipsis_bytes. }
  assert (H0 : ∀ ip, Some (repeat 0 16) = Some ip → length ip = 16%nat ∧ Forall is_u8 ip).
  { intros ? [= <-]. split; [done|]. by repeat constructor. }
  unfold parseIPv6. intros H. repeat case_match; eauto.
Qed.

(** What parses has sixteen bytes. *)
Lemma ParseIP_bytes s : ParseIP s ≠ [] → length (ParseIP s) = 16%nat ∧ Forall is_u8 (ParseIP s).
Proof.
  unfold ParseIP. destruct (parse_ip_kind s) as [c|]; [|done].
  destruct (char_is c "."); [destruct (parseIPv4 s) as [ip|] eqn:E|destruct (parseIPv6 s) as [ip|] eqn:E]; try done; intros _; simpl.
  - apply parseIPv4_bytes in E as (p & [Hl Hp] & ->). split; [rewrite length_app; simpl; lia|].
    apply Forall_app. split; [by apply (bool_decide_unpack _); vm_compute|done].
  - by apply parseIPv6_bytes in E.
Qed.

Lemma mask_cases (P : Z → Prop) : Forall P (seqZ 0 96) → ∀ n, 0 ≤ n < 96 → P n.
Proof. intros H n Hn. rewrite Forall_forall in H. apply H, elem_of_seqZ. lia. Qed.

Lemma CIDRMask_high n : 96 ≤ n ≤ 128 → CIDRMask n 128 = repeat 255 12 ++ CIDRMask (n - 96) 32.
Proof.
  intros Hn. replace n with (n - 96 + 96) at 1 by lia. assert (0 ≤ n - 96 ≤ 32) as Hm by lia.
  revert Hm. generalize (n - 96). apply prefix_cases. repeat constructor.
Qed.

Lemma CIDRMask_low n :
  0 ≤ n < 96 → ∃ m, CIDRMask n 128 !! 11%nat = Some m ∧ 0 ≤ m < 255.
Proof. revert n. apply mask_cases. repeat constructor; vm_compute; eexists; (split; [reflexivity|split; done]). Qed.

Lemma land_255 x m : is_u8 x → is_u8 m → Z.land x m = 255 → m = 255.
Proof.
  intros Hx Hm. assert (Hall : forallb (λ x, forallb (λ m, negb (Z.land x m =? 255) || (m =? 255))
    (seqZ 0 256)) (seqZ 0 256) = true) by by vm_compute.
  rewrite forallb_forall in Hall. specialize (Hall x). rewrite forallb_forall in Hall.
  unfold is_u8 in *. intros E. assert (negb (Z.land x m =? 255) || (m =? 255) = true) as Hb.
  { apply Hall; apply list_elem_of_In, elem_of_seqZ; lia. }
  rewrite E in Hb. simpl in Hb. lia.
Qed.

Lemma land_full (p : list Z) : Forall is_u8 p → zip_with Z.land p (repeat 255 (length p)) = p.
Proof.
  induction 1 as [|x p Hx Hp IH]; [done|]. simpl. f_equal; [|done].
  change 255 with (256 - 2 ^ 0). rewrite land_byte by (done || lia). rewrite Z.mod_1_r. lia.
Qed.

Lemma Mask_mapped ip n :
  length ip = 16%nat → Forall is_u8 ip → 0 ≤ n ≤ 128 → To4 (Mask ip (CIDRMask n 128)) ≠ [] →
  96 ≤ n ∧ ∃ p, bytes4 p ∧ To4 (Mask ip (CIDRMask n 128)) = zip_with Z.land p (CIDRMask (n - 96) 32) ∧
    Size (CIDRMask n 128) = (n, 128).
Proof.
  intros Hl Hu Hn Hne.
  assert (Hml : length (CIDRMask n 128) = 16%nat) by done.
  assert (HM : Mask ip (CIDRMask n 128) = zip_with Z.land ip (CIDRMask n 128)).
  { clear Hne. revert Hml. generalize (CIDRMask n 128). intros m Hml. unfold Mask.
    repeat progress (rewrite ?Hl, ?Hml; simpl). done. }
  rewrite HM in *.
  assert (Hzl : length (zip_with Z.land ip (CIDRMask n 128)) = 16%nat)
    by (rewrite length_zip_with, Hl, Hml; done).
  unfold To4 in Hne. rewrite Hzl in Hne. simpl in Hne. case_bool_decide as Hpre; [|done].
  assert (Hn96 : 96 ≤ n).
  { destruct (decide (96 ≤ n)) as [|Hlt]; [done|]. exfalso.
    destruct (CIDRMask_low n ltac:(lia)) as (m & Hm & Hmr).
    destruct (lookup_lt_is_Some_2 ip 11) as [x Hx]; [lia|].
    assert (E : zip_with Z.land ip (CIDRMask n 128) !! 11%nat = Some (Z.land x m)).
    { rewrite lookup_zip_with, Hx, Hm. done. }
    assert (E' : take 12 (zip_with Z.land ip (CIDRMask n 128)) !! 11%nat = Some 255) by by rewrite Hpre.
    rewrite lookup_take_lt in E' by lia. rewrite E in E'. injection E' as E'.
    apply land_255 in E'; [lia| |unfold is_u8; lia]. eapply Forall_lookup_1; done. }
  split; [done|]. rewrite CIDRMask_high in * by lia.
  rewrite <- (take_drop 12 ip) in Hpre |- *.
  assert (Ht : length (take 12 ip) = 12%nat) by (rewrite length_take; lia).
  rewrite zip_with_app in Hpre |- * by by rewrite Ht.
  assert (Hf : zip_with Z.land (take 12 ip) (repeat 255 12) = take 12 ip).
  { rewrite <- Ht at 2. apply land_full. by apply Forall_take. }
  rewrite Hf in Hpre |- *. rewrite take_app_length' in Hpre by done.
  exists (drop 12 ip). split; [|split].
  - split; [rewrite length_drop; lia|by apply Forall_drop].
  - rewrite Hpre. apply To4_mapped. rewrite length_zip_with, length_drop, Hl. done.
  - assert (Hs : ∀ m, 0 ≤ m ≤ 32 → Size (repeat 255 12 ++ CIDRMask m 32) = (m + 96, 128)).
    { apply prefix_cases. repeat constructor. }
    rewrite Hs by lia. f_equal. lia.
Qed.

(** Every block [ParseCIDR] accepts whose network has an IPv4 form is the
    aligned IPv4 block of some address and prefix length. *)
Lemma ParseCIDR_block s ip net :
  ParseCIDR s = Some (ip, net) → To4 (net_IP net) ≠ [] →
  ∃ p n bits, bytes4 p ∧ 0 ≤ n ≤ 32 ∧ 32 ≤ bits ∧ To4 (net_IP net) = zip_with Z.land p (CIDRMask n 32) ∧
    Size (net_Mask net) = (bits - 32 + n, bits).
Proof.
  intros Hp. destruct (cut_slash s) as [[addr mask]|] eqn:Hcut;
    [|unfold ParseCIDR in Hp; by rewrite Hcut in Hp].
  destruct (parseIPv4 addr) as [ip0|] eqn:E4.
  - destruct (ParseCIDR_v4 _ _ _ _ _ _ Hcut E4 Hp) as (p & n & Hb & Hn & -> & ->). simpl.
    intros _. pose proof (zip_land_bytes p n Hb Hn) as [Hl _].
    exists p, n, 32. split; [done|]. split; [done|]. split; [done|]. split; [|by rewrite CIDRMask_Size].
    unfold To4. by rewrite Hl.
  - unfold ParseCIDR in Hp. rewrite Hcut in Hp. simpl in Hp. rewrite E4 in Hp. simpl in Hp.
    destruct (parseIPv6 addr) as [ip6|] eqn:E6; [|done]. simpl in Hp.
    apply bind_Some in Hp as ([n rest] & Hn & Hp). apply digits_go_nonneg in Hn; [|lia..].
    change (8 * 16) with 128 in Hp.
    destruct (negb (bool_decide (rest = EmptyString)) || (128 <? n)) eqn:E; [done|].
    apply orb_false_iff in E as [_ E%Z.ltb_ge]. injection Hp as <- <-. simpl. intros Hne.
    destruct (parseIPv6_bytes _ _ E6) as [Hl Hu].
    destruct (Mask_mapped ip6 n Hl Hu ltac:(lia) Hne) as (H96 & p & Hb & HT & HS).
    exists p, (n - 96), 128. split_and!; [done|lia|lia|lia|done|]. rewrite HS. f_equal. lia.
Qed.

End GoNet.
