(* ===== verification/GoMemory.v ===== *)
(** * Go's memory

    What the sources use of pointers, slices and allocation: a heap of typed arrays (an
    object is an array of one), where several pointers and slices may share one array.
    What a struct stands for, with all it refers to, is its view ([View]); a heap may grow
    without changing any view ([view_mono]).  The language's, so not in the map. *)

From S2P Require Import Prelude.

(** The types whose values lie in memory, each with its layout: the fields in their order.
    A value may be read through any type of the same layout, as [unsafe.Pointer] does. *)
Class GoTypes := {
  gotype : Type;
  gotype_dec :: EqDecision gotype;
  layout : gotype → Type
}.

Class Struct `{GoTypes} (T : Type) := {
  type_of : gotype;
  to_raw : T → layout type_of;
  of_raw : layout type_of → T;
  of_to_raw x : of_raw (to_raw x) = x;
  zero : T
}.
Arguments type_of {_} T {_}.

Module GoMemory.

Abbreviation loc := positive.

(** nil, or the array, the offset and the length; nil, or the array and the index. *)
Abbreviation slice := (option (loc * nat * nat)).
Abbreviation ptr := (option (loc * nat)).

Record cell `{GoTypes} := MkCell { cell_type : gotype; cell_data : list (layout cell_type) }.
Abbreviation Heap := (gmap positive cell).

Section Memory.
Context `{GoTypes}.

#[local] Abbreviation HM := (M Heap).

(** The array at a location, if its elements have layout [t]. *)
Definition raw_array (t : gotype) (h : Heap) (l : loc) : option (list (layout t)) :=
  c ← h !! l;
  match decide (cell_type c = t) with
  | left e => Some (eq_rect (cell_type c) (λ t, list (layout t)) (cell_data c) t e)
  | right _ => None
  end.

Definition array {T} `{!Struct T} (h : Heap) (l : loc) : option (list T) :=
  (λ a : list (layout (type_of T)), of_raw <$> a) <$> raw_array (type_of T) h l.

Definition as_cell {T} `{!Struct T} (a : list T) : cell := MkCell _ (type_of T) (to_raw <$> a).

(** ** Operations *)

Definition alloc {T} `{!Struct T} (a : list T) : HM loc :=
  h ← get;
  let l := fresh (dom h) in
  put (<[l := as_cell a]> h);;
  mret l.

Definition new {T} `{!Struct T} (x : T) : HM ptr := l ← alloc [x]; mret (Some (l, 0%nat)).

Definition load {T} `{!Struct T} (p : ptr) : HM T :=
  match p with
  | None => panic "nil pointer"
  | Some (l, i) =>
      h ← get;
      match array h l ≫= lookup i with Some x => mret x | None => panic "bad pointer" end
  end.

Definition store {T} `{!Struct T} (p : ptr) (x : T) : HM unit :=
  match p with
  | None => panic "nil pointer"
  | Some (l, i) =>
      h ← get;
      match array h l with
      | Some a => if (i <? length a)%nat then put (<[l := as_cell (<[i := x]> a)]> h) else panic "bad pointer"
      | None => panic "bad pointer"
      end
  end.

(** [make([]T, n)]. *)
Definition make (T : Type) `{!Struct T} (n : nat) : HM slice :=
  l ← alloc (replicate n (zero : T)); mret (Some (l, 0%nat, n)).

Definition len (s : slice) : nat := match s with None => 0 | Some (_, _, n) => n end.

(** [&s[i]]. *)
Definition elem (s : slice) (i : nat) : ptr :=
  match s with Some (l, off, n) => if (i <? n)%nat then Some (l, off + i)%nat else None | None => None end.

(** The elements of a slice, as they lie in memory. *)
Definition elements_of {T} `{!Struct T} (h : Heap) (s : slice) : option (list T) :=
  match s with
  | None => Some []
  | Some (l, off, n) => a ← array h l; if (off + n <=? length a)%nat then Some (take n (drop off a)) else None
  end.

(** [copy(dst, src)], element by element; the two do not overlap. *)
Fixpoint copy_from (T : Type) `{!Struct T} (dst src : slice) (i n : nat) : HM unit :=
  match n with
  | O => mret tt
  | S n => x ← load (T:=T) (elem src i); store (elem dst i) x;; copy_from T dst src (S i) n
  end.

Definition copy (T : Type) `{!Struct T} (dst src : slice) : HM unit :=
  copy_from T dst src 0 (Nat.min (len dst) (len src)).

(** ** Reading back *)

Lemma array_as_cell {T} `{!Struct T} (h : Heap) l (a : list T) : h !! l = Some (as_cell a) → array h l = Some a.
Proof.
  unfold array, raw_array, as_cell. intros ->. simpl. destruct (decide _) as [e|]; [|done].
  rewrite (proof_irrel e eq_refl). simpl. rewrite <- list_fmap_compose. f_equal.
  rewrite <- (list_fmap_id a) at 2. apply list_fmap_ext. intros i x _. apply of_to_raw.
Qed.

Lemma array_mono {T} `{!Struct T} (h h' : Heap) l (a : list T) : h ⊆ h' → array h l = Some a → array h' l = Some a.
Proof.
  unfold array, raw_array. intros Hs. destruct (h !! l) as [c|] eqn:E; [|done].
  by rewrite (lookup_weaken _ _ _ _ E Hs).
Qed.

Lemma array_insert {T} `{!Struct T} (h : Heap) l (a : list T) : array (<[l := as_cell a]> h) l = Some a.
Proof. apply array_as_cell, lookup_insert_eq. Qed.

Lemma elements_mono {T} `{!Struct T} (h h' : Heap) s (xs : list T) :
  h ⊆ h' → elements_of h s = Some xs → elements_of h' s = Some xs.
Proof.
  intros Hs. destruct s as [[[l off] n]|]; [|done]. simpl. destruct (array h l) as [a|] eqn:E; [|done].
  by rewrite (array_mono _ _ _ _ Hs E).
Qed.

Lemma elements_array {T} `{!Struct T} (h : Heap) l (a : list T) :
  array h l = Some a → elements_of h (Some (l, 0%nat, length a)) = Some a.
Proof. simpl. intros ->. simpl. rewrite Nat.leb_refl. by rewrite drop_0, take_ge by done. Qed.

(** ** Running the operations *)

Lemma runs_alloc {T} `{!Struct T} (a : list T) (h : Heap) (Q : loc → Heap → Prop) :
  (∀ l, h !! l = None → Q l (<[l := as_cell a]> h)) → runs (alloc a) h Q.
Proof. intros HQ. unfold alloc. repeat mstep. apply HQ, not_elem_of_dom, is_fresh. Qed.

Lemma runs_new {T} `{!Struct T} (x : T) (h : Heap) (Q : ptr → Heap → Prop) :
  (∀ l, h !! l = None → Q (Some (l, 0%nat)) (<[l := as_cell [x]]> h)) → runs (new x) h Q.
Proof. intros HQ. unfold new. mstep. apply runs_alloc. intros l Hl. mstep. by apply HQ. Qed.

Lemma runs_load {T} `{!Struct T} l i (a : list T) x (h : Heap) (Q : T → Heap → Prop) :
  array h l = Some a → a !! i = Some x → Q x h → runs (load (Some (l, i))) h Q.
Proof. intros Ha Hx HQ. unfold load. mstep. mstep. rewrite Ha. simpl. rewrite Hx. by mstep. Qed.

Lemma runs_store {T} `{!Struct T} l i (a : list T) x (h : Heap) (Q : unit → Heap → Prop) :
  array h l = Some a → (i < length a)%nat → Q tt (<[l := as_cell (<[i := x]> a)]> h) → runs (store (Some (l, i)) x) h Q.
Proof.
  intros Ha Hi HQ. unfold store. mstep. mstep. rewrite Ha. destruct (Nat.ltb_spec i (length a)); [by mstep|lia].
Qed.

Lemma runs_make (T : Type) `{!Struct T} n (h : Heap) (Q : slice → Heap → Prop) :
  (∀ l, h !! l = None → Q (Some (l, 0%nat, n)) (<[l := as_cell (replicate n (zero : T))]> h)) → runs (make T n) h Q.
Proof. intros HQ. unfold make. mstep. apply runs_alloc. intros l Hl. mstep. by apply HQ. Qed.

(** Loading an element of a slice. *)
Lemma runs_load_elem {T} `{!Struct T} s i (xs : list T) x (h : Heap) (Q : T → Heap → Prop) :
  elements_of h s = Some xs → xs !! i = Some x → Q x h → runs (load (elem s i)) h Q.
Proof.
  destruct s as [[[l off] n]|]; simpl; [|by intros [= <-]].
  destruct (array h l) as [a|] eqn:Ea; [|done]. simpl. destruct (Nat.leb_spec (off + n) (length a)) as [Hn|]; [|done].
  intros [= <-] Hx HQ. apply lookup_take_Some in Hx as [Hx Hi]. rewrite lookup_drop in Hx.
  destruct (Nat.ltb_spec i n); [|lia]. by eapply runs_load.
Qed.

Lemma len_elements {T} `{!Struct T} (h : Heap) s (xs : list T) : elements_of h s = Some xs → len s = length xs.
Proof.
  destruct s as [[[l off] n]|]; simpl; [|by intros [= <-]].
  destruct (array h l) as [a|]; [|done]. simpl. destruct (Nat.leb_spec (off + n) (length a)); [|done].
  intros [= <-]. rewrite length_take, length_drop. lia.
Qed.

(** [make] and [copy] put the elements into a new array. *)
Lemma runs_copy_from {T} `{!Struct T} src (xs pre rest : list T) l (h : Heap) (Q : unit → Heap → Prop) :
  elements_of h src = Some xs → h !! l = None → xs = pre ++ rest →
  Q tt (<[l := as_cell xs]> h) →
  runs (copy_from T (Some (l, 0%nat, length xs)) src (length pre) (length rest))
    (<[l := as_cell (pre ++ replicate (length rest) zero)]> h) Q.
Proof.
  intros Hsrc Hl. revert pre. induction rest as [|x rest IH]; intros pre Exs HQ; simpl.
  - mstep. by rewrite <- Exs.
  - assert (Hi : (length pre < length xs)%nat) by (rewrite Exs, length_app; simpl; lia). mstep.
    eapply runs_load_elem; [eapply elements_mono; [by apply insert_subseteq|done]| |].
    { rewrite Exs. apply lookup_app_length. }
    mstep. destruct (Nat.ltb_spec (length pre) (length xs)); [|lia].
    eapply runs_store; [apply array_insert|rewrite length_app; simpl; lia|].
    rewrite insert_insert_eq, insert_app_r_alt, Nat.sub_diag by lia. simpl.
    specialize (IH (pre ++ [x])). rewrite length_app, <- app_assoc in IH. simpl in IH.
    rewrite Nat.add_1_r, <- app_assoc in IH. by apply IH.
Qed.

Lemma runs_make_copy {T} `{!Struct T} src (xs : list T) (h : Heap) (Q : slice → Heap → Prop) :
  elements_of h src = Some xs →
  (∀ l, h !! l = None → Q (Some (l, 0%nat, length xs)) (<[l := as_cell xs]> h)) →
  runs (s ← make T (len src); copy T s src;; mret s) h Q.
Proof.
  intros Hsrc HQ. mstep. apply runs_make. intros l Hl. mstep. unfold copy. simpl.
  rewrite (len_elements _ _ _ Hsrc), Nat.min_id.
  apply (runs_copy_from src xs [] xs l); [done..|]. mstep. by apply HQ.
Qed.

(** ** Growth *)

(** The heap has grown by the cells [n] and is otherwise as it was. *)
Definition grown (h n h' : Heap) : Prop := h' = h ∪ n ∧ h ##ₘ n.

Lemma grown_refl h : grown h ∅ h.
Proof. split; [by rewrite map_union_empty|apply map_disjoint_empty_r]. Qed.

Lemma grown_sub h n h' : grown h n h' → h ⊆ h' ∧ n ⊆ h'.
Proof. intros [-> Hd]. split; [by apply map_union_subseteq_l|by apply map_union_subseteq_r]. Qed.

Lemma grown_trans h n1 h1 n2 h2 :
  grown h n1 h1 → grown h1 n2 h2 → grown h (n1 ∪ n2) h2 ∧ n1 ⊆ n1 ∪ n2 ∧ n2 ⊆ n1 ∪ n2.
Proof.
  intros [-> Hd1] [-> [Hd2 Hd3]%map_disjoint_union_l]. split; [split|].
  - by rewrite map_union_assoc.
  - by apply map_disjoint_union_r.
  - split; [by apply map_union_subseteq_l|by apply map_union_subseteq_r].
Qed.

Lemma grown_alloc {T} `{!Struct T} (a : list T) (h : Heap) l :
  h !! l = None → grown h {[l := as_cell a]} (<[l := as_cell a]> h).
Proof.
  intros Hl. split; [by rewrite insert_union_singleton_r|by apply map_disjoint_singleton_r].
Qed.

(** A write to a new cell. *)
Lemma grown_write h n h' l c : grown h n h' → is_Some (n !! l) → grown h (<[l := c]> n) (<[l := c]> h').
Proof.
  intros [-> Hd] Hl. assert (h !! l = None).
  { destruct Hl as [d Hl]. by eapply map_disjoint_Some_r. }
  split; [by rewrite insert_union_r|by apply map_disjoint_insert_r].
Qed.

End Memory.
End GoMemory.

(** ** Views *)

(** What a value of type [T] stands for in a heap; the heap may grow. *)
Class View `{GoTypes} (T V : Type) := {
  view : GoMemory.Heap → T → option V;
  view_mono h h' x v : h ⊆ h' → view h x = Some v → view h' x = Some v
}.
Arguments view {_ T V _} h x.

Module GoViews.
Import GoMemory.

Section Views.
Context `{GoTypes}.

(** A slice stands for the list of what its elements stand for. *)
Definition view_slice {T V} `{!Struct T, !View T V} (h : Heap) (s : slice) : option (list V) :=
  xs ← elements_of (T := T) h s; mapM (view h) xs.

Lemma mapM_fmap {A B C} (f : B → option C) (g : A → B) (l : list A) : mapM f (g <$> l) = mapM (λ x, f (g x)) l.
Proof. induction l as [|x l IH]; [done|]. simpl. by rewrite <- IH. Qed.

(** Only the layout of the elements matters. *)
Definition raw_elements (t : gotype) (h : Heap) (s : slice) : option (list (layout t)) :=
  match s with
  | None => Some []
  | Some (l, off, n) => a ← raw_array t h l; if (off + n <=? length a)%nat then Some (take n (drop off a)) else None
  end.

Lemma view_slice_raw {T V} `{!Struct T, !View T V} (h : Heap) (s : slice) :
  view_slice (T := T) h s = (rs ← raw_elements (type_of T) h s; mapM (λ r, view h (of_raw r)) rs).
Proof.
  unfold view_slice. destruct s as [[[l off] n]|]; [|done]. simpl. unfold array.
  destruct (raw_array (type_of T) h l) as [a|]; [|done]. simpl. rewrite length_fmap.
  destruct (_ <=? _)%nat; [|done]. simpl. rewrite <- fmap_drop, <- fmap_take. apply mapM_fmap.
Qed.

Lemma mapM_mono {T V} `{!View T V} (h h' : Heap) (xs : list T) (vs : list V) :
  h ⊆ h' → mapM (view h) xs = Some vs → mapM (view h') xs = Some vs.
Proof.
  intros Hs. rewrite !mapM_Some. intros Hv. eapply Forall2_impl; [exact Hv|]. intros x v. by apply view_mono.
Qed.

Lemma view_slice_mono {T V} `{!Struct T, !View T V} (h h' : Heap) s (vs : list V) :
  h ⊆ h' → view_slice (T := T) h s = Some vs → view_slice (T := T) h' s = Some vs.
Proof.
  intros Hs. unfold view_slice. destruct (elements_of h s) as [xs|] eqn:E; [|done]. simpl.
  rewrite (elements_mono _ _ _ _ Hs E). simpl. by apply mapM_mono.
Qed.

(** A pointer stands for nothing, or for what the object stands for. *)
Definition view_at {T V} `{!Struct T, !View T V} (h : Heap) (l : loc) (i : nat) : option V :=
  a ← array (T := T) h l; x ← a !! i; view h x.

Definition view_ptr {T V} `{!Struct T, !View T V} (h : Heap) (p : ptr) : option (option V) :=
  match p with None => Some None | Some (l, i) => Some <$> view_at (T := T) h l i end.

Lemma view_at_mono {T V} `{!Struct T, !View T V} (h h' : Heap) l i (v : V) :
  h ⊆ h' → view_at (T := T) h l i = Some v → view_at (T := T) h' l i = Some v.
Proof.
  intros Hs. unfold view_at. destruct (array h l) as [a|] eqn:E; [|done]. rewrite (array_mono _ _ _ _ Hs E). simpl.
  destruct (a !! i) as [x|]; [|done]. by apply view_mono.
Qed.

Lemma view_ptr_mono {T V} `{!Struct T, !View T V} (h h' : Heap) p (v : option V) :
  h ⊆ h' → view_ptr (T := T) h p = Some v → view_ptr (T := T) h' p = Some v.
Proof.
  intros Hs. destruct p as [[l i]|]; [|done]. simpl. rewrite !fmap_Some. intros (x & Hx & ->).
  exists x. split; [|done]. by eapply view_at_mono.
Qed.

(** ** Copies *)

(** The result stands for [v] in new cells alone. *)
Definition copied {T V} `{!View T V} (v : V) (h : Heap) (x : T) (h' : Heap) : Prop :=
  ∃ n, grown h n h' ∧ view n x = Some v.

(** [into] makes a separate copy. *)
Definition copies {T V} `{!View T V} (into : T → M Heap T) : Prop :=
  ∀ h x v, view h x = Some v → runs (into x) h (copied v h).

Lemma grown_view {T V} `{!View T V} (h n h' : Heap) (x : T) v :
  grown h n h' → view h x = Some v → view h' x = Some v.
Proof. intros [? _]%grown_sub. by apply view_mono. Qed.

(** ** The code of generated copies *)

(** [if in.F != nil], with [make] and [copy]. *)
Definition copy_slice (T : Type) `{!Struct T} (s : slice) : M Heap slice :=
  match s with None => mret None | Some _ => out ← make T (len s); copy T out s;; mret out end.

(** The loop that calls [DeepCopyInto] from each element to its copy. *)
Fixpoint copy_each {T} `{!Struct T} (into : T → M Heap T) (out s : slice) (i n : nat) : M Heap unit :=
  match n with
  | O => mret tt
  | S n => x ← load (elem s i); y ← into x; store (elem out i) y;; copy_each into out s (S i) n
  end.

Definition copy_items {T} `{!Struct T} (into : T → M Heap T) (s : slice) : M Heap slice :=
  match s with
  | None => mret None
  | Some _ => out ← make T (len s); copy_each into out s 0 (len s);; mret out
  end.

(** [DeepCopy]: nil for nil, or a new object. *)
Definition DeepCopy {T} `{!Struct T} (into : T → M Heap T) (p : ptr) : M Heap ptr :=
  match p with
  | None => mret None
  | Some _ => out ← new (zero : T); x ← load p; y ← into x; store out y;; mret out
  end.

Lemma copy_slice_copies {T V} `{!Struct T, !View T V} s (vs : list V) (h : Heap) :
  (∀ h h' (x : T), view h x = view h' x) → view_slice (T := T) h s = Some vs →
  runs (copy_slice T s) h (λ s' h', ∃ n, grown h n h' ∧ view_slice (T := T) n s' = Some vs).
Proof.
  intros Hflat Hv. unfold copy_slice. destruct s as [[[l off] k]|].
  2: { mstep. exists ∅. by split; [apply grown_refl|]. }
  unfold view_slice in Hv. apply bind_Some in Hv as (xs & Hxs & Hvs).
  apply (runs_make_copy (T := T) _ xs h); [done|]. intros l' Hl'. eexists. split; [by apply grown_alloc|].
  unfold view_slice. rewrite elements_array by apply array_as_cell, lookup_singleton_eq. simpl.
  rewrite <- Hvs. apply mapM_ext. intros x. apply Hflat.
Qed.

(** The copies [ys] made so far are in new cells [n], apart from the array they are put into. *)
Lemma copy_each_copies {T V} `{!Struct T, !View T V} (into : T → M Heap T) src l (h h' n : Heap) (xs ys rest : list T)
    (vs ws : list V) :
  copies into → elements_of h src = Some xs → drop (length ys) xs = rest → (length ys + length rest)%nat = length xs →
  mapM (view h) rest = Some ws → mapM (view n) ys = Some vs → n !! l = None →
  grown h (<[l := as_cell (ys ++ replicate (length rest) zero)]> n) h' →
  runs (copy_each into (Some (l, 0%nat, length xs)) src (length ys) (length rest)) h' (λ _ h', ∃ n' zs,
    grown h (<[l := as_cell zs]> n') h' ∧ n' !! l = None ∧ mapM (view n') zs = Some (vs ++ ws) ∧ length zs = length xs).
Proof.
  intros Hc Hsrc. revert h' ys vs ws n.
  induction rest as [|x rest IH]; intros h' ys vs ws n Hdrop Hlen Hws Hys Hnl Hg; simpl in *.
  - mstep. injection Hws as <-. exists n, ys. rewrite app_nil_r in *. split_and!; [done..|lia].
  - apply bind_Some in Hws as (w & Hw & Hws). apply bind_Some in Hws as (ws' & Hws & [= <-]).
    pose proof (grown_sub _ _ _ Hg) as [Hh Hn]. mstep.
    assert (Hx : xs !! length ys = Some x) by (rewrite <- (Nat.add_0_r (length ys)), <- lookup_drop, Hdrop; done).
    eapply runs_load_elem; [exact (elements_mono _ _ _ _ Hh Hsrc)|done|]. mstep.
    eapply runs_conseq; [exact (Hc _ _ _ (view_mono _ _ _ _ Hh Hw))|]. intros y h2 (n2 & Hg2 & Hy).
    destruct (grown_trans _ _ _ _ _ Hg Hg2) as (Hg3 & Hn3 & Hn4). mstep.
    pose proof (grown_sub _ _ _ Hg3) as [_ Hn5].
    destruct (Nat.ltb_spec (length ys) (length xs)); [|lia].
    assert (Hl2 : n2 !! l = None).
    { destruct Hg2 as [_ Hd]. eapply map_disjoint_Some_l; [exact Hd|]. eapply lookup_weaken; [|exact Hn]. apply lookup_insert_eq. }
    assert (Hd2 : n ##ₘ n2).
    { destruct Hg2 as [_ Hd]. eapply map_disjoint_weaken_l; [exact Hd|]. etrans; [|exact Hn]. by apply insert_subseteq. }
    eapply runs_store; [eapply array_mono; [exact Hn5|]; apply array_as_cell; eapply lookup_weaken; [apply lookup_insert_eq|done]| |].
    { rewrite length_app. simpl. lia. }
    rewrite insert_app_r_alt, Nat.sub_diag by done. simpl.
    replace (S (length ys)) with (length (ys ++ [y])) by (rewrite length_app; simpl; lia).
    eapply runs_conseq; [apply (IH _ (ys ++ [y]) (vs ++ [w]) ws' (n ∪ n2))|].
    + rewrite length_app. simpl. by rewrite <- drop_drop, Hdrop.
    + rewrite length_app. simpl. lia.
    + done.
    + apply mapM_Some, Forall2_app; [apply mapM_Some; eapply mapM_mono; [apply map_union_subseteq_l|exact Hys]|].
      repeat constructor. eapply view_mono; [by apply map_union_subseteq_r|exact Hy].
    + apply lookup_union_None. done.
    + rewrite <- app_assoc. simpl. rewrite <- insert_union_l in Hg3.
      eapply grown_write in Hg3; [|rewrite lookup_insert_eq; by eexists]. by rewrite insert_insert_eq in Hg3.
    + intros _ h3 (n' & zs & ? & ? & Hz & ?). exists n', zs. rewrite <- app_assoc in Hz. done.
Qed.

Lemma copy_items_copies {T V} `{!Struct T, !View T V} (into : T → M Heap T) s (vs : list V) (h : Heap) :
  copies into → view_slice (T := T) h s = Some vs →
  runs (copy_items into s) h (λ s' h', ∃ n, grown h n h' ∧ view_slice (T := T) n s' = Some vs).
Proof.
  intros Hc Hv. unfold copy_items. destruct s as [[[l off] k]|].
  2: { mstep. exists ∅. by split; [apply grown_refl|]. }
  unfold view_slice in Hv. apply bind_Some in Hv as (xs & Hxs & Hvs).
  rewrite (len_elements _ _ _ Hxs). mstep. apply runs_make. intros l' Hl'. mstep.
  eapply runs_conseq; [eapply (copy_each_copies into _ l' h _ ∅ xs [] xs [] vs)|]; try done.
  - rewrite insert_empty. by apply grown_alloc.
  - intros [] h' (n & zs & Hg & Hn & Hz & Hlen). mstep. eexists. split; [exact Hg|].
    unfold view_slice. rewrite <- Hlen, elements_array by apply array_insert. simpl.
    eapply mapM_mono; [|exact Hz]. by apply insert_subseteq.
Qed.

(** The new object is apart from what it refers to. *)
Lemma DeepCopy_new {T V} `{!Struct T, !View T V} (into : T → M Heap T) l i (w : V) (h : Heap) :
  copies into → view_at (T := T) h l i = Some w →
  runs (DeepCopy into (Some (l, i))) h (λ p' h', ∃ l' n (y : T), p' = Some (l', 0%nat) ∧ h !! l' = None ∧ n !! l' = None ∧
    grown h (<[l' := as_cell [y]]> n) h' ∧ view n y = Some w).
Proof.
  intros Hc Hw. unfold DeepCopy. unfold view_at in Hw.
  apply bind_Some in Hw as (a & Ha & Hw). apply bind_Some in Hw as (x & Hx & Hw).
  mstep. apply runs_new. intros l' Hl'. mstep. pose proof (grown_alloc [zero : T] h l' Hl') as Hg.
  pose proof (grown_sub _ _ _ Hg) as [Hh _].
  eapply runs_load; [exact (array_mono _ _ _ _ Hh Ha)|done|]. mstep.
  eapply runs_conseq; [exact (Hc _ _ _ (view_mono _ _ _ _ Hh Hw))|]. intros y h2 (n2 & Hg2 & Hy). mstep.
  assert (Hl2 : n2 !! l' = None).
  { destruct Hg2 as [_ Hd]. eapply map_disjoint_Some_l; [exact Hd|]. apply lookup_insert_eq. }
  destruct (grown_trans _ _ _ _ _ Hg Hg2) as (Hg3 & _ & _). rewrite <- insert_union_singleton_l in Hg3.
  eapply runs_store; [apply array_as_cell; eapply lookup_weaken; [apply lookup_insert_eq|apply (grown_sub _ _ _ Hg3)]|simpl; lia|].
  mstep. exists l', n2, y. split; [done|]. split; [done|]. split; [done|]. split; [|done].
  eapply grown_write in Hg3; [|rewrite lookup_insert_eq; by eexists]. by rewrite insert_insert_eq in Hg3.
Qed.

Lemma view_new {T V} `{!Struct T, !View T V} (n : Heap) l (x : T) (v : V) :
  n !! l = None → view n x = Some v → view_at (T := T) (<[l := as_cell [x]]> n) l 0 = Some v.
Proof. intros Hl Hv. unfold view_at. rewrite array_insert. simpl. eapply view_mono; [|done]. by apply insert_subseteq. Qed.

Lemma DeepCopy_copies {T V} `{!Struct T, !View T V} (into : T → M Heap T) p (v : option V) (h : Heap) :
  copies into → view_ptr (T := T) h p = Some v →
  runs (DeepCopy into p) h (λ p' h', ∃ n, grown h n h' ∧ view_ptr (T := T) n p' = Some v ∧ (p' = None ↔ p = None)).
Proof.
  intros Hc Hv. destruct p as [[l i]|]; simpl in Hv.
  2: { apply runs_ret. exists ∅. injection Hv as <-. by split; [apply grown_refl|]. }
  apply fmap_Some in Hv as (w & Hw & ->). eapply runs_conseq; [by apply DeepCopy_new|].
  intros p' h' (l' & n & y & -> & _ & Hl & Hg & Hy). eexists. split; [exact Hg|]. split; [|done]. simpl.
  by rewrite (view_new _ _ _ _ Hl Hy).
Qed.

(** An assignment to a field of a new object. *)
Definition assign {T} `{!Struct T} (p : ptr) (f : T → T) : M Heap unit := x ← load p; store p (f x).

Lemma runs_assign {T} `{!Struct T} (f : T → T) l x (h n h' : Heap) (Q : unit → Heap → Prop) :
  grown h (<[l := as_cell [x]]> n) h' →
  (∀ h'', grown h (<[l := as_cell [f x]]> n) h'' → Q tt h'') → runs (assign (Some (l, 0%nat)) f) h' Q.
Proof.
  intros Hg HQ. assert (Ha : array h' l = Some [x]).
  { apply array_as_cell. eapply lookup_weaken; [apply lookup_insert_eq|apply (grown_sub _ _ _ Hg)]. }
  unfold assign. mstep. eapply runs_load; [done..|]. eapply runs_store; [done|simpl; lia|]. apply HQ.
  eapply grown_write in Hg; [|rewrite lookup_insert_eq; by eexists]. by rewrite insert_insert_eq in Hg.
Qed.

(** ** Copies of structs, field by field *)

(** The computation leaves the heap as it was, apart from new cells, and [P] holds of its result
    wherever those are. *)
Definition news {A} (f : M Heap A) (h : Heap) (P : Heap → A → Prop) : Prop :=
  runs f h (λ x h', ∃ n, grown h n h' ∧ ∀ m, n ⊆ m → P m x).

Lemma news_ret {A} (x : A) h (P : Heap → A → Prop) : (∀ m, P m x) → news (mret x) h P.
Proof. intros HP. apply runs_ret. exists ∅. split; [apply grown_refl|by intros]. Qed.

Lemma news_bind {A B} (f : M Heap A) (g : A → M Heap B) h (P : Heap → A → Prop) (Q : Heap → B → Prop) :
  news f h P → (∀ x h', h ⊆ h' → news (g x) h' (λ m y, P m x → Q m y)) → news (f ≫= g) h Q.
Proof.
  intros Hf Hg. apply runs_bind. eapply runs_conseq; [exact Hf|]. intros x h' (n & Hn & Hx). simpl.
  eapply runs_conseq; [apply (Hg x), (grown_sub _ _ _ Hn)|]. intros y h2 (n2 & Hn2 & Hy).
  destruct (grown_trans _ _ _ _ _ Hn Hn2) as (Hn3 & H1 & H2). eexists. split; [exact Hn3|].
  intros m Hm. apply Hy; [by etrans|]. apply Hx. by etrans.
Qed.

Lemma news_runs {A} (f : M Heap A) h (P : Heap → A → Prop) :
  runs f h (λ x h', ∃ n, grown h n h' ∧ P n x) → (∀ m m' x, m ⊆ m' → P m x → P m' x) → news f h P.
Proof.
  intros Hf HP. eapply runs_conseq; [exact Hf|]. intros x h' (n & Hg & Hx). exists n. split; [done|].
  intros m Hm. by eapply HP.
Qed.

Lemma copies_news {T V} `{!View T V} (into : T → M Heap T) :
  copies into ↔ ∀ h x v, view h x = Some v → news (into x) h (λ m y, view m y = Some v).
Proof.
  split; intros Hc h x v Hv.
  - apply news_runs; [by apply Hc|]. intros m m' y. apply view_mono.
  - eapply runs_conseq; [by apply Hc|]. intros y h' (n & Hg & Hy). exists n. split; [done|]. by apply Hy.
Qed.

Lemma items_news {T V} `{!Struct T, !View T V} (into : T → M Heap T) s (vs : list V) (h : Heap) :
  copies into → view_slice (T := T) h s = Some vs →
  news (copy_items into s) h (λ m s', view_slice (T := T) m s' = Some vs).
Proof. intros Hc Hv. apply news_runs; [by apply copy_items_copies|]. intros m m' s'. apply view_slice_mono. Qed.

Lemma pointer_news {T V} `{!Struct T, !View T V} (into : T → M Heap T) p (v : option V) (h : Heap) :
  copies into → view_ptr (T := T) h p = Some v →
  news (DeepCopy into p) h (λ m p', view_ptr (T := T) m p' = Some v ∧ (p' = None ↔ p = None)).
Proof.
  intros Hc Hv. apply news_runs; [by apply DeepCopy_copies|]. intros m m' p' Hm [? ?]. split; [by eapply view_ptr_mono|done].
Qed.

Lemma field_news {T V} `{!View T V} (into : T → M Heap T) x (v : V) (h : Heap) :
  copies into → view h x = Some v → news (into x) h (λ m y, view m y = Some v).
Proof. intros Hc. by apply copies_news. Qed.

End Views.
End GoViews.
