(* ===== verification/GoJson.v ===== *)
(** * JSON

    What the API machinery uses of JSON: values, and the encoding of Go types by the tags of
    their fields, as [encoding/json] documents it.  The language's library, so not in the map. *)

From S2P Require Import Prelude.

Module GoJson.

Inductive JSON :=
| JNull
| JBool (b : bool)
| JNum (z : Z)
| JStr (s : string)
| JArr (l : list JSON)
| JObj (l : list (string * JSON)).

Definition in_int32 (z : Z) : bool := (-2147483648 <=? z) && (z <? 2147483648).
Definition in_int64 (z : Z) : bool := (-9223372036854775808 <=? z) && (z <? 9223372036854775808).
Definition in_uint32 (z : Z) : bool := (0 <=? z) && (z <? 4294967296).

(** ** Strings

    A string of Go is any sequence of bytes; JSON is text.  The encoder writes a byte that
    belongs to no rune of UTF-8 as the replacement character U+FFFD. *)

Definition between (lo hi : N) (a : ascii) : bool := (lo <=? N_of_ascii a)%N && (N_of_ascii a <=? hi)%N.

(** The length of the rune that begins with the byte; 0 if none does. *)
Definition rune_length (a : ascii) : nat :=
  if between 0 127 a then 1 else if between 194 223 a then 2
  else if between 224 239 a then 3 else if between 240 244 a then 4 else 0.

(** Its second byte, which excludes long forms, surrogates and what is beyond the last rune. *)
Definition second_byte (a b : ascii) : bool :=
  match N_of_ascii a with
  | 224%N => between 160 191 b
  | 237%N => between 128 159 b
  | 240%N => between 144 191 b
  | 244%N => between 128 143 b
  | _ => between 128 191 b
  end.
Definition next_byte : ascii → bool := between 128 191.

Definition replacement (s : string) : string := String "239" (String "191" (String "189" s)).

Fixpoint coerce (s : string) : string :=
  match s with
  | EmptyString => EmptyString
  | String a s1 =>
      match rune_length a with
      | 1%nat => String a (coerce s1)
      | 2%nat =>
          match s1 with
          | String b s2 => if second_byte a b then String a (String b (coerce s2)) else replacement (coerce s1)
          | _ => replacement (coerce s1)
          end
      | 3%nat =>
          match s1 with
          | String b (String c s3) =>
              if second_byte a b && next_byte c then String a (String b (String c (coerce s3)))
              else replacement (coerce s1)
          | _ => replacement (coerce s1)
          end
      | 4%nat =>
          match s1 with
          | String b (String c (String d s4)) =>
              if second_byte a b && next_byte c && next_byte d
              then String a (String b (String c (String d (coerce s4)))) else replacement (coerce s1)
          | _ => replacement (coerce s1)
          end
      | _ => replacement (coerce s1)
      end
  end.

(** Valid UTF-8. *)
Definition valid (s : string) : bool := String.eqb (coerce s) s.

Lemma valid_coerce s : valid s = true ↔ coerce s = s.
Proof. apply String.eqb_eq. Qed.

Lemma coerce_replacement s : coerce (replacement s) = replacement (coerce s).
Proof. done. Qed.

(** What was coerced is valid. *)
Lemma coerce_valid s : valid (coerce s) = true.
Proof.
  apply valid_coerce. remember (String.length s) as n eqn:E.
  revert s E. induction (lt_wf n) as [n _ IH]. intros s ->.
  assert (Hs : ∀ t, (String.length t < String.length s)%nat → coerce (coerce t) = coerce t) by (intros t Ht; by eapply IH).
  clear IH. destruct s as [|a s]; [done|]. cbn [coerce].
  assert (Hr : coerce (replacement (coerce s)) = replacement (coerce s)) by (rewrite coerce_replacement, Hs; simpl; [done|lia]).
  destruct (rune_length a) as [|[|[|[|[|]]]]] eqn:Ea; try done; [cbn [coerce]; rewrite Ea, Hs; simpl; [done|lia]|..].
  - destruct s as [|b s]; [done|]. destruct (second_byte a b) eqn:Eb; [|done].
    cbn [coerce]. rewrite Ea, Eb, Hs; simpl; [done|lia].
  - destruct s as [|b [|c s]]; try done. destruct (second_byte a b && next_byte c) eqn:Eb; [|done].
    cbn [coerce]. rewrite Ea, Eb, Hs; simpl; [done|lia].
  - destruct s as [|b [|c [|d s]]]; try done. destruct (second_byte a b && next_byte c && next_byte d) eqn:Eb; [|done].
    cbn [coerce]. rewrite Ea, Eb, Hs; simpl; [done|lia].
Qed.

(** ** Types

    [dec j cur] decodes into a variable that holds [cur]; [empty] is what [omitempty] leaves
    out, which depends on the kind of type: a struct is never empty. *)

Class Codec (T : Type) := MkCodec {
  enc : T → JSON;
  dec : JSON → T → option T;
  empty : T → bool;
  zero : T
}.

#[export] Instance string_codec : Codec string := {|
  enc s := JStr (coerce s);
  dec j cur := match j with JStr s => Some s | JNull => Some cur | _ => None end;
  empty s := String.eqb s "";
  zero := ""
|}.

(** Integers of the width that [fits] says. *)
Definition int_codec (fits : Z → bool) : Codec Z := {|
  enc := JNum;
  dec j cur := match j with JNum z => if fits z then Some z else None | JNull => Some cur | _ => None end;
  empty z := Z.eqb z 0;
  zero := 0
|}.

Definition bool_codec : Codec bool := {|
  enc := JBool;
  dec j cur := match j with JBool b => Some b | JNull => Some cur | _ => None end;
  empty := negb;
  zero := false
|}.

(** A slice, nil or not; the nil one is written as null. *)
Definition slice_codec {T} `{Codec T} : Codec (option (list T)) := {|
  enc p := match p with Some l => JArr (enc <$> l) | None => JNull end;
  dec j cur := match j with JArr l => l ← mapM (λ j, dec j zero) l; Some (Some l) | JNull => Some None | _ => None end;
  empty p := match p with Some (_ :: _) => false | _ => true end;
  zero := None
|}.
Arguments slice_codec T {_}.

(** A slice of which the one without elements stands for nil; the fields of such slices all have
    [omitempty], which leaves out the one and the other. *)
#[export] Instance list_of_codec {T} `{Codec T} : Codec (list T) := {|
  enc l := match l with [] => JNull | _ => JArr (enc <$> l) end;
  dec j cur := match j with JArr l => mapM (λ j, dec j zero) l | JNull => Some [] | _ => None end;
  empty l := match l with [] => true | _ => false end;
  zero := []
|}.

#[export] Instance pointer_codec {T} `{Codec T} : Codec (option T) := {|
  enc p := match p with Some x => enc x | None => JNull end;
  dec j cur := match j with JNull => Some None | _ => x ← dec j (default zero cur); Some (Some x) end;
  empty p := match p with Some _ => false | None => true end;
  zero := None
|}.

(** A map with string keys, which are strings too; of members with the same key the last counts. *)
#[export] Instance map_codec {T} `{Codec T} : Codec (gmap string T) := {|
  enc m := JObj (prod_map coerce enc <$> map_to_list m);
  dec j cur :=
    match j with
    | JObj kvs => l ← mapM (λ kv, x ← dec kv.2 zero; Some (kv.1, x)) kvs; Some (list_to_map (reverse l) ∪ cur)
    | JNull => Some ∅
    | _ => None
    end;
  empty m := match map_to_list m with [] => true | _ => false end;
  zero := ∅
|}.

(** ** Structs *)

Record Field (S : Type) := MkField {
  tag : string; omitempty : bool;
  f_enc : S → JSON; f_empty : S → bool; f_dec : JSON → S → option S
}.
Arguments tag {S}.
Arguments omitempty {S}.
Arguments f_enc {S}.
Arguments f_empty {S}.
Arguments f_dec {S}.

(** A field by its tag. *)
Definition field {S T} `{Codec T} (name : string) (omit : bool) (get : S → T) (set : T → S → S) : Field S :=
  MkField S name omit (λ x, enc (get x)) (λ x, empty (get x)) (λ j s, v ← dec j (get s); Some (set v s)).

(** A field of an embedded struct, [",inline"]. *)
Definition promoted {S T} (get : S → T) (set : T → S → S) (f : Field T) : Field S :=
  MkField S (tag f) (omitempty f) (λ x, f_enc f (get x)) (λ x, f_empty f (get x))
    (λ j s, v ← f_dec f j (get s); Some (set v s)).

Section Struct.
Context {S : Type}.
Implicit Types (f : Field S) (fs : list (Field S)).

Definition member f (x : S) : list (string * JSON) :=
  if omitempty f && f_empty f x then [] else [(tag f, f_enc f x)].
Definition members fs (x : S) : list (string * JSON) := flat_map (λ f, member f x) fs.

(** A key that no field has is ignored; keys are compared as they are, as the serializers of
    the API machinery do. *)
Definition dec_member fs (s : S) (kv : string * JSON) : option S :=
  match List.find (λ f, String.eqb (tag f) kv.1) fs with
  | Some f => f_dec f kv.2 s
  | None => Some s
  end.
Fixpoint dec_members fs (kvs : list (string * JSON)) (s : S) : option S :=
  match kvs with [] => Some s | kv :: kvs => s ← dec_member fs s kv; dec_members fs kvs s end.

Definition struct_codec fs (z : S) : Codec S := {|
  enc x := JObj (members fs x);
  dec j s := match j with JObj kvs => dec_members fs kvs s | JNull => Some s | _ => None end;
  empty _ := false;
  zero := z
|}.

(** ** Round trips *)

(** A member that is written is read into its field; one that is left out leaves it. *)
Lemma dec_members_app fs l1 l2 s : dec_members fs (l1 ++ l2) s = (s ← dec_members fs l1 s; dec_members fs l2 s).
Proof. revert s. induction l1 as [|kv l1 IH]; intros s; [done|]. simpl. destruct (dec_member fs s kv); [apply IH|done]. Qed.

Lemma dec_members_cons fs f l x s s1 :
  dec_members fs (member f x) s = Some s1 → dec_members fs (members (f :: l) x) s = dec_members fs (members l x) s1.
Proof. intros E. unfold members. simpl. by rewrite dec_members_app, E. Qed.
End Struct.

(** What a value [x] becomes on its way, for good values. *)
Definition travels {T} `{Codec T} (ok : T → Prop) (wire : T → T) : Prop :=
  ∀ x, ok x → dec (enc x) zero = Some (wire x) ∧ (empty x = true → wire x = zero).

Lemma field_travels {S T} `{Codec T} (ok : T → Prop) (wire : T → T) fs name omit (get : S → T) (set : T → S → S) x s :
  travels ok wire → List.find (λ f, String.eqb (tag f) name) fs = Some (field name omit get set) →
  ok (get x) → get s = zero → set zero s = s →
  dec_members fs (member (field name omit get set) x) s = Some (set (wire (get x)) s).
Proof.
  intros Ht Ef Hok Eg Es. destruct (Ht _ Hok) as [Ed Ez]. unfold member. simpl.
  destruct (omit && empty (get x)) eqn:Eo.
  - apply andb_true_iff in Eo as [_ Eo]. simpl. by rewrite Ez, Es.
  - simpl. unfold dec_member. simpl. rewrite Ef. simpl. by rewrite Eg, Ed.
Qed.

(** Reading the members that were written, one field after the other. *)
Definition fills {S} (fs l : list (Field S)) (x s s' : S) : Prop := dec_members fs (members l x) s = Some s'.

Lemma fills_nil {S} (fs : list (Field S)) x s : fills fs [] x s s.
Proof. done. Qed.

Lemma fills_field {S T} `{Codec T} (ok : T → Prop) (wire : T → T) fs name omit (get : S → T) (set : T → S → S) l x s s' :
  travels ok wire → ok (get x) →
  List.find (λ f, String.eqb (tag f) name) fs = Some (field name omit get set) →
  get s = zero → set zero s = s →
  fills fs l x (set (wire (get x)) s) s' → fills fs (field name omit get set :: l) x s s'.
Proof.
  intros Ht Hok Ef Eg Es Hl. unfold fills.
  erewrite dec_members_cons; [exact Hl|]. by apply (field_travels ok wire).
Qed.

(** A field that is never left out. *)
Lemma fills_kept {S T} `{Codec T} fs name (get : S → T) (set : T → S → S) l x v s s' :
  dec (enc (get x)) zero = Some v →
  List.find (λ f, String.eqb (tag f) name) fs = Some (field name false get set) →
  get s = zero → fills fs l x (set v s) s' → fills fs (field name false get set :: l) x s s'.
Proof.
  intros Ed Ef Eg Hl. unfold fills. erewrite dec_members_cons; [exact Hl|].
  unfold member. simpl. unfold dec_member. simpl. rewrite Ef. simpl. by rewrite Eg, Ed.
Qed.

(** A promoted field is a field. *)
Lemma fills_promoted {S U T} `{Codec T} (ok : T → Prop) (wire : T → T) fs name omit (get : U → T) (set : T → U → U)
    (up : S → U) (put : U → S → S) l x s s' :
  travels ok wire → ok (get (up x)) →
  List.find (λ f, String.eqb (tag f) name) fs = Some (promoted up put (field name omit get set)) →
  get (up s) = zero → put (set zero (up s)) s = s →
  fills fs l x (put (set (wire (get (up x))) (up s)) s) s' →
  fills fs (promoted up put (field name omit get set) :: l) x s s'.
Proof.
  intros Ht Hok Ef Eg Es Hl. unfold fills. erewrite dec_members_cons; [exact Hl|].
  destruct (Ht _ Hok) as [Ed Ez]. unfold member. simpl. destruct (omit && empty (get (up x))) eqn:Eo.
  - apply andb_true_iff in Eo as [_ Eo]. simpl. by rewrite Ez, Es.
  - simpl. unfold dec_member. simpl. rewrite Ef. simpl. by rewrite Eg, Ed.
Qed.

Lemma struct_travels {S} (fs : list (Field S)) (z : S) (ok : S → Prop) (wire : S → S) :
  (∀ x, ok x → fills fs fs x z (wire x)) → @travels S (struct_codec fs z) ok wire.
Proof. intros Hf x Hx. split; [by apply Hf|done]. Qed.

Lemma text_travels : travels (λ _ : string, True) coerce.
Proof. intros x _. split; [done|]. simpl. by intros ->%String.eqb_eq. Qed.

Lemma string_travels : travels (λ s : string, valid s = true) id.
Proof. intros x Hx%valid_coerce. split; [by cbn; rewrite Hx|]. simpl. by intros ?%String.eqb_eq. Qed.

Lemma int_travels fits : @travels Z (int_codec fits) (λ z, fits z = true) id.
Proof. intros x Hx. split; [simpl; by rewrite Hx|]. simpl. by intros ?%Z.eqb_eq. Qed.

Lemma mapM_travels {T} `{Codec T} (ok : T → Prop) (wire : T → T) l :
  travels ok wire → Forall ok l → mapM (λ j, dec j zero) (enc <$> l) = Some (wire <$> l).
Proof.
  intros Ht. induction 1 as [|x l Hx _ IH]; [done|].
  cbn. destruct (Ht x Hx) as [-> _]. cbn. cbn in IH. by rewrite IH.
Qed.

Lemma slice_travels {T} `{Codec T} (ok : T → Prop) (wire : T → T) :
  travels ok wire → travels (Forall ok) (fmap wire).
Proof. intros Ht l Hl. split; [|by destruct l]. destruct l as [|x l]; [done|]. exact (mapM_travels ok wire _ Ht Hl). Qed.

(** Nil stays nil. *)
Lemma items_travel {T} `{Codec T} (ok : T → Prop) (wire : T → T) (p : option (list T)) :
  travels ok wire → (∀ l, p = Some l → Forall ok l) →
  @dec _ (slice_codec T) (@enc _ (slice_codec T) p) None = Some (match p with Some l => Some (wire <$> l) | None => None end).
Proof. intros Ht Hl. destruct p as [l|]; [|done]. cbn. by rewrite (mapM_travels ok wire _ Ht (Hl l eq_refl)). Qed.

Lemma pointer_travels {T} `{Codec T} (ok : T → Prop) (wire : T → T) :
  (∀ x : T, enc x ≠ JNull) → travels ok wire → travels (λ p : option T, ∀ x, p = Some x → ok x) (fmap wire).
Proof.
  intros Hn Ht [x|] Hx; [|done]. split; [|done]. destruct (Ht x (Hx x eq_refl)) as [Ed _]. specialize (Hn x). cbn.
  by destruct (enc x); try done; rewrite Ed.
Qed.

Lemma map_travels {T} `{Codec T} (ok : T → Prop) :
  travels ok id → travels (λ m : gmap string T, map_Forall (λ k x, valid k = true ∧ ok x) m) id.
Proof.
  intros Ht m Hm. split.
  - cbn. assert (E : ∀ l : list (string * T), Forall (λ kv, valid kv.1 = true ∧ ok kv.2) l →
      mapM (λ kv : string * JSON, x ← dec kv.2 zero; Some (kv.1, x)) (prod_map coerce enc <$> l) = Some l).
    { induction 1 as [|[k x] l [Hk%valid_coerce Hx] _ IH]; [done|]. cbn in Hk, Hx. cbn. destruct (Ht x Hx) as [-> _]. cbn. cbn in IH. by rewrite IH, Hk. }
    rewrite E by (apply map_Forall_to_list in Hm; eapply Forall_impl; [exact Hm|by intros []]). cbn. rewrite (right_id_L ∅ (∪)). f_equal.
    rewrite (list_to_map_proper _ (map_to_list m)); [apply list_to_map_to_list| |apply reverse_Permutation].
    rewrite fmap_reverse, reverse_Permutation. apply NoDup_fst_map_to_list.
  - cbn. destruct (map_to_list m) eqn:E; [|done]. intros _. by apply map_to_list_empty_iff in E.
Qed.

End GoJson.
