(* ===== verification/ApiTypes.v ===== *)
(** * API objects and shared helpers

    The data of [pkg/apis/network/types.go] (and of its versioned copy
    [v1alpha1/types.go], which has the same fields), with the comparison of
    exec reports; the helpers of [pkg/util/data.go] and
    [pkg/controllers/utils/utils.go]; the error values of the API machinery the
    sources test for. *)

From S2P Require Import Prelude GoStr GoNet.
Import GoNet.

(** ** Metadata

    The fields of [metav1.ObjectMeta] that the sources read or write.  A time
    is a number of nanoseconds since the zero [time.Time]; the location of a Go [time.Time] has no bearing
    on the comparisons made here. *)

Definition Time := Z.

Record OwnerReference := MkOwnerRef {
  or_APIVersion : string; or_Kind : string; or_Name : string; or_UID : string;
  or_Controller : option bool }.

Record ObjectMeta := MkMeta {
  Namespace : string; Name : string; UID : string; ResourceVersion : string;
  CreationTimestamp : Time; OwnerReferences : list OwnerReference;
  Labels : gmap string string; Initializers : bool (* non-nil *) }.

(** [k8stypes.NamespacedName]. *)
Abbreviation NSN := (string * string)%type.

(** ** NetworkAttachment *)

Record ExecReport := MkExecReport {
  ExitStatus : Z; StartTime : Time; StopTime : Time; StdOut : string; StdErr : string }.

Record NetworkAttachmentErrors := MkNAErrors { IPAM : list string; Host : list string }.

Record NetworkAttachmentSpec := MkNASpec {
  Node : string; SubnetOf : string; PostCreateExec : list string; PostDeleteExec : list string }.

Record NetworkAttachmentStatus := MkNAStatus {
  Errors : NetworkAttachmentErrors; LockUID : string; AddressVNI : Z; StatusIPv4 : string;
  MACAddress : string; IfcName : string; HostIP : string;
  PostCreateExecReport : option ExecReport }.

Record NetworkAttachment := MkNA {
  na_meta : ObjectMeta; na_Spec : NetworkAttachmentSpec; na_Status : NetworkAttachmentStatus }.

(** ** Subnet and IPLock *)

Record SubnetSpec := MkSubnetSpec { IPv4 : string; VNI : Z }.

Record Subnet := MkSubnet {
  sn_meta : ObjectMeta; sn_Spec : SubnetSpec; sn_Errors : list string (* Status.Errors *) }.

Record IPLock := MkIPLock { ipl_meta : ObjectMeta; SubnetName : string (* Spec.SubnetName *) }.

#[export] Instance OwnerReference_eq_dec : EqDecision OwnerReference.
Proof. solve_decision. Defined.
#[export] Instance ObjectMeta_eq_dec : EqDecision ObjectMeta.
Proof. solve_decision. Defined.
#[export] Instance ExecReport_eq_dec : EqDecision ExecReport.
Proof. solve_decision. Defined.
#[export] Instance NetworkAttachmentErrors_eq_dec : EqDecision NetworkAttachmentErrors.
Proof. solve_decision. Defined.
#[export] Instance NetworkAttachmentSpec_eq_dec : EqDecision NetworkAttachmentSpec.
Proof. solve_decision. Defined.
#[export] Instance NetworkAttachmentStatus_eq_dec : EqDecision NetworkAttachmentStatus.
Proof. solve_decision. Defined.
#[export] Instance NetworkAttachment_eq_dec : EqDecision NetworkAttachment.
Proof. solve_decision. Defined.
#[export] Instance IPLock_eq_dec : EqDecision IPLock.
Proof. solve_decision. Defined.

(** ** Errors of the API machinery

    [k8serrors.IsNotFound] and its kin look at the reason of the error; the
    message is what [err.Error()] returns. *)

Inductive StatusReason :=
| ReasonNotFound | ReasonAlreadyExists | ReasonInvalid | ReasonGone | ReasonConflict
| ReasonOther.

#[export] Instance StatusReason_eq_dec : EqDecision StatusReason.
Proof. solve_decision. Defined.

Record error := MkError { reason : StatusReason; message : string }.

Definition IsNotFound (e : error) : bool := bool_decide (reason e = ReasonNotFound).
Definition IsAlreadyExists (e : error) : bool := bool_decide (reason e = ReasonAlreadyExists).
Definition IsInvalid (e : error) : bool := bool_decide (reason e = ReasonInvalid).
Definition IsGone (e : error) : bool := bool_decide (reason e = ReasonGone).

(** [fmt.Errorf]: an error with no API reason. *)
Definition Errorf (msg : string) : error := MkError ReasonOther msg.

(** ** Exec reports *)

(** [t.Truncate(time.Second)]. *)
Definition second : Z := 1000000000.
Definition Truncate (t d : Z) : Z := t - t mod d.

(** [(x *ExecReport).Equiv]; the pointer comparison of the source is covered by
    the comparison of what the pointers refer to. *)
Definition Equiv (x y : option ExecReport) : bool :=
  match x, y with
  | None, None => true
  | None, Some _ | Some _, None => false
  | Some x, Some y =>
      (ExitStatus x =? ExitStatus y) &&
      String.eqb (StdOut x) (StdOut y) &&
      String.eqb (StdErr x) (StdErr y) &&
      (Truncate (StartTime x) second =? Truncate (StartTime y) second) &&
      (Truncate (StopTime x) second =? Truncate (StopTime y) second)
  end.

(** What [Equiv] compares. *)
Definition report_key (r : ExecReport) : Z * string * string * Z * Z :=
  (ExitStatus r, StdOut r, StdErr r,
   Truncate (StartTime r) second, Truncate (StopTime r) second).

Lemma Equiv_key x y : Equiv x y = true ↔ report_key <$> x = report_key <$> y.
Proof.
  destruct x as [x|], y as [y|]; simpl; [|split; discriminate..|done].
  rewrite !andb_true_iff, !Z.eqb_eq, !String.eqb_eq. unfold report_key. split.
  - intros ((((?&?)&?)&?)&?). congruence.
  - intros [=]. done.
Qed.

#[export] Instance Equiv_equivalence : Equivalence (λ x y, Equiv x y = true).
Proof.
  split; [intros x|intros x y|intros x y z]; rewrite !Equiv_key; congruence.
Qed.

(** Storing a report with the API server, which keeps whole seconds, leaves it
    equivalent to what was reported. *)
Definition stored (r : ExecReport) : ExecReport :=
  MkExecReport (ExitStatus r) (Truncate (StartTime r) second) (Truncate (StopTime r) second)
    (StdOut r) (StdErr r).

Lemma Truncate_idem t d : 0 < d → Truncate (Truncate t d) d = Truncate t d.
Proof.
  intros Hd. unfold Truncate. assert (E := Z.div_mod t d ltac:(lia)).
  replace (t - t mod d) with (0 + t / d * d) by lia. rewrite Z_mod_plus_full, Z.mod_0_l by lia. lia.
Qed.

Lemma Equiv_stored r : Equiv (Some r) (Some (stored r)) = true.
Proof. rewrite Equiv_key. simpl. unfold report_key. simpl. by rewrite !Truncate_idem. Qed.

Definition stored_status (st : NetworkAttachmentStatus) : NetworkAttachmentStatus :=
  MkNAStatus (Errors st) (LockUID st) (AddressVNI st) (StatusIPv4 st) (MACAddress st) (IfcName st) (HostIP st)
    (stored <$> PostCreateExecReport st).

Lemma Equiv_stored_status st :
  Equiv (PostCreateExecReport st) (PostCreateExecReport (stored_status st)) = true.
Proof. simpl. destruct (PostCreateExecReport st) as [r|]; [apply Equiv_stored|done]. Qed.

(** The comparison does not see the difference. *)
Lemma Equiv_stored_r r st : Equiv r (PostCreateExecReport (stored_status st)) = Equiv r (PostCreateExecReport st).
Proof.
  apply eq_true_iff_eq. rewrite !Equiv_key. pose proof (Equiv_stored_status st) as E. rewrite Equiv_key in E. by rewrite E.
Qed.

(** ** pkg/util/data.go *)

Definition MapStringStringGet (m : option (gmap string string)) (i : string) : string :=
  match m with Some m => default "" (m !! i) | None => "" end.

(** [binary.BigEndian.Uint32]: panics on fewer than four bytes, reads the first
    four. *)
Definition BigEndian_Uint32 (b : list Z) : res Z :=
  match b with
  | a :: b :: c :: d :: _ =>
      Ok (u32 (Z.lor (Z.lor d (Z.shiftl c 8)) (Z.lor (Z.shiftl b 16) (Z.shiftl a 24))))
  | _ => Panic "index out of range"
  end.

Definition PutUint32 (n : Z) : list Z :=
  [u8 (Z.shiftr n 24); u8 (Z.shiftr n 16); u8 (Z.shiftr n 8); u8 n].

Definition MakeUint32FromIPv4 (ip : IP) : res Z :=
  if (4 <? length ip)%nat then BigEndian_Uint32 (drop (length ip - 4) ip) else BigEndian_Uint32 ip.

Definition MakeIPv4FromUint32 (n : Z) : IP := PutUint32 n.

(** [SliceOfString.Equal]: the loop over the first slice. *)
Fixpoint slices_agree (x y : list string) : bool :=
  match x, y with
  | [], _ => true
  | xi :: x, yi :: y => String.eqb xi yi && slices_agree x y
  | _ :: _, [] => false
  end.

Definition SliceOfString_Equal (x y : list string) : bool :=
  (length x =? length y)%nat && slices_agree x y.

Lemma SliceOfString_Equal_eq x y : SliceOfString_Equal x y = true ↔ x = y.
Proof.
  unfold SliceOfString_Equal. rewrite andb_true_iff, Nat.eqb_eq. split.
  - intros [Hl Ha]. revert y Hl Ha. induction x as [|a x IH]; intros [|b y]; try done.
    simpl. intros [= Hl] [->%String.eqb_eq Ha]%andb_true_iff. f_equal. by apply IH.
  - intros ->. split; [done|]. induction y as [|a y IH]; [done|]. simpl.
    by rewrite String.eqb_refl.
Qed.

(** Bytes of a uint32 and back. *)
Lemma lor_disjoint x y k : 0 ≤ k → 0 ≤ x < 2 ^ k → Z.lor x (Z.shiftl y k) = x + y * 2 ^ k.
Proof.
  intros Hk Hx. rewrite <- (Z.shiftl_mul_pow2 y k) by done.
  assert (E : Z.land x (Z.shiftl y k) = 0).
  { apply Z.bits_inj'. intros i Hi. rewrite Z.land_spec, Z.bits_0.
    destruct (Z.ltb_spec i k).
    - rewrite Z.shiftl_spec_low by done. apply andb_false_r.
    - destruct (decide (x = 0)) as [->|]; [by rewrite Z.bits_0|].
      rewrite Z.bits_above_log2; [done|lia|].
      apply Z.log2_lt_pow2; [lia|]. apply Z.lt_le_trans with (2 ^ k); [lia|].
      apply Z.pow_le_mono_r; lia. }
  rewrite <- Z.lxor_lor by done. by rewrite <- Z.add_nocarry_lxor.
Qed.

Lemma shift_bytes n :
  is_u32 n →
  u8 (Z.shiftr n 24) = n / 16777216 ∧ u8 (Z.shiftr n 16) = n / 65536 mod 256 ∧
  u8 (Z.shiftr n 8) = n / 256 mod 256 ∧ u8 n = n mod 256.
Proof.
  intros Hn. rewrite !Z.shiftr_div_pow2 by lia. unfold u8, is_u32 in *.
  change (2 ^ 24) with 16777216. change (2 ^ 16) with 65536. change (2 ^ 8) with 256.
  split_and!; try done. apply Z.mod_small. Z.div_mod_to_equations. lia.
Qed.

Lemma PutUint32_bytes n : is_u32 n → bytes4 (PutUint32 n) ∧ be (PutUint32 n) = n.
Proof.
  intros Hn. unfold PutUint32. destruct (shift_bytes n Hn) as (-> & -> & -> & ->).
  unfold is_u32 in Hn. split.
  - split; [done|]. rewrite !Forall_cons. unfold is_u8.
    split_and!; try apply Forall_nil_2; Z.div_mod_to_equations; lia.
  - unfold be. simpl. Z.div_mod_to_equations. lia.
Qed.

Lemma BigEndian_Uint32_be a b c d l :
  is_u8 a → is_u8 b → is_u8 c → is_u8 d →
  BigEndian_Uint32 (a :: b :: c :: d :: l) = Ok (be [a; b; c; d]).
Proof.
  intros Ha Hb Hc Hd. unfold BigEndian_Uint32, be. simpl. unfold is_u8 in *.
  rewrite (lor_disjoint d c 8) by (change (2 ^ 8) with 256; lia).
  replace (Z.lor (Z.shiftl b 16) (Z.shiftl a 24)) with (Z.shiftl (b + a * 2 ^ 8) 16).
  - rewrite lor_disjoint by (change (2 ^ 8) with 256; change (2 ^ 16) with 65536; lia).
    change (2 ^ 8) with 256. change (2 ^ 16) with 65536. rewrite u32_small by u32_lia. f_equal. lia.
  - rewrite <- (lor_disjoint b a 8) by (change (2 ^ 8) with 256; lia).
    by rewrite Z.shiftl_lor, Z.shiftl_shiftl by lia.
Qed.

(** The two conversions are inverse, whichever form the address has. *)
Lemma MakeUint32_MakeIPv4 n : is_u32 n → MakeUint32FromIPv4 (MakeIPv4FromUint32 n) = Ok n.
Proof.
  intros Hn. destruct (PutUint32_bytes n Hn) as [[Hl Hb] Hbe].
  change (MakeUint32FromIPv4 (MakeIPv4FromUint32 n)) with (BigEndian_Uint32 (PutUint32 n)).
  unfold PutUint32 in *.
  rewrite !Forall_cons in Hb. rewrite BigEndian_Uint32_be by tauto. by rewrite Hbe.
Qed.

(** ** pkg/controllers/utils/utils.go *)

Definition AttNSN (att : NetworkAttachment) : NSN := (Namespace (na_meta att), Name (na_meta att)).

(** What an informer hands to a deletion handler: the object, or a tombstone
    (held by value or by pointer) that wraps an object or something else. *)
Inductive notified (A : Type) :=
| Object (a : A)
| DeletedFinalStateUnknown (a : notified A)
| Other.
Arguments Object {A} a.
Arguments DeletedFinalStateUnknown {A} a.
Arguments Other {A}.

Definition Peel {A} (obj : notified A) : res A :=
  match obj with
  | DeletedFinalStateUnknown (Object a) => Ok a
  | DeletedFinalStateUnknown _ => Panic "interface conversion"
  | Object a => Ok a
  | Other => Panic "object of unexpected type"
  end.

(** A type assertion [obj.( *T)] without Peel. *)
Definition assert_object {A} (obj : notified A) : res A :=
  match obj with Object a => Ok a | _ => Panic "interface conversion" end.
