(* ===== verification/ApiLayout.v ===== *)
(** * The API types in memory

    The layouts that the types of [pkg/apis/network] and those of its version [v1alpha1]
    share, field by field in the order of declaration, and what the metadata types of the
    API machinery ([metav1]) promise.  The values that objects stand for are those of
    [ApiTypes]. *)

From S2P Require Import Prelude GoMemory ApiTypes.
Import GoMemory GoViews.

(** [metav1]: TypeMeta and ListMeta are copied by assignment; an ObjectMeta refers to memory
    of its own, in cells of a type of its own. *)
Class MetaV1 := {
  TypeMeta : Type; noType : TypeMeta;
  ListMeta : Type; noList : ListMeta;
  MetaMem : Type; noMeta : MetaMem;
  LibCell : Type; noLib : LibCell
}.

(** What lies in memory. *)
Inductive ApiType :=
| LString | LExecReport | LIPLock | LIPLockList | LIPLockSpec
| LNetworkAttachment | LNetworkAttachmentErrors | LNetworkAttachmentList | LNetworkAttachmentSpec
| LNetworkAttachmentStatus | LSubnet | LSubnetList | LSubnetSpec | LSubnetStatus | LLib.

#[export] Instance ApiType_dec : EqDecision ApiType.
Proof. solve_decision. Defined.

Section Layout.
Context `{MetaV1}.

Definition report_layout : Type := Z * Time * Time * string * string.
Definition errors_layout : Type := slice * slice.
Definition att_spec_layout : Type := string * string * slice * slice.
Definition att_status_layout : Type :=
  errors_layout * string * Z * string * string * string * string * ptr.
Definition subnet_spec_layout : Type := string * Z.
Definition list_layout : Type := TypeMeta * ListMeta * slice.

Definition api_layout (t : ApiType) : Type :=
  match t with
  | LString => string
  | LExecReport => report_layout
  | LIPLock => TypeMeta * MetaMem * string
  | LIPLockSpec => string
  | LNetworkAttachment => TypeMeta * MetaMem * att_spec_layout * att_status_layout
  | LNetworkAttachmentErrors => errors_layout
  | LNetworkAttachmentSpec => att_spec_layout
  | LNetworkAttachmentStatus => att_status_layout
  | LSubnet => TypeMeta * MetaMem * subnet_spec_layout * slice
  | LSubnetSpec => subnet_spec_layout
  | LSubnetStatus => slice
  | LIPLockList | LNetworkAttachmentList | LSubnetList => list_layout
  | LLib => LibCell
  end.

#[export] Instance api_gotypes : GoTypes := {| gotype := ApiType; layout := api_layout |}.

#[export] Instance string_struct : Struct string :=
  {| type_of := LString : gotype; to_raw x := x; of_raw x := x; of_to_raw _ := eq_refl; zero := "" |}.

#[export] Instance lib_struct : Struct LibCell :=
  {| type_of := LLib : gotype; to_raw x := x; of_raw x := x; of_to_raw _ := eq_refl; zero := noLib |}.

#[export] Instance string_view : View string string.
Proof. by refine {| view _ x := Some x |}. Defined.

(** [ObjectMeta.DeepCopyInto] makes a separate copy of what the metadata stands for; a Time is a value
    that refers to nothing, and so is its copy. *)
Class MetaOps := {
  meta_DeepCopyInto : MetaMem → M Heap MetaMem;
  Time_DeepCopyInto : Time → M Heap Time
}.
Class MetaLaws `{MetaOps} := {
  meta_view :: View MetaMem ObjectMeta;
  meta_copies : copies meta_DeepCopyInto;
  Time_copies h t : news (Time_DeepCopyInto t) h (λ _ y, y = t)
}.

(** The strings of a slice. *)
Definition strings (h : Heap) (s : slice) : option (list string) := view_slice (T := string) h s.

Lemma strings_mono h h' s v : h ⊆ h' → strings h s = Some v → strings h' s = Some v.
Proof. apply view_slice_mono. Qed.

Lemma strings_news h s v :
  strings h s = Some v → news (copy_slice string s) h (λ m s', strings m s' = Some v).
Proof. intros Hv. apply news_runs; [by apply copy_slice_copies|]. intros m m' s'. apply strings_mono. Qed.

End Layout.

#[export] Hint Resolve strings_mono view_slice_mono view_ptr_mono view_at_mono view_mono : views.

(** Views grow with the heap, part by part. *)
Ltac view_grows :=
  let Hs := fresh in let Hv := fresh in
  intros Hs Hv;
  repeat (apply bind_Some in Hv as (? & ? & Hv));
  repeat (apply bind_Some; eexists; split; [by eauto with views|]); exact Hv.

(** A struct is copied field by field: take the view of the struct apart, copy each field that refers
    to memory, and put the view together again. *)
Ltac copy_fields :=
  let Hv := fresh in
  apply copies_news; intros ? ? ? Hv;
  repeat (apply bind_Some in Hv as (? & ? & Hv));
  repeat (eapply news_bind;
    [first [eapply strings_news|eapply items_news|eapply pointer_news|eapply field_news]; eauto with views copies
    |intros ? ? ?]);
  apply news_ret; intros; destruct_and?;
  repeat (apply bind_Some; eexists; split; [eassumption|]);
  exact Hv || assumption.
