(* ===== verification/ApiNetwork.v ===== *)
(** * The internal API types: [pkg/apis/network]

    The structs of [types.go] as they lie in memory, and what they stand for: the same values
    as their versions in [ApiV1alpha1]. *)

From S2P Require Import Prelude GoMemory ApiTypes ApiLayout.
Import GoMemory GoViews.

Module Network.

Section Types.
Context `{MetaV1}.

Record ExecReport := MkReport {
  r_ExitStatus : Z; r_StartTime : Time; r_StopTime : Time; r_StdOut : string; r_StdErr : string }.

Record IPLockSpec := MkLockSpec { ls_SubnetName : string }.
Record IPLock := MkLock { l_TypeMeta : TypeMeta; l_ObjectMeta : MetaMem; l_Spec : IPLockSpec }.
Record IPLockList := MkLockList { ll_TypeMeta : TypeMeta; ll_ListMeta : ListMeta; ll_Items : slice }.

Record NetworkAttachmentErrors := MkErrors { e_IPAM : slice; e_Host : slice }.
Record NetworkAttachmentSpec := MkSpec {
  s_Node : string; s_Subnet : string; s_PostCreateExec : slice; s_PostDeleteExec : slice }.
Record NetworkAttachmentStatus := MkStatus {
  t_Errors : NetworkAttachmentErrors; t_LockUID : string; t_AddressVNI : Z; t_IPv4 : string;
  t_MACAddress : string; t_IfcName : string; t_HostIP : string; t_PostCreateExecReport : ptr }.
Record NetworkAttachment := MkAttachment {
  a_TypeMeta : TypeMeta; a_ObjectMeta : MetaMem; a_Spec : NetworkAttachmentSpec;
  a_Status : NetworkAttachmentStatus }.
Record NetworkAttachmentList := MkAttachmentList {
  al_TypeMeta : TypeMeta; al_ListMeta : ListMeta; al_Items : slice }.

Record SubnetSpec := MkSubnetSpec { ss_IPv4 : string; ss_VNI : Z }.
Record SubnetStatus := MkSubnetStatus { st_Errors : slice }.
Record Subnet := MkSubnet {
  n_TypeMeta : TypeMeta; n_ObjectMeta : MetaMem; n_Spec : SubnetSpec; n_Status : SubnetStatus }.
Record SubnetList := MkSubnetList { nl_TypeMeta : TypeMeta; nl_ListMeta : ListMeta; nl_Items : slice }.

(** ** Layouts *)

Definition raw_report (x : ExecReport) : report_layout :=
  (r_ExitStatus x, r_StartTime x, r_StopTime x, r_StdOut x, r_StdErr x).
Definition of_report (x : report_layout) : ExecReport :=
  let '(a, b, c, d, e) := x in MkReport a b c d e.

Definition raw_errors (x : NetworkAttachmentErrors) : errors_layout := (e_IPAM x, e_Host x).
Definition of_errors (x : errors_layout) : NetworkAttachmentErrors := let '(a, b) := x in MkErrors a b.

Definition raw_spec (x : NetworkAttachmentSpec) : att_spec_layout :=
  (s_Node x, s_Subnet x, s_PostCreateExec x, s_PostDeleteExec x).
Definition of_spec (x : att_spec_layout) : NetworkAttachmentSpec := let '(a, b, c, d) := x in MkSpec a b c d.

Definition raw_status (x : NetworkAttachmentStatus) : att_status_layout :=
  (raw_errors (t_Errors x), t_LockUID x, t_AddressVNI x, t_IPv4 x, t_MACAddress x, t_IfcName x, t_HostIP x,
   t_PostCreateExecReport x).
Definition of_status (x : att_status_layout) : NetworkAttachmentStatus :=
  let '(a, b, c, d, e, f, g, h) := x in MkStatus (of_errors a) b c d e f g h.

Definition raw_subnet_spec (x : SubnetSpec) : subnet_spec_layout := (ss_IPv4 x, ss_VNI x).
Definition of_subnet_spec (x : subnet_spec_layout) : SubnetSpec := let '(a, b) := x in MkSubnetSpec a b.

Definition zero_report : ExecReport := MkReport 0 0 0 "" "".
Definition zero_errors : NetworkAttachmentErrors := MkErrors None None.
Definition zero_spec : NetworkAttachmentSpec := MkSpec "" "" None None.
Definition zero_status : NetworkAttachmentStatus := MkStatus zero_errors "" 0 "" "" "" "" None.

#[global] Program Instance report_struct : Struct ExecReport :=
  {| type_of := LExecReport : gotype; to_raw := raw_report; of_raw := of_report; zero := zero_report |}.
Next Obligation. by intros []. Qed.
#[global] Program Instance lock_spec_struct : Struct IPLockSpec :=
  {| type_of := LIPLockSpec : gotype; to_raw := ls_SubnetName; of_raw := MkLockSpec; zero := MkLockSpec "" |}.
Next Obligation. by intros []. Qed.
#[global] Program Instance lock_struct : Struct IPLock :=
  {| type_of := LIPLock : gotype; to_raw x := (l_TypeMeta x, l_ObjectMeta x, ls_SubnetName (l_Spec x));
     of_raw x := let '(a, b, c) := x in MkLock a b (MkLockSpec c); zero := MkLock noType noMeta (MkLockSpec "") |}.
Next Obligation. by intros [?? []]. Qed.
#[global] Program Instance lock_list_struct : Struct IPLockList :=
  {| type_of := LIPLockList : gotype; to_raw x := (ll_TypeMeta x, ll_ListMeta x, ll_Items x);
     of_raw x := let '(a, b, c) := x in MkLockList a b c; zero := MkLockList noType noList None |}.
Next Obligation. by intros []. Qed.
#[global] Program Instance errors_struct : Struct NetworkAttachmentErrors :=
  {| type_of := LNetworkAttachmentErrors : gotype; to_raw := raw_errors; of_raw := of_errors; zero := zero_errors |}.
Next Obligation. by intros []. Qed.
#[global] Program Instance spec_struct : Struct NetworkAttachmentSpec :=
  {| type_of := LNetworkAttachmentSpec : gotype; to_raw := raw_spec; of_raw := of_spec; zero := zero_spec |}.
Next Obligation. by intros []. Qed.
#[global] Program Instance status_struct : Struct NetworkAttachmentStatus :=
  {| type_of := LNetworkAttachmentStatus : gotype; to_raw := raw_status; of_raw := of_status; zero := zero_status |}.
Next Obligation. by intros [[] ???????]. Qed.
#[global] Program Instance att_struct : Struct NetworkAttachment :=
  {| type_of := LNetworkAttachment : gotype;
     to_raw x := (a_TypeMeta x, a_ObjectMeta x, raw_spec (a_Spec x), raw_status (a_Status x));
     of_raw x := let '(a, b, c, d) := x in MkAttachment a b (of_spec c) (of_status d);
     zero := MkAttachment noType noMeta zero_spec zero_status |}.
Next Obligation. by intros [?? [] [[] ???????]]. Qed.
#[global] Program Instance att_list_struct : Struct NetworkAttachmentList :=
  {| type_of := LNetworkAttachmentList : gotype; to_raw x := (al_TypeMeta x, al_ListMeta x, al_Items x);
     of_raw x := let '(a, b, c) := x in MkAttachmentList a b c; zero := MkAttachmentList noType noList None |}.
Next Obligation. by intros []. Qed.
#[global] Program Instance subnet_spec_struct : Struct SubnetSpec :=
  {| type_of := LSubnetSpec : gotype; to_raw := raw_subnet_spec; of_raw := of_subnet_spec; zero := MkSubnetSpec "" 0 |}.
Next Obligation. by intros []. Qed.
#[global] Program Instance subnet_status_struct : Struct SubnetStatus :=
  {| type_of := LSubnetStatus : gotype; to_raw := st_Errors; of_raw := MkSubnetStatus; zero := MkSubnetStatus None |}.
Next Obligation. by intros []. Qed.
#[global] Program Instance subnet_struct : Struct Subnet :=
  {| type_of := LSubnet : gotype;
     to_raw x := (n_TypeMeta x, n_ObjectMeta x, raw_subnet_spec (n_Spec x), st_Errors (n_Status x));
     of_raw x := let '(a, b, c, d) := x in MkSubnet a b (of_subnet_spec c) (MkSubnetStatus d);
     zero := MkSubnet noType noMeta (MkSubnetSpec "" 0) (MkSubnetStatus None) |}.
Next Obligation. by intros [?? [] []]. Qed.
#[global] Program Instance subnet_list_struct : Struct SubnetList :=
  {| type_of := LSubnetList : gotype; to_raw x := (nl_TypeMeta x, nl_ListMeta x, nl_Items x);
     of_raw x := let '(a, b, c) := x in MkSubnetList a b c; zero := MkSubnetList noType noList None |}.
Next Obligation. by intros []. Qed.

(** ** What the structs stand for *)

Context `{!MetaOps, !MetaLaws}.

Definition view_report (h : Heap) (x : ExecReport) : option ApiTypes.ExecReport :=
  Some (MkExecReport (r_ExitStatus x) (r_StartTime x) (r_StopTime x) (r_StdOut x) (r_StdErr x)).

Definition view_errors (h : Heap) (x : NetworkAttachmentErrors) : option ApiTypes.NetworkAttachmentErrors :=
  ipam ← strings h (e_IPAM x); host ← strings h (e_Host x); Some (MkNAErrors ipam host).

Definition view_spec (h : Heap) (x : NetworkAttachmentSpec) : option ApiTypes.NetworkAttachmentSpec :=
  post_create ← strings h (s_PostCreateExec x); post_delete ← strings h (s_PostDeleteExec x);
  Some (MkNASpec (s_Node x) (s_Subnet x) post_create post_delete).

#[global] Instance report_view : View ExecReport ApiTypes.ExecReport.
Proof. by refine {| view := view_report |}. Defined.

#[global] Instance errors_view : View NetworkAttachmentErrors ApiTypes.NetworkAttachmentErrors.
Proof. refine {| view := view_errors |}. intros ????. unfold view_errors. view_grows. Defined.

#[global] Instance spec_view : View NetworkAttachmentSpec ApiTypes.NetworkAttachmentSpec.
Proof. refine {| view := view_spec |}. intros ????. unfold view_spec. view_grows. Defined.

Definition view_status (h : Heap) (x : NetworkAttachmentStatus) : option ApiTypes.NetworkAttachmentStatus :=
  errors ← view h (t_Errors x); report ← view_ptr (T := ExecReport) h (t_PostCreateExecReport x);
  Some (MkNAStatus errors (t_LockUID x) (t_AddressVNI x) (t_IPv4 x) (t_MACAddress x) (t_IfcName x)
    (t_HostIP x) report).

#[global] Instance status_view : View NetworkAttachmentStatus ApiTypes.NetworkAttachmentStatus.
Proof. refine {| view := view_status |}. intros ????. unfold view_status. view_grows. Defined.

(** Objects and lists with their type metadata. *)
Definition view_att (h : Heap) (x : NetworkAttachment) : option (TypeMeta * ApiTypes.NetworkAttachment) :=
  m ← view h (a_ObjectMeta x); spec ← view h (a_Spec x); status ← view h (a_Status x);
  Some (a_TypeMeta x, MkNA m spec status).

#[global] Instance att_view : View NetworkAttachment (TypeMeta * ApiTypes.NetworkAttachment).
Proof. refine {| view := view_att |}. intros ????. unfold view_att. view_grows. Defined.

Definition view_att_list (h : Heap) (x : NetworkAttachmentList)
    : option (TypeMeta * ListMeta * list (TypeMeta * ApiTypes.NetworkAttachment)) :=
  items ← view_slice (T := NetworkAttachment) h (al_Items x); Some (al_TypeMeta x, al_ListMeta x, items).

#[global] Instance att_list_view : View NetworkAttachmentList (TypeMeta * ListMeta * list (TypeMeta * ApiTypes.NetworkAttachment)).
Proof. refine {| view := view_att_list |}. intros ????. unfold view_att_list. view_grows. Defined.

#[global] Instance subnet_spec_view : View SubnetSpec ApiTypes.SubnetSpec.
Proof. by refine {| view h x := Some (ApiTypes.MkSubnetSpec (ss_IPv4 x) (ss_VNI x)) |}. Defined.

#[global] Instance subnet_status_view : View SubnetStatus (list string).
Proof. refine {| view h x := strings h (st_Errors x) |}. intros ????. apply strings_mono. Defined.

Definition view_subnet (h : Heap) (x : Subnet) : option (TypeMeta * ApiTypes.Subnet) :=
  m ← view h (n_ObjectMeta x); spec ← view h (n_Spec x); errors ← view h (n_Status x);
  Some (n_TypeMeta x, ApiTypes.MkSubnet m spec errors).

#[global] Instance subnet_view : View Subnet (TypeMeta * ApiTypes.Subnet).
Proof. refine {| view := view_subnet |}. intros ????. unfold view_subnet. view_grows. Defined.

Definition view_subnet_list (h : Heap) (x : SubnetList)
    : option (TypeMeta * ListMeta * list (TypeMeta * ApiTypes.Subnet)) :=
  items ← view_slice (T := Subnet) h (nl_Items x); Some (nl_TypeMeta x, nl_ListMeta x, items).

#[global] Instance subnet_list_view : View SubnetList (TypeMeta * ListMeta * list (TypeMeta * ApiTypes.Subnet)).
Proof. refine {| view := view_subnet_list |}. intros ????. unfold view_subnet_list. view_grows. Defined.

#[global] Instance lock_spec_view : View IPLockSpec string.
Proof. by refine {| view h x := Some (ls_SubnetName x) |}. Defined.

Definition view_lock (h : Heap) (x : IPLock) : option (TypeMeta * ApiTypes.IPLock) :=
  m ← view h (l_ObjectMeta x); spec ← view h (l_Spec x); Some (l_TypeMeta x, MkIPLock m spec).

#[global] Instance lock_view : View IPLock (TypeMeta * ApiTypes.IPLock).
Proof. refine {| view := view_lock |}. intros ????. unfold view_lock. view_grows. Defined.

Definition view_lock_list (h : Heap) (x : IPLockList)
    : option (TypeMeta * ListMeta * list (TypeMeta * ApiTypes.IPLock)) :=
  items ← view_slice (T := IPLock) h (ll_Items x); Some (ll_TypeMeta x, ll_ListMeta x, items).

#[global] Instance lock_list_view : View IPLockList (TypeMeta * ListMeta * list (TypeMeta * ApiTypes.IPLock)).
Proof. refine {| view := view_lock_list |}. intros ????. unfold view_lock_list. view_grows. Defined.

End Types.
End Network.
