(* ===== verification/ApiConversion.v ===== *)
(** * Conversions between the versions: [v1alpha1/zz_generated.conversion.go]

    The conversions between the types of [ApiV1alpha1] and those of [ApiNetwork], which the API
    server applies to what it reads, writes and serves.  A conversion takes the struct at [in] and the
    one found at [out], and returns the one it leaves there, or an error.  Slices and pointers are
    not copied: [unsafe.Pointer] makes the new struct refer to the same memory under the
    other type. *)

From S2P Require Import Prelude GoMemory ApiTypes ApiLayout ApiV1alpha1 ApiNetwork.
Import GoMemory GoViews.

Module ApiConversion.

(** [if err := e; err != nil { return err }]. *)
#[local] Notation "y ←? e ; k" := (match e with inl err => inl err | inr y => k end)
  (at level 20, e at level 100, k at level 200, only parsing).

Section Conversion.
Context `{MetaV1}.

Definition autoConvert_v1alpha1_ExecReport_To_network_ExecReport
    (x : V1alpha1.ExecReport) (out : Network.ExecReport) : error + Network.ExecReport :=
    inr (Network.MkReport (V1alpha1.r_ExitStatus x) (V1alpha1.r_StartTime x) (V1alpha1.r_StopTime x)
    (V1alpha1.r_StdOut x) (V1alpha1.r_StdErr x)).
Definition Convert_v1alpha1_ExecReport_To_network_ExecReport :=
  autoConvert_v1alpha1_ExecReport_To_network_ExecReport.

Definition autoConvert_network_ExecReport_To_v1alpha1_ExecReport
    (x : Network.ExecReport) (out : V1alpha1.ExecReport) : error + V1alpha1.ExecReport :=
    inr (V1alpha1.MkReport (Network.r_ExitStatus x) (Network.r_StartTime x) (Network.r_StopTime x)
    (Network.r_StdOut x) (Network.r_StdErr x)).
Definition Convert_network_ExecReport_To_v1alpha1_ExecReport :=
  autoConvert_network_ExecReport_To_v1alpha1_ExecReport.

Definition autoConvert_v1alpha1_IPLockSpec_To_network_IPLockSpec
    (x : V1alpha1.IPLockSpec) (out : Network.IPLockSpec) : error + Network.IPLockSpec :=
  inr (Network.MkLockSpec (V1alpha1.ls_SubnetName x)).
Definition Convert_v1alpha1_IPLockSpec_To_network_IPLockSpec :=
  autoConvert_v1alpha1_IPLockSpec_To_network_IPLockSpec.

Definition autoConvert_network_IPLockSpec_To_v1alpha1_IPLockSpec
    (x : Network.IPLockSpec) (out : V1alpha1.IPLockSpec) : error + V1alpha1.IPLockSpec :=
  inr (V1alpha1.MkLockSpec (Network.ls_SubnetName x)).
Definition Convert_network_IPLockSpec_To_v1alpha1_IPLockSpec :=
  autoConvert_network_IPLockSpec_To_v1alpha1_IPLockSpec.

Definition autoConvert_v1alpha1_IPLock_To_network_IPLock
    (x : V1alpha1.IPLock) (out : Network.IPLock) : error + Network.IPLock :=
  spec ←? Convert_v1alpha1_IPLockSpec_To_network_IPLockSpec (V1alpha1.l_Spec x) (Network.l_Spec out);
  inr (Network.MkLock (Network.l_TypeMeta out) (V1alpha1.l_ObjectMeta x) spec).
Definition Convert_v1alpha1_IPLock_To_network_IPLock :=
  autoConvert_v1alpha1_IPLock_To_network_IPLock.

Definition autoConvert_network_IPLock_To_v1alpha1_IPLock
    (x : Network.IPLock) (out : V1alpha1.IPLock) : error + V1alpha1.IPLock :=
  spec ←? Convert_network_IPLockSpec_To_v1alpha1_IPLockSpec (Network.l_Spec x) (V1alpha1.l_Spec out);
  inr (V1alpha1.MkLock (V1alpha1.l_TypeMeta out) (Network.l_ObjectMeta x) spec).
Definition Convert_network_IPLock_To_v1alpha1_IPLock :=
  autoConvert_network_IPLock_To_v1alpha1_IPLock.

Definition autoConvert_v1alpha1_IPLockList_To_network_IPLockList
    (x : V1alpha1.IPLockList) (out : Network.IPLockList) : error + Network.IPLockList :=
  inr (Network.MkLockList (Network.ll_TypeMeta out) (V1alpha1.ll_ListMeta x) (V1alpha1.ll_Items x)).
Definition Convert_v1alpha1_IPLockList_To_network_IPLockList :=
  autoConvert_v1alpha1_IPLockList_To_network_IPLockList.

Definition autoConvert_network_IPLockList_To_v1alpha1_IPLockList
    (x : Network.IPLockList) (out : V1alpha1.IPLockList) : error + V1alpha1.IPLockList :=
  inr (V1alpha1.MkLockList (V1alpha1.ll_TypeMeta out) (Network.ll_ListMeta x) (Network.ll_Items x)).
Definition Convert_network_IPLockList_To_v1alpha1_IPLockList :=
  autoConvert_network_IPLockList_To_v1alpha1_IPLockList.

Definition autoConvert_v1alpha1_NetworkAttachmentErrors_To_network_NetworkAttachmentErrors
    (x : V1alpha1.NetworkAttachmentErrors) (out : Network.NetworkAttachmentErrors) : error + Network.NetworkAttachmentErrors :=
  inr (Network.MkErrors (V1alpha1.e_IPAM x) (V1alpha1.e_Host x)).
Definition Convert_v1alpha1_NetworkAttachmentErrors_To_network_NetworkAttachmentErrors :=
  autoConvert_v1alpha1_NetworkAttachmentErrors_To_network_NetworkAttachmentErrors.

Definition autoConvert_network_NetworkAttachmentErrors_To_v1alpha1_NetworkAttachmentErrors
    (x : Network.NetworkAttachmentErrors) (out : V1alpha1.NetworkAttachmentErrors) : error + V1alpha1.NetworkAttachmentErrors :=
  inr (V1alpha1.MkErrors (Network.e_IPAM x) (Network.e_Host x)).
Definition Convert_network_NetworkAttachmentErrors_To_v1alpha1_NetworkAttachmentErrors :=
  autoConvert_network_NetworkAttachmentErrors_To_v1alpha1_NetworkAttachmentErrors.

Definition autoConvert_v1alpha1_NetworkAttachmentSpec_To_network_NetworkAttachmentSpec
    (x : V1alpha1.NetworkAttachmentSpec) (out : Network.NetworkAttachmentSpec) : error + Network.NetworkAttachmentSpec :=
    inr (Network.MkSpec (V1alpha1.s_Node x) (V1alpha1.s_Subnet x) (V1alpha1.s_PostCreateExec x)
    (V1alpha1.s_PostDeleteExec x)).
Definition Convert_v1alpha1_NetworkAttachmentSpec_To_network_NetworkAttachmentSpec :=
  autoConvert_v1alpha1_NetworkAttachmentSpec_To_network_NetworkAttachmentSpec.

Definition autoConvert_network_NetworkAttachmentSpec_To_v1alpha1_NetworkAttachmentSpec
    (x : Network.NetworkAttachmentSpec) (out : V1alpha1.NetworkAttachmentSpec) : error + V1alpha1.NetworkAttachmentSpec :=
    inr (V1alpha1.MkSpec (Network.s_Node x) (Network.s_Subnet x) (Network.s_PostCreateExec x)
    (Network.s_PostDeleteExec x)).
Definition Convert_network_NetworkAttachmentSpec_To_v1alpha1_NetworkAttachmentSpec :=
  autoConvert_network_NetworkAttachmentSpec_To_v1alpha1_NetworkAttachmentSpec.

Definition autoConvert_v1alpha1_NetworkAttachmentStatus_To_network_NetworkAttachmentStatus
    (x : V1alpha1.NetworkAttachmentStatus) (out : Network.NetworkAttachmentStatus) : error + Network.NetworkAttachmentStatus :=
  errors ←? Convert_v1alpha1_NetworkAttachmentErrors_To_network_NetworkAttachmentErrors (V1alpha1.t_Errors x) (Network.t_Errors out);
    inr (Network.MkStatus errors (V1alpha1.t_LockUID x) (V1alpha1.t_AddressVNI x) (V1alpha1.t_IPv4
    x) (V1alpha1.t_MACAddress x) (V1alpha1.t_IfcName x) (V1alpha1.t_HostIP x)
    (V1alpha1.t_PostCreateExecReport x)).
Definition Convert_v1alpha1_NetworkAttachmentStatus_To_network_NetworkAttachmentStatus :=
  autoConvert_v1alpha1_NetworkAttachmentStatus_To_network_NetworkAttachmentStatus.

Definition autoConvert_network_NetworkAttachmentStatus_To_v1alpha1_NetworkAttachmentStatus
    (x : Network.NetworkAttachmentStatus) (out : V1alpha1.NetworkAttachmentStatus) : error + V1alpha1.NetworkAttachmentStatus :=
  errors ←? Convert_network_NetworkAttachmentErrors_To_v1alpha1_NetworkAttachmentErrors (Network.t_Errors x) (V1alpha1.t_Errors out);
    inr (V1alpha1.MkStatus errors (Network.t_LockUID x) (Network.t_AddressVNI x) (Network.t_IPv4 x)
    (Network.t_MACAddress x) (Network.t_IfcName x) (Network.t_HostIP x)
    (Network.t_PostCreateExecReport x)).
Definition Convert_network_NetworkAttachmentStatus_To_v1alpha1_NetworkAttachmentStatus :=
  autoConvert_network_NetworkAttachmentStatus_To_v1alpha1_NetworkAttachmentStatus.

Definition autoConvert_v1alpha1_NetworkAttachment_To_network_NetworkAttachment
    (x : V1alpha1.NetworkAttachment) (out : Network.NetworkAttachment) : error + Network.NetworkAttachment :=
  spec ←? Convert_v1alpha1_NetworkAttachmentSpec_To_network_NetworkAttachmentSpec (V1alpha1.a_Spec x) (Network.a_Spec out);
  status ←? Convert_v1alpha1_NetworkAttachmentStatus_To_network_NetworkAttachmentStatus (V1alpha1.a_Status x) (Network.a_Status out);
  inr (Network.MkAttachment (Network.a_TypeMeta out) (V1alpha1.a_ObjectMeta x) spec status).
Definition Convert_v1alpha1_NetworkAttachment_To_network_NetworkAttachment :=
  autoConvert_v1alpha1_NetworkAttachment_To_network_NetworkAttachment.

Definition autoConvert_network_NetworkAttachment_To_v1alpha1_NetworkAttachment
    (x : Network.NetworkAttachment) (out : V1alpha1.NetworkAttachment) : error + V1alpha1.NetworkAttachment :=
  spec ←? Convert_network_NetworkAttachmentSpec_To_v1alpha1_NetworkAttachmentSpec (Network.a_Spec x) (V1alpha1.a_Spec out);
  status ←? Convert_network_NetworkAttachmentStatus_To_v1alpha1_NetworkAttachmentStatus (Network.a_Status x) (V1alpha1.a_Status out);
  inr (V1alpha1.MkAttachment (V1alpha1.a_TypeMeta out) (Network.a_ObjectMeta x) spec status).
Definition Convert_network_NetworkAttachment_To_v1alpha1_NetworkAttachment :=
  autoConvert_network_NetworkAttachment_To_v1alpha1_NetworkAttachment.

Definition autoConvert_v1alpha1_NetworkAttachmentList_To_network_NetworkAttachmentList
    (x : V1alpha1.NetworkAttachmentList) (out : Network.NetworkAttachmentList) : error + Network.NetworkAttachmentList :=
    inr (Network.MkAttachmentList (Network.al_TypeMeta out) (V1alpha1.al_ListMeta x)
    (V1alpha1.al_Items x)).
Definition Convert_v1alpha1_NetworkAttachmentList_To_network_NetworkAttachmentList :=
  autoConvert_v1alpha1_NetworkAttachmentList_To_network_NetworkAttachmentList.

Definition autoConvert_network_NetworkAttachmentList_To_v1alpha1_NetworkAttachmentList
    (x : Network.NetworkAttachmentList) (out : V1alpha1.NetworkAttachmentList) : error + V1alpha1.NetworkAttachmentList :=
    inr (V1alpha1.MkAttachmentList (V1alpha1.al_TypeMeta out) (Network.al_ListMeta x)
    (Network.al_Items x)).
Definition Convert_network_NetworkAttachmentList_To_v1alpha1_NetworkAttachmentList :=
  autoConvert_network_NetworkAttachmentList_To_v1alpha1_NetworkAttachmentList.

Definition autoConvert_v1alpha1_SubnetSpec_To_network_SubnetSpec
    (x : V1alpha1.SubnetSpec) (out : Network.SubnetSpec) : error + Network.SubnetSpec :=
  inr (Network.MkSubnetSpec (V1alpha1.ss_IPv4 x) (V1alpha1.ss_VNI x)).
Definition Convert_v1alpha1_SubnetSpec_To_network_SubnetSpec :=
  autoConvert_v1alpha1_SubnetSpec_To_network_SubnetSpec.

Definition autoConvert_network_SubnetSpec_To_v1alpha1_SubnetSpec
    (x : Network.SubnetSpec) (out : V1alpha1.SubnetSpec) : error + V1alpha1.SubnetSpec :=
  inr (V1alpha1.MkSubnetSpec (Network.ss_IPv4 x) (Network.ss_VNI x)).
Definition Convert_network_SubnetSpec_To_v1alpha1_SubnetSpec :=
  autoConvert_network_SubnetSpec_To_v1alpha1_SubnetSpec.

Definition autoConvert_v1alpha1_SubnetStatus_To_network_SubnetStatus
    (x : V1alpha1.SubnetStatus) (out : Network.SubnetStatus) : error + Network.SubnetStatus :=
  inr (Network.MkSubnetStatus (V1alpha1.st_Errors x)).
Definition Convert_v1alpha1_SubnetStatus_To_network_SubnetStatus :=
  autoConvert_v1alpha1_SubnetStatus_To_network_SubnetStatus.

Definition autoConvert_network_SubnetStatus_To_v1alpha1_SubnetStatus
    (x : Network.SubnetStatus) (out : V1alpha1.SubnetStatus) : error + V1alpha1.SubnetStatus :=
  inr (V1alpha1.MkSubnetStatus (Network.st_Errors x)).
Definition Convert_network_SubnetStatus_To_v1alpha1_SubnetStatus :=
  autoConvert_network_SubnetStatus_To_v1alpha1_SubnetStatus.

Definition autoConvert_v1alpha1_Subnet_To_network_Subnet
    (x : V1alpha1.Subnet) (out : Network.Subnet) : error + Network.Subnet :=
  spec ←? Convert_v1alpha1_SubnetSpec_To_network_SubnetSpec (V1alpha1.n_Spec x) (Network.n_Spec out);
  status ←? Convert_v1alpha1_SubnetStatus_To_network_SubnetStatus (V1alpha1.n_Status x) (Network.n_Status out);
  inr (Network.MkSubnet (Network.n_TypeMeta out) (V1alpha1.n_ObjectMeta x) spec status).
Definition Convert_v1alpha1_Subnet_To_network_Subnet :=
  autoConvert_v1alpha1_Subnet_To_network_Subnet.

Definition autoConvert_network_Subnet_To_v1alpha1_Subnet
    (x : Network.Subnet) (out : V1alpha1.Subnet) : error + V1alpha1.Subnet :=
  spec ←? Convert_network_SubnetSpec_To_v1alpha1_SubnetSpec (Network.n_Spec x) (V1alpha1.n_Spec out);
  status ←? Convert_network_SubnetStatus_To_v1alpha1_SubnetStatus (Network.n_Status x) (V1alpha1.n_Status out);
  inr (V1alpha1.MkSubnet (V1alpha1.n_TypeMeta out) (Network.n_ObjectMeta x) spec status).
Definition Convert_network_Subnet_To_v1alpha1_Subnet :=
  autoConvert_network_Subnet_To_v1alpha1_Subnet.

Definition autoConvert_v1alpha1_SubnetList_To_network_SubnetList
    (x : V1alpha1.SubnetList) (out : Network.SubnetList) : error + Network.SubnetList :=
    inr (Network.MkSubnetList (Network.nl_TypeMeta out) (V1alpha1.nl_ListMeta x) (V1alpha1.nl_Items
    x)).
Definition Convert_v1alpha1_SubnetList_To_network_SubnetList :=
  autoConvert_v1alpha1_SubnetList_To_network_SubnetList.

Definition autoConvert_network_SubnetList_To_v1alpha1_SubnetList
    (x : Network.SubnetList) (out : V1alpha1.SubnetList) : error + V1alpha1.SubnetList :=
    inr (V1alpha1.MkSubnetList (V1alpha1.nl_TypeMeta out) (Network.nl_ListMeta x) (Network.nl_Items
    x)).
Definition Convert_network_SubnetList_To_v1alpha1_SubnetList :=
  autoConvert_network_SubnetList_To_v1alpha1_SubnetList.

(** ** Registration

    The scheme of the API machinery is told of each conversion; it may refuse one. *)

Inductive GoType :=
| TExecReport
| TIPLock
| TIPLockList
| TIPLockSpec
| TNetworkAttachment
| TNetworkAttachmentErrors
| TNetworkAttachmentList
| TNetworkAttachmentSpec
| TNetworkAttachmentStatus
| TSubnet
| TSubnetList
| TSubnetSpec
| TSubnetStatus.

#[export] Instance GoType_dec : EqDecision GoType.
Proof. solve_decision. Defined.

Definition versioned (t : GoType) : Type :=
  match t with
  | TExecReport => V1alpha1.ExecReport
  | TIPLock => V1alpha1.IPLock
  | TIPLockList => V1alpha1.IPLockList
  | TIPLockSpec => V1alpha1.IPLockSpec
  | TNetworkAttachment => V1alpha1.NetworkAttachment
  | TNetworkAttachmentErrors => V1alpha1.NetworkAttachmentErrors
  | TNetworkAttachmentList => V1alpha1.NetworkAttachmentList
  | TNetworkAttachmentSpec => V1alpha1.NetworkAttachmentSpec
  | TNetworkAttachmentStatus => V1alpha1.NetworkAttachmentStatus
  | TSubnet => V1alpha1.Subnet
  | TSubnetList => V1alpha1.SubnetList
  | TSubnetSpec => V1alpha1.SubnetSpec
  | TSubnetStatus => V1alpha1.SubnetStatus
  end.

Definition internal (t : GoType) : Type :=
  match t with
  | TExecReport => Network.ExecReport
  | TIPLock => Network.IPLock
  | TIPLockList => Network.IPLockList
  | TIPLockSpec => Network.IPLockSpec
  | TNetworkAttachment => Network.NetworkAttachment
  | TNetworkAttachmentErrors => Network.NetworkAttachmentErrors
  | TNetworkAttachmentList => Network.NetworkAttachmentList
  | TNetworkAttachmentSpec => Network.NetworkAttachmentSpec
  | TNetworkAttachmentStatus => Network.NetworkAttachmentStatus
  | TSubnet => Network.Subnet
  | TSubnetList => Network.SubnetList
  | TSubnetSpec => Network.SubnetSpec
  | TSubnetStatus => Network.SubnetStatus
  end.

(** A conversion function from or to the internal type. *)
Inductive Conversion :=
| Inward (t : GoType) (f : versioned t → internal t → error + internal t)
| Outward (t : GoType) (f : internal t → versioned t → error + versioned t).

Definition conversions : list Conversion := [
  Inward TExecReport Convert_v1alpha1_ExecReport_To_network_ExecReport;
  Outward TExecReport Convert_network_ExecReport_To_v1alpha1_ExecReport;
  Inward TIPLock Convert_v1alpha1_IPLock_To_network_IPLock;
  Outward TIPLock Convert_network_IPLock_To_v1alpha1_IPLock;
  Inward TIPLockList Convert_v1alpha1_IPLockList_To_network_IPLockList;
  Outward TIPLockList Convert_network_IPLockList_To_v1alpha1_IPLockList;
  Inward TIPLockSpec Convert_v1alpha1_IPLockSpec_To_network_IPLockSpec;
  Outward TIPLockSpec Convert_network_IPLockSpec_To_v1alpha1_IPLockSpec;
  Inward TNetworkAttachment Convert_v1alpha1_NetworkAttachment_To_network_NetworkAttachment;
  Outward TNetworkAttachment Convert_network_NetworkAttachment_To_v1alpha1_NetworkAttachment;
  Inward TNetworkAttachmentErrors Convert_v1alpha1_NetworkAttachmentErrors_To_network_NetworkAttachmentErrors;
  Outward TNetworkAttachmentErrors Convert_network_NetworkAttachmentErrors_To_v1alpha1_NetworkAttachmentErrors;
  Inward TNetworkAttachmentList Convert_v1alpha1_NetworkAttachmentList_To_network_NetworkAttachmentList;
  Outward TNetworkAttachmentList Convert_network_NetworkAttachmentList_To_v1alpha1_NetworkAttachmentList;
  Inward TNetworkAttachmentSpec Convert_v1alpha1_NetworkAttachmentSpec_To_network_NetworkAttachmentSpec;
  Outward TNetworkAttachmentSpec Convert_network_NetworkAttachmentSpec_To_v1alpha1_NetworkAttachmentSpec;
  Inward TNetworkAttachmentStatus Convert_v1alpha1_NetworkAttachmentStatus_To_network_NetworkAttachmentStatus;
  Outward TNetworkAttachmentStatus Convert_network_NetworkAttachmentStatus_To_v1alpha1_NetworkAttachmentStatus;
  Inward TSubnet Convert_v1alpha1_Subnet_To_network_Subnet;
  Outward TSubnet Convert_network_Subnet_To_v1alpha1_Subnet;
  Inward TSubnetList Convert_v1alpha1_SubnetList_To_network_SubnetList;
  Outward TSubnetList Convert_network_SubnetList_To_v1alpha1_SubnetList;
  Inward TSubnetSpec Convert_v1alpha1_SubnetSpec_To_network_SubnetSpec;
  Outward TSubnetSpec Convert_network_SubnetSpec_To_v1alpha1_SubnetSpec;
  Inward TSubnetStatus Convert_v1alpha1_SubnetStatus_To_network_SubnetStatus;
  Outward TSubnetStatus Convert_network_SubnetStatus_To_v1alpha1_SubnetStatus].

Section Scheme.
Context {Scheme : Type} (AddGeneratedConversionFunc : Conversion → Scheme → option error * Scheme).

Fixpoint register (cs : list Conversion) (s : Scheme) : option error * Scheme :=
  match cs with
  | [] => (None, s)
  | c :: cs =>
      match AddGeneratedConversionFunc c s with
      | (Some err, s) => (Some err, s)
      | (None, s) => register cs s
      end
  end.

Definition RegisterConversions (s : Scheme) : option error * Scheme := register conversions s.
End Scheme.

(** The conversions up to the first that is refused are registered. *)
Lemma register_all {Scheme} (add : Conversion → Scheme → option error * Scheme) s :
  match RegisterConversions add s with
  | (None, s') => s' = foldl (λ s c, (add c s).2) s conversions
  | (Some err, s') => ∃ done c rest, conversions = done ++ c :: rest ∧
      add c (foldl (λ s c, (add c s).2) s done) = (Some err, s')
  end.
Proof.
  unfold RegisterConversions. generalize conversions. intros cs. revert s. induction cs as [|c cs IH]; intros s; simpl; [done|].
  destruct (add c s) as [[err|] s1] eqn:E; simpl; [by exists [], c, cs|].
  specialize (IH s1). destruct (register add cs s1) as [[err|] s2]; [|done].
  destruct IH as (before & d & rest & -> & Hd). exists (c :: before), d, rest. split; [done|]. simpl. by rewrite E.
Qed.

(** ** What a conversion keeps *)

Context `{!MetaOps, !MetaLaws}.

(** The value of a struct without the type metadata of the struct itself. *)
Definition content (t : GoType) : Type :=
  match t with
  | TExecReport => ApiTypes.ExecReport
  | TIPLock => ApiTypes.IPLock
  | TIPLockList => ListMeta * list (TypeMeta * ApiTypes.IPLock)
  | TIPLockSpec => string
  | TNetworkAttachment => ApiTypes.NetworkAttachment
  | TNetworkAttachmentErrors => ApiTypes.NetworkAttachmentErrors
  | TNetworkAttachmentList => ListMeta * list (TypeMeta * ApiTypes.NetworkAttachment)
  | TNetworkAttachmentSpec => ApiTypes.NetworkAttachmentSpec
  | TNetworkAttachmentStatus => ApiTypes.NetworkAttachmentStatus
  | TSubnet => ApiTypes.Subnet
  | TSubnetList => ListMeta * list (TypeMeta * ApiTypes.Subnet)
  | TSubnetSpec => ApiTypes.SubnetSpec
  | TSubnetStatus => list string
  end.

Definition of_list {A} (v : TypeMeta * ListMeta * list A) : ListMeta * list A := (v.1.2, v.2).

Definition content_versioned (t : GoType) (h : Heap) : versioned t → option (content t) :=
  match t with
  | TExecReport => λ x : V1alpha1.ExecReport, view (V := ApiTypes.ExecReport) h x
  | TIPLock => λ x : V1alpha1.IPLock, snd <$> view (V := (TypeMeta * ApiTypes.IPLock)) h x
  | TIPLockList => λ x : V1alpha1.IPLockList, of_list <$> view (V := (TypeMeta * ListMeta * list (TypeMeta * ApiTypes.IPLock))) h x
  | TIPLockSpec => λ x : V1alpha1.IPLockSpec, view (V := string) h x
  | TNetworkAttachment => λ x : V1alpha1.NetworkAttachment, snd <$> view (V := (TypeMeta * ApiTypes.NetworkAttachment)) h x
  | TNetworkAttachmentErrors => λ x : V1alpha1.NetworkAttachmentErrors, view (V := ApiTypes.NetworkAttachmentErrors) h x
  | TNetworkAttachmentList => λ x : V1alpha1.NetworkAttachmentList, of_list <$> view (V := (TypeMeta * ListMeta * list (TypeMeta * ApiTypes.NetworkAttachment))) h x
  | TNetworkAttachmentSpec => λ x : V1alpha1.NetworkAttachmentSpec, view (V := ApiTypes.NetworkAttachmentSpec) h x
  | TNetworkAttachmentStatus => λ x : V1alpha1.NetworkAttachmentStatus, view (V := ApiTypes.NetworkAttachmentStatus) h x
  | TSubnet => λ x : V1alpha1.Subnet, snd <$> view (V := (TypeMeta * ApiTypes.Subnet)) h x
  | TSubnetList => λ x : V1alpha1.SubnetList, of_list <$> view (V := (TypeMeta * ListMeta * list (TypeMeta * ApiTypes.Subnet))) h x
  | TSubnetSpec => λ x : V1alpha1.SubnetSpec, view (V := ApiTypes.SubnetSpec) h x
  | TSubnetStatus => λ x : V1alpha1.SubnetStatus, view (V := (list string)) h x
  end.

Definition type_versioned (t : GoType) : versioned t → option TypeMeta :=
  match t with
  | TIPLock => λ x : V1alpha1.IPLock, Some (V1alpha1.l_TypeMeta x)
  | TIPLockList => λ x : V1alpha1.IPLockList, Some (V1alpha1.ll_TypeMeta x)
  | TNetworkAttachment => λ x : V1alpha1.NetworkAttachment, Some (V1alpha1.a_TypeMeta x)
  | TNetworkAttachmentList => λ x : V1alpha1.NetworkAttachmentList, Some (V1alpha1.al_TypeMeta x)
  | TSubnet => λ x : V1alpha1.Subnet, Some (V1alpha1.n_TypeMeta x)
  | TSubnetList => λ x : V1alpha1.SubnetList, Some (V1alpha1.nl_TypeMeta x)
  | _ => λ _, None
  end.

Definition content_internal (t : GoType) (h : Heap) : internal t → option (content t) :=
  match t with
  | TExecReport => λ x : Network.ExecReport, view (V := ApiTypes.ExecReport) h x
  | TIPLock => λ x : Network.IPLock, snd <$> view (V := (TypeMeta * ApiTypes.IPLock)) h x
  | TIPLockList => λ x : Network.IPLockList, of_list <$> view (V := (TypeMeta * ListMeta * list (TypeMeta * ApiTypes.IPLock))) h x
  | TIPLockSpec => λ x : Network.IPLockSpec, view (V := string) h x
  | TNetworkAttachment => λ x : Network.NetworkAttachment, snd <$> view (V := (TypeMeta * ApiTypes.NetworkAttachment)) h x
  | TNetworkAttachmentErrors => λ x : Network.NetworkAttachmentErrors, view (V := ApiTypes.NetworkAttachmentErrors) h x
  | TNetworkAttachmentList => λ x : Network.NetworkAttachmentList, of_list <$> view (V := (TypeMeta * ListMeta * list (TypeMeta * ApiTypes.NetworkAttachment))) h x
  | TNetworkAttachmentSpec => λ x : Network.NetworkAttachmentSpec, view (V := ApiTypes.NetworkAttachmentSpec) h x
  | TNetworkAttachmentStatus => λ x : Network.NetworkAttachmentStatus, view (V := ApiTypes.NetworkAttachmentStatus) h x
  | TSubnet => λ x : Network.Subnet, snd <$> view (V := (TypeMeta * ApiTypes.Subnet)) h x
  | TSubnetList => λ x : Network.SubnetList, of_list <$> view (V := (TypeMeta * ListMeta * list (TypeMeta * ApiTypes.Subnet))) h x
  | TSubnetSpec => λ x : Network.SubnetSpec, view (V := ApiTypes.SubnetSpec) h x
  | TSubnetStatus => λ x : Network.SubnetStatus, view (V := (list string)) h x
  end.

Definition type_internal (t : GoType) : internal t → option TypeMeta :=
  match t with
  | TIPLock => λ x : Network.IPLock, Some (Network.l_TypeMeta x)
  | TIPLockList => λ x : Network.IPLockList, Some (Network.ll_TypeMeta x)
  | TNetworkAttachment => λ x : Network.NetworkAttachment, Some (Network.a_TypeMeta x)
  | TNetworkAttachmentList => λ x : Network.NetworkAttachmentList, Some (Network.al_TypeMeta x)
  | TSubnet => λ x : Network.Subnet, Some (Network.n_TypeMeta x)
  | TSubnetList => λ x : Network.SubnetList, Some (Network.nl_TypeMeta x)
  | _ => λ _, None
  end.

Lemma same_report h p : view_ptr (T := Network.ExecReport) h p = view_ptr (T := V1alpha1.ExecReport) h p.
Proof.
  destruct p as [[l i]|]; [|done]. simpl. unfold view_at, array.
  change (type_of Network.ExecReport) with (type_of V1alpha1.ExecReport).
  destruct (raw_array _ h l) as [rs|]; [|done]. simpl in rs |- *. rewrite !list_lookup_fmap.
  by destruct (rs !! i) as [[[[[? ?] ?] ?] ?]|].
Qed.

Lemma same_status h x :
  Network.view_status h (Network.of_status x) = V1alpha1.view_status h (V1alpha1.of_status x).
Proof.
  destruct x as [[[[[[[[? ?] ?] ?] ?] ?] ?] ?] r]. unfold Network.view_status, V1alpha1.view_status. simpl.
  by rewrite same_report.
Qed.

(** Arrays of objects of the two packages stand for the same values, because their elements have the
    same layout and each field the same meaning. *)
Lemma same_atts h s :
  view_slice (T := Network.NetworkAttachment) h s = view_slice (T := V1alpha1.NetworkAttachment) h s.
Proof.
  rewrite !view_slice_raw. change (type_of Network.NetworkAttachment) with (type_of V1alpha1.NetworkAttachment).
  destruct (raw_elements _ h s) as [rs|]; [|done]. apply mapM_ext.
  intros [[[tm m] [[[? ?] ?] ?]] st]. cbn [view Network.att_view V1alpha1.att_view of_raw Network.att_struct V1alpha1.att_struct].
  unfold Network.view_att, V1alpha1.view_att. simpl. by rewrite same_status.
Qed.

Lemma same_subnets h s : view_slice (T := Network.Subnet) h s = view_slice (T := V1alpha1.Subnet) h s.
Proof.
  rewrite !view_slice_raw. change (type_of Network.Subnet) with (type_of V1alpha1.Subnet).
  destruct (raw_elements _ h s) as [rs|]; [|done]. apply mapM_ext. by intros [[[tm m] [? ?]] ?].
Qed.

Lemma same_locks h s : view_slice (T := Network.IPLock) h s = view_slice (T := V1alpha1.IPLock) h s.
Proof.
  rewrite !view_slice_raw. change (type_of Network.IPLock) with (type_of V1alpha1.IPLock).
  destruct (raw_elements _ h s) as [rs|]; [|done]. apply mapM_ext. by intros [[tm m] ?].
Qed.

(** A conversion succeeds, and its result stands in every heap for what the original stands for
    there: it shares all memory with it.  Only the type metadata stays what it was. *)
Definition keeps_content (c : Conversion) : Prop :=
  match c with
  | Inward t f => ∀ x out, ∃ y, f x out = inr y ∧ type_internal t y = type_internal t out ∧
      ∀ h, content_internal t h y = content_versioned t h x
  | Outward t f => ∀ x out, ∃ y, f x out = inr y ∧ type_versioned t y = type_versioned t out ∧
      ∀ h, content_versioned t h y = content_internal t h x
  end.

#[local] Ltac unfold_views :=
  unfold Network.view_lock, V1alpha1.view_lock, Network.view_lock_list, V1alpha1.view_lock_list,
    Network.view_att, V1alpha1.view_att, Network.view_att_list, V1alpha1.view_att_list,
    Network.view_subnet, V1alpha1.view_subnet, Network.view_subnet_list, V1alpha1.view_subnet_list,
    Network.view_status, V1alpha1.view_status, Network.view_spec, V1alpha1.view_spec,
    Network.view_errors, V1alpha1.view_errors; simpl.

#[local] Ltac same_fields :=
  simpl; do 3 unfold_views; rewrite ?same_atts, ?same_subnets, ?same_locks, ?same_report;
  repeat match goal with |- context [?m ≫= _] => destruct m; simpl; [|done] end; done.

#[local] Ltac destruct_structs :=
  repeat match goal with
  | x : V1alpha1.IPLockSpec |- _ => destruct x
  | x : V1alpha1.NetworkAttachmentSpec |- _ => destruct x
  | x : V1alpha1.NetworkAttachmentStatus |- _ => destruct x
  | x : V1alpha1.NetworkAttachmentErrors |- _ => destruct x
  | x : V1alpha1.SubnetSpec |- _ => destruct x
  | x : V1alpha1.SubnetStatus |- _ => destruct x
  | x : Network.IPLockSpec |- _ => destruct x
  | x : Network.NetworkAttachmentSpec |- _ => destruct x
  | x : Network.NetworkAttachmentStatus |- _ => destruct x
  | x : Network.NetworkAttachmentErrors |- _ => destruct x
  | x : Network.SubnetSpec |- _ => destruct x
  | x : Network.SubnetStatus |- _ => destruct x
  end.

Lemma conversions_keep : Forall keeps_content conversions.
Proof.
  unfold conversions. repeat (apply Forall_cons_2; [intros x out; eexists; split; [reflexivity|]; split; [reflexivity|]; intros h|]).
  all: try reflexivity.
  all: try apply Forall_nil_2.
  all: same_fields.
Qed.

(** Two conversions that are inverse: there and back into a struct with the type metadata of the
    original gives the original. *)
Definition inverse (t : GoType) (f : versioned t → internal t → error + internal t)
    (g : internal t → versioned t → error + versioned t) : Prop :=
  keeps_content (Inward t f) ∧ keeps_content (Outward t g) ∧
  (∀ x out out' y, f x out = inr y → type_versioned t out' = type_versioned t x → g y out' = inr x) ∧
  (∀ x out out' y, g x out = inr y → type_internal t out' = type_internal t x → f y out' = inr x).

Lemma conversions_inverse (t : GoType) :
  ∃ f g, Inward t f ∈ conversions ∧ Outward t g ∈ conversions ∧ inverse t f g.
Proof.
  assert (Hin : ∀ f g, Inward t f ∈ conversions → Outward t g ∈ conversions →
    (∀ x out out' y, f x out = inr y → type_versioned t out' = type_versioned t x → g y out' = inr x) →
    (∀ x out out' y, g x out = inr y → type_internal t out' = type_internal t x → f y out' = inr x) →
    ∃ f g, Inward t f ∈ conversions ∧ Outward t g ∈ conversions ∧ inverse t f g).
  { intros f g Hf Hg ??. pose proof conversions_keep as Hall. rewrite Forall_forall in Hall.
    exists f, g. unfold inverse. split_and!; try done; by apply Hall. }
  destruct t; eapply Hin; try solve [unfold conversions; repeat constructor].
  all: intros x out out' y [= <-] Ht; refine (f_equal inr _); destruct x; simpl in *; simplify_eq/=;
    destruct_structs; simpl; congruence.
Qed.

End Conversion.
End ApiConversion.
