(* ===== verification/SubnetStrategy.v ===== *)
(** * Subnet validation: [pkg/registry/network/subnet/strategy.go]

    The checks the API server runs before it stores a Subnet, and what they
    guarantee when creations and updates are validated one at a time: the
    subnets of one VNI live in one namespace and have disjoint address
    ranges. *)

From S2P Require Import Prelude GoStr GoNet ApiTypes.
Import GoNet.

(** ** [uint32] bounds of a CIDR block *)

(** [ipv4ToUint32]: indexing the nil slice that [To4] returns for an address with
    no IPv4 form panics. *)
Definition ipv4ToUint32 (ip : IP) : res Z :=
  match To4 ip with
  | [a; b; c; d] => Ok (Z.shiftl a 24 +₃₂ Z.shiftl b 16 +₃₂ Z.shiftl c 8 +₃₂ d)
  | _ => Panic "index out of range"
  end.

(** [uint32(uint64(1)<<uint(bits-ones) - 1)]. *)
Definition block_delta (m : IPMask) : Z :=
  let '(ones, bits) := Size m in u32 (u64 (u64 (Z.shiftl 1 (bits - ones)) - 1)).

Lemma ipv4ToUint32_be p : bytes4 p → ∀ ip, To4 ip = p → ipv4ToUint32 ip = Ok (be p).
Proof.
  intros (a & b & c & d & -> & Ha & Hb & Hc & Hd)%bytes4_inv ip E. unfold ipv4ToUint32, be.
  rewrite E, !Z.shiftl_mul_pow2 by lia. unfold is_u8 in *. simpl. f_equal.
  change (2 ^ 24) with 16777216. change (2 ^ 16) with 65536. change (2 ^ 8) with 256.
  repeat rewrite (u32_small (_ + _)) by u32_lia. lia.
Qed.

Lemma ipv4ToUint32_panics ip : To4 ip = [] → ∃ msg, ipv4ToUint32 ip = Panic msg.
Proof. unfold ipv4ToUint32. intros ->. eauto. Qed.

Lemma block_delta_size m n bits :
  0 ≤ n ≤ 32 → 32 ≤ bits → Size m = (bits - 32 + n, bits) → block_delta m = 2 ^ (32 - n) - 1.
Proof.
  intros Hn Hb E. unfold block_delta. rewrite E. replace (bits - (bits - 32 + n)) with (32 - n) by lia.
  rewrite Z.shiftl_mul_pow2, Z.mul_1_l by lia.
  assert (1 ≤ 2 ^ (32 - n) ≤ 2 ^ 32).
  { split; [|apply Z.pow_le_mono_r; lia]. assert (0 < 2 ^ (32 - n)); [|lia].
    apply Z.pow_pos_nonneg; lia. }
  change (2 ^ 32) with 4294967296 in *. unfold u64.
  rewrite (Z.mod_small (2 ^ (32 - n))) by lia. rewrite Z.mod_small by lia. apply u32_small. u32_lia.
Qed.

(** The bounds computed for a block: an aligned range that does not wrap. *)
Lemma block_bounds s ip net :
  ParseCIDR s = Some (ip, net) → To4 (net_IP net) ≠ [] →
  ∃ a n, is_u32 a ∧ 0 ≤ n ≤ 32 ∧
    let base := a / 2 ^ (32 - n) * 2 ^ (32 - n) in
    ipv4ToUint32 (net_IP net) = Ok base ∧
    base +₃₂ block_delta (net_Mask net) = base + (2 ^ (32 - n) - 1) ∧
    0 ≤ base ≤ a ∧ a ≤ base + (2 ^ (32 - n) - 1) < W32.
Proof.
  intros Hp Hne. destruct (ParseCIDR_block _ _ _ Hp Hne) as (p & n & bits & Hb & Hn & Hbits & HT & HS).
  exists (be p), n. pose proof (be_range _ Hb) as Hr. unfold is_u32 in Hr.
  set (w := 2 ^ (32 - n)). assert (0 < w) by (apply Z.pow_pos_nonneg; lia).
  assert (Hw : w * 2 ^ n = W32) by (subst w; rewrite <- Z.pow_add_r by lia; by replace (32 - n + n) with 32 by lia).
  assert (Hq := Z.div_mod (be p) w ltac:(lia)). assert (Hm := Z.mod_pos_bound (be p) w ltac:(lia)).
  assert (Hlt : be p / w < 2 ^ n) by (apply Z.div_lt_upper_bound; lia).
  assert (0 ≤ be p / w) by (apply Z.div_pos; lia). assert (0 < 2 ^ n) by (apply Z.pow_pos_nonneg; lia).
  assert (Hlast : be p / w * w + (w - 1) < W32) by nia.
  split; [done|]. split; [done|]. intros base. split; [|split].
  - by rewrite (ipv4ToUint32_be _ (zip_land_bytes p n Hb Hn)), be_mask by done.
  - rewrite (block_delta_size _ n bits) by done. apply u32_small. unfold is_u32. subst base. nia.
  - subst base. nia.
Qed.

(** ** The strategy *)

(** [field.Error]: [field.Invalid], [field.Forbidden], [field.InternalError]. *)
Inductive field_error :=
| Invalid (path : list string) (value detail : string)
| Forbidden (path : list string) (detail : string)
| InternalError (msg : string).

Definition minVNI : Z := 1.
Definition maxVNI : Z := 2097151.

Record parsedSubnet := MkParsed { baseU : Z; lastU : Z }.

(** A subnet whose CIDR does not parse gives the zero value. *)
Definition parseSubnet (subnet : Subnet) : res parsedSubnet :=
  match ParseCIDR (IPv4 (sn_Spec subnet)) with
  | None => Ok (MkParsed 0 0)
  | Some (_, ipNet) =>
      baseU ← ipv4ToUint32 (net_IP ipNet);
      Ok (MkParsed baseU (baseU +₃₂ block_delta (net_Mask ipNet)))
  end.

Definition overlaps (ps1 ps2 : parsedSubnet) : bool :=
  (baseU ps1 <=? lastU ps2) && (baseU ps2 <=? lastU ps1).

Definition checkVNIRange (subnet : Subnet) : list field_error :=
  let vni := VNI (sn_Spec subnet) in
  if (vni <? minVNI) || (maxVNI <? vni)
  then [Invalid ["spec"; "vni"] (fmt_d vni)
          ("must be in the range [" +:+ fmt_d minVNI +:+ "," +:+ fmt_d maxVNI +:+ "]")]
  else [].

Definition checkCIDRFormat (subnet : Subnet) : list field_error :=
  let cidr := IPv4 (sn_Spec subnet) in
  match ParseCIDR cidr with
  | None => [Invalid ["spec"; "ipv4"] cidr ("invalid CIDR address: " +:+ cidr)]
  | Some _ => []
  end.

(** The lister is an informer cache: [None] when listing fails. *)
Definition allSubnetsWithVNI (lister : option (list Subnet)) (vni : Z) : option (list Subnet) :=
  allSubnets ← lister;
  Some (List.filter (λ aSubnet, VNI (sn_Spec aSubnet) =? vni) allSubnets).

Definition qname (s : Subnet) : string := Namespace (sn_meta s) +:+ "/" +:+ Name (sn_meta s).

Definition checkSameVNISameNs (thisSubnet : Subnet) (others : list Subnet) : list field_error :=
  flat_map (λ aSubnet,
    if negb (String.eqb (Namespace (sn_meta aSubnet)) (Namespace (sn_meta thisSubnet)))
    then [Forbidden ["metadata"; "namespace"]
            ("subnet " +:+ qname thisSubnet +:+
             " has the same VNI but different namespace with respect to subnet " +:+ qname aSubnet +:+
             ". Subnets with the same VNI MUST reside in the same namespace")]
    else []) others.

Fixpoint overlap_errors (thisSubnet : Subnet) (thisParsed : parsedSubnet) (others : list Subnet)
    : res (list field_error) :=
  match others with
  | [] => Ok []
  | aSubnet :: others =>
      if String.eqb (UID (sn_meta thisSubnet)) (UID (sn_meta aSubnet))
      then overlap_errors thisSubnet thisParsed others
      else
        aParsed ← parseSubnet aSubnet;
        errs ← overlap_errors thisSubnet thisParsed others;
        Ok (if overlaps thisParsed aParsed
            then Forbidden ["spec"; "ipv4"]
                   ("subnet " +:+ qname thisSubnet +:+ " IPv4 range (" +:+ IPv4 (sn_Spec thisSubnet)
                    +:+ ") overlaps with that of subnet " +:+ qname aSubnet +:+ " (" +:+
                    IPv4 (sn_Spec aSubnet) +:+
                    "). IPv4 ranges for subnets with the same VNI MUST be disjoint") :: errs
            else errs)
  end.

Definition checkCIDRDoesNotOverlap (thisSubnet : Subnet) (others : list Subnet)
    : res (list field_error) :=
  thisParsed ← parseSubnet thisSubnet; overlap_errors thisSubnet thisParsed others.

Definition Validate (lister : option (list Subnet)) (thisSubnet : Subnet) : res (list field_error) :=
  let vniRangeErrs := checkVNIRange thisSubnet in
  let cidrFormatErrs := checkCIDRFormat thisSubnet in
  let errs := vniRangeErrs ++ cidrFormatErrs in
  match vniRangeErrs with
  | _ :: _ => Ok errs
  | [] =>
      match allSubnetsWithVNI lister (VNI (sn_Spec thisSubnet)) with
      | None => Ok (errs ++ [InternalError ("could not fetch subnets with VNI " +:+
                                fmt_d (VNI (sn_Spec thisSubnet)) +:+ ", try again later")])
      | Some others =>
          let errs := errs ++ checkSameVNISameNs thisSubnet others in
          match cidrFormatErrs with
          | [] => overlapErrs ← checkCIDRDoesNotOverlap thisSubnet others; Ok (errs ++ overlapErrs)
          | _ => Ok errs
          end
      end
  end.

Definition ValidateUpdate (lister : option (list Subnet)) (obj old : Subnet) : res (list field_error) :=
  Validate lister obj.

(** [PrepareForCreate] clears the status. *)
Definition PrepareForCreate (subnet : Subnet) : Subnet :=
  MkSubnet (sn_meta subnet) (sn_Spec subnet) [].

(** ** What acceptance means *)

(** The address range of a subnet, when its CIDR block is an IPv4 one. *)
Definition block (s : Subnet) : option parsedSubnet :=
  match ParseCIDR (IPv4 (sn_Spec s)), parseSubnet s with
  | Some _, Ok ps => Some ps
  | _, _ => None
  end.

Definition has_addr (s : Subnet) (a : Z) : Prop :=
  ∃ ps, block s = Some ps ∧ baseU ps ≤ a ≤ lastU ps.

Definition disjoint_blocks (s1 s2 : Subnet) : Prop := ∀ a, has_addr s1 a → has_addr s2 a → False.

Definition vni_of (s : Subnet) : Z := VNI (sn_Spec s).
Definition ns_of (s : Subnet) : string := Namespace (sn_meta s).
Definition uid_of (s : Subnet) : string := UID (sn_meta s).

Lemma block_inv s ps :
  block s = Some ps → parseSubnet s = Ok ps ∧ checkCIDRFormat s = [] ∧
    0 ≤ baseU ps ≤ lastU ps ∧ lastU ps < W32.
Proof.
  unfold block, checkCIDRFormat, parseSubnet. destruct (ParseCIDR _) as [[ip net]|] eqn:E; [|done].
  destruct (To4 (net_IP net)) as [|x t] eqn:ET.
  { destruct (ipv4ToUint32_panics _ ET) as [msg ->]. done. }
  destruct (block_bounds _ _ _ E) as (a & n & Ha & Hn & -> & Hl & Hb); [by rewrite ET|].
  simpl. intros [= <-]. simpl. rewrite Hl. split_and!; done || lia.
Qed.

Lemma block_has_addr s ps : block s = Some ps → has_addr s (baseU ps).
Proof. intros Hb. exists ps. apply block_inv in Hb as Hi. split; [done|lia]. Qed.

(** [overlaps] decides whether two ranges share an address. *)
Lemma overlaps_iff s1 s2 ps1 ps2 :
  block s1 = Some ps1 → block s2 = Some ps2 →
  overlaps ps1 ps2 = true ↔ ∃ a, has_addr s1 a ∧ has_addr s2 a.
Proof.
  intros H1 H2. pose proof (block_inv _ _ H1). pose proof (block_inv _ _ H2).
  unfold overlaps. rewrite andb_true_iff, !Z.leb_le. split.
  - intros [??]. exists (Z.max (baseU ps1) (baseU ps2)). split; eexists; (split; [done|lia]).
  - intros (a & (q1 & E1 & ?) & (q2 & E2 & ?)). simplify_eq. lia.
Qed.

Lemma overlaps_false s1 s2 ps1 ps2 :
  block s1 = Some ps1 → block s2 = Some ps2 →
  overlaps ps1 ps2 = false ↔ disjoint_blocks s1 s2.
Proof.
  intros H1 H2. rewrite <- not_true_iff_false, (overlaps_iff s1 s2) by done.
  unfold disjoint_blocks. naive_solver.
Qed.

Lemma overlap_errors_ok s ps others :
  block s = Some ps → Forall (λ s', is_Some (block s')) others →
  ∃ errs, overlap_errors s ps others = Ok errs ∧
    (errs = [] ↔ ∀ s', s' ∈ others → uid_of s ≠ uid_of s' → disjoint_blocks s s').
Proof.
  intros Hs. induction 1 as [|s' others [ps' Hs'] _ (errs & IHe & IH)]; simpl.
  { exists []. split; [done|]. split; [|done]. intros _ ? ?%elem_of_nil. done. }
  setoid_rewrite elem_of_cons. destruct (String.eqb_spec (UID (sn_meta s)) (UID (sn_meta s'))) as [Eu|Nu].
  - exists errs. split; [done|]. rewrite IH. unfold uid_of. naive_solver.
  - destruct (block_inv _ _ Hs') as [-> _]. simpl. rewrite IHe. simpl.
    eexists. split; [done|]. pose proof (overlaps_false s s' ps ps' Hs Hs') as Hov.
    destruct (overlaps ps ps').
    + split; [done|]. intros Hall. specialize (Hall s' (or_introl eq_refl) Nu).
      apply Hov in Hall. done.
    + rewrite IH. naive_solver.
Qed.

Lemma sameNs_ok s others :
  checkSameVNISameNs s others = [] ↔ ∀ s', s' ∈ others → ns_of s' = ns_of s.
Proof.
  induction others as [|s' others IH]; simpl.
  { split; [|done]. intros _ ? ?%elem_of_nil. done. }
  setoid_rewrite elem_of_cons. fold (ns_of s') (ns_of s).
  destruct (String.eqb_spec (ns_of s') (ns_of s)) as [E|N]; simpl.
  - rewrite IH. naive_solver.
  - split; [done|]. intros H. destruct N. apply H. by left.
Qed.

Lemma vni_range_ok s : checkVNIRange s = [] ↔ minVNI ≤ vni_of s ≤ maxVNI.
Proof.
  unfold checkVNIRange, vni_of. destruct (Z.ltb_spec (VNI (sn_Spec s)) minVNI),
    (Z.ltb_spec maxVNI (VNI (sn_Spec s))); simpl; split; done || lia.
Qed.

Lemma elem_of_same_vni all v s :
  s ∈ List.filter (λ aSubnet, VNI (sn_Spec aSubnet) =? v) all ↔ s ∈ all ∧ vni_of s = v.
Proof. by rewrite list_elem_of_In, filter_In, <- list_elem_of_In, Z.eqb_eq. Qed.

(** What an accepted subnet satisfies with respect to the listed ones. *)
Definition acceptable (all : list Subnet) (s : Subnet) : Prop :=
  minVNI ≤ vni_of s ≤ maxVNI ∧ is_Some (block s) ∧
  ∀ s', s' ∈ all → vni_of s' = vni_of s →
    ns_of s' = ns_of s ∧ (uid_of s ≠ uid_of s' → disjoint_blocks s s').

Definition stored_ok (all : list Subnet) : Prop := Forall (λ s, is_Some (block s)) all.

(** Validation reports no error exactly for the acceptable subnets. *)
Lemma Validate_iff all s :
  stored_ok all → is_Some (block s) →
  ∃ errs, Validate (Some all) s = Ok errs ∧ (errs = [] ↔ acceptable all s).
Proof.
  intros Hall [ps Hs]. destruct (block_inv _ _ Hs) as (Hp & Hc & _).
  unfold Validate. rewrite Hc, app_nil_r. pose proof (vni_range_ok s) as Hv.
  destruct (checkVNIRange s) as [|e es].
  - simpl. unfold checkCIDRDoesNotOverlap. rewrite Hp. simpl.
    set (others := List.filter _ _).
    assert (Ho : ∀ s', s' ∈ others ↔ s' ∈ all ∧ vni_of s' = vni_of s) by (intros; apply elem_of_same_vni).
    destruct (overlap_errors_ok s ps others Hs) as (errs & -> & Herrs).
    { apply Forall_forall. intros s' [Hin _]%Ho. unfold stored_ok in Hall.
      rewrite Forall_forall in Hall. by apply Hall. }
    eexists. split; [done|]. rewrite app_nil, sameNs_ok, Herrs. unfold acceptable.
    setoid_rewrite Ho. naive_solver.
  - eexists. split; [done|]. split; [done|]. intros [Hr _]. apply Hv in Hr. done.
Qed.

(** The IPv6 hole: an IPv6 block passes [checkCIDRFormat], and the request then
    panics in [parseSubnet]. *)
Definition ipv6_cidr (s : Subnet) : Prop :=
  ∃ ip net, ParseCIDR (IPv4 (sn_Spec s)) = Some (ip, net) ∧ To4 (net_IP net) = [].


(** An IPv6 block passes the check of its format and then makes validation panic. *)
Lemma Validate_ipv6 all s :
  ipv6_cidr s → minVNI ≤ vni_of s ≤ maxVNI →
  checkCIDRFormat s = [] ∧ ∃ msg, Validate (Some all) s = Panic msg.
Proof.
  intros (ip & net & E & ET) Hr. unfold Validate, checkCIDRFormat. rewrite (proj2 (vni_range_ok s)), E by done.
  split; [done|]. simpl. unfold checkCIDRDoesNotOverlap, parseSubnet. rewrite E.
  destruct (ipv4ToUint32_panics _ ET) as [msg ->]. by exists msg.
Qed.

(** C12: validation of a subnet with an IPv4 block does not panic, and reports no error
    exactly for an acceptable subnet, on creation and on update; when the list of
    subnets cannot be had nothing is accepted.  An IPv6 block with a VNI in range
    passes the check of its format and makes validation panic. *)
Theorem Validate_accepts all s old :
  stored_ok all →
  (is_Some (block s) →
   (∃ errs, Validate (Some all) s = Ok errs ∧ (errs = [] ↔ acceptable all s) ∧
      ValidateUpdate (Some all) s old = Ok errs) ∧
   (∃ errs, Validate None s = Ok errs ∧ errs ≠ [])) ∧
  (ipv6_cidr s → minVNI ≤ vni_of s ≤ maxVNI →
   checkCIDRFormat s = [] ∧ ∃ msg, Validate (Some all) s = Panic msg).
Proof.
  intros Hall. split; [intros Hs; split|apply Validate_ipv6].
  - destruct (Validate_iff all s Hall Hs) as (errs & E & Hiff). by exists errs.
  - unfold Validate. destruct (checkVNIRange s) as [|e es]; simpl;
      (eexists; split; [done|]); [by intros [_ ?]%app_nil|done].
Qed.

(** ** Validation one request at a time *)

Section Server.

(** The stored subnets.  A create stores the prepared object under a fresh UID; an
    update keeps identity and namespace; both validate against the stored
    subnets first. *)
Inductive request (all : list Subnet) : list Subnet → Prop :=
| req_create s :
    (∀ s', s' ∈ all → uid_of s' ≠ uid_of s) →
    Validate (Some all) (PrepareForCreate s) = Ok [] →
    request all (PrepareForCreate s :: all)
| req_update pre old new post :
    all = pre ++ old :: post → uid_of new = uid_of old → ns_of new = ns_of old →
    ValidateUpdate (Some all) new old = Ok [] →
    request all (pre ++ new :: post)
| req_delete pre old post :
    all = pre ++ old :: post → request all (pre ++ post).

(** The promise of [SubnetSpec], with distinct UIDs and valid specs. *)
Definition consistent (all : list Subnet) : Prop :=
  NoDup (uid_of <$> all) ∧
  Forall (λ s, minVNI ≤ vni_of s ≤ maxVNI ∧ is_Some (block s)) all ∧
  ∀ s1 s2, s1 ∈ all → s2 ∈ all → vni_of s1 = vni_of s2 →
    ns_of s1 = ns_of s2 ∧ (uid_of s1 ≠ uid_of s2 → disjoint_blocks s1 s2).

Lemma Validate_ok_block all s : Validate all s = Ok [] → is_Some (block s).
Proof.
  unfold Validate. destruct (checkVNIRange s); [|done]. destruct (allSubnetsWithVNI all _) as [others|].
  - unfold checkCIDRFormat, checkCIDRDoesNotOverlap, block.
    destruct (ParseCIDR _) as [p|]; simpl; [|by destruct (checkSameVNISameNs s others)].
    destruct (parseSubnet s); [|done]. eauto.
  - unfold checkCIDRFormat. by destruct (ParseCIDR _).
Qed.

Lemma accepted all s : stored_ok all → Validate (Some all) s = Ok [] → acceptable all s.
Proof.
  intros Hall E. destruct (Validate_iff all s Hall (Validate_ok_block _ _ E)) as (errs & E' & Hiff).
  rewrite E in E'. injection E' as <-. by apply Hiff.
Qed.

Lemma consistent_stored all : consistent all → stored_ok all.
Proof. intros (_ & Hf & _). eapply Forall_impl; [done|]. by intros s [_ ?]. Qed.

Lemma disjoint_sym s1 s2 : disjoint_blocks s1 s2 → disjoint_blocks s2 s1.
Proof. intros H a ??. by eapply H. Qed.

(** Adding an acceptable subnet with a UID of its own. *)
Lemma consistent_add all s :
  consistent all → acceptable all s → uid_of s ∉ uid_of <$> all → consistent (s :: all).
Proof.
  intros (Hnd & Hf & Hc) (Hv & Hb & Ha) Hu. split; [|split].
  - by constructor.
  - by constructor.
  - intros s1 s2 [->|H1]%elem_of_cons [->|H2]%elem_of_cons Ev.
    + done.
    + destruct (Ha s2 H2 ltac:(done)) as [??]. done.
    + destruct (Ha s1 H1 Ev) as [? Hd]. split; [done|]. intros. by apply disjoint_sym, Hd.
    + by apply Hc.
Qed.

Lemma consistent_perm all all' : all ≡ₚ all' → consistent all → consistent all'.
Proof.
  intros Hp (Hnd & Hf & Hc). split; [by rewrite <- Hp|]. split; [by rewrite <- Hp|].
  intros s1 s2. rewrite <- Hp. apply Hc.
Qed.

Lemma consistent_tail s all : consistent (s :: all) → consistent all.
Proof.
  intros (Hnd & Hf & Hc). apply Forall_cons in Hf as [_ Hf]. apply NoDup_cons in Hnd as [_ Hnd].
  split; [done|]. split; [done|]. intros s1 s2 ??. apply Hc; by apply elem_of_cons; right.
Qed.

Lemma acceptable_sub all all' s : (∀ x, x ∈ all' → x ∈ all) → acceptable all s → acceptable all' s.
Proof. intros Hsub (?&?&Ha). split; [done|]. split; [done|]. intros s' Hs'. by apply Ha, Hsub. Qed.

(** C11: when requests are validated one at a time against the current store, every
    reachable store keeps the promise of [SubnetSpec]: the subnets of a VNI are
    in one namespace and have disjoint address ranges. *)
Theorem requests_consistent all all' : consistent all → rtc request all all' → consistent all'.
Proof.
  intros Hc Hr. induction Hr as [|x y z Hxy _ IH]; [done|]. apply IH. clear IH z.
  destruct Hxy as [s Hu HV|pre old new post -> Eu En HV|pre old post ->].
  - apply consistent_add; [done|apply accepted; [by apply consistent_stored|done]|].
    intros (s' & E & Hs')%list_elem_of_fmap. by apply (Hu s' Hs').
  - assert (Hp : pre ++ old :: post ≡ₚ old :: pre ++ post) by by rewrite Permutation_middle.
    assert (Ha := accepted _ _ (consistent_stored _ Hc) HV).
    apply (consistent_perm _ _ Hp) in Hc. apply (consistent_perm (new :: pre ++ post));
      [by rewrite Permutation_middle|].
    apply consistent_add; [by eapply consistent_tail| |].
    + eapply acceptable_sub; [|done]. intros x Hx. rewrite Hp. by apply elem_of_cons; right.
    + destruct Hc as [Hnd _]. apply NoDup_cons in Hnd as [Hnd _]. by rewrite Eu.
  - eapply consistent_tail, consistent_perm, Hc. by rewrite Permutation_middle.
Qed.

End Server.

(** ** The properties at concrete inputs *)

Definition demo (uid cidr : string) (vni : Z) : Subnet :=
  MkSubnet (MkMeta "ns" uid uid "1" 0 [] ∅ false) (MkSubnetSpec cidr vni) [].
Definition demo_a : Subnet := demo "ua" "10.0.0.0/24" 7.
Definition demo_b : Subnet := demo "ub" "10.0.1.0/24" 7.
Definition demo_c : Subnet := demo "uc" "10.0.0.128/25" 7.

Lemma Validate_accepts_witness :
  (∃ errs, Validate (Some [demo_a]) demo_c = Ok errs ∧ (errs = [] ↔ acceptable [demo_a] demo_c)) ∧
  ∃ msg, Validate (Some [demo_a]) (demo "u6" "2001:db8::/32" 7) = Panic msg.
Proof.
  assert (Hall : stored_ok [demo_a]) by (apply Forall_singleton; eexists; vm_compute; reflexivity).
  split.
  - destruct (proj1 (Validate_accepts [demo_a] demo_c demo_c Hall)) as [(errs & E & Hiff & _) _];
      [|by exists errs]. eexists. vm_compute. reflexivity.
  - apply (proj2 (Validate_accepts [demo_a] (demo "u6" "2001:db8::/32" 7) demo_c Hall)).
    + eexists _, _. split; vm_compute; reflexivity.
    + unfold minVNI, maxVNI, vni_of. simpl. lia.
Defined.
Lemma requests_consistent_witness : consistent [demo_b; demo_a].
Proof.
  apply (requests_consistent [] [demo_b; demo_a]).
  - split; [constructor|]. split; [constructor|]. by intros s1 s2 ?%elem_of_nil.
  - eapply rtc_l; [|eapply rtc_once].
    + apply (req_create [] demo_a); [by intros s' ?%elem_of_nil|vm_compute; reflexivity].
    + apply (req_create [demo_a] demo_b); [|vm_compute; reflexivity].
      intros s' ->%list_elem_of_singleton. done.
Defined.
