(* ===== verification/FieldSelect.v ===== *)
(** * Field selectors

    What the sources use of the Kubernetes API machinery's field selectors
    ([k8s.io/apimachinery/pkg/fields] and the generic registry), a library: a class
    with its documented laws, and an instance over the text form
    [spec.node=n1,status.ipv4!=] of a selector, with its escapes. *)

From S2P Require Import Prelude GoStr ApiTypes.

Module FieldSelect.

(** ** The interface *)

(** A term of a selector: the field must be, or must not be, the value. *)
Record Requirement := MkReq { rq_equal : bool; rq_field : string; rq_value : string }.

Abbreviation FieldSet := (gmap string string).

(** A field that an object does not have counts as empty. *)
Definition req_matches (fs : FieldSet) (r : Requirement) : bool :=
  Bool.eqb (rq_equal r) (String.eqb (default "" (fs !! rq_field r)) (rq_value r)).

(** The conversion of a label and value that a version of the API registers for a kind. *)
Definition Conversion := string → string → option (string * string).

(** [served text conv fs] is the answer of the API server to a request with the field
    selector [text] for an object with the fields [fs]: [None] for a bad request. *)
Class FieldsLib := {
  Selector : Type;
  OneTermEqualSelector : string → string → Selector;
  OneTermNotEqualSelector : string → string → Selector;
  AndSelectors : list Selector → Selector;
  Selector_String : Selector → string;
  Requirements : Selector → list Requirement;
  served : string → Conversion → FieldSet → option bool;
  ObjectMetaFieldsSet : ObjectMeta → bool → FieldSet;
  AddObjectMetaFieldsSet : FieldSet → ObjectMeta → bool → FieldSet }.

(** Field names are of letters and points. *)
Definition field_char (c : ascii) : bool :=
  negb (char_is c "=") && negb (char_is c "!") && negb (char_is c ",").
Definition is_field (k : string) : bool := str_forall field_char k.

Class FieldsLaws `{FieldsLib} := {
  Requirements_equal k v : Requirements (OneTermEqualSelector k v) = [MkReq true k v];
  Requirements_not_equal k v : Requirements (OneTermNotEqualSelector k v) = [MkReq false k v];
  Requirements_and l : Requirements (AndSelectors l) = concat (Requirements <$> l);
  served_String s conv fs :
    Requirements s ≠ [] →
    Forall (λ r, is_field (rq_field r) = true ∧ conv (rq_field r) (rq_value r) = Some (rq_field r, rq_value r))
      (Requirements s) →
    served (Selector_String s) conv fs = Some (forallb (req_matches fs) (Requirements s));
  served_unsupported s conv fs r :
    Forall (λ r, is_field (rq_field r) = true) (Requirements s) →
    r ∈ Requirements s → conv (rq_field r) (rq_value r) = None → served (Selector_String s) conv fs = None;
  meta_name m b : ObjectMetaFieldsSet m b !! "metadata.name" = Some (Name m);
  meta_namespace m : ObjectMetaFieldsSet m true !! "metadata.namespace" = Some (Namespace m);
  meta_others m b k : k ≠ "metadata.name" → k ≠ "metadata.namespace" → ObjectMetaFieldsSet m b !! k = None;
  add_meta fs m b : AddObjectMetaFieldsSet fs m b = ObjectMetaFieldsSet m b ∪ fs }.

(** ** The text form *)

Module Text.

Definition special (c : ascii) : bool := char_is c "\" || char_is c "," || char_is c "=".

Fixpoint EscapeValue (v : string) : string :=
  match v with
  | EmptyString => EmptyString
  | String c v => if special c then String "\" (String c (EscapeValue v)) else String c (EscapeValue v)
  end.

Definition term (r : Requirement) : string :=
  rq_field r +:+ (if rq_equal r then "=" else "!=") +:+ EscapeValue (rq_value r).

(** A value up to the next comma, and what follows the comma. *)
Fixpoint read_value (s : string) : string * option string :=
  match s with
  | EmptyString => (EmptyString, None)
  | String c s =>
      if char_is c "," then (EmptyString, Some s)
      else if char_is c "\" then
        match s with
        | EmptyString => (EmptyString, None)
        | String c s => let '(v, rest) := read_value s in (String c v, rest)
        end
      else let '(v, rest) := read_value s in (String c v, rest)
  end.

(** A field, its operator and the rest. *)
Fixpoint read_field (s : string) : option (string * bool * string) :=
  match s with
  | EmptyString => None
  | String c t =>
      if char_is c "=" then Some (EmptyString, true, t)
      else if char_is c "!" then
        match t with String d t => if char_is d "=" then Some (EmptyString, false, t) else None | EmptyString => None end
      else '(k, eq, t) ← read_field t; Some (String c k, eq, t)
  end.

(** The fuel is the length of the text. *)
Fixpoint parse (fuel : nat) (s : string) : option (list Requirement) :=
  match fuel with
  | O => None
  | S fuel =>
      '(k, eq, t) ← read_field s;
      match read_value t with
      | (v, None) => Some [MkReq eq k v]
      | (v, Some t) => rs ← parse fuel t; Some (MkReq eq k v :: rs)
      end
  end.

Lemma app_cons c s t : String c s +:+ t = String c (s +:+ t).
Proof. done. Qed.

Lemma read_value_escape v rest :
  read_value (EscapeValue v +:+ match rest with Some t => "," +:+ t | None => "" end) = (v, rest).
Proof.
  induction v as [|c v IH]; [by destruct rest|]. cbn [EscapeValue]. unfold special.
  destruct (char_is c "\" || char_is c "," || char_is c "=") eqn:E.
  - rewrite !app_cons. change (read_value (String "\" (String c ?x)))
      with (let '(v, rest) := read_value x in (String c v, rest)). by rewrite IH.
  - rewrite app_cons. cbn [read_value]. apply orb_false_iff in E as [[-> ->]%orb_false_iff _]. by rewrite IH.
Qed.

Lemma read_field_app k (eq : bool) t :
  is_field k = true → read_field (k +:+ (if eq then "=" else "!=") +:+ t) = Some (k, eq, t).
Proof.
  unfold is_field. induction k as [|c k IH]; cbn [str_forall]; [by destruct eq|].
  intros [Hc Hk]%andb_true_iff. unfold field_char in Hc.
  destruct (char_is c "=") eqn:E1; [done|]. destruct (char_is c "!") eqn:E2; [done|]. clear Hc.
  rewrite app_cons. cbn. rewrite E1, E2. by rewrite (IH Hk).
Qed.

Lemma parse_terms rs fuel :
  rs ≠ [] → Forall (λ r, is_field (rq_field r) = true) rs → (length rs ≤ fuel)%nat →
  parse fuel (str_join "," (term <$> rs)) = Some rs.
Proof.
  revert fuel. induction rs as [|[eq k v] rs IH]; intros fuel Hne Hf Hl; [done|].
  apply Forall_cons in Hf as [Hk Hrs]. destruct fuel as [|fuel]; [cbn in Hl; lia|]. cbn [parse].
  assert (E : str_join "," (term <$> MkReq eq k v :: rs) =
    k +:+ (if eq then "=" else "!=") +:+ (EscapeValue v +:+
      match (match rs with [] => None | _ => Some (str_join "," (term <$> rs)) end) with Some t => "," +:+ t | None => "" end)).
  { destruct rs as [|r rs]; [by rewrite str_app_nil_r|]. rewrite !fmap_cons.
    change (str_join "," (?a :: ?b :: ?l)) with (a +:+ "," +:+ str_join "," (b :: l)).
    change (term (MkReq eq k v)) with (k +:+ (if eq then "=" else "!=") +:+ EscapeValue v). by rewrite !str_app_assoc. }
  rewrite E, read_field_app by done. cbn. rewrite read_value_escape. destruct rs as [|r rs]; [done|].
  by rewrite IH by (done || cbn in *; lia).
Qed.

(** The instance: a selector is its list of terms. *)
Definition text_served (text : string) (conv : Conversion) (fs : FieldSet) : option bool :=
  rs ← parse (S (String.length text)) text;
  rs ← mapM (λ r, '(k, v) ← conv (rq_field r) (rq_value r); Some (MkReq (rq_equal r) k v)) rs;
  Some (forallb (req_matches fs) rs).

Definition text_meta (m : ObjectMeta) (b : bool) : FieldSet :=
  <["metadata.name" := Name m]> (if b then {["metadata.namespace" := Namespace m]} else ∅).

#[export] Instance text_fields : FieldsLib := {
  Selector := list Requirement;
  OneTermEqualSelector k v := [MkReq true k v];
  OneTermNotEqualSelector k v := [MkReq false k v];
  AndSelectors l := concat l;
  Selector_String rs := str_join "," (term <$> rs);
  Requirements rs := rs;
  served := text_served;
  ObjectMetaFieldsSet := text_meta;
  AddObjectMetaFieldsSet fs m b := text_meta m b ∪ fs }.

Lemma length_append (s t : string) : String.length (s +:+ t) = (String.length s + String.length t)%nat.
Proof. induction s as [|c s IH]; [done|]. rewrite app_cons. cbn. by rewrite IH. Qed.

Lemma join_length (rs : list Requirement) : (length rs ≤ S (String.length (str_join "," (term <$> rs))))%nat.
Proof.
  assert (Ht : ∀ r, (1 ≤ String.length (term r))%nat).
  { intros [eq k v]. unfold term. cbn. rewrite !length_append. destruct eq; cbn; lia. }
  assert (H : ∀ r rs, (length (r :: rs) ≤ String.length (str_join "," (term <$> r :: rs)))%nat).
  { intros r rs'. revert r. induction rs' as [|r' rs' IH]; intros r; [apply Ht|]. rewrite !fmap_cons.
    change (str_join "," (?a :: ?b :: ?l)) with (a +:+ "," +:+ str_join "," (b :: l)).
    rewrite !length_append. specialize (IH r'). rewrite fmap_cons in IH. specialize (Ht r). cbn in *. lia. }
  destruct rs as [|r rs]; [cbn; lia|]. specialize (H r rs). lia.
Qed.

Lemma parse_String rs :
  rs ≠ [] → Forall (λ r, is_field (rq_field r) = true) rs →
  parse (S (String.length (str_join "," (term <$> rs)))) (str_join "," (term <$> rs)) = Some rs.
Proof. intros Hne Hf. apply parse_terms; [done|done|apply join_length]. Qed.

#[export] Instance text_laws : FieldsLaws.
Proof.
  constructor; try done.
  - intros l. cbn. by rewrite list_fmap_id.
  - intros rs conv fs Hne [Hf Hc]%Forall_and.
    change (text_served (str_join "," (term <$> rs)) conv fs = Some (forallb (req_matches fs) rs)).
    unfold text_served. rewrite parse_String by done. cbn [mbind option_bind].
    rewrite (proj2 (mapM_Some _ _ rs)); [done|]. apply Forall_Forall2_diag. eapply Forall_impl; [exact Hc|].
    intros [eq k v] E. cbn in *. by rewrite E.
  - intros rs conv fs r Hf Hr E. change (text_served (str_join "," (term <$> rs)) conv fs = None).
    unfold text_served. rewrite parse_String; [cbn [mbind option_bind]| |done]; [|intros ->; by apply elem_of_nil in Hr].
    rewrite (proj2 (mapM_None _ _)); [done|]. apply Exists_exists. exists r. by rewrite E.
  - intros m b. apply lookup_insert_eq.
  - intros m b k H1 H2. change (text_meta m b !! k = None). unfold text_meta. rewrite lookup_insert_ne by done.
    destruct b; [by rewrite lookup_singleton_ne|done].
Qed.
End Text.
End FieldSelect.
