(* ===== verification/Registry.v ===== *)
(** * The registry of the API server: [pkg/registry]

    What the storage of the three kinds of objects is configured with: their strategies,
    the attributes that requests can select by, and the field labels that version
    [v1alpha1] of the API accepts.  The storage itself is a library. *)

From S2P Require Import Prelude GoStr GoNet ApiTypes FieldSelect SubnetStrategy.
Import FieldSelect.

(** ** Strategies *)

(** [runtime.Object], as far as the strategies tell its kinds apart. *)
Inductive RuntimeObject :=
| ObjAttachment (a : NetworkAttachment) | ObjSubnet (s : Subnet) | ObjIPLock (l : IPLock) | ObjOther.

(** The interfaces [rest.RESTCreateStrategy] and [rest.RESTUpdateStrategy]. *)
Record Strategy (Obj : Type) := MkStrategy {
  NamespaceScoped : bool;
  prepareForCreate : Obj → Obj;
  PrepareForUpdate : Obj → Obj → Obj;
  validate : Obj → res (list field_error);
  AllowCreateOnUpdate : bool;
  AllowUnconditionalUpdate : bool;
  Canonicalize : Obj → Obj;
  validateUpdate : Obj → Obj → res (list field_error) }.
Arguments MkStrategy {Obj}.

Definition networkattachmentStrategy : Strategy NetworkAttachment :=
  MkStrategy true id (λ obj _, obj) (λ _, Ok []) false false id (λ _ _, Ok []).

Definition iplockStrategy : Strategy IPLock :=
  MkStrategy true id (λ obj _, obj) (λ _, Ok []) false false id (λ _ _, Ok []).

Definition subnetStrategy (lister : option (list Subnet)) : Strategy Subnet :=
  MkStrategy true PrepareForCreate (λ obj _, obj) (Validate lister) false false id (ValidateUpdate lister).

(** ** Attributes *)

Section Attrs.
Context `{FieldsLib} {LabelSelector : Type}.

(** Labels, fields, and whether there are initializers. *)
Definition Attrs : Type := gmap string string * FieldSet * bool.

(** [storage.SelectionPredicate]. *)
Record SelectionPredicate := MkPredicate {
  sp_Label : LabelSelector; sp_Field : Selector; sp_GetAttrs : RuntimeObject → error + Attrs }.

Definition attrs (m : ObjectMeta) (fs : FieldSet) : Attrs := (Labels m, fs, Initializers m).

Definition attachment_SelectableFields (obj : NetworkAttachment) : FieldSet :=
  AddObjectMetaFieldsSet
    {["spec.node" := Node (na_Spec obj);
      "spec.subnet" := SubnetOf (na_Spec obj);
      "status.ipv4" := StatusIPv4 (na_Status obj);
      "status.hostIP" := HostIP (na_Status obj);
      "status.addressVNI" := FormatUint (AddressVNI (na_Status obj)) 10]}
    (na_meta obj) true.

Definition attachment_GetAttrs (obj : RuntimeObject) : error + Attrs :=
  match obj with
  | ObjAttachment a => inr (attrs (na_meta a) (attachment_SelectableFields a))
  | _ => inl (Errorf "given object is not a NetworkAttachment")
  end.

Definition MatchNetworkAttachment (label : LabelSelector) (field : Selector) : SelectionPredicate :=
  MkPredicate label field attachment_GetAttrs.

Definition iplock_SelectableFields (obj : IPLock) : FieldSet := ObjectMetaFieldsSet (ipl_meta obj) true.

Definition iplock_GetAttrs (obj : RuntimeObject) : error + Attrs :=
  match obj with
  | ObjIPLock l => inr (attrs (ipl_meta l) (iplock_SelectableFields l))
  | _ => inl (Errorf "given object is not a IPLock")
  end.

Definition MatchIPLock (label : LabelSelector) (field : Selector) : SelectionPredicate :=
  MkPredicate label field iplock_GetAttrs.

Definition subnet_SelectableFields (obj : Subnet) : FieldSet := ObjectMetaFieldsSet (sn_meta obj) true.

Definition subnet_GetAttrs (obj : RuntimeObject) : error + Attrs :=
  match obj with
  | ObjSubnet s => inr (attrs (sn_meta s) (subnet_SelectableFields s))
  | _ => inl (Errorf "given object is not a Subnet")
  end.

Definition MatchSubnet (label : LabelSelector) (field : Selector) : SelectionPredicate :=
  MkPredicate label field subnet_GetAttrs.
End Attrs.

(** ** Field labels *)

Definition convertNetworkAttachmentFields (label value : string) : option (string * string) :=
  if bool_decide (label ∈ ["metadata.name"; "metadata.namespace"; "spec.node"; "spec.subnet"; "status.ipv4";
                           "status.hostIP"; "status.addressVNI"])
  then Some (label, value) else None.

(** The value of each field of an attachment that a request can select by. *)
Definition field_of (a : NetworkAttachment) : list (string * string) :=
  [("metadata.name", Name (na_meta a)); ("metadata.namespace", Namespace (na_meta a));
   ("spec.node", Node (na_Spec a)); ("spec.subnet", SubnetOf (na_Spec a));
   ("status.ipv4", StatusIPv4 (na_Status a)); ("status.hostIP", HostIP (na_Status a));
   ("status.addressVNI", FormatUint (AddressVNI (na_Status a)) 10)].

Section Fields.
Context `{FieldsLaws}.

(** The labels that the API accepts are those that the storage can select by, each with
    the value of its field. *)
Lemma selectable_fields a k v :
  (k, v) ∈ field_of a → attachment_SelectableFields a !! k = Some v ∧ convertNetworkAttachmentFields k "" = Some (k, "").
Proof.
  unfold attachment_SelectableFields. rewrite add_meta. intros Hk. split.
  - repeat (apply elem_of_cons in Hk as [[= -> ->]|Hk]; [|try by apply elem_of_nil in Hk]).
    + apply lookup_union_Some_l, meta_name.
    + apply lookup_union_Some_l, meta_namespace.
    + by rewrite lookup_union_r by by apply meta_others.
    + by rewrite lookup_union_r by by apply meta_others.
    + by rewrite lookup_union_r by by apply meta_others.
    + by rewrite lookup_union_r by by apply meta_others.
    + by rewrite lookup_union_r by by apply meta_others.
  - unfold convertNetworkAttachmentFields. rewrite bool_decide_eq_true_2; [done|].
    by apply (list_elem_of_fmap_2 fst) in Hk.
Qed.
End Fields.
