(* ===== verification/Informers.v ===== *)
(** * Processes and their informers

    The factories of shared informers ([pkg/client/informers/externalversions] and
    [internalversion], the same code for two clients) and what the processes of KOS do
    with informers: each call on the informer library, in order.  The library itself is
    not modelled: what is shown is that the processes call it the way it must be called. *)

From S2P Require Import Prelude.

Module Informers.

Inductive Kind := Subnets | NetworkAttachments | IPLocks.

#[export] Instance Kind_eq_dec : EqDecision Kind.
Proof. solve_decision. Defined.
#[export] Instance Kind_countable : Countable Kind.
Proof.
  refine (inj_countable' (λ k, match k with Subnets => 0 | NetworkAttachments => 1 | IPLocks => 2 end)%nat
    (λ n, match n with 0 => Subnets | 1 => NetworkAttachments | _ => IPLocks end)%nat _).
  by intros [].
Defined.

(** A [TweakListOptionsFunc], as far as the processes use it: it maps the field selector
    of a request to another; a nil one changes nothing. *)
Definition Tweak : Type := string → string.

(** What [NewFilteredXInformer] makes an informer from. *)
Record Informer := MkInformer {
  inf_kind : Kind; inf_namespace : string; inf_tweak : Tweak; inf_resync : Z }.

(** The field selector of its requests, which come without one. *)
Definition request (i : Informer) : string := inf_tweak i "".

(** Informers are shared, so they have an identity: their position among those that the
    process made.  [WaitForCacheSync] answers whether the caches have synced before the
    stop channel closed. *)
Inductive Call :=
| AddIndexers (i : nat) (names : list string)
| AddEventHandler (i : nat)
| GoRun (i : nat)
| WaitForCacheSync (caches : list nat)
| GoWorker.

#[export] Instance Call_eq_dec : EqDecision Call.
Proof. solve_decision. Defined.

(** [sharedInformerFactory]. *)
Record Factory := MkFactory {
  f_namespace : string; f_tweak : Tweak; defaultResync : Z; customResync : gmap Kind Z;
  informers : gmap Kind nat; startedInformers : gset Kind }.

Record State := MkState { made : list Informer; factories : list Factory; calls : list Call }.

Definition init : State := MkState [] [] [].

Definition call (c : Call) : M State unit :=
  modify (λ s, MkState (made s) (factories s) (calls s ++ [c])).

Definition factory (f : nat) : M State Factory :=
  s ← get;
  match factories s !! f with Some x => mret x | None => panic "nil factory" end.

Definition set_factory (f : nat) (x : Factory) : M State unit :=
  modify (λ s, MkState (made s) (<[f := x]> (factories s)) (calls s)).

(** The [newFunc] of [InformerFor]: a new informer. *)
Definition make (i : Informer) : M State nat :=
  s ← get;
  put (MkState (made s ++ [i]) (factories s) (calls s));; mret (length (made s)).

(** ** factory.go *)

Definition NamespaceAll : string := "".

Definition WithCustomResyncConfig (resyncConfig : list (Kind * Z)) (x : Factory) : Factory :=
  MkFactory (f_namespace x) (f_tweak x) (defaultResync x)
    (foldl (λ m kv, <[kv.1 := kv.2]> m) (customResync x) resyncConfig) (informers x) (startedInformers x).
Definition WithTweakListOptions (tweak : Tweak) (x : Factory) : Factory :=
  MkFactory (f_namespace x) tweak (defaultResync x) (customResync x) (informers x) (startedInformers x).
Definition WithNamespace (ns : string) (x : Factory) : Factory :=
  MkFactory ns (f_tweak x) (defaultResync x) (customResync x) (informers x) (startedInformers x).

Definition NewSharedInformerFactoryWithOptions (resync : Z) (options : list (Factory → Factory)) : M State nat :=
  s ← get;
  let x := foldl (λ x opt, opt x) (MkFactory NamespaceAll id resync ∅ ∅ ∅) options in
  put (MkState (made s) (factories s ++ [x]) (calls s));; mret (length (factories s)).

Definition NewSharedInformerFactory (resync : Z) : M State nat := NewSharedInformerFactoryWithOptions resync [].

Definition NewFilteredSharedInformerFactory (resync : Z) (ns : string) (tweak : Tweak) : M State nat :=
  NewSharedInformerFactoryWithOptions resync [WithNamespace ns; WithTweakListOptions tweak].

Definition InformerFor (f : nat) (k : Kind) (newFunc : Z → Informer) : M State nat :=
  x ← factory f;
  match informers x !! k with
  | Some i => mret i
  | None =>
      let resyncPeriod := default (defaultResync x) (customResync x !! k) in
      i ← make (newFunc resyncPeriod);
      set_factory f (MkFactory (f_namespace x) (f_tweak x) (defaultResync x) (customResync x)
        (<[k := i]> (informers x)) (startedInformers x));;
      mret i
  end.

(** The loop of [Start] goes over a map, in an order that Go leaves open; [todo] is one. *)
Fixpoint start_informers (f : nat) (todo : list (Kind * nat)) : M State unit :=
  match todo with
  | [] => mret tt
  | (k, i) :: todo =>
      x ← factory f;
      (if bool_decide (k ∈ startedInformers x) then mret tt
       else
         call (GoRun i);;
         set_factory f (MkFactory (f_namespace x) (f_tweak x) (defaultResync x) (customResync x)
           (informers x) ({[k]} ∪ startedInformers x)));;
      start_informers f todo
  end.

Definition Start (f : nat) : M State unit :=
  x ← factory f; start_informers f (map_to_list (informers x)).

(** ** network/interface.go, network/v1alpha1 *)

(** [subnetInformer], [networkAttachmentInformer], [iPLockInformer]: no informer yet, only
    the way to one. *)
Record Accessor := MkAccessor {
  acc_factory : nat; acc_kind : Kind; acc_namespace : string; acc_tweak : Tweak }.

(** [f.Network().V1alpha1()] and one of its methods. *)
Definition Network (f : nat) (k : Kind) : M State Accessor :=
  x ← factory f; mret (MkAccessor f k (f_namespace x) (f_tweak x)).

Definition defaultInformer (a : Accessor) (resyncPeriod : Z) : Informer :=
  MkInformer (acc_kind a) (acc_namespace a) (acc_tweak a) resyncPeriod.

Definition Informer_ (a : Accessor) : M State nat := InformerFor (acc_factory a) (acc_kind a) (defaultInformer a).

(** A lister reads the store of the informer. *)
Definition Lister (a : Accessor) : M State nat := Informer_ a.

(** ** How the library must be called *)

(** A call that leaves informer [i] alone: it does not configure it and does not run it. *)
Definition untouched (i : nat) (c : Call) : bool :=
  match c with
  | AddIndexers j _ | AddEventHandler j | GoRun j => negb (j =? i)%nat
  | WaitForCacheSync _ | GoWorker => true
  end.

(** Informer [i] is run exactly once, and gets no indexer (which the library refuses to a
    running informer) and no handler afterwards. *)
Fixpoint wired (i : nat) (cs : list Call) : bool :=
  match cs with
  | [] => false
  | GoRun j :: cs => if (j =? i)%nat then forallb (untouched i) cs else wired i cs
  | _ :: cs => wired i cs
  end.

(** Workers start only after the caches of these informers have synced. *)
Fixpoint waits_for (ids : list nat) (cs : list Call) : bool :=
  match cs with
  | [] => true
  | GoWorker :: _ => false
  | WaitForCacheSync js :: cs => forallb (λ i, bool_decide (i ∈ js)) ids || waits_for ids cs
  | _ :: cs => waits_for ids cs
  end.

Lemma wired_snoc i cs cs' : wired i cs = true → forallb (untouched i) cs' = true → wired i (cs ++ cs') = true.
Proof.
  intros Hw Hu. induction cs as [|c cs IH]; [done|]. simpl in *.
  destruct c as [j| j| j| |]; auto. destruct (j =? i)%nat; [|auto]. by rewrite forallb_app, Hw, Hu.
Qed.

Lemma wired_fresh i cs cs' : forallb (untouched i) cs = true → wired i cs' = true → wired i (cs ++ cs') = true.
Proof.
  intros Hu Hw. induction cs as [|c cs IH]; [done|]. simpl in *. apply andb_true_iff in Hu as [Hc Hu].
  destruct c as [j| j| j| |]; auto. simpl in Hc. destruct (j =? i)%nat; [done|auto].
Qed.

(** Informer [i] caches all objects of kind [k]. *)
Definition caches (s : State) (i : nat) (k : Kind) : Prop :=
  ∃ inf, made s !! i = Some inf ∧ inf_kind inf = k ∧ inf_namespace inf = NamespaceAll ∧ request inf = "".

(** ** The factory *)

(** How often an informer is run. *)
Definition runs_of (i : nat) (cs : list Call) : nat := length (filter (GoRun i =.) cs).

Lemma runs_of_app i cs cs' : runs_of i (cs ++ cs') = (runs_of i cs + runs_of i cs')%nat.
Proof. unfold runs_of. by rewrite filter_app, length_app. Qed.

Lemma runs_of_run i j : runs_of i [GoRun j] = (if decide (i = j) then 1 else 0)%nat.
Proof. unfold runs_of. rewrite filter_cons. repeat case_decide; simplify_eq/=; done. Qed.

(** The informers of the factories are different ones, of the kind they are for, and each
    has been run once if its factory has noted that, and not at all otherwise. *)
Record factories_ok (s : State) : Prop := {
  fo_made f x k i : factories s !! f = Some x → informers x !! k = Some i →
    ∃ inf, made s !! i = Some inf ∧ inf_kind inf = k;
  fo_own f x k f' x' k' i : factories s !! f = Some x → informers x !! k = Some i →
    factories s !! f' = Some x' → informers x' !! k' = Some i → f = f' ∧ k = k';
  fo_started f x k : factories s !! f = Some x → k ∈ startedInformers x → is_Some (informers x !! k);
  fo_runs f x k i : factories s !! f = Some x → informers x !! k = Some i →
    runs_of i (calls s) = (if decide (k ∈ startedInformers x) then 1 else 0)%nat;
  fo_none i : (length (made s) ≤ i)%nat → runs_of i (calls s) = 0%nat }.

Lemma factory_runs f x s (Q : Factory → State → Prop) :
  factories s !! f = Some x → Q x s → runs (factory f) s Q.
Proof. intros E HQ. unfold factory. do 2 mstep. rewrite E. by mstep. Qed.

Lemma init_ok : factories_ok init.
Proof. split; intros; by rewrite ?lookup_nil in *. Qed.

(** A new factory, with options that leave its maps alone. *)
Lemma new_factory_ok resync options s :
  Forall (λ opt : Factory → Factory, ∀ x, informers (opt x) = informers x ∧
    startedInformers (opt x) = startedInformers x) options →
  factories_ok s → runs (NewSharedInformerFactoryWithOptions resync options) s (λ f s',
    factories_ok s' ∧ f = length (factories s) ∧ length (factories s') = S f ∧ calls s' = calls s ∧ made s' = made s).
Proof.
  intros Ho [H1 H2 H3 H4 H5]. unfold NewSharedInformerFactoryWithOptions. repeat mstep.
  set (x0 := MkFactory _ _ _ _ _ _).
  assert (Hx : ∀ x, informers x = ∅ → startedInformers x = ∅ →
    informers (foldl (λ x opt, opt x) x options) = ∅ ∧ startedInformers (foldl (λ x opt, opt x) x options) = ∅).
  { induction Ho as [|opt options Hopt _ IH]; intros x E1 E2; [done|]. simpl. destruct (Hopt x). apply IH; congruence. }
  destruct (Hx x0 eq_refl eq_refl) as [Ei Es]. set (x := foldl _ _ _) in *.
  assert (Hl : ∀ f y k i, (factories s ++ [x]) !! f = Some y → informers y !! k = Some i → factories s !! f = Some y).
  { intros f y k i [Hf|[_ Hf]]%lookup_app_Some Hi; [done|]. apply list_lookup_singleton_Some in Hf as [_ <-].
    by rewrite Ei in Hi. }
  split; [|rewrite length_app; simpl; split_and!; [done|lia|done|done]].
  split; simpl; [eauto..| |eauto|done].
  intros f y k [Hf|[_ Hf]]%lookup_app_Some Hk; [eauto|]. apply list_lookup_singleton_Some in Hf as [_ <-]. set_solver.
Qed.

Lemma lookup_set f x' (fs : list Factory) g y :
  <[f := x']> fs !! g = Some y → (g = f ∧ y = x') ∨ (g ≠ f ∧ fs !! g = Some y).
Proof. intros [(-> & -> & _)|[Hne Hy]]%list_lookup_insert_Some; [by left|right]. by split. Qed.

(** Asking for an informer makes one at most, and starts none. *)
Lemma InformerFor_ok f k newFunc s :
  (f < length (factories s))%nat → (∀ r, inf_kind (newFunc r) = k) →
  factories_ok s → runs (InformerFor f k newFunc) s (λ i s',
    factories_ok s' ∧ length (factories s') = length (factories s) ∧ calls s' = calls s ∧
    ∃ x, factories s' !! f = Some x ∧ informers x !! k = Some i).
Proof.
  intros [x Hx]%lookup_lt_is_Some Hk Hok. pose proof Hok as [H1 H2 H3 H4 H5].
  unfold InformerFor. mstep. apply (factory_runs _ x); [done|].
  destruct (informers x !! k) as [i|] eqn:Ei; [mstep; by eauto 10|].
  unfold make, set_factory. repeat mstep. set (i := length (made s)).
  set (x' := MkFactory _ _ _ _ _ _).
  assert (Hlt : ∀ g y k' j, factories s !! g = Some y → informers y !! k' = Some j → (j < i)%nat).
  { intros g y k' j Hy Hj. destruct (H1 _ _ _ _ Hy Hj) as (inf & Hi & _). by eapply lookup_lt_Some. }
  (* an informer of the new factories is the new one or an old one *)
  assert (Hl : ∀ g y k' j, <[f := x']> (factories s) !! g = Some y → informers y !! k' = Some j →
    (g = f ∧ k' = k ∧ j = i ∧ y = x') ∨
    ((j < i)%nat ∧ ∃ y0, factories s !! g = Some y0 ∧ informers y0 !! k' = Some j ∧
      startedInformers y = startedInformers y0)).
  { intros g y k' j [[-> ->]|[Hne Hy]]%lookup_set Hj.
    - simpl in Hj. apply lookup_insert_Some in Hj as [[<- <-]|[Hne Hj]]; [by left|right]. split; [by eapply Hlt|by exists x].
    - right. split; [by eapply Hlt|by exists y]. }
  split; [|rewrite length_insert; split_and!; [done|done|]].
  2: { exists x'. rewrite list_lookup_insert_eq by by eapply lookup_lt_Some. split; [done|]. apply lookup_insert_eq. }
  split; simpl.
  - intros g y k' j Hy Hj. destruct (Hl _ _ _ _ Hy Hj) as [(_ & -> & -> & _)|(_ & y0 & Hy0 & Hj0 & _)].
    + eexists. split; [apply lookup_app_length|]. apply Hk.
    + destruct (H1 _ _ _ _ Hy0 Hj0) as (inf & Hi & E). exists inf. split; [by apply lookup_app_l_Some|done].
  - intros g y k' g2 y2 k2 j Hy Hj Hy2 Hj2.
    destruct (Hl _ _ _ _ Hy Hj) as [(-> & -> & -> & _)|(Hj' & y0 & Hy0 & Hj0 & _)],
      (Hl _ _ _ _ Hy2 Hj2) as [(-> & -> & E & _)|(Hj2' & y20 & Hy20 & Hj20 & _)]; [done|lia|lia|by eapply H2].
  - intros g y k' [[-> ->]|[_ Hy]]%lookup_set Hs; [|by eauto]. simpl in *.
    apply lookup_insert_is_Some'. right. by eapply H3.
  - intros g y k' j Hy Hj. destruct (Hl _ _ _ _ Hy Hj) as [(_ & -> & -> & ->)|(_ & y0 & Hy0 & Hj0 & ->)].
    + rewrite decide_False; [by apply H5|]. simpl. intros Hs. destruct (H3 _ _ _ Hx Hs) as [? E]. by rewrite Ei in E.
    + by eapply H4.
  - intros j Hj. apply H5. rewrite length_app in Hj. lia.
Qed.

Lemma start_one_ok f x k i s :
  factories s !! f = Some x → informers x !! k = Some i → k ∉ startedInformers x → factories_ok s →
  factories_ok (MkState (made s)
    (<[f := MkFactory (f_namespace x) (f_tweak x) (defaultResync x) (customResync x) (informers x)
              ({[k]} ∪ startedInformers x)]> (factories s)) (calls s ++ [GoRun i])).
Proof.
  intros Hx Hi Hk [H1 H2 H3 H4 H5]. set (x' := MkFactory _ _ _ _ _ _).
  assert (Hl : ∀ g y, <[f := x']> (factories s) !! g = Some y →
    ∃ y0, factories s !! g = Some y0 ∧ informers y = informers y0 ∧ (g = f → y0 = x ∧ y = x') ∧ (g ≠ f → y = y0)).
  { intros g y [[-> ->]|[Hne Hy]]%lookup_set; [exists x|exists y]; naive_solver. }
  split; simpl.
  - intros g y k' j (y0 & Hy0 & -> & _)%Hl. by eapply H1.
  - intros g y k' g2 y2 k2 j (y0 & Hy0 & -> & _)%Hl Hj (y20 & Hy20 & -> & _)%Hl Hj2. by eapply H2.
  - intros g y k' (y0 & Hy0 & Ey & Ef & Eg)%Hl Hs. rewrite Ey. destruct (decide (g = f)) as [->|Hne].
    + destruct (Ef eq_refl) as [-> ->]. simpl in Hs.
      apply elem_of_union in Hs as [->%elem_of_singleton|Hs]; [by eexists|by eapply H3].
    + rewrite (Eg Hne) in Hs. by eapply H3.
  - intros g y k' j (y0 & Hy0 & Ey & Ef & Eg)%Hl Hj. rewrite Ey in Hj. rewrite runs_of_app, runs_of_run.
    rewrite (H4 _ _ _ _ Hy0 Hj). destruct (decide (g = f)) as [->|Hne].
    + destruct (Ef eq_refl) as [-> ->]. simpl. destruct (decide (j = i)) as [->|Hne].
      * destruct (H2 _ _ _ _ _ _ _ Hx Hi Hx Hj) as [_ <-]. rewrite decide_False by done.
        rewrite decide_True by set_solver. done.
      * rewrite Nat.add_0_r. apply decide_ext. assert (k' ≠ k) by congruence. set_solver.
    + rewrite (Eg Hne), (decide_False (P := j = i)); [lia|]. intros ->. by destruct (H2 _ _ _ _ _ _ _ Hx Hi Hy0 Hj) as [-> _].
  - intros j Hj. rewrite runs_of_app, runs_of_run, H5 by done. rewrite decide_False; [done|]. intros ->.
    destruct (H1 _ _ _ _ Hx Hi) as (inf & E & _). apply lookup_lt_Some in E. lia.
Qed.

Lemma start_informers_ok f todo x s :
  factories s !! f = Some x → (∀ k i, (k, i) ∈ todo → informers x !! k = Some i) → factories_ok s →
  runs (start_informers f todo) s (λ _ s', factories_ok s' ∧ length (factories s') = length (factories s) ∧
    ∃ x', factories s' !! f = Some x' ∧ informers x' = informers x ∧ startedInformers x ⊆ startedInformers x' ∧
      ∀ k, k ∈ todo.*1 → k ∈ startedInformers x').
Proof.
  revert x s. induction todo as [|[k i] todo IH]; intros x s Hx Ht Hok.
  { simpl. mstep. split_and!; [done..|]. exists x. split_and!; [done..|]. by intros k ?%elem_of_nil. }
  simpl. mstep. apply (factory_runs _ x); [done|].
  assert (Hi : informers x !! k = Some i) by by apply Ht; left.
  assert (Ht' : ∀ k0 i0, (k0, i0) ∈ todo → informers x !! k0 = Some i0) by by intros; apply Ht; right.
  case_bool_decide as Hk.
  - mstep. mstep. eapply runs_conseq; [by apply (IH x)|]. intros _ s' (Hok' & Hlen & x' & E & Ei & Es & Hall).
    split_and!; [done..|]. exists x'. split_and!; [done..|]. intros k' [->|Hk']%elem_of_cons; auto.
  - mstep. unfold call, set_factory. mstep. mstep. mstep.
    pose proof (start_one_ok f x k i s Hx Hi Hk Hok) as Hok1. set (x1 := MkFactory _ _ _ _ _ _) in *.
    assert (Hx1 : <[f := x1]> (factories s) !! f = Some x1)
      by by apply list_lookup_insert_eq; eapply lookup_lt_Some.
    eapply runs_conseq; [by apply (IH x1)|]. intros _ s' (Hok' & Hlen & x' & E & Ei & Es & Hall). simpl in *.
    rewrite length_insert in Hlen. split_and!; [done..|]. exists x'. split_and!; [done|done|set_solver|].
    intros k' [->|Hk']%elem_of_cons; set_solver.
Qed.

(** [Start] has every requested informer running. *)
Lemma Start_ok f s :
  (f < length (factories s))%nat → factories_ok s →
  runs (Start f) s (λ _ s', factories_ok s' ∧ length (factories s') = length (factories s) ∧
    ∃ x, factories s' !! f = Some x ∧ ∀ k, is_Some (informers x !! k) → k ∈ startedInformers x).
Proof.
  intros [x Hx]%lookup_lt_is_Some Hok. unfold Start. mstep. apply (factory_runs _ x); [done|].
  eapply runs_conseq; [apply (start_informers_ok _ _ x); [done| |done]|].
  { by intros k i ?%elem_of_map_to_list. }
  intros _ s' (Hok' & Hlen & x' & E & Ei & _ & Hall). split_and!; [done..|]. exists x'. split; [done|].
  intros k [i Hi]. apply Hall. rewrite Ei in Hi. by apply (list_elem_of_fmap_2 fst _ (k, i)), elem_of_map_to_list.
Qed.

(** What a program can do with factories. *)
Inductive Op := OpNew (resync : Z) (ns : string) (tweak : Tweak) | OpInformer (f : nat) (k : Kind) | OpStart (f : nat).

Definition do_op (op : Op) : M State unit :=
  match op with
  | OpNew resync ns tweak => NewFilteredSharedInformerFactory resync ns tweak;; mret tt
  | OpInformer f k => a ← Network f k; Informer_ a;; mret tt
  | OpStart f => Start f
  end.

Fixpoint do_ops (ops : list Op) : M State unit :=
  match ops with [] => mret tt | op :: ops => do_op op;; do_ops ops end.

(** The operations are on factories that exist, when there are [n] to begin with. *)
Fixpoint on_factories (n : nat) (ops : list Op) : bool :=
  match ops with
  | [] => true
  | OpNew _ _ _ :: ops => on_factories (S n) ops
  | OpInformer f _ :: ops | OpStart f :: ops => (f <? n)%nat && on_factories n ops
  end.

Lemma do_ops_ok ops s :
  on_factories (length (factories s)) ops = true → factories_ok s →
  runs (do_ops ops) s (λ _ s', factories_ok s').
Proof.
  revert s. induction ops as [|op ops IH]; intros s Hv Hok; [by simpl; mstep|]. simpl. mstep.
  destruct op as [resync ns tweak|f k|f]; simpl in Hv |- *.
  - mstep. eapply runs_conseq; [apply new_factory_ok; [repeat constructor|done]|].
    intros f s' (Hok' & -> & Hl & _). mstep. apply IH; [by rewrite Hl|done].
  - apply andb_true_iff in Hv as [Hf%Nat.ltb_lt Hv]. mstep. destruct (lookup_lt_is_Some_2 _ _ Hf) as [x Hx].
    unfold Network. mstep. apply (factory_runs _ x); [done|]. mstep. unfold Informer_. mstep.
    eapply runs_conseq; [by apply InformerFor_ok|]. intros i s' (Hok' & Hl & _). mstep. apply IH; [by rewrite Hl|done].
  - apply andb_true_iff in Hv as [Hf%Nat.ltb_lt Hv]. eapply runs_conseq; [by apply Start_ok|].
    intros _ s' (Hok' & Hl & _). apply IH; [by rewrite Hl|done].
Qed.

(** Whatever a program asks of its factories and in whatever order it starts them, the
    informers of different kinds and factories are different, each is run once if its kind
    was started and not at all otherwise; starting a factory, again or for the first time,
    has each of its informers run exactly once. *)
Lemma informers_start_once ops :
  on_factories 0 ops = true →
  runs (do_ops ops) init (λ _ s,
    (∀ f x k i, factories s !! f = Some x → informers x !! k = Some i →
       (∃ inf, made s !! i = Some inf ∧ inf_kind inf = k) ∧
       (∀ f' x' k', factories s !! f' = Some x' → informers x' !! k' = Some i → f' = f ∧ k' = k) ∧
       runs_of i (calls s) = (if decide (k ∈ startedInformers x) then 1 else 0)%nat) ∧
    ∀ f, (f < length (factories s))%nat → runs (Start f) s (λ _ s',
      ∀ x k i, factories s' !! f = Some x → informers x !! k = Some i → runs_of i (calls s') = 1%nat)).
Proof.
  intros Hv. eapply runs_conseq; [apply do_ops_ok; [done|apply init_ok]|].
  intros [] s Hok. simpl in Hok. split.
  - intros f x k i Hx Hi. split; [by eapply (fo_made s Hok)|]. split; [|by eapply (fo_runs s Hok)].
    intros f' x' k' Hx' Hi'. by eapply (fo_own s Hok).
  - intros f Hf. eapply runs_conseq; [by apply Start_ok|]. intros [] s' (Hok' & _ & x & Hx & Hall) x' k i Hx' Hi.
    simplify_eq. rewrite (fo_runs s' Hok' _ _ _ _ Hx Hi), decide_True; [done|]. apply Hall. by eexists.
Qed.

Definition two_factories : list Op :=
  [OpNew 0 "" id; OpInformer 0 Subnets; OpNew 0 "ns" id; OpStart 0; OpInformer 0 IPLocks; OpInformer 1 Subnets;
   OpInformer 0 Subnets; OpStart 0].

Lemma informers_start_once_witness :
  runs (do_ops two_factories) init (λ _ s, calls s = [GoRun 0; GoRun 1] ∧
    ∀ f, (f < length (factories s))%nat → runs (Start f) s (λ _ s',
      ∀ x k i, factories s' !! f = Some x → informers x !! k = Some i → runs_of i (calls s') = 1%nat)).
Proof.
  refine (runs_conseq _ _ _ _ (runs_and _ _ _ _ _ (informers_start_once two_factories eq_refl))
    (λ _ s H, conj (proj1 H) (proj2 (proj2 H)))).
  vm_compute. reflexivity.
Defined.

End Informers.
