(* ===== verification/ApiJson.v ===== *)
(** * The API objects on the wire

    How the types of [pkg/apis/network/v1alpha1/types.go] are written as JSON and read back, by
    the tags of their fields; an object is written with its [TypeMeta]. *)

From S2P Require Import Prelude GoJson ApiTypes.
Import GoJson.

(** The metadata types of [metav1], a library. *)
Record TypeMeta := MkTypeMeta { Kind : string; APIVersion : string }.

Class MetaJson := {
  Time_codec :: Codec Time;
  ObjectMeta_codec :: Codec ObjectMeta;
  ListMeta : Type;
  ListMeta_codec :: Codec ListMeta;
  list_meta_fits : ListMeta → Prop
}.

(** Texts of UTF-8. *)
Definition texts : list string → Prop := Forall (λ s, valid s = true).
Definition owner_fits (o : OwnerReference) : Prop := texts [or_APIVersion o; or_Kind o; or_Name o; or_UID o].
Definition meta_fits (m : ObjectMeta) : Prop :=
  0 ≤ CreationTimestamp m ∧ texts [Namespace m; Name m; UID m; ResourceVersion m] ∧
  Forall owner_fits (OwnerReferences m) ∧ map_Forall (λ k v, valid k = true ∧ valid v = true) (Labels m).

(** Times travel in whole seconds; a zero time is null; these types are structs. *)
Definition stored_meta (m : ObjectMeta) : ObjectMeta :=
  MkMeta (Namespace m) (Name m) (UID m) (ResourceVersion m) (Truncate (CreationTimestamp m) second)
    (OwnerReferences m) (Labels m) (Initializers m).

Class MetaJsonLaws `{MetaJson} := {
  Time_travels : travels (λ t : Time, 0 ≤ t) (λ t, Truncate t second);
  Time_null : enc (0 : Time) = JNull;
  Time_string t : 0 < t → ∃ s, enc (t : Time) = JStr s;
  ObjectMeta_travels : travels meta_fits stored_meta;
  ListMeta_travels : travels list_meta_fits id;
  Time_kept (t : Time) : empty t = false;
  ObjectMeta_kept (m : ObjectMeta) : empty m = false;
  ListMeta_kept (m : ListMeta) : empty m = false
}.

Definition typemeta_fields : list (Field TypeMeta) := [
  field "kind" true Kind (λ v x, MkTypeMeta v (APIVersion x));
  field "apiVersion" true APIVersion (λ v x, MkTypeMeta (Kind x) v)].

(** The embedded [TypeMeta] of an object. *)
Definition inline {A} : list (Field (TypeMeta * A)) := promoted fst (λ t x, (t, x.2)) <$> typemeta_fields.
Definition in_object {A B} (get : A → B) (x : TypeMeta * A) : B := get x.2.
Definition set_object {A B} (set : B → A → A) (v : B) (x : TypeMeta * A) : TypeMeta * A := (x.1, set v x.2).

Module ApiJson.

Section Types.
Context `{MetaJson}.

Definition ExecReport_fields : list (Field ExecReport) := [
  field (H := int_codec in_int32) "exitStatus" false ExitStatus (λ v x, MkExecReport v (StartTime x) (StopTime x) (StdOut x) (StdErr x));
  field "startTime" true StartTime (λ v x, MkExecReport (ExitStatus x) v (StopTime x) (StdOut x) (StdErr x));
  field "stopTime" true StopTime (λ v x, MkExecReport (ExitStatus x) (StartTime x) v (StdOut x) (StdErr x));
  field "stdOut" false StdOut (λ v x, MkExecReport (ExitStatus x) (StartTime x) (StopTime x) v (StdErr x));
  field "stdErr" false StdErr (λ v x, MkExecReport (ExitStatus x) (StartTime x) (StopTime x) (StdOut x) v)].

#[export] Instance ExecReport_codec : Codec ExecReport := struct_codec ExecReport_fields (MkExecReport 0 zero zero "" "").

Definition NetworkAttachmentErrors_fields : list (Field NetworkAttachmentErrors) := [
  field "ipam" true IPAM (λ v x, MkNAErrors v (Host x));
  field "host" true Host (λ v x, MkNAErrors (IPAM x) v)].

#[export] Instance NetworkAttachmentErrors_codec : Codec NetworkAttachmentErrors :=
  struct_codec NetworkAttachmentErrors_fields (MkNAErrors [] []).

Definition NetworkAttachmentSpec_fields : list (Field NetworkAttachmentSpec) := [
  field "node" false Node (λ v x, MkNASpec v (SubnetOf x) (PostCreateExec x) (PostDeleteExec x));
  field "subnet" false SubnetOf (λ v x, MkNASpec (Node x) v (PostCreateExec x) (PostDeleteExec x));
  field "postCreateExec" true PostCreateExec (λ v x, MkNASpec (Node x) (SubnetOf x) v (PostDeleteExec x));
  field "postDeleteExec" true PostDeleteExec (λ v x, MkNASpec (Node x) (SubnetOf x) (PostCreateExec x) v)].

#[export] Instance NetworkAttachmentSpec_codec : Codec NetworkAttachmentSpec :=
  struct_codec NetworkAttachmentSpec_fields (MkNASpec "" "" [] []).

Definition NetworkAttachmentStatus_fields : list (Field NetworkAttachmentStatus) := [
  field "errors" true Errors (λ v x, MkNAStatus v (LockUID x) (AddressVNI x) (StatusIPv4 x) (MACAddress x) (IfcName x) (HostIP x) (PostCreateExecReport x));
  field "lockUID" true LockUID (λ v x, MkNAStatus (Errors x) v (AddressVNI x) (StatusIPv4 x) (MACAddress x) (IfcName x) (HostIP x) (PostCreateExecReport x));
  field (H := int_codec in_uint32) "addressVNI" true AddressVNI
    (λ v x, MkNAStatus (Errors x) (LockUID x) v (StatusIPv4 x) (MACAddress x) (IfcName x) (HostIP x) (PostCreateExecReport x));
  field "ipv4" true StatusIPv4 (λ v x, MkNAStatus (Errors x) (LockUID x) (AddressVNI x) v (MACAddress x) (IfcName x) (HostIP x) (PostCreateExecReport x));
  field "macAddress" true MACAddress (λ v x, MkNAStatus (Errors x) (LockUID x) (AddressVNI x) (StatusIPv4 x) v (IfcName x) (HostIP x) (PostCreateExecReport x));
  field "ifcName" true IfcName (λ v x, MkNAStatus (Errors x) (LockUID x) (AddressVNI x) (StatusIPv4 x) (MACAddress x) v (HostIP x) (PostCreateExecReport x));
  field "hostIP" true HostIP (λ v x, MkNAStatus (Errors x) (LockUID x) (AddressVNI x) (StatusIPv4 x) (MACAddress x) (IfcName x) v (PostCreateExecReport x));
  field "postCreateExecReport" true PostCreateExecReport
    (λ v x, MkNAStatus (Errors x) (LockUID x) (AddressVNI x) (StatusIPv4 x) (MACAddress x) (IfcName x) (HostIP x) v)].

#[export] Instance NetworkAttachmentStatus_codec : Codec NetworkAttachmentStatus :=
  struct_codec NetworkAttachmentStatus_fields (MkNAStatus zero "" 0 "" "" "" "" None).

Definition NetworkAttachment_fields : list (Field (TypeMeta * NetworkAttachment)) := inline ++ [
  field "metadata" true (in_object na_meta) (set_object (λ v x, MkNA v (na_Spec x) (na_Status x)));
  field "spec" false (in_object na_Spec) (set_object (λ v x, MkNA (na_meta x) v (na_Status x)));
  field "status" true (in_object na_Status) (set_object (λ v x, MkNA (na_meta x) (na_Spec x) v))].

#[export] Instance NetworkAttachment_codec : Codec (TypeMeta * NetworkAttachment) :=
  struct_codec NetworkAttachment_fields (MkTypeMeta "" "", MkNA zero zero zero).

Definition SubnetSpec_fields : list (Field SubnetSpec) := [
  field "ipv4" false IPv4 (λ v x, MkSubnetSpec v (VNI x));
  field (H := int_codec in_uint32) "vni" false VNI (λ v x, MkSubnetSpec (IPv4 x) v)].

#[export] Instance SubnetSpec_codec : Codec SubnetSpec := struct_codec SubnetSpec_fields (MkSubnetSpec "" 0).

(** [SubnetStatus] is its only field, and so is [IPLockSpec]. *)
Definition SubnetStatus_fields : list (Field (list string)) := [field "errors" true (λ x, x) (λ v _, v)].
Definition SubnetStatus_codec : Codec (list string) := struct_codec SubnetStatus_fields [].

Definition Subnet_fields : list (Field (TypeMeta * Subnet)) := inline ++ [
  field "metadata" true (in_object sn_meta) (set_object (λ v x, MkSubnet v (sn_Spec x) (sn_Errors x)));
  field "spec" false (in_object sn_Spec) (set_object (λ v x, MkSubnet (sn_meta x) v (sn_Errors x)));
  field (H := SubnetStatus_codec) "status" true (in_object sn_Errors) (set_object (λ v x, MkSubnet (sn_meta x) (sn_Spec x) v))].

#[export] Instance Subnet_codec : Codec (TypeMeta * Subnet) :=
  struct_codec Subnet_fields (MkTypeMeta "" "", MkSubnet zero zero []).

Definition IPLockSpec_fields : list (Field string) := [field "subnetName" false (λ x, x) (λ v _, v)].
Definition IPLockSpec_codec : Codec string := struct_codec IPLockSpec_fields "".

Definition IPLock_fields : list (Field (TypeMeta * IPLock)) := inline ++ [
  field "metadata" true (in_object ipl_meta) (set_object (λ v x, MkIPLock v (SubnetName x)));
  field (H := IPLockSpec_codec) "spec" false (in_object SubnetName) (set_object (λ v x, MkIPLock (ipl_meta x) v))].

#[export] Instance IPLock_codec : Codec (TypeMeta * IPLock) := struct_codec IPLock_fields (MkTypeMeta "" "", MkIPLock zero "").

(** The lists; [items] is a slice that is always written, so a nil one counts. *)
Definition list_fields {A} `{Codec (TypeMeta * A)} : list (Field (TypeMeta * (ListMeta * option (list (TypeMeta * A))))) := inline ++ [
  field "metadata" true (in_object fst) (set_object (λ v x, (v, x.2)));
  field (H := slice_codec (TypeMeta * A)) "items" false (in_object snd) (set_object (λ v x, (x.1, v)))].

Definition list_codec {A} `{Codec (TypeMeta * A)} : Codec (TypeMeta * (ListMeta * option (list (TypeMeta * A)))) :=
  struct_codec list_fields (MkTypeMeta "" "", (zero, None)).
Definition NetworkAttachmentList_codec := @list_codec NetworkAttachment _.
Definition SubnetList_codec := @list_codec Subnet _.
Definition IPLockList_codec := @list_codec IPLock _.

(** ** Round trips *)

(** The integers have the width of their types, times are not before the first, and strings are
    UTF-8, but for errors and for what commands print. *)
Definition type_fits (t : TypeMeta) : Prop := texts [Kind t; APIVersion t].
Definition report_fits (r : ExecReport) : Prop := in_int32 (ExitStatus r) = true ∧ 0 ≤ StartTime r ∧ 0 ≤ StopTime r.
Definition status_fits (st : NetworkAttachmentStatus) : Prop :=
  in_uint32 (AddressVNI st) = true ∧ texts [LockUID st; StatusIPv4 st; MACAddress st; IfcName st; HostIP st] ∧
  ∀ r, PostCreateExecReport st = Some r → report_fits r.
Definition spec_fits (sp : NetworkAttachmentSpec) : Prop :=
  texts [Node sp; SubnetOf sp] ∧ texts (PostCreateExec sp) ∧ texts (PostDeleteExec sp).
Definition subnet_spec_fits (sp : SubnetSpec) : Prop := valid (IPv4 sp) = true ∧ in_uint32 (VNI sp) = true.
Definition att_fits (x : TypeMeta * NetworkAttachment) : Prop :=
  type_fits x.1 ∧ meta_fits (na_meta x.2) ∧ spec_fits (na_Spec x.2) ∧ status_fits (na_Status x.2).
Definition subnet_fits (x : TypeMeta * Subnet) : Prop :=
  type_fits x.1 ∧ meta_fits (sn_meta x.2) ∧ subnet_spec_fits (sn_Spec x.2).
Definition lock_fits (x : TypeMeta * IPLock) : Prop :=
  type_fits x.1 ∧ meta_fits (ipl_meta x.2) ∧ valid (SubnetName x.2) = true.
Definition list_fits {A} (ok : TypeMeta * A → Prop) (x : TypeMeta * (ListMeta * option (list (TypeMeta * A)))) : Prop :=
  type_fits x.1 ∧ list_meta_fits x.2.1 ∧ ∀ l, x.2.2 = Some l → Forall ok l.

(** What arrives: times in whole seconds, errors and output in UTF-8. *)
Definition arrived_report (r : ExecReport) : ExecReport :=
  MkExecReport (ExitStatus r) (Truncate (StartTime r) second) (Truncate (StopTime r) second)
    (coerce (StdOut r)) (coerce (StdErr r)).
Definition arrived_errors (e : NetworkAttachmentErrors) : NetworkAttachmentErrors :=
  MkNAErrors (coerce <$> IPAM e) (coerce <$> Host e).
Definition arrived_status (st : NetworkAttachmentStatus) : NetworkAttachmentStatus :=
  MkNAStatus (arrived_errors (Errors st)) (LockUID st) (AddressVNI st) (StatusIPv4 st) (MACAddress st) (IfcName st) (HostIP st)
    (arrived_report <$> PostCreateExecReport st).
Definition arrived_att (x : TypeMeta * NetworkAttachment) : TypeMeta * NetworkAttachment :=
  (x.1, MkNA (stored_meta (na_meta x.2)) (na_Spec x.2) (arrived_status (na_Status x.2))).
Definition arrived_subnet (x : TypeMeta * Subnet) : TypeMeta * Subnet :=
  (x.1, MkSubnet (stored_meta (sn_meta x.2)) (sn_Spec x.2) (coerce <$> sn_Errors x.2)).
Definition arrived_lock (x : TypeMeta * IPLock) : TypeMeta * IPLock :=
  (x.1, MkIPLock (stored_meta (ipl_meta x.2)) (SubnetName x.2)).
Definition arrived_list {A} (wire : TypeMeta * A → TypeMeta * A) (x : TypeMeta * (ListMeta * option (list (TypeMeta * A)))) :
    TypeMeta * (ListMeta * option (list (TypeMeta * A))) :=
  (x.1, (x.2.1, match x.2.2 with Some l => Some (wire <$> l) | None => None end)).

(** What the command of a report printed, if there is one, is UTF-8. *)
Definition printed_text (r : option ExecReport) : bool :=
  match r with Some r => valid (StdOut r) && valid (StdErr r) | None => true end.

Lemma Equiv_arrived r : Equiv r (arrived_report <$> r) = printed_text r.
Proof.
  destruct r as [r|]; [|done]. simpl. rewrite Z.eqb_refl, !Truncate_idem, !Z.eqb_refl, !andb_true_r by done.
  simpl. unfold valid. f_equal; apply String.eqb_sym.
Qed.

(** What arrived stays as it is on any further way. *)
Lemma arrived_twice x : arrived_att (arrived_att x) = arrived_att x.
Proof.
  assert (Hs : ∀ l : list string, coerce <$> (coerce <$> l) = coerce <$> l).
  { intros l. rewrite <- list_fmap_compose. apply list_fmap_ext. intros ? s _. apply valid_coerce, coerce_valid. }
  assert (Hr : ∀ r, arrived_report (arrived_report r) = arrived_report r).
  { intros r. unfold arrived_report. simpl. rewrite !Truncate_idem by done.
    by rewrite !(proj1 (valid_coerce _) (coerce_valid _)). }
  destruct x as [t [m sp st]]. unfold arrived_att, stored_meta, arrived_status, arrived_errors. simpl.
  rewrite !Hs, Truncate_idem by done. destruct (PostCreateExecReport st) as [r|]; simpl; by rewrite ?Hr.
Qed.

(** Without such bytes only the times change. *)
Lemma arrived_stored st :
  texts (IPAM (Errors st)) → texts (Host (Errors st)) → printed_text (PostCreateExecReport st) = true →
  arrived_status st = stored_status st.
Proof.
  assert (Ht : ∀ l, texts l → coerce <$> l = l).
  { induction 1 as [|s l Hs%valid_coerce _ IH]; [done|]. cbn. by rewrite Hs, IH. }
  intros Hi Hh Hr. destruct st as [[i h] ? ? ? ? ? ? r]. unfold arrived_status, stored_status, arrived_errors. simpl in *.
  rewrite !Ht by done. f_equal. destruct r as [r|]; [|done]. simpl in *. f_equal. unfold arrived_report, stored.
  apply andb_true_iff in Hr as [->%valid_coerce ->%valid_coerce]. done.
Qed.

Context `{!MetaJsonLaws}.

Ltac tidy := match goal with |- fills ?fs ?l ?x ?s ?s' => let t := eval simpl in s in change (fills fs l x t s') end.
Ltac next law := eapply (fills_field _ _ _ _ _ _ _ _ _ _ _ law); [try done|reflexivity|reflexivity|reflexivity|tidy].
Ltac next_promoted law :=
  eapply (fills_promoted _ _ _ _ _ _ _ _ _ _ _ _ _ law); [try done|reflexivity|reflexivity|reflexivity|tidy].
Ltac last_field x := destruct x; apply fills_nil.

Lemma strings_travel : travels texts id.
Proof. intros l Hl. destruct (slice_travels _ _ string_travels l Hl) as [E Ez]. by rewrite list_fmap_id in *. Qed.

Lemma errors_travel : travels (λ _ : NetworkAttachmentErrors, True) arrived_errors.
Proof.
  apply struct_travels. intros x _. next (slice_travels _ _ text_travels). { by apply Forall_true. }
  next (slice_travels _ _ text_travels). { by apply Forall_true. } last_field x.
Qed.

Lemma report_travels : travels report_fits arrived_report.
Proof.
  apply struct_travels. intros x (Hx & Ha & Hb). next (int_travels in_int32). next Time_travels. next Time_travels.
  next text_travels. next text_travels. last_field x.
Qed.

Lemma report_written (r : ExecReport) : enc r ≠ JNull.
Proof. done. Qed.

Lemma spec_travels : travels spec_fits id.
Proof.
  apply struct_travels. intros x (Ht & Hc & Hd). unfold texts in Ht. rewrite !Forall_cons in Ht. destruct Ht as (Ht1 & Ht2 & _).
  next string_travels. next string_travels. next strings_travel. next strings_travel. last_field x.
Qed.

Lemma status_travels : travels status_fits arrived_status.
Proof.
  apply struct_travels. intros x (Hv & Ht & Hr). unfold texts in Ht. rewrite !Forall_cons in Ht.
  destruct Ht as (Ht1 & Ht2 & Ht3 & Ht4 & Ht5 & _). next errors_travel. next string_travels. next (int_travels in_uint32).
  do 4 (next string_travels). next (pointer_travels _ _ report_written report_travels). last_field x.
Qed.

Lemma type_texts t : type_fits t → valid (Kind t) = true ∧ valid (APIVersion t) = true.
Proof. unfold type_fits, texts. rewrite !Forall_cons. naive_solver. Qed.

Lemma att_travels : travels att_fits arrived_att.
Proof.
  apply struct_travels. intros [t x] ([Hk Ha]%type_texts & Hm & Hp & Hs). next_promoted string_travels. next_promoted string_travels.
  next ObjectMeta_travels. next spec_travels. next status_travels. destruct t. last_field x.
Qed.

Lemma subnet_spec_travels : travels subnet_spec_fits id.
Proof. apply struct_travels. intros x [Ha Hx]. next string_travels. next (int_travels in_uint32). last_field x. Qed.

Lemma subnet_status_travels : @travels _ SubnetStatus_codec (λ _, True) (fmap coerce).
Proof. apply struct_travels. intros x _. next (slice_travels _ _ text_travels). { by apply Forall_true. } apply fills_nil. Qed.

Lemma subnet_travels : travels subnet_fits arrived_subnet.
Proof.
  apply struct_travels. intros [t x] ([Hk Ha]%type_texts & Hm & Hs). next_promoted string_travels. next_promoted string_travels.
  next ObjectMeta_travels. next subnet_spec_travels. next subnet_status_travels. destruct t. last_field x.
Qed.

Lemma lock_spec_travels : @travels _ IPLockSpec_codec (λ s, valid s = true) id.
Proof. apply struct_travels. intros x Hx. next string_travels. apply fills_nil. Qed.

Lemma lock_travels : travels lock_fits arrived_lock.
Proof.
  apply struct_travels. intros [t x] ([Hk Ha]%type_texts & Hm & Hs). next_promoted string_travels. next_promoted string_travels.
  next ObjectMeta_travels. next lock_spec_travels. destruct t. last_field x.
Qed.

Lemma list_travels {A} `{Codec (TypeMeta * A)} (ok : TypeMeta * A → Prop) (wire : TypeMeta * A → TypeMeta * A) :
  travels ok wire → @travels _ list_codec (list_fits ok) (arrived_list wire).
Proof.
  intros Ht. apply struct_travels. intros [t [m l]] ([Hk Ha]%type_texts & Hm & Hl). next_promoted string_travels. next_promoted string_travels.
  next ListMeta_travels. eapply fills_kept; [by apply (items_travel _ _ _ Ht)|reflexivity..|tidy]. destruct t. apply fills_nil.
Qed.

(** C37: an object of the API, or a list of them, is read back as it was written, kinds and
    metadata included, if its integers have their width, its times are not before the first and
    its strings are UTF-8, save in the errors and in the report: decoding what was encoded into a new object succeeds and
    gives the same object, save that times have lost their fractions of seconds and that each
    byte of an error or an output that is not UTF-8 has become U+FFFD; a nil list stays nil, and
    an attachment that arrived stays as it is on further ways.  The
    report that arrives is equivalent to the one that was sent exactly if the output of the
    command was UTF-8; otherwise the agent finds a difference each time and sends it again. *)
Theorem objects_travel :
  (∀ x : TypeMeta * NetworkAttachment, att_fits x →
    dec (enc x) zero = Some (arrived_att x) ∧
    Equiv (PostCreateExecReport (na_Status x.2)) (PostCreateExecReport (na_Status (arrived_att x).2)) =
      printed_text (PostCreateExecReport (na_Status x.2)) ∧
    arrived_att (arrived_att x) = arrived_att x) ∧
  (∀ x : TypeMeta * Subnet, subnet_fits x → dec (enc x) zero = Some (arrived_subnet x)) ∧
  (∀ x : TypeMeta * IPLock, lock_fits x → dec (enc x) zero = Some (arrived_lock x)) ∧
  (∀ x, list_fits att_fits x →
    @dec _ NetworkAttachmentList_codec (@enc _ NetworkAttachmentList_codec x) (@zero _ NetworkAttachmentList_codec) =
    Some (arrived_list arrived_att x)) ∧
  (∀ x, list_fits subnet_fits x →
    @dec _ SubnetList_codec (@enc _ SubnetList_codec x) (@zero _ SubnetList_codec) = Some (arrived_list arrived_subnet x)) ∧
  (∀ x, list_fits lock_fits x →
    @dec _ IPLockList_codec (@enc _ IPLockList_codec x) (@zero _ IPLockList_codec) = Some (arrived_list arrived_lock x)).
Proof.
  repeat split.
  - by apply att_travels.
  - apply Equiv_arrived.
  - apply arrived_twice.
  - intros x Hx. by apply subnet_travels.
  - intros x Hx. by apply lock_travels.
  - intros x Hx. by apply (list_travels _ _ att_travels).
  - intros x Hx. by apply (list_travels _ _ subnet_travels).
  - intros x Hx. by apply (list_travels _ _ lock_travels).
Qed.

End Types.

End ApiJson.
