(* ===== verification/OpenApiSpec.v ===== *)
(** * Open API documents: the library

    What [zz_generated.openapi.go] uses of [github.com/go-openapi/spec] and
    [k8s.io/kube-openapi/pkg/common]: the data of a document, written with a function for each
    key of its literals; and what a document means: which values it admits. *)

From S2P Require Import Prelude GoJson.
Import GoJson.

Module OpenApiSpec.

(** ** Documents *)

Inductive Schema (R : Type) := MkSchema {
  Extensions : list (string * string);
  Description : string;
  Types : list string;
  Format : string;
  Reference : option R;
  Properties : list (string * Schema R);
  Items : option (Schema R);
  AdditionalProperties : option (Schema R);
  Required : list string
}.
Arguments MkSchema {R}.
Arguments Extensions {R}.
Arguments Description {R}.
Arguments Types {R}.
Arguments Format {R}.
Arguments Reference {R}.
Arguments Properties {R}.
Arguments Items {R}.
Arguments AdditionalProperties {R}.
Arguments Required {R}.

Record OpenAPIDefinition (R : Type) := MkDefinition { SchemaOf : Schema R; Dependencies : list string }.
Arguments MkDefinition {R}.
Arguments SchemaOf {R}.
Arguments Dependencies {R}.

Section Keys.
Context {R : Type}.
Implicit Types s : Schema R.

(** The keys of a literal; those that it leaves out stay zero. *)
Definition extensions e s :=
  MkSchema e (Description s) (Types s) (Format s) (Reference s) (Properties s) (Items s) (AdditionalProperties s) (Required s).
Definition description d s :=
  MkSchema (Extensions s) d (Types s) (Format s) (Reference s) (Properties s) (Items s) (AdditionalProperties s) (Required s).
Definition type t s :=
  MkSchema (Extensions s) (Description s) t (Format s) (Reference s) (Properties s) (Items s) (AdditionalProperties s) (Required s).
Definition format f s :=
  MkSchema (Extensions s) (Description s) (Types s) f (Reference s) (Properties s) (Items s) (AdditionalProperties s) (Required s).
Definition refers r s :=
  MkSchema (Extensions s) (Description s) (Types s) (Format s) (Some r) (Properties s) (Items s) (AdditionalProperties s) (Required s).
Definition properties p s :=
  MkSchema (Extensions s) (Description s) (Types s) (Format s) (Reference s) p (Items s) (AdditionalProperties s) (Required s).
Definition items i s :=
  MkSchema (Extensions s) (Description s) (Types s) (Format s) (Reference s) (Properties s) (Some i) (AdditionalProperties s) (Required s).
Definition additional a s :=
  MkSchema (Extensions s) (Description s) (Types s) (Format s) (Reference s) (Properties s) (Items s) (Some a) (Required s).
Definition required r s :=
  MkSchema (Extensions s) (Description s) (Types s) (Format s) (Reference s) (Properties s) (Items s) (AdditionalProperties s) r.

Definition schema (keys : list (Schema R → Schema R)) : Schema R :=
  foldl (λ s k, k s) (MkSchema [] "" [] "" None [] None None []) keys.

(** The references in a document. *)
Fixpoint refs s : list R :=
  match Reference s with Some r => [r] | None => [] end ++
  flat_map (λ p, refs p.2) (Properties s) ++
  match Items s with Some i => refs i | None => [] end ++
  match AdditionalProperties s with Some a => refs a | None => [] end.
End Keys.

(** What the time types of [metav1] say of themselves. *)
Class TimeTypes := {
  Time_OpenAPISchemaType : list string; Time_OpenAPISchemaFormat : string;
  MicroTime_OpenAPISchemaType : list string; MicroTime_OpenAPISchemaFormat : string
}.

(** Times are strings. *)
Definition rfc3339 : TimeTypes :=
  {| Time_OpenAPISchemaType := ["string"]; Time_OpenAPISchemaFormat := "date-time";
     MicroTime_OpenAPISchemaType := ["string"]; MicroTime_OpenAPISchemaFormat := "date-time" |}.

(** Characters that Go writes with a backslash, as [GoStr.nl]. *)
Definition dq : string := String "034" "".
Definition tab : string := String "009" "".

(** ** Values *)

Definition has_type (fmt : string) (j : JSON) (t : string) : bool :=
  match j with
  | JStr _ => String.eqb t "string"
  | JBool _ => String.eqb t "boolean"
  | JNum z => String.eqb t "integer" &&
      (if String.eqb fmt "int32" then in_int32 z else if String.eqb fmt "int64" then in_int64 z else true)
  | JArr _ => String.eqb t "array"
  | JObj _ => String.eqb t "object"
  | JNull => false
  end.

(** Whether a document admits a value.  A reference stands for the document it names, whatever
    else stands beside it; the fuel bounds the depth of the value, references counted. *)
Fixpoint admits {R} (resolve : R → option (Schema R)) (fuel : nat) (s : Schema R) (j : JSON) : bool :=
  match fuel with
  | O => false
  | S fuel =>
      match Reference s with
      | Some r => match resolve r with Some s => admits resolve fuel s j | None => false end
      | None =>
          (match Types s with [] => true | ts => existsb (has_type (Format s) j) ts end) &&
          match j with
          | JObj kvs =>
              forallb (λ n, existsb (λ kv, String.eqb kv.1 n) kvs) (Required s) &&
              forallb (λ kv,
                match List.find (λ p, String.eqb p.1 kv.1) (Properties s) with
                | Some p => admits resolve fuel p.2 kv.2
                | None => match AdditionalProperties s with Some p => admits resolve fuel p kv.2 | None => true end
                end) kvs
          | JArr l => match Items s with Some p => forallb (admits resolve fuel p) l | None => true end
          | _ => true
          end
      end
  end.

End OpenApiSpec.
