(* ===== verification/OpenApi.v ===== *)
(** * The open API documents: [pkg/generated/openapi/zz_generated.openapi.go]

    One definition for each function of the file, in its order, over the names of references
    that the API server chooses ([ref]) and what the time types of the API machinery say of
    themselves. *)

From S2P Require Import Prelude GoStr OpenApiSpec.
Import OpenApiSpec.

Module OpenApi.

Section Documents.
Context {Ref : Type} (ref : string → Ref) {lib : TimeTypes}.

Definition schema_pkg_apis_meta_v1_APIGroup : OpenAPIDefinition Ref :=
  MkDefinition (schema [
    description "APIGroup contains the name, the supported versions, and the preferred version of a group.";
    type ["object"];
    properties [
       ("kind", schema [
          description "Kind is a string value representing the REST resource this object represents. Servers may infer this from the endpoint the client submits requests to. Cannot be updated. In CamelCase. More info: https://git.k8s.io/community/contributors/devel/api-conventions.md#types-kinds";
          type ["string"];
          format ""]);
       ("apiVersion", schema [
          description "APIVersion defines the versioned schema of this representation of an object. Servers should convert recognized schemas to the latest internal value, and may reject unrecognized values. More info: https://git.k8s.io/community/contributors/devel/api-conventions.md#resources";
          type ["string"];
          format ""]);
       ("name", schema [description "name is the name of the group."; type ["string"]; format ""]);
       ("versions", schema [
          description "versions are the versions supported in this group.";
          type ["array"];
          items (schema [refers (ref "k8s.io/apimachinery/pkg/apis/meta/v1.GroupVersionForDiscovery")])]);
       ("preferredVersion", schema [
          description "preferredVersion is the version preferred by the API server, which probably is the storage version.";
          refers (ref "k8s.io/apimachinery/pkg/apis/meta/v1.GroupVersionForDiscovery")]);
       ("serverAddressByClientCIDRs", schema [
          description "a map of client CIDR to server address that is serving this group. This is to help clients reach servers in the most network-efficient way possible. Clients can use the appropriate server address as per the CIDR that they match. In case of multiple matches, clients should use the longest matching CIDR. The server returns only those CIDRs that it thinks that the client can match. For example: the master will return an internal IP CIDR only, if the client reaches the server using an internal IP. Server looks at X-Forwarded-For header or X-Real-Ip header or request.RemoteAddr (in that order) to get the client IP.";
          type ["array"];
          items (schema [refers (ref "k8s.io/apimachinery/pkg/apis/meta/v1.ServerAddressByClientCIDR")])])];
    required ["name"; "versions"]])
    ["k8s.io/apimachinery/pkg/apis/meta/v1.GroupVersionForDiscovery"; "k8s.io/apimachinery/pkg/apis/meta/v1.ServerAddressByClientCIDR"].

Definition schema_pkg_apis_meta_v1_APIGroupList : OpenAPIDefinition Ref :=
  MkDefinition (schema [
    description "APIGroupList is a list of APIGroup, to allow clients to discover the API at /apis.";
    type ["object"];
    properties [
       ("kind", schema [
          description "Kind is a string value representing the REST resource this object represents. Servers may infer this from the endpoint the client submits requests to. Cannot be updated. In CamelCase. More info: https://git.k8s.io/community/contributors/devel/api-conventions.md#types-kinds";
          type ["string"];
          format ""]);
       ("apiVersion", schema [
          description "APIVersion defines the versioned schema of this representation of an object. Servers should convert recognized schemas to the latest internal value, and may reject unrecognized values. More info: https://git.k8s.io/community/contributors/devel/api-conventions.md#resources";
          type ["string"];
          format ""]);
       ("groups", schema [
          description "groups is a list of APIGroup.";
          type ["array"];
          items (schema [refers (ref "k8s.io/apimachinery/pkg/apis/meta/v1.APIGroup")])])];
    required ["groups"]])
    ["k8s.io/apimachinery/pkg/apis/meta/v1.APIGroup"].

Definition schema_pkg_apis_meta_v1_APIResource : OpenAPIDefinition Ref :=
  MkDefinition (schema [
    description "APIResource specifies the name of a resource and whether it is namespaced.";
    type ["object"];
    properties [
       ("name", schema [description "name is the plural name of the resource."; type ["string"]; format ""]);
       ("singularName", schema [
          description "singularName is the singular name of the resource.  This allows clients to handle plural and singular opaquely. The singularName is more correct for reporting status on a single item and both singular and plural are allowed from the kubectl CLI interface.";
          type ["string"];
          format ""]);
       ("namespaced", schema [
          description "namespaced indicates if a resource is namespaced or not.";
          type ["boolean"];
          format ""]);
       ("group", schema [
          description ("group is the preferred group of the resource.  Empty implies the group of the containing resource list. For subresources, this may have a different value, for example: Scale" +:+ dq +:+ ".");
          type ["string"];
          format ""]);
       ("version", schema [
          description ("version is the preferred version of the resource.  Empty implies the version of the containing resource list For subresources, this may have a different value, for example: v1 (while inside a v1beta1 version of the core resource's group)" +:+ dq +:+ ".");
          type ["string"];
          format ""]);
       ("kind", schema [
          description "kind is the kind for the resource (e.g. 'Foo' is the kind for a resource 'foo')";
          type ["string"];
          format ""]);
       ("verbs", schema [
          description "verbs is a list of supported kube verbs (this includes get, list, watch, create, update, patch, delete, deletecollection, and proxy)";
          type ["array"];
          items (schema [type ["string"]; format ""])]);
       ("shortNames", schema [
          description "shortNames is a list of suggested short names of the resource.";
          type ["array"];
          items (schema [type ["string"]; format ""])]);
       ("categories", schema [
          description "categories is a list of the grouped resources this resource belongs to (e.g. 'all')";
          type ["array"];
          items (schema [type ["string"]; format ""])])];
    required ["name"; "singularName"; "namespaced"; "kind"; "verbs"]])
    [].

Definition schema_pkg_apis_meta_v1_APIResourceList : OpenAPIDefinition Ref :=
  MkDefinition (schema [
    description "APIResourceList is a list of APIResource, it is used to expose the name of the resources supported in a specific group and version, and if the resource is namespaced.";
    type ["object"];
    properties [
       ("kind", schema [
          description "Kind is a string value representing the REST resource this object represents. Servers may infer this from the endpoint the client submits requests to. Cannot be updated. In CamelCase. More info: https://git.k8s.io/community/contributors/devel/api-conventions.md#types-kinds";
          type ["string"];
          format ""]);
       ("apiVersion", schema [
          description "APIVersion defines the versioned schema of this representation of an object. Servers should convert recognized schemas to the latest internal value, and may reject unrecognized values. More info: https://git.k8s.io/community/contributors/devel/api-conventions.md#resources";
          type ["string"];
          format ""]);
       ("groupVersion", schema [
          description "groupVersion is the group and version this APIResourceList is for.";
          type ["string"];
          format ""]);
       ("resources", schema [
          description "resources contains the name of the resources and if they are namespaced.";
          type ["array"];
          items (schema [refers (ref "k8s.io/apimachinery/pkg/apis/meta/v1.APIResource")])])];
    required ["groupVersion"; "resources"]])
    ["k8s.io/apimachinery/pkg/apis/meta/v1.APIResource"].

Definition schema_pkg_apis_meta_v1_APIVersions : OpenAPIDefinition Ref :=
  MkDefinition (schema [
    description "APIVersions lists the versions that are available, to allow clients to discover the API at /api, which is the root path of the legacy v1 API.";
    type ["object"];
    properties [
       ("kind", schema [
          description "Kind is a string value representing the REST resource this object represents. Servers may infer this from the endpoint the client submits requests to. Cannot be updated. In CamelCase. More info: https://git.k8s.io/community/contributors/devel/api-conventions.md#types-kinds";
          type ["string"];
          format ""]);
       ("apiVersion", schema [
          description "APIVersion defines the versioned schema of this representation of an object. Servers should convert recognized schemas to the latest internal value, and may reject unrecognized values. More info: https://git.k8s.io/community/contributors/devel/api-conventions.md#resources";
          type ["string"];
          format ""]);
       ("versions", schema [
          description "versions are the api versions that are available.";
          type ["array"];
          items (schema [type ["string"]; format ""])]);
       ("serverAddressByClientCIDRs", schema [
          description "a map of client CIDR to server address that is serving this group. This is to help clients reach servers in the most network-efficient way possible. Clients can use the appropriate server address as per the CIDR that they match. In case of multiple matches, clients should use the longest matching CIDR. The server returns only those CIDRs that it thinks that the client can match. For example: the master will return an internal IP CIDR only, if the client reaches the server using an internal IP. Server looks at X-Forwarded-For header or X-Real-Ip header or request.RemoteAddr (in that order) to get the client IP.";
          type ["array"];
          items (schema [refers (ref "k8s.io/apimachinery/pkg/apis/meta/v1.ServerAddressByClientCIDR")])])];
    required ["versions"; "serverAddressByClientCIDRs"]])
    ["k8s.io/apimachinery/pkg/apis/meta/v1.ServerAddressByClientCIDR"].

Definition schema_pkg_apis_meta_v1_CreateOptions : OpenAPIDefinition Ref :=
  MkDefinition (schema [
    description "CreateOptions may be provided when creating an API object.";
    type ["object"];
    properties [
       ("kind", schema [
          description "Kind is a string value representing the REST resource this object represents. Servers may infer this from the endpoint the client submits requests to. Cannot be updated. In CamelCase. More info: https://git.k8s.io/community/contributors/devel/api-conventions.md#types-kinds";
          type ["string"];
          format ""]);
       ("apiVersion", schema [
          description "APIVersion defines the versioned schema of this representation of an object. Servers should convert recognized schemas to the latest internal value, and may reject unrecognized values. More info: https://git.k8s.io/community/contributors/devel/api-conventions.md#resources";
          type ["string"];
          format ""]);
       ("dryRun", schema [
          description "When present, indicates that modifications should not be persisted. An invalid or unrecognized dryRun directive will result in an error response and no further processing of the request. Valid values are: - All: all dry run stages will be processed";
          type ["array"];
          items (schema [type ["string"]; format ""])]);
       ("includeUninitialized", schema [
          description "If IncludeUninitialized is specified, the object may be returned without completing initialization.";
          type ["boolean"];
          format ""])]])
    [].

Definition schema_pkg_apis_meta_v1_DeleteOptions : OpenAPIDefinition Ref :=
  MkDefinition (schema [
    description "DeleteOptions may be provided when deleting an API object.";
    type ["object"];
    properties [
       ("kind", schema [
          description "Kind is a string value representing the REST resource this object represents. Servers may infer this from the endpoint the client submits requests to. Cannot be updated. In CamelCase. More info: https://git.k8s.io/community/contributors/devel/api-conventions.md#types-kinds";
          type ["string"];
          format ""]);
       ("apiVersion", schema [
          description "APIVersion defines the versioned schema of this representation of an object. Servers should convert recognized schemas to the latest internal value, and may reject unrecognized values. More info: https://git.k8s.io/community/contributors/devel/api-conventions.md#resources";
          type ["string"];
          format ""]);
       ("gracePeriodSeconds", schema [
          description "The duration in seconds before the object should be deleted. Value must be non-negative integer. The value zero indicates delete immediately. If this value is nil, the default grace period for the specified type will be used. Defaults to a per object value if not specified. zero means delete immediately.";
          type ["integer"];
          format "int64"]);
       ("preconditions", schema [
          description "Must be fulfilled before a deletion is carried out. If not possible, a 409 Conflict status will be returned.";
          refers (ref "k8s.io/apimachinery/pkg/apis/meta/v1.Preconditions")]);
       ("orphanDependents", schema [
          description ("Deprecated: please use the PropagationPolicy, this field will be deprecated in 1.7. Should the dependent objects be orphaned. If true/false, the " +:+ dq +:+ "orphan" +:+ dq +:+ " finalizer will be added to/removed from the object's finalizers list. Either this field or PropagationPolicy may be set, but not both.");
          type ["boolean"];
          format ""]);
       ("propagationPolicy", schema [
          description "Whether and how garbage collection will be performed. Either this field or OrphanDependents may be set, but not both. The default policy is decided by the existing finalizer set in the metadata.finalizers and the resource-specific default policy. Acceptable values are: 'Orphan' - orphan the dependents; 'Background' - allow the garbage collector to delete the dependents in the background; 'Foreground' - a cascading policy that deletes all dependents in the foreground.";
          type ["string"];
          format ""]);
       ("dryRun", schema [
          description "When present, indicates that modifications should not be persisted. An invalid or unrecognized dryRun directive will result in an error response and no further processing of the request. Valid values are: - All: all dry run stages will be processed";
          type ["array"];
          items (schema [type ["string"]; format ""])])]])
    ["k8s.io/apimachinery/pkg/apis/meta/v1.Preconditions"].

Definition schema_pkg_apis_meta_v1_Duration : OpenAPIDefinition Ref :=
  MkDefinition (schema [
    description "Duration is a wrapper around time.Duration which supports correct marshaling to YAML and JSON. In particular, it marshals into strings, which can be used as map keys in json.";
    type ["object"];
    properties [
       ("Duration", schema [type ["integer"]; format "int64"])];
    required ["Duration"]])
    [].

Definition schema_pkg_apis_meta_v1_ExportOptions : OpenAPIDefinition Ref :=
  MkDefinition (schema [
    description "ExportOptions is the query options to the standard REST get call.";
    type ["object"];
    properties [
       ("kind", schema [
          description "Kind is a string value representing the REST resource this object represents. Servers may infer this from the endpoint the client submits requests to. Cannot be updated. In CamelCase. More info: https://git.k8s.io/community/contributors/devel/api-conventions.md#types-kinds";
          type ["string"];
          format ""]);
       ("apiVersion", schema [
          description "APIVersion defines the versioned schema of this representation of an object. Servers should convert recognized schemas to the latest internal value, and may reject unrecognized values. More info: https://git.k8s.io/community/contributors/devel/api-conventions.md#resources";
          type ["string"];
          format ""]);
       ("export", schema [
          description "Should this value be exported.  Export strips fields that a user can not specify.";
          type ["boolean"];
          format ""]);
       ("exact", schema [
          description "Should the export be exact.  Exact export maintains cluster-specific fields like 'Namespace'.";
          type ["boolean"];
          format ""])];
    required ["export"; "exact"]])
    [].

Definition schema_pkg_apis_meta_v1_GetOptions : OpenAPIDefinition Ref :=
  MkDefinition (schema [
    description "GetOptions is the standard query options to the standard REST get call.";
    type ["object"];
    properties [
       ("kind", schema [
          description "Kind is a string value representing the REST resource this object represents. Servers may infer this from the endpoint the client submits requests to. Cannot be updated. In CamelCase. More info: https://git.k8s.io/community/contributors/devel/api-conventions.md#types-kinds";
          type ["string"];
          format ""]);
       ("apiVersion", schema [
          description "APIVersion defines the versioned schema of this representation of an object. Servers should convert recognized schemas to the latest internal value, and may reject unrecognized values. More info: https://git.k8s.io/community/contributors/devel/api-conventions.md#resources";
          type ["string"];
          format ""]);
       ("resourceVersion", schema [
          description "When specified: - if unset, then the result is returned from remote storage based on quorum-read flag; - if it's 0, then we simply return what we currently have in cache, no guarantee; - if set to non zero, then the result is at least as fresh as given rv.";
          type ["string"];
          format ""]);
       ("includeUninitialized", schema [
          description "If true, partially initialized resources are included in the response.";
          type ["boolean"];
          format ""])]])
    [].

Definition schema_pkg_apis_meta_v1_GroupKind : OpenAPIDefinition Ref :=
  MkDefinition (schema [
    description "GroupKind specifies a Group and a Kind, but does not force a version.  This is useful for identifying concepts during lookup stages without having partially valid types";
    type ["object"];
    properties [
       ("group", schema [type ["string"]; format ""]);
       ("kind", schema [type ["string"]; format ""])];
    required ["group"; "kind"]])
    [].

Definition schema_pkg_apis_meta_v1_GroupResource : OpenAPIDefinition Ref :=
  MkDefinition (schema [
    description "GroupResource specifies a Group and a Resource, but does not force a version.  This is useful for identifying concepts during lookup stages without having partially valid types";
    type ["object"];
    properties [
       ("group", schema [type ["string"]; format ""]);
       ("resource", schema [type ["string"]; format ""])];
    required ["group"; "resource"]])
    [].

Definition schema_pkg_apis_meta_v1_GroupVersion : OpenAPIDefinition Ref :=
  MkDefinition (schema [
    description ("GroupVersion contains the " +:+ dq +:+ "group" +:+ dq +:+ " and the " +:+ dq +:+ "version" +:+ dq +:+ ", which uniquely identifies the API.");
    type ["object"];
    properties [
       ("group", schema [type ["string"]; format ""]);
       ("version", schema [type ["string"]; format ""])];
    required ["group"; "version"]])
    [].

Definition schema_pkg_apis_meta_v1_GroupVersionForDiscovery : OpenAPIDefinition Ref :=
  MkDefinition (schema [
    description ("GroupVersion contains the " +:+ dq +:+ "group/version" +:+ dq +:+ " and " +:+ dq +:+ "version" +:+ dq +:+ " string of a version. It is made a struct to keep extensibility.");
    type ["object"];
    properties [
       ("groupVersion", schema [
          description ("groupVersion specifies the API group and version in the form " +:+ dq +:+ "group/version" +:+ dq);
          type ["string"];
          format ""]);
       ("version", schema [
          description ("version specifies the version in the form of " +:+ dq +:+ "version" +:+ dq +:+ ". This is to save the clients the trouble of splitting the GroupVersion.");
          type ["string"];
          format ""])];
    required ["groupVersion"; "version"]])
    [].

Definition schema_pkg_apis_meta_v1_GroupVersionKind : OpenAPIDefinition Ref :=
  MkDefinition (schema [
    description "GroupVersionKind unambiguously identifies a kind.  It doesn't anonymously include GroupVersion to avoid automatic coersion.  It doesn't use a GroupVersion to avoid custom marshalling";
    type ["object"];
    properties [
       ("group", schema [type ["string"]; format ""]);
       ("version", schema [type ["string"]; format ""]);
       ("kind", schema [type ["string"]; format ""])];
    required ["group"; "version"; "kind"]])
    [].

Definition schema_pkg_apis_meta_v1_GroupVersionResource : OpenAPIDefinition Ref :=
  MkDefinition (schema [
    description "GroupVersionResource unambiguously identifies a resource.  It doesn't anonymously include GroupVersion to avoid automatic coersion.  It doesn't use a GroupVersion to avoid custom marshalling";
    type ["object"];
    properties [
       ("group", schema [type ["string"]; format ""]);
       ("version", schema [type ["string"]; format ""]);
       ("resource", schema [type ["string"]; format ""])];
    required ["group"; "version"; "resource"]])
    [].

Definition schema_pkg_apis_meta_v1_Initializer : OpenAPIDefinition Ref :=
  MkDefinition (schema [
    description "Initializer is information about an initializer that has not yet completed.";
    type ["object"];
    properties [
       ("name", schema [
          description "name of the process that is responsible for initializing this object.";
          type ["string"];
          format ""])];
    required ["name"]])
    [].

Definition schema_pkg_apis_meta_v1_Initializers : OpenAPIDefinition Ref :=
  MkDefinition (schema [
    description "Initializers tracks the progress of initialization.";
    type ["object"];
    properties [
       ("pending", schema [
          extensions [("x-kubernetes-patch-merge-key", "name"); ("x-kubernetes-patch-strategy", "merge")];
          description "Pending is a list of initializers that must execute in order before this object is visible. When the last pending initializer is removed, and no failing result is set, the initializers struct will be set to nil and the object is considered as initialized and visible to all clients.";
          type ["array"];
          items (schema [refers (ref "k8s.io/apimachinery/pkg/apis/meta/v1.Initializer")])]);
       ("result", schema [
          description "If result is set with the Failure field, the object will be persisted to storage and then deleted, ensuring that other clients can observe the deletion.";
          refers (ref "k8s.io/apimachinery/pkg/apis/meta/v1.Status")])];
    required ["pending"]])
    ["k8s.io/apimachinery/pkg/apis/meta/v1.Initializer"; "k8s.io/apimachinery/pkg/apis/meta/v1.Status"].

Definition schema_pkg_apis_meta_v1_InternalEvent : OpenAPIDefinition Ref :=
  MkDefinition (schema [
    description "InternalEvent makes watch.Event versioned";
    type ["object"];
    properties [
       ("Type", schema [type ["string"]; format ""]);
       ("Object", schema [
          description ("Object is:" +:+ nl +:+ " * If Type is Added or Modified: the new state of the object." +:+ nl +:+ " * If Type is Deleted: the state of the object immediately before deletion." +:+ nl +:+ " * If Type is Error: *api.Status is recommended; other types may make sense" +:+ nl +:+ "   depending on context.");
          refers (ref "k8s.io/apimachinery/pkg/runtime.Object")])];
    required ["Type"; "Object"]])
    ["k8s.io/apimachinery/pkg/runtime.Object"].

Definition schema_pkg_apis_meta_v1_LabelSelector : OpenAPIDefinition Ref :=
  MkDefinition (schema [
    description "A label selector is a label query over a set of resources. The result of matchLabels and matchExpressions are ANDed. An empty label selector matches all objects. A null label selector matches no objects.";
    type ["object"];
    properties [
       ("matchLabels", schema [
          description ("matchLabels is a map of {key,value} pairs. A single {key,value} in the matchLabels map is equivalent to an element of matchExpressions, whose key field is " +:+ dq +:+ "key" +:+ dq +:+ ", the operator is " +:+ dq +:+ "In" +:+ dq +:+ ", and the values array contains only " +:+ dq +:+ "value" +:+ dq +:+ ". The requirements are ANDed.");
          type ["object"];
          additional (schema [type ["string"]; format ""])]);
       ("matchExpressions", schema [
          description "matchExpressions is a list of label selector requirements. The requirements are ANDed.";
          type ["array"];
          items (schema [refers (ref "k8s.io/apimachinery/pkg/apis/meta/v1.LabelSelectorRequirement")])])]])
    ["k8s.io/apimachinery/pkg/apis/meta/v1.LabelSelectorRequirement"].

Definition schema_pkg_apis_meta_v1_LabelSelectorRequirement : OpenAPIDefinition Ref :=
  MkDefinition (schema [
    description "A label selector requirement is a selector that contains values, a key, and an operator that relates the key and values.";
    type ["object"];
    properties [
       ("key", schema [
          extensions [("x-kubernetes-patch-merge-key", "key"); ("x-kubernetes-patch-strategy", "merge")];
          description "key is the label key that the selector applies to.";
          type ["string"];
          format ""]);
       ("operator", schema [
          description "operator represents a key's relationship to a set of values. Valid operators are In, NotIn, Exists and DoesNotExist.";
          type ["string"];
          format ""]);
       ("values", schema [
          description "values is an array of string values. If the operator is In or NotIn, the values array must be non-empty. If the operator is Exists or DoesNotExist, the values array must be empty. This array is replaced during a strategic merge patch.";
          type ["array"];
          items (schema [type ["string"]; format ""])])];
    required ["key"; "operator"]])
    [].

Definition schema_pkg_apis_meta_v1_List : OpenAPIDefinition Ref :=
  MkDefinition (schema [
    description "List holds a list of objects, which may not be known by the server.";
    type ["object"];
    properties [
       ("kind", schema [
          description "Kind is a string value representing the REST resource this object represents. Servers may infer this from the endpoint the client submits requests to. Cannot be updated. In CamelCase. More info: https://git.k8s.io/community/contributors/devel/api-conventions.md#types-kinds";
          type ["string"];
          format ""]);
       ("apiVersion", schema [
          description "APIVersion defines the versioned schema of this representation of an object. Servers should convert recognized schemas to the latest internal value, and may reject unrecognized values. More info: https://git.k8s.io/community/contributors/devel/api-conventions.md#resources";
          type ["string"];
          format ""]);
       ("metadata", schema [
          description "Standard list metadata. More info: https://git.k8s.io/community/contributors/devel/api-conventions.md#types-kinds";
          refers (ref "k8s.io/apimachinery/pkg/apis/meta/v1.ListMeta")]);
       ("items", schema [
          description "List of objects";
          type ["array"];
          items (schema [refers (ref "k8s.io/apimachinery/pkg/runtime.RawExtension")])])];
    required ["items"]])
    ["k8s.io/apimachinery/pkg/apis/meta/v1.ListMeta"; "k8s.io/apimachinery/pkg/runtime.RawExtension"].

Definition schema_pkg_apis_meta_v1_ListMeta : OpenAPIDefinition Ref :=
  MkDefinition (schema [
    description "ListMeta describes metadata that synthetic resources must have, including lists and various status objects. A resource may have only one of {ObjectMeta, ListMeta}.";
    type ["object"];
    properties [
       ("selfLink", schema [
          description "selfLink is a URL representing this object. Populated by the system. Read-only.";
          type ["string"];
          format ""]);
       ("resourceVersion", schema [
          description "String that identifies the server's internal version of this object that can be used by clients to determine when objects have changed. Value must be treated as opaque by clients and passed unmodified back to the server. Populated by the system. Read-only. More info: https://git.k8s.io/community/contributors/devel/api-conventions.md#concurrency-control-and-consistency";
          type ["string"];
          format ""]);
       ("continue", schema [
          description "continue may be set if the user set a limit on the number of items returned, and indicates that the server has more data available. The value is opaque and may be used to issue another request to the endpoint that served this list to retrieve the next set of available objects. Continuing a consistent list may not be possible if the server configuration has changed or more than a few minutes have passed. The resourceVersion field returned when using this continue value will be identical to the value in the first response, unless you have received this token from an error message.";
          type ["string"];
          format ""])]])
    [].

Definition schema_pkg_apis_meta_v1_ListOptions : OpenAPIDefinition Ref :=
  MkDefinition (schema [
    description "ListOptions is the query options to a standard REST list call.";
    type ["object"];
    properties [
       ("kind", schema [
          description "Kind is a string value representing the REST resource this object represents. Servers may infer this from the endpoint the client submits requests to. Cannot be updated. In CamelCase. More info: https://git.k8s.io/community/contributors/devel/api-conventions.md#types-kinds";
          type ["string"];
          format ""]);
       ("apiVersion", schema [
          description "APIVersion defines the versioned schema of this representation of an object. Servers should convert recognized schemas to the latest internal value, and may reject unrecognized values. More info: https://git.k8s.io/community/contributors/devel/api-conventions.md#resources";
          type ["string"];
          format ""]);
       ("labelSelector", schema [
          description "A selector to restrict the list of returned objects by their labels. Defaults to everything.";
          type ["string"];
          format ""]);
       ("fieldSelector", schema [
          description "A selector to restrict the list of returned objects by their fields. Defaults to everything.";
          type ["string"];
          format ""]);
       ("includeUninitialized", schema [
          description "If true, partially initialized resources are included in the response.";
          type ["boolean"];
          format ""]);
       ("watch", schema [
          description "Watch for changes to the described resources and return them as a stream of add, update, and remove notifications. Specify resourceVersion.";
          type ["boolean"];
          format ""]);
       ("resourceVersion", schema [
          description "When specified with a watch call, shows changes that occur after that particular version of a resource. Defaults to changes from the beginning of history. When specified for list: - if unset, then the result is returned from remote storage based on quorum-read flag; - if it's 0, then we simply return what we currently have in cache, no guarantee; - if set to non zero, then the result is at least as fresh as given rv.";
          type ["string"];
          format ""]);
       ("timeoutSeconds", schema [
          description "Timeout for the list/watch call. This limits the duration of the call, regardless of any activity or inactivity.";
          type ["integer"];
          format "int64"]);
       ("limit", schema [
          description ("limit is a maximum number of responses to return for a list call. If more items exist, the server will set the `continue` field on the list metadata to a value that can be used with the same initial query to retrieve the next set of results. Setting a limit may return fewer than the requested amount of items (up to zero items) in the event all requested objects are filtered out and clients should only use the presence of the continue field to determine whether more results are available. Servers may choose not to support the limit argument and will return all of the available results. If limit is specified and the continue field is empty, clients may assume that no more results are available. This field is not supported if watch is true." +:+ nl +:+ nl +:+ "The server guarantees that the objects returned when using continue will be identical to issuing a single list call without a limit - that is, no objects created, modified, or deleted after the first request is issued will be included in any subsequent continued requests. This is sometimes referred to as a consistent snapshot, and ensures that a client that is using limit to receive smaller chunks of a very large result can ensure they see all possible objects. If objects are updated during a chunked list the version of the object that was present at the time the first list result was calculated is returned.");
          type ["integer"];
          format "int64"]);
       ("continue", schema [
          description ("The continue option should be set when retrieving more results from the server. Since this value is server defined, clients may only use the continue value from a previous query result with identical query parameters (except for the value of continue) and the server may reject a continue value it does not recognize. If the specified continue value is no longer valid whether due to expiration (generally five to fifteen minutes) or a configuration change on the server, the server will respond with a 410 ResourceExpired error together with a continue token. If the client needs a consistent list, it must restart their list without the continue field. Otherwise, the client may send another list request with the token received with the 410 error, the server will respond with a list starting from the next key, but from the latest snapshot, which is inconsistent from the previous list results - objects that are created, modified, or deleted after the first list request will be included in the response, as long as their keys are after the " +:+ dq +:+ "next key" +:+ dq +:+ "." +:+ nl +:+ nl +:+ "This field is not supported when watch is true. Clients may start a watch from the last resourceVersion value returned by the server and not miss any modifications.");
          type ["string"];
          format ""])]])
    [].

Definition schema_pkg_apis_meta_v1_MicroTime : OpenAPIDefinition Ref :=
  MkDefinition (schema [
    description "MicroTime is version of Time with microsecond level precision.";
    type MicroTime_OpenAPISchemaType;
    format MicroTime_OpenAPISchemaFormat])
    [].

Definition schema_pkg_apis_meta_v1_ObjectMeta : OpenAPIDefinition Ref :=
  MkDefinition (schema [
    description "ObjectMeta is metadata that all persisted resources must have, which includes all objects users must create.";
    type ["object"];
    properties [
       ("name", schema [
          description "Name must be unique within a namespace. Is required when creating resources, although some resources may allow a client to request the generation of an appropriate name automatically. Name is primarily intended for creation idempotence and configuration definition. Cannot be updated. More info: http://kubernetes.io/docs/user-guide/identifiers#names";
          type ["string"];
          format ""]);
       ("generateName", schema [
          description ("GenerateName is an optional prefix, used by the server, to generate a unique name ONLY IF the Name field has not been provided. If this field is used, the name returned to the client will be different than the name passed. This value will also be combined with a unique suffix. The provided value has the same validation rules as the Name field, and may be truncated by the length of the suffix required to make the value unique on the server." +:+ nl +:+ nl +:+ "If this field is specified and the generated name exists, the server will NOT return a 409 - instead, it will either return 201 Created or 500 with Reason ServerTimeout indicating a unique name could not be found in the time allotted, and the client should retry (optionally after the time indicated in the Retry-After header)." +:+ nl +:+ nl +:+ "Applied only if Name is not specified. More info: https://git.k8s.io/community/contributors/devel/api-conventions.md#idempotency");
          type ["string"];
          format ""]);
       ("namespace", schema [
          description ("Namespace defines the space within each name must be unique. An empty namespace is equivalent to the " +:+ dq +:+ "default" +:+ dq +:+ " namespace, but " +:+ dq +:+ "default" +:+ dq +:+ " is the canonical representation. Not all objects are required to be scoped to a namespace - the value of this field for those objects will be empty." +:+ nl +:+ nl +:+ "Must be a DNS_LABEL. Cannot be updated. More info: http://kubernetes.io/docs/user-guide/namespaces");
          type ["string"];
          format ""]);
       ("selfLink", schema [
          description "SelfLink is a URL representing this object. Populated by the system. Read-only.";
          type ["string"];
          format ""]);
       ("uid", schema [
          description ("UID is the unique in time and space value for this object. It is typically generated by the server on successful creation of a resource and is not allowed to change on PUT operations." +:+ nl +:+ nl +:+ "Populated by the system. Read-only. More info: http://kubernetes.io/docs/user-guide/identifiers#uids");
          type ["string"];
          format ""]);
       ("resourceVersion", schema [
          description ("An opaque value that represents the internal version of this object that can be used by clients to determine when objects have changed. May be used for optimistic concurrency, change detection, and the watch operation on a resource or set of resources. Clients must treat these values as opaque and passed unmodified back to the server. They may only be valid for a particular resource or set of resources." +:+ nl +:+ nl +:+ "Populated by the system. Read-only. Value must be treated as opaque by clients and . More info: https://git.k8s.io/community/contributors/devel/api-conventions.md#concurrency-control-and-consistency");
          type ["string"];
          format ""]);
       ("generation", schema [
          description "A sequence number representing a specific generation of the desired state. Populated by the system. Read-only.";
          type ["integer"];
          format "int64"]);
       ("creationTimestamp", schema [
          description ("CreationTimestamp is a timestamp representing the server time when this object was created. It is not guaranteed to be set in happens-before order across separate operations. Clients may not set this value. It is represented in RFC3339 form and is in UTC." +:+ nl +:+ nl +:+ "Populated by the system. Read-only. Null for lists. More info: https://git.k8s.io/community/contributors/devel/api-conventions.md#metadata");
          refers (ref "k8s.io/apimachinery/pkg/apis/meta/v1.Time")]);
       ("deletionTimestamp", schema [
          description ("DeletionTimestamp is RFC 3339 date and time at which this resource will be deleted. This field is set by the server when a graceful deletion is requested by the user, and is not directly settable by a client. The resource is expected to be deleted (no longer visible from resource lists, and not reachable by name) after the time in this field, once the finalizers list is empty. As long as the finalizers list contains items, deletion is blocked. Once the deletionTimestamp is set, this value may not be unset or be set further into the future, although it may be shortened or the resource may be deleted prior to this time. For example, a user may request that a pod is deleted in 30 seconds. The Kubelet will react by sending a graceful termination signal to the containers in the pod. After that 30 seconds, the Kubelet will send a hard termination signal (SIGKILL) to the container and after cleanup, remove the pod from the API. In the presence of network partitions, this object may still exist after this timestamp, until an administrator or automated process can determine the resource is fully terminated. If not set, graceful deletion of the object has not been requested." +:+ nl +:+ nl +:+ "Populated by the system when a graceful deletion is requested. Read-only. More info: https://git.k8s.io/community/contributors/devel/api-conventions.md#metadata");
          refers (ref "k8s.io/apimachinery/pkg/apis/meta/v1.Time")]);
       ("deletionGracePeriodSeconds", schema [
          description "Number of seconds allowed for this object to gracefully terminate before it will be removed from the system. Only set when deletionTimestamp is also set. May only be shortened. Read-only.";
          type ["integer"];
          format "int64"]);
       ("labels", schema [
          description "Map of string keys and values that can be used to organize and categorize (scope and select) objects. May match selectors of replication controllers and services. More info: http://kubernetes.io/docs/user-guide/labels";
          type ["object"];
          additional (schema [type ["string"]; format ""])]);
       ("annotations", schema [
          description "Annotations is an unstructured key value map stored with a resource that may be set by external tools to store and retrieve arbitrary metadata. They are not queryable and should be preserved when modifying objects. More info: http://kubernetes.io/docs/user-guide/annotations";
          type ["object"];
          additional (schema [type ["string"]; format ""])]);
       ("ownerReferences", schema [
          extensions [("x-kubernetes-patch-merge-key", "uid"); ("x-kubernetes-patch-strategy", "merge")];
          description "List of objects depended by this object. If ALL objects in the list have been deleted, this object will be garbage collected. If this object is managed by a controller, then an entry in this list will point to this controller, with the controller field set to true. There cannot be more than one managing controller.";
          type ["array"];
          items (schema [refers (ref "k8s.io/apimachinery/pkg/apis/meta/v1.OwnerReference")])]);
       ("initializers", schema [
          description ("An initializer is a controller which enforces some system invariant at object creation time. This field is a list of initializers that have not yet acted on this object. If nil or empty, this object has been completely initialized. Otherwise, the object is considered uninitialized and is hidden (in list/watch and get calls) from clients that haven't explicitly asked to observe uninitialized objects." +:+ nl +:+ nl +:+ "When an object is created, the system will populate this list with the current set of initializers. Only privileged users may set or modify this list. Once it is empty, it may not be modified further by any user.");
          refers (ref "k8s.io/apimachinery/pkg/apis/meta/v1.Initializers")]);
       ("finalizers", schema [
          extensions [("x-kubernetes-patch-strategy", "merge")];
          description "Must be empty before the object is deleted from the registry. Each entry is an identifier for the responsible component that will remove the entry from the list. If the deletionTimestamp of the object is non-nil, entries in this list can only be removed.";
          type ["array"];
          items (schema [type ["string"]; format ""])]);
       ("clusterName", schema [
          description "The name of the cluster which the object belongs to. This is used to distinguish resources with same name and namespace in different clusters. This field is not set anywhere right now and apiserver is going to ignore it if set in create or update request.";
          type ["string"];
          format ""])]])
    ["k8s.io/apimachinery/pkg/apis/meta/v1.Initializers"; "k8s.io/apimachinery/pkg/apis/meta/v1.OwnerReference"; "k8s.io/apimachinery/pkg/apis/meta/v1.Time"].

Definition schema_pkg_apis_meta_v1_OwnerReference : OpenAPIDefinition Ref :=
  MkDefinition (schema [
    description "OwnerReference contains enough information to let you identify an owning object. Currently, an owning object must be in the same namespace, so there is no namespace field.";
    type ["object"];
    properties [
       ("apiVersion", schema [description "API version of the referent."; type ["string"]; format ""]);
       ("kind", schema [
          description "Kind of the referent. More info: https://git.k8s.io/community/contributors/devel/api-conventions.md#types-kinds";
          type ["string"];
          format ""]);
       ("name", schema [
          description "Name of the referent. More info: http://kubernetes.io/docs/user-guide/identifiers#names";
          type ["string"];
          format ""]);
       ("uid", schema [
          description "UID of the referent. More info: http://kubernetes.io/docs/user-guide/identifiers#uids";
          type ["string"];
          format ""]);
       ("controller", schema [
          description "If true, this reference points to the managing controller.";
          type ["boolean"];
          format ""]);
       ("blockOwnerDeletion", schema [
          description ("If true, AND if the owner has the " +:+ dq +:+ "foregroundDeletion" +:+ dq +:+ " finalizer, then the owner cannot be deleted from the key-value store until this reference is removed. Defaults to false. To set this field, a user needs " +:+ dq +:+ "delete" +:+ dq +:+ " permission of the owner, otherwise 422 (Unprocessable Entity) will be returned.");
          type ["boolean"];
          format ""])];
    required ["apiVersion"; "kind"; "name"; "uid"]])
    [].

Definition schema_pkg_apis_meta_v1_Patch : OpenAPIDefinition Ref :=
  MkDefinition (schema [
    description "Patch is provided to give a concrete name and type to the Kubernetes PATCH request body.";
    type ["object"];
    properties []])
    [].

Definition schema_pkg_apis_meta_v1_Preconditions : OpenAPIDefinition Ref :=
  MkDefinition (schema [
    description "Preconditions must be fulfilled before an operation (update, delete, etc.) is carried out.";
    type ["object"];
    properties [
       ("uid", schema [description "Specifies the target UID."; type ["string"]; format ""])]])
    [].

Definition schema_pkg_apis_meta_v1_RootPaths : OpenAPIDefinition Ref :=
  MkDefinition (schema [
    description ("RootPaths lists the paths available at root. For example: " +:+ dq +:+ "/healthz" +:+ dq +:+ ", " +:+ dq +:+ "/apis" +:+ dq +:+ ".");
    type ["object"];
    properties [
       ("paths", schema [
          description "paths are the paths available at root.";
          type ["array"];
          items (schema [type ["string"]; format ""])])];
    required ["paths"]])
    [].

Definition schema_pkg_apis_meta_v1_ServerAddressByClientCIDR : OpenAPIDefinition Ref :=
  MkDefinition (schema [
    description "ServerAddressByClientCIDR helps the client to determine the server address that they should use, depending on the clientCIDR that they match.";
    type ["object"];
    properties [
       ("clientCIDR", schema [
          description "The CIDR with which clients can match their IP to figure out the server address that they should use.";
          type ["string"];
          format ""]);
       ("serverAddress", schema [
          description "Address of this server, suitable for a client that matches the above CIDR. This can be a hostname, hostname:port, IP or IP:port.";
          type ["string"];
          format ""])];
    required ["clientCIDR"; "serverAddress"]])
    [].

Definition schema_pkg_apis_meta_v1_Status : OpenAPIDefinition Ref :=
  MkDefinition (schema [
    description "Status is a return value for calls that don't return other objects.";
    type ["object"];
    properties [
       ("kind", schema [
          description "Kind is a string value representing the REST resource this object represents. Servers may infer this from the endpoint the client submits requests to. Cannot be updated. In CamelCase. More info: https://git.k8s.io/community/contributors/devel/api-conventions.md#types-kinds";
          type ["string"];
          format ""]);
       ("apiVersion", schema [
          description "APIVersion defines the versioned schema of this representation of an object. Servers should convert recognized schemas to the latest internal value, and may reject unrecognized values. More info: https://git.k8s.io/community/contributors/devel/api-conventions.md#resources";
          type ["string"];
          format ""]);
       ("metadata", schema [
          description "Standard list metadata. More info: https://git.k8s.io/community/contributors/devel/api-conventions.md#types-kinds";
          refers (ref "k8s.io/apimachinery/pkg/apis/meta/v1.ListMeta")]);
       ("status", schema [
          description ("Status of the operation. One of: " +:+ dq +:+ "Success" +:+ dq +:+ " or " +:+ dq +:+ "Failure" +:+ dq +:+ ". More info: https://git.k8s.io/community/contributors/devel/api-conventions.md#spec-and-status");
          type ["string"];
          format ""]);
       ("message", schema [
          description "A human-readable description of the status of this operation.";
          type ["string"];
          format ""]);
       ("reason", schema [
          description ("A machine-readable description of why this operation is in the " +:+ dq +:+ "Failure" +:+ dq +:+ " status. If this value is empty there is no information available. A Reason clarifies an HTTP status code but does not override it.");
          type ["string"];
          format ""]);
       ("details", schema [
          description "Extended data associated with the reason.  Each reason may define its own extended details. This field is optional and the data returned is not guaranteed to conform to any schema except that defined by the reason type.";
          refers (ref "k8s.io/apimachinery/pkg/apis/meta/v1.StatusDetails")]);
       ("code", schema [
          description "Suggested HTTP return code for this status, 0 if not set.";
          type ["integer"];
          format "int32"])]])
    ["k8s.io/apimachinery/pkg/apis/meta/v1.ListMeta"; "k8s.io/apimachinery/pkg/apis/meta/v1.StatusDetails"].

Definition schema_pkg_apis_meta_v1_StatusCause : OpenAPIDefinition Ref :=
  MkDefinition (schema [
    description "StatusCause provides more information about an api.Status failure, including cases when multiple errors are encountered.";
    type ["object"];
    properties [
       ("reason", schema [
          description "A machine-readable description of the cause of the error. If this value is empty there is no information available.";
          type ["string"];
          format ""]);
       ("message", schema [
          description "A human-readable description of the cause of the error.  This field may be presented as-is to a reader.";
          type ["string"];
          format ""]);
       ("field", schema [
          description ("The field of the resource that has caused this error, as named by its JSON serialization. May include dot and postfix notation for nested attributes. Arrays are zero-indexed.  Fields may appear more than once in an array of causes due to fields having multiple errors. Optional." +:+ nl +:+ nl +:+ "Examples:" +:+ nl +:+ "  " +:+ dq +:+ "name" +:+ dq +:+ " - the field " +:+ dq +:+ "name" +:+ dq +:+ " on the current resource" +:+ nl +:+ "  " +:+ dq +:+ "items[0].name" +:+ dq +:+ " - the field " +:+ dq +:+ "name" +:+ dq +:+ " on the first array entry in " +:+ dq +:+ "items" +:+ dq);
          type ["string"];
          format ""])]])
    [].

Definition schema_pkg_apis_meta_v1_StatusDetails : OpenAPIDefinition Ref :=
  MkDefinition (schema [
    description "StatusDetails is a set of additional properties that MAY be set by the server to provide additional information about a response. The Reason field of a Status object defines what attributes will be set. Clients must ignore fields that do not match the defined type of each attribute, and should assume that any attribute may be empty, invalid, or under defined.";
    type ["object"];
    properties [
       ("name", schema [
          description "The name attribute of the resource associated with the status StatusReason (when there is a single name which can be described).";
          type ["string"];
          format ""]);
       ("group", schema [
          description "The group attribute of the resource associated with the status StatusReason.";
          type ["string"];
          format ""]);
       ("kind", schema [
          description "The kind attribute of the resource associated with the status StatusReason. On some operations may differ from the requested resource Kind. More info: https://git.k8s.io/community/contributors/devel/api-conventions.md#types-kinds";
          type ["string"];
          format ""]);
       ("uid", schema [
          description "UID of the resource. (when there is a single resource which can be described). More info: http://kubernetes.io/docs/user-guide/identifiers#uids";
          type ["string"];
          format ""]);
       ("causes", schema [
          description "The Causes array includes more details associated with the StatusReason failure. Not all StatusReasons may provide detailed causes.";
          type ["array"];
          items (schema [refers (ref "k8s.io/apimachinery/pkg/apis/meta/v1.StatusCause")])]);
       ("retryAfterSeconds", schema [
          description "If specified, the time in seconds before the operation should be retried. Some errors may indicate the client must take an alternate action - for those errors this field may indicate how long to wait before taking the alternate action.";
          type ["integer"];
          format "int32"])]])
    ["k8s.io/apimachinery/pkg/apis/meta/v1.StatusCause"].

Definition schema_pkg_apis_meta_v1_Time : OpenAPIDefinition Ref :=
  MkDefinition (schema [
    description "Time is a wrapper around time.Time which supports correct marshaling to YAML and JSON.  Wrappers are provided for many of the factory methods that the time package offers.";
    type Time_OpenAPISchemaType;
    format Time_OpenAPISchemaFormat])
    [].

Definition schema_pkg_apis_meta_v1_Timestamp : OpenAPIDefinition Ref :=
  MkDefinition (schema [
    description "Timestamp is a struct that is equivalent to Time, but intended for protobuf marshalling/unmarshalling. It is generated into a serialization that matches Time. Do not use in Go structs.";
    type ["object"];
    properties [
       ("seconds", schema [
          description "Represents seconds of UTC time since Unix epoch 1970-01-01T00:00:00Z. Must be from 0001-01-01T00:00:00Z to 9999-12-31T23:59:59Z inclusive.";
          type ["integer"];
          format "int64"]);
       ("nanos", schema [
          description "Non-negative fractions of a second at nanosecond resolution. Negative second values with fractions must still have non-negative nanos values that count forward in time. Must be from 0 to 999,999,999 inclusive. This field may be limited in precision depending on context.";
          type ["integer"];
          format "int32"])];
    required ["seconds"; "nanos"]])
    [].

Definition schema_pkg_apis_meta_v1_TypeMeta : OpenAPIDefinition Ref :=
  MkDefinition (schema [
    description "TypeMeta describes an individual object in an API response or request with strings representing the type of the object and its API schema version. Structures that are versioned or persisted should inline TypeMeta.";
    type ["object"];
    properties [
       ("kind", schema [
          description "Kind is a string value representing the REST resource this object represents. Servers may infer this from the endpoint the client submits requests to. Cannot be updated. In CamelCase. More info: https://git.k8s.io/community/contributors/devel/api-conventions.md#types-kinds";
          type ["string"];
          format ""]);
       ("apiVersion", schema [
          description "APIVersion defines the versioned schema of this representation of an object. Servers should convert recognized schemas to the latest internal value, and may reject unrecognized values. More info: https://git.k8s.io/community/contributors/devel/api-conventions.md#resources";
          type ["string"];
          format ""])]])
    [].

Definition schema_pkg_apis_meta_v1_UpdateOptions : OpenAPIDefinition Ref :=
  MkDefinition (schema [
    description "UpdateOptions may be provided when updating an API object.";
    type ["object"];
    properties [
       ("kind", schema [
          description "Kind is a string value representing the REST resource this object represents. Servers may infer this from the endpoint the client submits requests to. Cannot be updated. In CamelCase. More info: https://git.k8s.io/community/contributors/devel/api-conventions.md#types-kinds";
          type ["string"];
          format ""]);
       ("apiVersion", schema [
          description "APIVersion defines the versioned schema of this representation of an object. Servers should convert recognized schemas to the latest internal value, and may reject unrecognized values. More info: https://git.k8s.io/community/contributors/devel/api-conventions.md#resources";
          type ["string"];
          format ""]);
       ("dryRun", schema [
          description "When present, indicates that modifications should not be persisted. An invalid or unrecognized dryRun directive will result in an error response and no further processing of the request. Valid values are: - All: all dry run stages will be processed";
          type ["array"];
          items (schema [type ["string"]; format ""])])]])
    [].

Definition schema_pkg_apis_meta_v1_WatchEvent : OpenAPIDefinition Ref :=
  MkDefinition (schema [
    description "Event represents a single event to a watched resource.";
    type ["object"];
    properties [
       ("type", schema [type ["string"]; format ""]);
       ("object", schema [
          description ("Object is:" +:+ nl +:+ " * If Type is Added or Modified: the new state of the object." +:+ nl +:+ " * If Type is Deleted: the state of the object immediately before deletion." +:+ nl +:+ " * If Type is Error: *Status is recommended; other types may make sense" +:+ nl +:+ "   depending on context.");
          refers (ref "k8s.io/apimachinery/pkg/runtime.RawExtension")])];
    required ["type"; "object"]])
    ["k8s.io/apimachinery/pkg/runtime.RawExtension"].

Definition schema_k8sio_apimachinery_pkg_runtime_RawExtension : OpenAPIDefinition Ref :=
  MkDefinition (schema [
    description ("RawExtension is used to hold extensions in external versions." +:+ nl +:+ nl +:+ "To use this, make a field which has RawExtension as its type in your external, versioned struct, and Object in your internal struct. You also need to register your various plugin types." +:+ nl +:+ nl +:+ "// Internal package: type MyAPIObject struct {" +:+ nl +:+ tab +:+ "runtime.TypeMeta `json:" +:+ dq +:+ ",inline" +:+ dq +:+ "`" +:+ nl +:+ tab +:+ "MyPlugin runtime.Object `json:" +:+ dq +:+ "myPlugin" +:+ dq +:+ "`" +:+ nl +:+ "} type PluginA struct {" +:+ nl +:+ tab +:+ "AOption string `json:" +:+ dq +:+ "aOption" +:+ dq +:+ "`" +:+ nl +:+ "}" +:+ nl +:+ nl +:+ "// External package: type MyAPIObject struct {" +:+ nl +:+ tab +:+ "runtime.TypeMeta `json:" +:+ dq +:+ ",inline" +:+ dq +:+ "`" +:+ nl +:+ tab +:+ "MyPlugin runtime.RawExtension `json:" +:+ dq +:+ "myPlugin" +:+ dq +:+ "`" +:+ nl +:+ "} type PluginA struct {" +:+ nl +:+ tab +:+ "AOption string `json:" +:+ dq +:+ "aOption" +:+ dq +:+ "`" +:+ nl +:+ "}" +:+ nl +:+ nl +:+ "// On the wire, the JSON will look something like this: {" +:+ nl +:+ tab +:+ dq +:+ "kind" +:+ dq +:+ ":" +:+ dq +:+ "MyAPIObject" +:+ dq +:+ "," +:+ nl +:+ tab +:+ dq +:+ "apiVersion" +:+ dq +:+ ":" +:+ dq +:+ "v1" +:+ dq +:+ "," +:+ nl +:+ tab +:+ dq +:+ "myPlugin" +:+ dq +:+ ": {" +:+ nl +:+ tab +:+ tab +:+ dq +:+ "kind" +:+ dq +:+ ":" +:+ dq +:+ "PluginA" +:+ dq +:+ "," +:+ nl +:+ tab +:+ tab +:+ dq +:+ "aOption" +:+ dq +:+ ":" +:+ dq +:+ "foo" +:+ dq +:+ "," +:+ nl +:+ tab +:+ "}," +:+ nl +:+ "}" +:+ nl +:+ nl +:+ "So what happens? Decode first uses json or yaml to unmarshal the serialized data into your external MyAPIObject. That causes the raw JSON to be stored, but not unpacked. The next step is to copy (using pkg/conversion) into the internal struct. The runtime package's DefaultScheme has conversion functions installed which will unpack the JSON stored in RawExtension, turning it into the correct object type, and storing it in the Object. (TODO: In the case where the object is of an unknown type, a runtime.Unknown object will be created and stored.)");
    type ["object"];
    properties [
       ("Raw", schema [
          description "Raw is the underlying serialization of this object.";
          type ["string"];
          format "byte"])];
    required ["Raw"]])
    [].

Definition schema_k8sio_apimachinery_pkg_runtime_TypeMeta : OpenAPIDefinition Ref :=
  MkDefinition (schema [
    description ("TypeMeta is shared by all top level objects. The proper way to use it is to inline it in your type, like this: type MyAwesomeAPIObject struct {" +:+ nl +:+ "     runtime.TypeMeta    `json:" +:+ dq +:+ ",inline" +:+ dq +:+ "`" +:+ nl +:+ "     ... // other fields" +:+ nl +:+ "} func (obj *MyAwesomeAPIObject) SetGroupVersionKind(gvk *metav1.GroupVersionKind) { metav1.UpdateTypeMeta(obj,gvk) }; GroupVersionKind() *GroupVersionKind" +:+ nl +:+ nl +:+ "TypeMeta is provided here for convenience. You may use it directly from this package or define your own with the same fields.");
    type ["object"];
    properties [
       ("apiVersion", schema [type ["string"]; format ""]);
       ("kind", schema [type ["string"]; format ""])]])
    [].

Definition schema_k8sio_apimachinery_pkg_runtime_Unknown : OpenAPIDefinition Ref :=
  MkDefinition (schema [
    description "Unknown allows api objects with unknown types to be passed-through. This can be used to deal with the API objects from a plug-in. Unknown objects still have functioning TypeMeta features-- kind, version, etc. metadata and field mutatation.";
    type ["object"];
    properties [
       ("apiVersion", schema [type ["string"]; format ""]);
       ("kind", schema [type ["string"]; format ""]);
       ("Raw", schema [
          description "Raw will hold the complete serialized object which couldn't be matched with a registered type. Most likely, nothing should be done with this except for passing it through the system.";
          type ["string"];
          format "byte"]);
       ("ContentEncoding", schema [
          description "ContentEncoding is encoding used to encode 'Raw' data. Unspecified means no encoding.";
          type ["string"];
          format ""]);
       ("ContentType", schema [
          description "ContentType  is serialization method used to serialize 'Raw'. Unspecified means ContentTypeJSON.";
          type ["string"];
          format ""])];
    required ["Raw"; "ContentEncoding"; "ContentType"]])
    [].

Definition schema_k8sio_apimachinery_pkg_version_Info : OpenAPIDefinition Ref :=
  MkDefinition (schema [
    description "Info contains versioning information. how we'll want to distribute that information.";
    type ["object"];
    properties [
       ("major", schema [type ["string"]; format ""]);
       ("minor", schema [type ["string"]; format ""]);
       ("gitVersion", schema [type ["string"]; format ""]);
       ("gitCommit", schema [type ["string"]; format ""]);
       ("gitTreeState", schema [type ["string"]; format ""]);
       ("buildDate", schema [type ["string"]; format ""]);
       ("goVersion", schema [type ["string"]; format ""]);
       ("compiler", schema [type ["string"]; format ""]);
       ("platform", schema [type ["string"]; format ""])];
    required ["major"; "minor"; "gitVersion"; "gitCommit"; "gitTreeState"; "buildDate"; "goVersion"; "compiler"; "platform"]])
    [].

Definition schema_pkg_apis_network_v1alpha1_ExecReport : OpenAPIDefinition Ref :=
  MkDefinition (schema [
    description "ExecReport reports on what happened when a command was execd.";
    type ["object"];
    properties [
       ("exitStatus", schema [
          description "ExitStatus is the Linux exit status from the command, or a negative number to signal a prior problem (detailed in StdErr).";
          type ["integer"];
          format "int32"]);
       ("startTime", schema [refers (ref "k8s.io/apimachinery/pkg/apis/meta/v1.Time")]);
       ("stopTime", schema [refers (ref "k8s.io/apimachinery/pkg/apis/meta/v1.Time")]);
       ("stdOut", schema [type ["string"]; format ""]);
       ("stdErr", schema [type ["string"]; format ""])];
    required ["exitStatus"; "stdOut"; "stdErr"]])
    ["k8s.io/apimachinery/pkg/apis/meta/v1.Time"].

Definition schema_pkg_apis_network_v1alpha1_IPLock : OpenAPIDefinition Ref :=
  MkDefinition (schema [
    type ["object"];
    properties [
       ("kind", schema [
          description "Kind is a string value representing the REST resource this object represents. Servers may infer this from the endpoint the client submits requests to. Cannot be updated. In CamelCase. More info: https://git.k8s.io/community/contributors/devel/api-conventions.md#types-kinds";
          type ["string"];
          format ""]);
       ("apiVersion", schema [
          description "APIVersion defines the versioned schema of this representation of an object. Servers should convert recognized schemas to the latest internal value, and may reject unrecognized values. More info: https://git.k8s.io/community/contributors/devel/api-conventions.md#resources";
          type ["string"];
          format ""]);
       ("metadata", schema [refers (ref "k8s.io/apimachinery/pkg/apis/meta/v1.ObjectMeta")]);
       ("spec", schema [refers (ref "k8s.io/examples/staging/kos/pkg/apis/network/v1alpha1.IPLockSpec")])];
    required ["spec"]])
    ["k8s.io/apimachinery/pkg/apis/meta/v1.ObjectMeta"; "k8s.io/examples/staging/kos/pkg/apis/network/v1alpha1.IPLockSpec"].

Definition schema_pkg_apis_network_v1alpha1_IPLockList : OpenAPIDefinition Ref :=
  MkDefinition (schema [
    description "IPLockList is a list of IPLock objects.";
    type ["object"];
    properties [
       ("kind", schema [
          description "Kind is a string value representing the REST resource this object represents. Servers may infer this from the endpoint the client submits requests to. Cannot be updated. In CamelCase. More info: https://git.k8s.io/community/contributors/devel/api-conventions.md#types-kinds";
          type ["string"];
          format ""]);
       ("apiVersion", schema [
          description "APIVersion defines the versioned schema of this representation of an object. Servers should convert recognized schemas to the latest internal value, and may reject unrecognized values. More info: https://git.k8s.io/community/contributors/devel/api-conventions.md#resources";
          type ["string"];
          format ""]);
       ("metadata", schema [refers (ref "k8s.io/apimachinery/pkg/apis/meta/v1.ListMeta")]);
       ("items", schema [
          type ["array"];
          items (schema [refers (ref "k8s.io/examples/staging/kos/pkg/apis/network/v1alpha1.IPLock")])])];
    required ["items"]])
    ["k8s.io/apimachinery/pkg/apis/meta/v1.ListMeta"; "k8s.io/examples/staging/kos/pkg/apis/network/v1alpha1.IPLock"].

Definition schema_pkg_apis_network_v1alpha1_IPLockSpec : OpenAPIDefinition Ref :=
  MkDefinition (schema [
    type ["object"];
    properties [
       ("subnetName", schema [type ["string"]; format ""])];
    required ["subnetName"]])
    [].

Definition schema_pkg_apis_network_v1alpha1_NetworkAttachment : OpenAPIDefinition Ref :=
  MkDefinition (schema [
    type ["object"];
    properties [
       ("kind", schema [
          description "Kind is a string value representing the REST resource this object represents. Servers may infer this from the endpoint the client submits requests to. Cannot be updated. In CamelCase. More info: https://git.k8s.io/community/contributors/devel/api-conventions.md#types-kinds";
          type ["string"];
          format ""]);
       ("apiVersion", schema [
          description "APIVersion defines the versioned schema of this representation of an object. Servers should convert recognized schemas to the latest internal value, and may reject unrecognized values. More info: https://git.k8s.io/community/contributors/devel/api-conventions.md#resources";
          type ["string"];
          format ""]);
       ("metadata", schema [refers (ref "k8s.io/apimachinery/pkg/apis/meta/v1.ObjectMeta")]);
       ("spec", schema [
          refers (ref "k8s.io/examples/staging/kos/pkg/apis/network/v1alpha1.NetworkAttachmentSpec")]);
       ("status", schema [
          refers (ref "k8s.io/examples/staging/kos/pkg/apis/network/v1alpha1.NetworkAttachmentStatus")])];
    required ["spec"]])
    ["k8s.io/apimachinery/pkg/apis/meta/v1.ObjectMeta"; "k8s.io/examples/staging/kos/pkg/apis/network/v1alpha1.NetworkAttachmentSpec"; "k8s.io/examples/staging/kos/pkg/apis/network/v1alpha1.NetworkAttachmentStatus"].

Definition schema_pkg_apis_network_v1alpha1_NetworkAttachmentErrors : OpenAPIDefinition Ref :=
  MkDefinition (schema [
    type ["object"];
    properties [
       ("ipam", schema [
          extensions [("x-kubernetes-patch-strategy", "replace")];
          description "IPAM holds errors about the IP Address Management for this attachment.";
          type ["array"];
          items (schema [type ["string"]; format ""])]);
       ("host", schema [
          extensions [("x-kubernetes-patch-strategy", "replace")];
          description "Host holds errors from the node where this attachment is placed.";
          type ["array"];
          items (schema [type ["string"]; format ""])])]])
    [].

Definition schema_pkg_apis_network_v1alpha1_NetworkAttachmentList : OpenAPIDefinition Ref :=
  MkDefinition (schema [
    description "NetworkAttachmentList is a list of NetworkAttachment objects.";
    type ["object"];
    properties [
       ("kind", schema [
          description "Kind is a string value representing the REST resource this object represents. Servers may infer this from the endpoint the client submits requests to. Cannot be updated. In CamelCase. More info: https://git.k8s.io/community/contributors/devel/api-conventions.md#types-kinds";
          type ["string"];
          format ""]);
       ("apiVersion", schema [
          description "APIVersion defines the versioned schema of this representation of an object. Servers should convert recognized schemas to the latest internal value, and may reject unrecognized values. More info: https://git.k8s.io/community/contributors/devel/api-conventions.md#resources";
          type ["string"];
          format ""]);
       ("metadata", schema [refers (ref "k8s.io/apimachinery/pkg/apis/meta/v1.ListMeta")]);
       ("items", schema [
          type ["array"];
          items (schema [refers (ref "k8s.io/examples/staging/kos/pkg/apis/network/v1alpha1.NetworkAttachment")])])];
    required ["items"]])
    ["k8s.io/apimachinery/pkg/apis/meta/v1.ListMeta"; "k8s.io/examples/staging/kos/pkg/apis/network/v1alpha1.NetworkAttachment"].

Definition schema_pkg_apis_network_v1alpha1_NetworkAttachmentSpec : OpenAPIDefinition Ref :=
  MkDefinition (schema [
    type ["object"];
    properties [
       ("node", schema [
          description "Node is the name of the node where the attachment should appear";
          type ["string"];
          format ""]);
       ("subnet", schema [
          description "Subnet is the object name of the subnet of this attachment";
          type ["string"];
          format ""]);
       ("postCreateExec", schema [
          extensions [("x-kubernetes-patch-strategy", "replace")];
          description "PostCreateExec is a command to exec inside the attachment host's connection agent container after the Linux network interface is created.  Precisely: if a local NetworkAttachment is in the network fabric, has a non-empty PostCreateExec, and that command has not yet been launched then the command is launched and, upon completion, the results reported through the NetworkAttachmentStatus PostCreateExecReport field.  The connection agent is configured with a set of allowed programs to invoke.  If a non-allowed program is requested then the result will report an error.  Each argument is subjected to a very restricted form of variable expansion.  The only allowed syntax is `${variableName}` and the only variables are `ifname`, `ipv4`, and `mac`.";
          type ["array"];
          items (schema [type ["string"]; format ""])]);
       ("postDeleteExec", schema [
          extensions [("x-kubernetes-patch-strategy", "replace")];
          description "PostDeleteExec is a command to exec inside the attachment host's connection agent container after the attachment's Linux network interface is deleted.  Precisely: if a local NetworkAttachment is not in the network fabric, has a PostCreateExec that has been started, has a non-empty PostDeleteExec, and the PostCreateExec has not yet been launched then that command will be launched.  The result is not reported in the status of the NetworkAttachment (it may be deleted by then).  The same restrictions and variable expansions as for PostCreateExec are applied.";
          type ["array"];
          items (schema [type ["string"]; format ""])])];
    required ["node"; "subnet"]])
    [].

Definition schema_pkg_apis_network_v1alpha1_NetworkAttachmentStatus : OpenAPIDefinition Ref :=
  MkDefinition (schema [
    type ["object"];
    properties [
       ("errors", schema [
          refers (ref "k8s.io/examples/staging/kos/pkg/apis/network/v1alpha1.NetworkAttachmentErrors")]);
       ("lockUID", schema [
          description "LockUID is the UID of the IPLock object holding this attachment's IP address, or the empty string when there is no address. This field is a private detail of the implementation, not really part of the public API.";
          type ["string"];
          format ""]);
       ("addressVNI", schema [
          description "AddressVNI is the VNI associated with this attachment's IP address assignment, or the empty string when there is no address.";
          type ["integer"];
          format "int64"]);
       ("ipv4", schema [
          description "IPv4 is non-empty when an address has been assigned.";
          type ["string"];
          format ""]);
       ("macAddress", schema [
          description "MACAddress is non-empty while there is a corresponding Linux network interface on the host.";
          type ["string"];
          format ""]);
       ("ifcName", schema [
          description "IfcName is the name of the network interface that implements this attachment on its node, or the empty string to indicate no implementation.";
          type ["string"];
          format ""]);
       ("hostIP", schema [
          description "HostIP is the IP address of the node the attachment is bound to.";
          type ["string"];
          format ""]);
       ("postCreateExecReport", schema [
          description "PostCreateExecReport, if non-nil, reports on the run of the PostCreateExec.";
          refers (ref "k8s.io/examples/staging/kos/pkg/apis/network/v1alpha1.ExecReport")])]])
    ["k8s.io/examples/staging/kos/pkg/apis/network/v1alpha1.ExecReport"; "k8s.io/examples/staging/kos/pkg/apis/network/v1alpha1.NetworkAttachmentErrors"].

Definition schema_pkg_apis_network_v1alpha1_Subnet : OpenAPIDefinition Ref :=
  MkDefinition (schema [
    type ["object"];
    properties [
       ("kind", schema [
          description "Kind is a string value representing the REST resource this object represents. Servers may infer this from the endpoint the client submits requests to. Cannot be updated. In CamelCase. More info: https://git.k8s.io/community/contributors/devel/api-conventions.md#types-kinds";
          type ["string"];
          format ""]);
       ("apiVersion", schema [
          description "APIVersion defines the versioned schema of this representation of an object. Servers should convert recognized schemas to the latest internal value, and may reject unrecognized values. More info: https://git.k8s.io/community/contributors/devel/api-conventions.md#resources";
          type ["string"];
          format ""]);
       ("metadata", schema [refers (ref "k8s.io/apimachinery/pkg/apis/meta/v1.ObjectMeta")]);
       ("spec", schema [refers (ref "k8s.io/examples/staging/kos/pkg/apis/network/v1alpha1.SubnetSpec")]);
       ("status", schema [refers (ref "k8s.io/examples/staging/kos/pkg/apis/network/v1alpha1.SubnetStatus")])];
    required ["spec"]])
    ["k8s.io/apimachinery/pkg/apis/meta/v1.ObjectMeta"; "k8s.io/examples/staging/kos/pkg/apis/network/v1alpha1.SubnetSpec"; "k8s.io/examples/staging/kos/pkg/apis/network/v1alpha1.SubnetStatus"].

Definition schema_pkg_apis_network_v1alpha1_SubnetList : OpenAPIDefinition Ref :=
  MkDefinition (schema [
    description "SubnetList is a list of Subnet objects.";
    type ["object"];
    properties [
       ("kind", schema [
          description "Kind is a string value representing the REST resource this object represents. Servers may infer this from the endpoint the client submits requests to. Cannot be updated. In CamelCase. More info: https://git.k8s.io/community/contributors/devel/api-conventions.md#types-kinds";
          type ["string"];
          format ""]);
       ("apiVersion", schema [
          description "APIVersion defines the versioned schema of this representation of an object. Servers should convert recognized schemas to the latest internal value, and may reject unrecognized values. More info: https://git.k8s.io/community/contributors/devel/api-conventions.md#resources";
          type ["string"];
          format ""]);
       ("metadata", schema [refers (ref "k8s.io/apimachinery/pkg/apis/meta/v1.ListMeta")]);
       ("items", schema [
          type ["array"];
          items (schema [refers (ref "k8s.io/examples/staging/kos/pkg/apis/network/v1alpha1.Subnet")])])];
    required ["items"]])
    ["k8s.io/apimachinery/pkg/apis/meta/v1.ListMeta"; "k8s.io/examples/staging/kos/pkg/apis/network/v1alpha1.Subnet"].

Definition schema_pkg_apis_network_v1alpha1_SubnetSpec : OpenAPIDefinition Ref :=
  MkDefinition (schema [
    description "SubnetSpec is the desired state of a subnet. For a given VNI, all the subnets having that VNI: - have disjoint IP ranges, and - are in the same Kubernetes API namespace.";
    type ["object"];
    properties [
       ("ipv4", schema [
          description "IPv4 is the CIDR notation for the v4 address range of this subnet.";
          type ["string"];
          format ""]);
       ("vni", schema [
          description "VNI identifies the virtual network. Valid values are in the range [1,2097151].";
          type ["integer"];
          format "int64"])];
    required ["ipv4"; "vni"]])
    [].

Definition schema_pkg_apis_network_v1alpha1_SubnetStatus : OpenAPIDefinition Ref :=
  MkDefinition (schema [
    type ["object"];
    properties [
       ("errors", schema [
          extensions [("x-kubernetes-patch-strategy", "replace")];
          description "Errors are the complaints, if any, from the IPAM controller.";
          type ["array"];
          items (schema [type ["string"]; format ""])])]])
    [].

Definition definitions : list (string * OpenAPIDefinition Ref) := [
    ("k8s.io/apimachinery/pkg/apis/meta/v1.APIGroup", schema_pkg_apis_meta_v1_APIGroup);
    ("k8s.io/apimachinery/pkg/apis/meta/v1.APIGroupList", schema_pkg_apis_meta_v1_APIGroupList);
    ("k8s.io/apimachinery/pkg/apis/meta/v1.APIResource", schema_pkg_apis_meta_v1_APIResource);
    ("k8s.io/apimachinery/pkg/apis/meta/v1.APIResourceList", schema_pkg_apis_meta_v1_APIResourceList);
    ("k8s.io/apimachinery/pkg/apis/meta/v1.APIVersions", schema_pkg_apis_meta_v1_APIVersions);
    ("k8s.io/apimachinery/pkg/apis/meta/v1.CreateOptions", schema_pkg_apis_meta_v1_CreateOptions);
    ("k8s.io/apimachinery/pkg/apis/meta/v1.DeleteOptions", schema_pkg_apis_meta_v1_DeleteOptions);
    ("k8s.io/apimachinery/pkg/apis/meta/v1.Duration", schema_pkg_apis_meta_v1_Duration);
    ("k8s.io/apimachinery/pkg/apis/meta/v1.ExportOptions", schema_pkg_apis_meta_v1_ExportOptions);
    ("k8s.io/apimachinery/pkg/apis/meta/v1.GetOptions", schema_pkg_apis_meta_v1_GetOptions);
    ("k8s.io/apimachinery/pkg/apis/meta/v1.GroupKind", schema_pkg_apis_meta_v1_GroupKind);
    ("k8s.io/apimachinery/pkg/apis/meta/v1.GroupResource", schema_pkg_apis_meta_v1_GroupResource);
    ("k8s.io/apimachinery/pkg/apis/meta/v1.GroupVersion", schema_pkg_apis_meta_v1_GroupVersion);
    ("k8s.io/apimachinery/pkg/apis/meta/v1.GroupVersionForDiscovery", schema_pkg_apis_meta_v1_GroupVersionForDiscovery);
    ("k8s.io/apimachinery/pkg/apis/meta/v1.GroupVersionKind", schema_pkg_apis_meta_v1_GroupVersionKind);
    ("k8s.io/apimachinery/pkg/apis/meta/v1.GroupVersionResource", schema_pkg_apis_meta_v1_GroupVersionResource);
    ("k8s.io/apimachinery/pkg/apis/meta/v1.Initializer", schema_pkg_apis_meta_v1_Initializer);
    ("k8s.io/apimachinery/pkg/apis/meta/v1.Initializers", schema_pkg_apis_meta_v1_Initializers);
    ("k8s.io/apimachinery/pkg/apis/meta/v1.InternalEvent", schema_pkg_apis_meta_v1_InternalEvent);
    ("k8s.io/apimachinery/pkg/apis/meta/v1.LabelSelector", schema_pkg_apis_meta_v1_LabelSelector);
    ("k8s.io/apimachinery/pkg/apis/meta/v1.LabelSelectorRequirement", schema_pkg_apis_meta_v1_LabelSelectorRequirement);
    ("k8s.io/apimachinery/pkg/apis/meta/v1.List", schema_pkg_apis_meta_v1_List);
    ("k8s.io/apimachinery/pkg/apis/meta/v1.ListMeta", schema_pkg_apis_meta_v1_ListMeta);
    ("k8s.io/apimachinery/pkg/apis/meta/v1.ListOptions", schema_pkg_apis_meta_v1_ListOptions);
    ("k8s.io/apimachinery/pkg/apis/meta/v1.MicroTime", schema_pkg_apis_meta_v1_MicroTime);
    ("k8s.io/apimachinery/pkg/apis/meta/v1.ObjectMeta", schema_pkg_apis_meta_v1_ObjectMeta);
    ("k8s.io/apimachinery/pkg/apis/meta/v1.OwnerReference", schema_pkg_apis_meta_v1_OwnerReference);
    ("k8s.io/apimachinery/pkg/apis/meta/v1.Patch", schema_pkg_apis_meta_v1_Patch);
    ("k8s.io/apimachinery/pkg/apis/meta/v1.Preconditions", schema_pkg_apis_meta_v1_Preconditions);
    ("k8s.io/apimachinery/pkg/apis/meta/v1.RootPaths", schema_pkg_apis_meta_v1_RootPaths);
    ("k8s.io/apimachinery/pkg/apis/meta/v1.ServerAddressByClientCIDR", schema_pkg_apis_meta_v1_ServerAddressByClientCIDR);
    ("k8s.io/apimachinery/pkg/apis/meta/v1.Status", schema_pkg_apis_meta_v1_Status);
    ("k8s.io/apimachinery/pkg/apis/meta/v1.StatusCause", schema_pkg_apis_meta_v1_StatusCause);
    ("k8s.io/apimachinery/pkg/apis/meta/v1.StatusDetails", schema_pkg_apis_meta_v1_StatusDetails);
    ("k8s.io/apimachinery/pkg/apis/meta/v1.Time", schema_pkg_apis_meta_v1_Time);
    ("k8s.io/apimachinery/pkg/apis/meta/v1.Timestamp", schema_pkg_apis_meta_v1_Timestamp);
    ("k8s.io/apimachinery/pkg/apis/meta/v1.TypeMeta", schema_pkg_apis_meta_v1_TypeMeta);
    ("k8s.io/apimachinery/pkg/apis/meta/v1.UpdateOptions", schema_pkg_apis_meta_v1_UpdateOptions);
    ("k8s.io/apimachinery/pkg/apis/meta/v1.WatchEvent", schema_pkg_apis_meta_v1_WatchEvent);
    ("k8s.io/apimachinery/pkg/runtime.RawExtension", schema_k8sio_apimachinery_pkg_runtime_RawExtension);
    ("k8s.io/apimachinery/pkg/runtime.TypeMeta", schema_k8sio_apimachinery_pkg_runtime_TypeMeta);
    ("k8s.io/apimachinery/pkg/runtime.Unknown", schema_k8sio_apimachinery_pkg_runtime_Unknown);
    ("k8s.io/apimachinery/pkg/version.Info", schema_k8sio_apimachinery_pkg_version_Info);
    ("k8s.io/examples/staging/kos/pkg/apis/network/v1alpha1.ExecReport", schema_pkg_apis_network_v1alpha1_ExecReport);
    ("k8s.io/examples/staging/kos/pkg/apis/network/v1alpha1.IPLock", schema_pkg_apis_network_v1alpha1_IPLock);
    ("k8s.io/examples/staging/kos/pkg/apis/network/v1alpha1.IPLockList", schema_pkg_apis_network_v1alpha1_IPLockList);
    ("k8s.io/examples/staging/kos/pkg/apis/network/v1alpha1.IPLockSpec", schema_pkg_apis_network_v1alpha1_IPLockSpec);
    ("k8s.io/examples/staging/kos/pkg/apis/network/v1alpha1.NetworkAttachment", schema_pkg_apis_network_v1alpha1_NetworkAttachment);
    ("k8s.io/examples/staging/kos/pkg/apis/network/v1alpha1.NetworkAttachmentErrors", schema_pkg_apis_network_v1alpha1_NetworkAttachmentErrors);
    ("k8s.io/examples/staging/kos/pkg/apis/network/v1alpha1.NetworkAttachmentList", schema_pkg_apis_network_v1alpha1_NetworkAttachmentList);
    ("k8s.io/examples/staging/kos/pkg/apis/network/v1alpha1.NetworkAttachmentSpec", schema_pkg_apis_network_v1alpha1_NetworkAttachmentSpec);
    ("k8s.io/examples/staging/kos/pkg/apis/network/v1alpha1.NetworkAttachmentStatus", schema_pkg_apis_network_v1alpha1_NetworkAttachmentStatus);
    ("k8s.io/examples/staging/kos/pkg/apis/network/v1alpha1.Subnet", schema_pkg_apis_network_v1alpha1_Subnet);
    ("k8s.io/examples/staging/kos/pkg/apis/network/v1alpha1.SubnetList", schema_pkg_apis_network_v1alpha1_SubnetList);
    ("k8s.io/examples/staging/kos/pkg/apis/network/v1alpha1.SubnetSpec", schema_pkg_apis_network_v1alpha1_SubnetSpec);
    ("k8s.io/examples/staging/kos/pkg/apis/network/v1alpha1.SubnetStatus", schema_pkg_apis_network_v1alpha1_SubnetStatus)].

Definition GetOpenAPIDefinitions : gmap string (OpenAPIDefinition Ref) := list_to_map definitions.

End Documents.
End OpenApi.
