(* ===== verification/ApiDocs.v ===== *)
(** * What the open API documents say of the objects

    The documents that the API server publishes ([OpenApi]) against the objects that the types
    of the API write ([ApiJson]). *)

From S2P Require Import Prelude GoJson ApiTypes ApiJson OpenApiSpec OpenApi.
Import GoJson ApiJson OpenApiSpec OpenApi.

(** ** Objects by their fields *)

Section Struct.
Context {R S : Type} (resolve : R → option (Schema R)).
Implicit Types (s : Schema R) (fs : list (Field S)).

(** The fields that are always written include those that the document requires. *)
Definition writes_required (s : Schema R) fs : bool :=
  forallb (λ n, existsb (λ f, String.eqb (tag f) n && negb (omitempty f)) fs) (Required s).

(** The value of a field is admitted, or is left out. *)
Definition field_admitted fuel s (x : S) (f : Field S) : bool :=
  omitempty f && f_empty f x ||
  match List.find (λ p, String.eqb p.1 (tag f)) (Properties s) with
  | Some p => admits resolve fuel p.2 (f_enc f x)
  | None => match AdditionalProperties s with Some p => admits resolve fuel p (f_enc f x) | None => true end
  end.

Lemma required_written s fs x :
  writes_required s fs = true →
  forallb (λ n, existsb (λ kv : string * JSON, String.eqb kv.1 n) (members fs x)) (Required s) = true.
Proof.
  unfold writes_required. rewrite !forallb_forall. intros Hw n Hn. specialize (Hw n Hn).
  apply existsb_exists in Hw as (f & Hf & Hn'). apply andb_true_iff in Hn' as [Ht Ho].
  apply existsb_exists. exists (tag f, f_enc f x). split; [|done]. apply in_flat_map. exists f. split; [done|].
  unfold member. apply negb_true_iff in Ho. rewrite Ho. by left.
Qed.

Lemma forallb_members (P : string * JSON → bool) fs x :
  forallb P (members fs x) = forallb (λ f, omitempty f && f_empty f x || P (tag f, f_enc f x)) fs.
Proof.
  induction fs as [|f fs IH]; [done|]. unfold members in *. simpl. rewrite forallb_app, IH. unfold member.
  destruct (omitempty f && f_empty f x); simpl; [done|]. by rewrite andb_true_r.
Qed.

Lemma admits_struct fuel s fs x :
  Reference s = None → Types s = ["object"] → writes_required s fs = true →
  admits resolve (Datatypes.S fuel) s (JObj (members fs x)) = forallb (field_admitted fuel s x) fs.
Proof.
  intros Hr Ht Hw. cbn [admits]. rewrite Hr, Ht. cbn [existsb has_type String.eqb]. rewrite required_written by done.
  by rewrite forallb_members.
Qed.

Lemma admits_reference fuel s r s' j :
  Reference s = Some r → resolve r = Some s' → admits resolve (Datatypes.S fuel) s j = admits resolve fuel s' j.
Proof. intros Hr Es. simpl. by rewrite Hr, Es. Qed.
End Struct.

(** ** Without the texts

    What a document admits does not depend on its descriptions and extensions. *)

Section Texts.
Context {R : Type} (resolve : R → option (Schema R)).

Fixpoint strip (s : Schema R) : Schema R :=
  MkSchema [] "" (Types s) (Format s) (Reference s) (map (λ p, (p.1, strip p.2)) (Properties s))
    (match Items s with Some i => Some (strip i) | None => None end)
    (match AdditionalProperties s with Some a => Some (strip a) | None => None end) (Required s).

Lemma find_stripped k l :
  List.find (λ p : string * Schema R, String.eqb p.1 k) (map (λ p, (p.1, strip p.2)) l) =
  match List.find (λ p, String.eqb p.1 k) l with Some p => Some (p.1, strip p.2) | None => None end.
Proof. induction l as [|p l IH]; [done|]. simpl. by destruct (String.eqb p.1 k). Qed.

Lemma forallb_same {A} (f g : A → bool) l : (∀ x, f x = g x) → forallb f l = forallb g l.
Proof. intros E. induction l as [|x l IH]; [done|]. simpl. by rewrite E, IH. Qed.

Lemma admits_strip fuel s j :
  admits resolve fuel s j = admits (λ r, strip <$> resolve r) fuel (strip s) j.
Proof.
  revert s j. induction fuel as [|fuel IH]; intros s j; [done|]. destruct s as [e d ts f r ps i a req]. cbn.
  destruct r as [r|]; [by destruct (resolve r); cbn|]. f_equal. destruct j; try done.
  - destruct i; [|done]. by apply forallb_same.
  - f_equal. apply forallb_same. intros kv. rewrite find_stripped.
    destruct (List.find _ ps) as [p|]; [done|]. by destruct a.
Qed.
End Texts.

Module ApiDocs.

(** The documents, with references that name them. *)
Definition docs : gmap string (OpenAPIDefinition string) := GetOpenAPIDefinitions (lib := rfc3339) id.
Definition resolve (name : string) : option (Schema string) := SchemaOf <$> docs !! name.

Definition kos (type : string) : string := "k8s.io/examples/staging/kos/pkg/apis/network/v1alpha1." +:+ type.
Definition meta (type : string) : string := "k8s.io/apimachinery/pkg/apis/meta/v1." +:+ type.

(** The document of that name admits the value. *)
Definition admitted (fuel : nat) (name : string) (j : JSON) : bool := admits resolve fuel (schema [refers name]) j.

(** *** The documents of KOS without texts *)

Definition doc (name : string) : option (Schema string) := strip <$> resolve name.
Definition doc_text (name : string) : Schema string := default (schema []) (doc name).

Definition time_doc := Eval vm_compute in doc_text (meta "Time").
Definition report_doc := Eval vm_compute in doc_text (kos "ExecReport").
Definition errors_doc := Eval vm_compute in doc_text (kos "NetworkAttachmentErrors").
Definition spec_doc := Eval vm_compute in doc_text (kos "NetworkAttachmentSpec").
Definition status_doc := Eval vm_compute in doc_text (kos "NetworkAttachmentStatus").
Definition att_doc := Eval vm_compute in doc_text (kos "NetworkAttachment").
Definition att_list_doc := Eval vm_compute in doc_text (kos "NetworkAttachmentList").
Definition subnet_spec_doc := Eval vm_compute in doc_text (kos "SubnetSpec").
Definition subnet_status_doc := Eval vm_compute in doc_text (kos "SubnetStatus").
Definition subnet_doc := Eval vm_compute in doc_text (kos "Subnet").
Definition subnet_list_doc := Eval vm_compute in doc_text (kos "SubnetList").
Definition lock_spec_doc := Eval vm_compute in doc_text (kos "IPLockSpec").
Definition lock_doc := Eval vm_compute in doc_text (kos "IPLock").
Definition lock_list_doc := Eval vm_compute in doc_text (kos "IPLockList").

Lemma docs_known :
  doc (meta "Time") = Some time_doc ∧
  doc (kos "ExecReport") = Some report_doc ∧
  doc (kos "NetworkAttachmentErrors") = Some errors_doc ∧
  doc (kos "NetworkAttachmentSpec") = Some spec_doc ∧
  doc (kos "NetworkAttachmentStatus") = Some status_doc ∧
  doc (kos "NetworkAttachment") = Some att_doc ∧
  doc (kos "NetworkAttachmentList") = Some att_list_doc ∧
  doc (kos "SubnetSpec") = Some subnet_spec_doc ∧
  doc (kos "SubnetStatus") = Some subnet_status_doc ∧
  doc (kos "Subnet") = Some subnet_doc ∧
  doc (kos "SubnetList") = Some subnet_list_doc ∧
  doc (kos "IPLockSpec") = Some lock_spec_doc ∧
  doc (kos "IPLock") = Some lock_doc ∧
  doc (kos "IPLockList") = Some lock_list_doc.
Proof. vm_compute. repeat split. Qed.

(** A schema without texts. *)
Definition leaf (ts : list string) (f : string) : Schema string := MkSchema [] "" ts f None [] None None [].
Definition link (r : string) : Schema string := MkSchema [] "" [] "" (Some r) [] None None [].
Definition array (s : Schema string) : Schema string := MkSchema [] "" ["array"] "" None [] (Some s) None [].

Lemma admitted_link n name j : admitted n name j = admits doc n (link name) j.
Proof. unfold admitted. by rewrite admits_strip. Qed.

(** The document of a type lists the fields that JSON has, in their order, and requires those that
    cannot be left out by their tag. *)
Definition lists_fields {A} (type : string) (fs : list (Field A)) : Prop :=
  ∃ d, resolve (kos type) = Some d ∧ fst <$> Properties d = tag <$> fs ∧
    Required d = tag <$> filter (λ f, omitempty f = false) fs.

Definition fields_listed `{MetaJson} : Prop :=
  lists_fields "ExecReport" ExecReport_fields ∧
  lists_fields "NetworkAttachmentErrors" NetworkAttachmentErrors_fields ∧
  lists_fields "NetworkAttachmentSpec" NetworkAttachmentSpec_fields ∧
  lists_fields "NetworkAttachmentStatus" NetworkAttachmentStatus_fields ∧
  lists_fields "NetworkAttachment" NetworkAttachment_fields ∧
  lists_fields "NetworkAttachmentList" (list_fields (A := NetworkAttachment)) ∧
  lists_fields "SubnetSpec" SubnetSpec_fields ∧
  lists_fields "SubnetStatus" SubnetStatus_fields ∧
  lists_fields "Subnet" Subnet_fields ∧
  lists_fields "SubnetList" (list_fields (A := Subnet)) ∧
  lists_fields "IPLockSpec" IPLockSpec_fields ∧
  lists_fields "IPLock" IPLock_fields ∧
  lists_fields "IPLockList" (list_fields (A := IPLock)).

Lemma documents_list_fields `{MetaJson} : fields_listed.
Proof. unfold fields_listed, lists_fields. repeat split; eexists; (split; [vm_compute; reflexivity|split; vm_compute; reflexivity]). Qed.

#[local] Opaque docs doc resolve.

Lemma admits_string n f v : admits doc (S n) (leaf ["string"] f) (JStr v) = true.
Proof. done. Qed.

Lemma admits_int32 n z : admits doc (S n) (leaf ["integer"] "int32") (JNum z) = in_int32 z.
Proof. simpl. by destruct (in_int32 z). Qed.

Lemma admits_int64 n z : in_uint32 z = true → admits doc (S n) (leaf ["integer"] "int64") (JNum z) = true.
Proof.
  intros Hz. simpl. replace (in_int64 z) with true; [done|]. unfold in_uint32, in_int64 in *.
  apply andb_true_iff in Hz as [?%Z.leb_le ?%Z.ltb_lt]. symmetry. apply andb_true_iff.
  split; [apply Z.leb_le|apply Z.ltb_lt]; lia.
Qed.

Lemma admits_link n r s j : doc r = Some s → admits doc (S n) (link r) j = admits doc n s j.
Proof. intros E. simpl. by rewrite E. Qed.

(** The elements of an array that is written, of a slice that is left out when empty, and of one
    that may be nil. *)
Lemma admits_elements {A} `{Codec A} n s (l : list A) :
  admits doc (S n) (array s) (JArr (enc <$> l)) = forallb (λ x, admits doc n s (enc x)) l.
Proof.
  transitivity (forallb (admits doc n s) (enc <$> l)); [done|]. induction l as [|x l IH]; [done|]. cbn. f_equal. exact IH.
Qed.

Lemma admits_array {A} `{Codec A} n s (l : list A) :
  empty l || admits doc (S n) (array s) (enc l) = forallb (λ x, admits doc n s (enc x)) l.
Proof. destruct l as [|x l]; [done|]. exact (admits_elements n s (x :: l)). Qed.

Lemma admits_slice {A} `{Codec A} n s (p : option (list A)) :
  admits doc (S n) (array s) (@enc _ (slice_codec A) p) =
  match p with Some l => forallb (λ x, admits doc n s (enc x)) l | None => false end.
Proof. destruct p as [l|]; [apply admits_elements|done]. Qed.

Lemma admits_strings n f (l : list string) : empty l || admits doc (S (S n)) (array (leaf ["string"] f)) (enc l) = true.
Proof. rewrite admits_array. by apply forallb_forall. Qed.

(** Every key of an object, with what its document says. *)
Ltac shape :=
  cbn [fmap list_fmap app forallb]; unfold field_admitted;
  cbn [field promoted tag omitempty f_empty f_enc in_object fst snd orb andb
       time_doc report_doc errors_doc spec_doc status_doc att_doc subnet_spec_doc subnet_status_doc subnet_doc lock_spec_doc lock_doc
       Properties AdditionalProperties List.find String.eqb Ascii.eqb Bool.eqb];
  repeat match goal with |- context [MkSchema [] "" ?ts ?f None [] None None []] =>
    change (MkSchema [] "" ts f None [] None None []) with (leaf ts f) end;
  repeat match goal with |- context [MkSchema [] "" [] "" (Some ?r) [] None None []] =>
    change (MkSchema [] "" [] "" (Some r) [] None None []) with (link r) end;
  repeat match goal with |- context [MkSchema [] "" ["array"] "" None [] (Some ?s) None []] =>
    change (MkSchema [] "" ["array"] "" None [] (Some s) None []) with (array s) end.
Ltac spread :=
  rewrite admits_struct by reflexivity;
  unfold ExecReport_fields, NetworkAttachmentErrors_fields, NetworkAttachmentSpec_fields, NetworkAttachmentStatus_fields,
    NetworkAttachment_fields, SubnetSpec_fields, SubnetStatus_fields, Subnet_fields, IPLockSpec_fields, IPLock_fields,
    inline, typemeta_fields; shape.
Ltac keys fields x := change (enc x) with (JObj (members fields x)); spread.

(** The integers have the width of their types, and times are not before the first. *)
Definition status_sized (st : NetworkAttachmentStatus) : Prop :=
  in_uint32 (AddressVNI st) = true ∧ ∀ r, PostCreateExecReport st = Some r → report_fits r.
Definition att_sized (x : TypeMeta * NetworkAttachment) : Prop :=
  0 ≤ CreationTimestamp (na_meta x.2) ∧ status_sized (na_Status x.2).
Definition subnet_sized (x : TypeMeta * Subnet) : Prop :=
  0 ≤ CreationTimestamp (sn_meta x.2) ∧ in_uint32 (VNI (sn_Spec x.2)) = true.
Definition lock_sized (x : TypeMeta * IPLock) : Prop := 0 ≤ CreationTimestamp (ipl_meta x.2).

(** A list whose [items] are not nil and satisfy a test. *)
Definition listed {A} (good : A → bool) (p : option (list A)) : bool :=
  match p with Some l => forallb good l | None => false end.

Section Objects.
Context `{MetaJsonLaws}.

(** A time is a string unless it is zero. *)
Lemma time_admitted n (t : Time) : 0 ≤ t → admits doc (S n) time_doc (enc t) = negb (t =? 0).
Proof.
  intros Ht. destruct (Z.eqb_spec t 0) as [->|Hn]; [by rewrite Time_null|].
  destruct (Time_string t) as [v ->]; [lia|]. done.
Qed.

Lemma report_admitted n (r : ExecReport) :
  report_fits r → admits doc (S (S (S n))) report_doc (enc r) = negb (StartTime r =? 0) && negb (StopTime r =? 0).
Proof.
  intros (Hx & Ha & Hb). keys ExecReport_fields r. cbn [enc int_codec string_codec].
  rewrite admits_int32, Hx, !Time_kept, !(admits_link _ _ time_doc), !time_admitted by (done || apply docs_known).
  by rewrite !admits_string, !andb_true_r.
Qed.

Lemma errors_admitted n (x : NetworkAttachmentErrors) : admits doc (S (S (S n))) errors_doc (enc x) = true.
Proof. keys NetworkAttachmentErrors_fields x. by rewrite !admits_strings, ?orb_true_r. Qed.

Lemma spec_admitted n (x : NetworkAttachmentSpec) : admits doc (S (S (S n))) spec_doc (enc x) = true.
Proof.
  keys NetworkAttachmentSpec_fields x. cbn [enc string_codec]. by rewrite !admits_string, !admits_strings, ?orb_true_r.
Qed.

(** The report in a status has both of its times. *)
Definition timed (st : NetworkAttachmentStatus) : bool :=
  match PostCreateExecReport st with Some r => negb (StartTime r =? 0) && negb (StopTime r =? 0) | None => true end.

Lemma status_admitted n (x : NetworkAttachmentStatus) :
  status_sized x → admits doc (S (S (S (S (S n))))) status_doc (enc x) = timed x.
Proof.
  intros [Hv Hr]. keys NetworkAttachmentStatus_fields x.
  rewrite (admits_link _ _ errors_doc), errors_admitted by apply docs_known. cbn [enc int_codec string_codec].
  rewrite admits_int64, !admits_string, ?orb_true_r by done. cbn [andb]. rewrite andb_true_r. unfold timed.
  destruct (PostCreateExecReport x) as [r|]; [|done]. cbn [empty enc pointer_codec orb].
  rewrite (admits_link _ _ report_doc), report_admitted by (by apply Hr) || apply docs_known. done.
Qed.

Lemma subnet_spec_admitted n (x : SubnetSpec) :
  in_uint32 (VNI x) = true → admits doc (S (S (S n))) subnet_spec_doc (enc x) = true.
Proof. intros Hv. keys SubnetSpec_fields x. cbn [enc int_codec string_codec]. by rewrite !admits_string, admits_int64. Qed.

Lemma subnet_status_admitted n (x : list string) :
  admits doc (S (S (S n))) subnet_status_doc (@enc _ SubnetStatus_codec x) = true.
Proof.
  change (@enc _ SubnetStatus_codec x) with (JObj (members SubnetStatus_fields x)). spread.
  by rewrite admits_strings, ?orb_true_r.
Qed.

Lemma lock_spec_admitted n (x : string) : admits doc (S (S n)) lock_spec_doc (@enc _ IPLockSpec_codec x) = true.
Proof.
  change (@enc _ IPLockSpec_codec x) with (JObj (members IPLockSpec_fields x)). spread.
  cbn [enc string_codec]. by rewrite admits_string.
Qed.

(** The metadata, a library, is admitted by its document once it has a time of creation. *)
Context (depth : nat).
Context (ObjectMeta_admitted : ∀ fuel (m : ObjectMeta), (depth ≤ fuel)%nat → 0 ≤ CreationTimestamp m →
  admitted fuel (meta "ObjectMeta") (enc m) = negb (CreationTimestamp m =? 0)).
Context (ListMeta_admitted : ∀ fuel (m : ListMeta), (depth ≤ fuel)%nat → admitted fuel (meta "ListMeta") (enc m) = true).

Definition dated (m : ObjectMeta) : bool := negb (CreationTimestamp m =? 0).

Lemma metadata_admitted fuel m :
  (depth ≤ fuel)%nat → 0 ≤ CreationTimestamp m →
  admits doc fuel (link "k8s.io/apimachinery/pkg/apis/meta/v1.ObjectMeta") (enc m) = dated m.
Proof. intros Hf Hm. rewrite <- (admitted_link fuel (meta "ObjectMeta")). by apply ObjectMeta_admitted. Qed.

Lemma list_metadata_admitted fuel (m : ListMeta) :
  (depth ≤ fuel)%nat → admits doc fuel (link "k8s.io/apimachinery/pkg/apis/meta/v1.ListMeta") (enc m) = true.
Proof. intros Hf. rewrite <- (admitted_link fuel (meta "ListMeta")). by apply ListMeta_admitted. Qed.

(** The keys of an embedded [TypeMeta] are strings. *)
Ltac object := cbn [enc string_codec in_object]; rewrite !admits_string, ?orb_true_r; cbn [andb].

Lemma att_admitted n (x : TypeMeta * NetworkAttachment) :
  (depth ≤ n)%nat → att_sized x →
  admits doc (S (S (S (S (S (S (S n))))))) att_doc (enc x) = dated (na_meta x.2) && timed (na_Status x.2).
Proof.
  intros Hn [Hm Hs]. keys NetworkAttachment_fields x. object. rewrite ObjectMeta_kept, metadata_admitted by (done || lia).
  rewrite (admits_link _ _ spec_doc), spec_admitted by apply docs_known.
  rewrite (admits_link _ _ status_doc), status_admitted by (done || apply docs_known). by rewrite andb_true_r.
Qed.

Lemma subnet_admitted n (x : TypeMeta * Subnet) :
  (depth ≤ n)%nat → subnet_sized x → admits doc (S (S (S (S (S n))))) subnet_doc (enc x) = dated (sn_meta x.2).
Proof.
  intros Hn [Hm Hs]. keys Subnet_fields x. object. rewrite ObjectMeta_kept, metadata_admitted by (done || lia).
  rewrite (admits_link _ _ subnet_spec_doc), subnet_spec_admitted by (done || apply docs_known).
  rewrite (admits_link _ _ subnet_status_doc), subnet_status_admitted by apply docs_known. by rewrite !andb_true_r.
Qed.

Lemma lock_admitted n (x : TypeMeta * IPLock) :
  (depth ≤ n)%nat → lock_sized x → admits doc (S (S (S (S n)))) lock_doc (enc x) = dated (ipl_meta x.2).
Proof.
  intros Hn Hm. keys IPLock_fields x. object. rewrite ObjectMeta_kept, metadata_admitted by (done || lia).
  rewrite (admits_link _ _ lock_spec_doc), lock_spec_admitted by apply docs_known. by rewrite !andb_true_r.
Qed.

Lemma forallb_agree {A} (f g : A → bool) l : (∀ x, x ∈ l → f x = g x) → forallb f l = forallb g l.
Proof.
  intros E. induction l as [|x l IH]; [done|]. simpl. rewrite E by apply list_elem_of_here. f_equal.
  apply IH. intros y Hy. apply E. by apply list_elem_of_further.
Qed.

(** A list is admitted if its [items] are not nil and all of them are. *)
Lemma list_admitted {A} `{Codec (TypeMeta * A)} n d d1 name (good : TypeMeta * A → bool) (x : TypeMeta * (ListMeta * option (list (TypeMeta * A)))) :
  (depth ≤ n)%nat → Reference d = None → Types d = ["object"] → writes_required d (@list_fields _ A _) = true →
  (∀ k, List.find (λ p, String.eqb p.1 k) (Properties d) =
    if String.eqb "kind" k then Some ("kind", leaf ["string"] "")
    else if String.eqb "apiVersion" k then Some ("apiVersion", leaf ["string"] "")
    else if String.eqb "metadata" k then Some ("metadata", link "k8s.io/apimachinery/pkg/apis/meta/v1.ListMeta")
    else if String.eqb "items" k then Some ("items", array (link name)) else None) →
  doc name = Some d1 → (∀ l y, x.2.2 = Some l → y ∈ l → admits doc n d1 (enc y) = good y) →
  admits doc (S (S (S n))) d (@enc _ list_codec x) = listed good x.2.2.
Proof.
  intros Hn Hr Ht Hw Hp Ed Hg. change (@enc _ list_codec x) with (JObj (members list_fields x)).
  rewrite admits_struct by done. unfold list_fields, inline, typemeta_fields.
  cbn [fmap list_fmap app forallb]. unfold field_admitted. cbn [field promoted tag omitempty f_empty f_enc in_object fst snd orb andb].
  rewrite !Hp. cbn [String.eqb Ascii.eqb Bool.eqb snd]. object. rewrite ListMeta_kept, list_metadata_admitted, admits_slice by lia.
  cbn [orb andb]. rewrite andb_true_r. change (in_object snd x) with x.2.2. destruct x.2.2 as [l|]; [|reflexivity]. apply forallb_agree. intros y Hy.
  rewrite (admits_link _ _ d1) by done. by apply (Hg l).
Qed.

(** C38: the open API documents against the objects that the API writes: the document of each
    type lists the fields that are written, and requires those that always are by their tag; a NetworkAttachment is
    admitted by its document exactly if it has a time of creation and the report in its status,
    if there is one, both of its times; a Subnet and an IPLock, if they have a time of creation;
    and a list, if its items are not nil, which would be written null, and are all admitted. *)
Theorem objects_documented (fuel : nat) :
  (depth + 11 ≤ fuel)%nat →
  fields_listed ∧
  (∀ x : TypeMeta * NetworkAttachment, att_sized x →
    admitted fuel (kos "NetworkAttachment") (enc x) = dated (na_meta x.2) && timed (na_Status x.2)) ∧
  (∀ x : TypeMeta * Subnet, subnet_sized x → admitted fuel (kos "Subnet") (enc x) = dated (sn_meta x.2)) ∧
  (∀ x : TypeMeta * IPLock, lock_sized x → admitted fuel (kos "IPLock") (enc x) = dated (ipl_meta x.2)) ∧
  (∀ x, (∀ l, x.2.2 = Some l → Forall att_sized l) → admitted fuel (kos "NetworkAttachmentList") (@enc _ NetworkAttachmentList_codec x) =
    listed (λ y, dated (na_meta y.2) && timed (na_Status y.2)) x.2.2) ∧
  (∀ x, (∀ l, x.2.2 = Some l → Forall subnet_sized l) → admitted fuel (kos "SubnetList") (@enc _ SubnetList_codec x) =
    listed (λ y, dated (sn_meta y.2)) x.2.2) ∧
  (∀ x, (∀ l, x.2.2 = Some l → Forall lock_sized l) → admitted fuel (kos "IPLockList") (@enc _ IPLockList_codec x) =
    listed (λ y, dated (ipl_meta y.2)) x.2.2).
Proof.
  intros Hf. do 11 (destruct fuel as [|fuel]; [lia|]). assert (Hd : (depth ≤ fuel)%nat) by lia.
  split; [apply documents_list_fields|]. repeat split; intros x Hx; rewrite admitted_link.
  - rewrite (admits_link _ _ att_doc) by apply docs_known. apply att_admitted; [lia|done].
  - rewrite (admits_link _ _ subnet_doc) by apply docs_known. apply subnet_admitted; [lia|done].
  - rewrite (admits_link _ _ lock_doc) by apply docs_known. apply lock_admitted; [lia|done].
  - rewrite (admits_link _ _ att_list_doc) by apply docs_known.
    apply (list_admitted _ _ att_doc (kos "NetworkAttachment")); [lia|done..|apply docs_known|].
    intros l y El Hy. apply att_admitted; [lia|]. by eapply Forall_forall; [apply Hx|].
  - rewrite (admits_link _ _ subnet_list_doc) by apply docs_known.
    apply (list_admitted _ _ subnet_doc (kos "Subnet")); [lia|done..|apply docs_known|].
    intros l y El Hy. apply subnet_admitted; [lia|]. by eapply Forall_forall; [apply Hx|].
  - rewrite (admits_link _ _ lock_list_doc) by apply docs_known.
    apply (list_admitted _ _ lock_doc (kos "IPLock")); [lia|done..|apply docs_known|].
    intros l y El Hy. apply lock_admitted; [lia|]. by eapply Forall_forall; [apply Hx|].
Qed.
End Objects.
(** ** The documents themselves *)

(** What a definition refers to, and what it says that it depends on. *)
Definition uses {R} (kd : string * OpenAPIDefinition R) : string * list R * list string :=
  (kd.1, refs (SchemaOf kd.2), Dependencies kd.2).

(** The document that nothing can follow to its end. *)
Definition event : string := meta "InternalEvent".
Definition event_object : string := "k8s.io/apimachinery/pkg/runtime.Object".

Section Library.
Context {Ref : Type} (ref : string → Ref) {lib : TimeTypes}.

(** The references are those that the callback makes of names. *)
Definition names : list (string * list string * list string) := uses <$> definitions id.

Lemma uses_names : uses <$> definitions ref = (λ u, (u.1.1, ref <$> u.1.2, u.2)) <$> names.
Proof. vm_compute. reflexivity. Qed.

Definition complete (u : string * list string * list string) : bool :=
  forallb (λ r, bool_decide (r ∈ u.2)) u.1.2 && forallb (λ k, bool_decide (k ∈ u.1.2)) u.2 &&
  bool_decide (NoDup u.2) &&
  forallb (λ k, negb (String.eqb k event) &&
    (bool_decide (k ∈ (λ u, u.1.1) <$> names) || String.eqb u.1.1 event && String.eqb k event_object)) u.2.

Lemma names_complete : forallb complete names = true.
Proof. vm_compute. reflexivity. Qed.

Lemma names_distinct : NoDup ((λ u, u.1.1) <$> names).
Proof. apply (bool_decide_unpack _). vm_compute. exact I. Qed.

Lemma definitions_names : (definitions ref).*1 = (λ u, u.1.1) <$> names.
Proof.
  transitivity ((λ u : string * list Ref * list string, u.1.1) <$> (uses <$> definitions ref)); [|by rewrite uses_names, <- list_fmap_compose].
  by rewrite <- list_fmap_compose.
Qed.

Lemma definition_known k : k ∈ (λ u, u.1.1) <$> names → is_Some (GetOpenAPIDefinitions ref !! k).
Proof.
  rewrite <- definitions_names. intros [[k' d] [-> Hd]]%list_elem_of_fmap. exists d.
  apply elem_of_list_to_map; [|done]. rewrite definitions_names. apply names_distinct.
Qed.

(** C39: however the API server names references, each document refers to exactly the types that
    it says it depends on, each listed once, and all of these have a document, save one: the
    document of InternalEvent, to which nothing else refers, refers to the interface
    runtime.Object, which has none. *)
Theorem documents_closed name d :
  GetOpenAPIDefinitions ref !! name = Some d →
  (∀ r, r ∈ refs (SchemaOf d) ↔ ∃ k, k ∈ Dependencies d ∧ r = ref k) ∧ NoDup (Dependencies d) ∧
  (∀ k, k ∈ Dependencies d → k ≠ event ∧
    (is_Some (GetOpenAPIDefinitions ref !! k) ∨ name = event ∧ k = event_object)).
Proof.
  intros Hd%elem_of_list_to_map_2. apply (list_elem_of_fmap_2 uses) in Hd. rewrite uses_names in Hd.
  apply list_elem_of_fmap in Hd as [[[n rs] ks] [[= -> Hrs ->] Hu]]. rewrite Hrs.
  pose proof names_complete as Hc. rewrite forallb_forall in Hc. specialize (Hc _ (proj1 (list_elem_of_In _ _) Hu)).
  unfold complete in Hc. simpl in Hc. rewrite !andb_true_iff, !forallb_forall, bool_decide_eq_true in Hc.
  destruct Hc as [[[Hr Hk] Hn] Hs]. split; [|split; [done|]].
  - intros r. rewrite list_elem_of_fmap. split; intros (k & H1 & H2); exists k.
    + split; [|done]. apply list_elem_of_In in H2. by apply Hr, bool_decide_eq_true in H2.
    + split; [done|]. apply list_elem_of_In in H1. by apply Hk, bool_decide_eq_true in H1.
  - intros k H1. apply list_elem_of_In in H1. specialize (Hs k H1).
    rewrite andb_true_iff, negb_true_iff, orb_true_iff, bool_decide_eq_true, andb_true_iff in Hs.
    destruct Hs as [He [Hs|[E1%String.eqb_eq E2%String.eqb_eq]]]; (split; [by apply String.eqb_neq|]).
    + left. by apply definition_known.
    + by right.
Qed.
End Library.

End ApiDocs.
