(* ===== verification/ApiDocsRuns.v ===== *)
(** * Objects on the wire: an instance

    Metadata types that keep the laws of [MetaJsonLaws] and are as their documents say, with
    concrete objects. *)

From Stdlib Require Import DecimalString DecimalZ.
From S2P Require Import Prelude GoJson ApiTypes ApiJson OpenApiSpec OpenApi ApiDocs.
Import GoJson ApiJson OpenApiSpec OpenApi ApiDocs.

Module ApiDocsRuns.

(** ** Metadata *)

(** Seconds, in decimal. *)
Definition seconds_codec : Codec Time := {|
  enc (t : Time) := if t =? 0 then JNull else JStr (NilEmpty.string_of_int (Z.to_int (t / second)));
  dec (j : JSON) (_ : Time) :=
    match j with
    | JNull => Some 0
    | JStr s => match NilEmpty.int_of_string s with Some d => Some (Z.of_int d * second) | None => None end
    | _ => None
    end;
  empty (_ : Time) := false;
  zero := 0
|}.

(** Initializers, of which only the presence counts. *)
Definition initializers_codec : Codec bool := {|
  enc (b : bool) := if b then JObj [("pending", JArr [])] else JNull;
  dec (j : JSON) (_ : bool) := match j with JNull => Some false | JObj _ => Some true | _ => None end;
  empty := negb;
  zero := false
|}.

Definition owner_fields : list (Field OwnerReference) := [
  field "apiVersion" false or_APIVersion (λ v x, MkOwnerRef v (or_Kind x) (or_Name x) (or_UID x) (or_Controller x));
  field "kind" false or_Kind (λ v x, MkOwnerRef (or_APIVersion x) v (or_Name x) (or_UID x) (or_Controller x));
  field "name" false or_Name (λ v x, MkOwnerRef (or_APIVersion x) (or_Kind x) v (or_UID x) (or_Controller x));
  field "uid" false or_UID (λ v x, MkOwnerRef (or_APIVersion x) (or_Kind x) (or_Name x) v (or_Controller x));
  field (H := @pointer_codec bool bool_codec) "controller" true or_Controller
    (λ v x, MkOwnerRef (or_APIVersion x) (or_Kind x) (or_Name x) (or_UID x) v)].
#[export] Instance owner_codec : Codec OwnerReference := struct_codec owner_fields (MkOwnerRef "" "" "" "" None).

Definition meta_fields : list (Field ObjectMeta) := [
  field "name" true Name (λ v x, MkMeta (Namespace x) v (UID x) (ResourceVersion x) (CreationTimestamp x) (OwnerReferences x) (Labels x) (Initializers x));
  field "namespace" true Namespace (λ v x, MkMeta v (Name x) (UID x) (ResourceVersion x) (CreationTimestamp x) (OwnerReferences x) (Labels x) (Initializers x));
  field "uid" true UID (λ v x, MkMeta (Namespace x) (Name x) v (ResourceVersion x) (CreationTimestamp x) (OwnerReferences x) (Labels x) (Initializers x));
  field "resourceVersion" true ResourceVersion (λ v x, MkMeta (Namespace x) (Name x) (UID x) v (CreationTimestamp x) (OwnerReferences x) (Labels x) (Initializers x));
  field (H := seconds_codec) "creationTimestamp" true CreationTimestamp
    (λ v x, MkMeta (Namespace x) (Name x) (UID x) (ResourceVersion x) v (OwnerReferences x) (Labels x) (Initializers x));
  field "labels" true Labels (λ v x, MkMeta (Namespace x) (Name x) (UID x) (ResourceVersion x) (CreationTimestamp x) (OwnerReferences x) v (Initializers x));
  field "ownerReferences" true OwnerReferences (λ v x, MkMeta (Namespace x) (Name x) (UID x) (ResourceVersion x) (CreationTimestamp x) v (Labels x) (Initializers x));
  field (H := initializers_codec) "initializers" true Initializers
    (λ v x, MkMeta (Namespace x) (Name x) (UID x) (ResourceVersion x) (CreationTimestamp x) (OwnerReferences x) (Labels x) v)].

Definition list_meta_fields : list (Field string) := [field "resourceVersion" true (λ x, x) (λ v _, v)].

#[export] Instance plain_json : MetaJson := {|
  Time_codec := seconds_codec;
  ObjectMeta_codec := struct_codec meta_fields (MkMeta "" "" "" "" 0 [] ∅ false);
  ListMeta := string;
  ListMeta_codec := struct_codec list_meta_fields "";
  list_meta_fits s := valid s = true
|}.

Lemma seconds_travel : @travels Time seconds_codec (λ t, 0 ≤ t) (λ t, Truncate t second).
Proof.
  intros t Ht. split; [|done]. simpl. destruct (Z.eqb_spec t 0) as [->|Hn]; [done|]. cbn [dec].
  rewrite NilEmpty.isi, DecimalZ.of_to. unfold Truncate. f_equal. assert (E := Z.div_mod t second ltac:(done)). lia.
Qed.

Lemma initializers_travel : @travels bool initializers_codec (λ _, True) id.
Proof. intros [] _; by split. Qed.

Lemma controller_travels : @travels (option bool) (@pointer_codec bool bool_codec) (λ _, True) id.
Proof. intros [[]|] _; by split. Qed.

Ltac tidy := match goal with |- fills ?fs ?l ?x ?s ?s' => let t := eval simpl in s in change (fills fs l x t s') end.
Ltac next law := eapply (fills_field _ _ _ _ _ _ _ _ _ _ _ law); [try done|reflexivity|reflexivity|reflexivity|tidy].

Lemma owner_travels : travels owner_fits id.
Proof.
  apply struct_travels. intros x Hx. unfold owner_fits, texts in Hx. rewrite !Forall_cons in Hx. destruct Hx as (? & ? & ? & ? & _).
  do 4 (next string_travels). next controller_travels. destruct x. apply fills_nil.
Qed.

Lemma owners_travel : travels (Forall owner_fits) id.
Proof. intros l Hl. destruct (slice_travels _ _ owner_travels l Hl) as [E Ez]. by rewrite list_fmap_id in *. Qed.

Lemma meta_travels : travels meta_fits stored_meta.
Proof.
  apply struct_travels. intros x (Hc & Ht & Ho & Hl). unfold texts in Ht. rewrite !Forall_cons in Ht. destruct Ht as (? & ? & ? & ? & _).
  do 4 (next string_travels). next seconds_travel.
  next (map_travels _ string_travels). next owners_travel. next initializers_travel. destruct x. apply fills_nil.
Qed.

#[export] Instance plain_json_laws : MetaJsonLaws.
Proof.
  split; try done.
  - exact seconds_travel.
  - intros t Ht. simpl. destruct (Z.eqb_spec t 0); [lia|]. by eexists.
  - exact meta_travels.
  - apply struct_travels. intros x Hx. next string_travels. apply fills_nil.
Qed.

(** ** The metadata and its documents *)

Definition meta_doc := Eval vm_compute in doc_text (meta "ObjectMeta").
Definition list_meta_doc := Eval vm_compute in doc_text (meta "ListMeta").
Definition owner_doc := Eval vm_compute in doc_text (meta "OwnerReference").
Definition initializers_doc := Eval vm_compute in doc_text (meta "Initializers").

Lemma meta_docs_known :
  doc (meta "ObjectMeta") = Some meta_doc ∧ doc (meta "ListMeta") = Some list_meta_doc ∧
  doc (meta "OwnerReference") = Some owner_doc ∧ doc (meta "Initializers") = Some initializers_doc.
Proof. vm_compute. repeat split. Qed.

Lemma owner_admitted n (x : OwnerReference) : admits doc (S (S n)) owner_doc (enc x) = true.
Proof.
  change (enc x) with (JObj (members owner_fields x)). rewrite admits_struct by reflexivity.
  unfold owner_fields, owner_doc. shape. cbn [enc string_codec]. rewrite !admits_string. by destruct (or_Controller x).
Qed.

Lemma labels_admitted n (m : gmap string string) :
  admits doc (S (S n)) (MkSchema [] "" ["object"] "" None [] None (Some (leaf ["string"] "")) []) (enc m) = true.
Proof. cbn. induction (map_to_list m) as [|kv l IH]; [done|]. exact IH. Qed.

Lemma initializers_admitted n (b : bool) :
  (@empty _ initializers_codec b ||
   admits doc (S (S (S n))) (link "k8s.io/apimachinery/pkg/apis/meta/v1.Initializers") (@enc _ initializers_codec b)) = true.
Proof. destruct b; [|done]. cbn [empty initializers_codec negb orb]. by rewrite (admits_link _ _ initializers_doc) by apply meta_docs_known. Qed.

Lemma seconds_admitted n (t : Time) : 0 ≤ t → admits doc (S n) time_doc (@enc _ seconds_codec t) = negb (t =? 0).
Proof. exact (time_admitted n t). Qed.

Lemma meta_admitted fuel (m : ObjectMeta) : (6 ≤ fuel)%nat → 0 ≤ CreationTimestamp m →
  admitted fuel (meta "ObjectMeta") (enc m) = negb (CreationTimestamp m =? 0).
Proof.
  intros Hf Ht. do 6 (destruct fuel as [|fuel]; [lia|]). rewrite admitted_link, (admits_link _ _ meta_doc) by apply meta_docs_known.
  change (enc m) with (JObj (members meta_fields m)). rewrite admits_struct by reflexivity.
  unfold meta_fields, meta_doc. shape. cbn [enc string_codec]. rewrite !admits_string, labels_admitted, initializers_admitted, ?orb_true_r.
  rewrite (admits_link _ _ time_doc) by apply docs_known. rewrite seconds_admitted by done.
  rewrite (admits_array (H := owner_codec)).
  replace (forallb _ (OwnerReferences m)) with true; [by rewrite andb_true_r|].
  symmetry. apply forallb_forall. intros o _. rewrite (admits_link _ _ owner_doc) by apply meta_docs_known. apply owner_admitted.
Qed.

Lemma list_meta_admitted fuel (m : ListMeta) : (6 ≤ fuel)%nat → admitted fuel (meta "ListMeta") (@enc _ ListMeta_codec m) = true.
Proof.
  intros Hf. do 6 (destruct fuel as [|fuel]; [lia|]). rewrite admitted_link, (admits_link _ _ list_meta_doc) by apply meta_docs_known.
  change (@enc _ ListMeta_codec m) with (JObj (members list_meta_fields m)).
  rewrite admits_struct by reflexivity. unfold list_meta_fields, list_meta_doc. shape. cbn [enc string_codec].
  by rewrite admits_string, orb_true_r.
Qed.

(** ** Objects *)

Definition att_type : TypeMeta := MkTypeMeta "NetworkAttachment" "network.example.com/v1alpha1".
Definition att_meta : ObjectMeta :=
  MkMeta "ns" "a1" "u1" "7" (5 * second) [MkOwnerRef "v1" "Pod" "p" "u0" (Some true)] {["app" := "x"]} false.
Definition reported (start : Time) : TypeMeta * NetworkAttachment :=
  (att_type, MkNA att_meta (MkNASpec "node1" "s1" ["ip"; "addr"] [])
    (MkNAStatus (MkNAErrors [] ["no device"]) "l1" 1000 "10.0.0.2" "" "kos1" "" (Some (MkExecReport 2 start (9 * second) "out" "")))).

(** Runes of two, three and four bytes; a rune cut short, a long form, a surrogate and what is
    beyond the last rune. *)
Example coerce_examples :
  valid (String "194" (String "163" (String "226" (String "130" (String "172" (String "240" (String "159" (String "152" (String "128" "a"))))))))) = true ∧
  coerce (String "226" (String "130" "a")) = replacement (replacement "a") ∧
  coerce (String "192" (String "128" "")) = replacement (replacement "") ∧
  coerce (String "237" (String "160" (String "128" ""))) = replacement (replacement (replacement "")) ∧
  coerce (String "244" (String "144" (String "128" (String "128" "")))) = replacement (replacement (replacement (replacement ""))).
Proof. vm_compute. repeat split. Qed.

Lemma att_type_fits : type_fits att_type.
Proof. by repeat constructor. Qed.

Lemma att_meta_fits : meta_fits att_meta.
Proof. split; [done|]. split; [by repeat constructor|]. split; [by repeat constructor|]. by apply map_Forall_singleton. Qed.

Lemma reported_fits start : 0 ≤ start → att_fits (reported start).
Proof.
  intros Hs. split; [apply att_type_fits|]. split; [apply att_meta_fits|]. split; [by repeat constructor|].
  split; [done|]. split; [by repeat constructor|]. by intros r [= <-].
Qed.

Lemma reported_sized start : 0 ≤ start → att_sized (reported start).
Proof. intros Hs. split; [done|]. split; [done|]. by intros r [= <-]. Qed.

(** A command that prints the byte 255. *)
Definition raw_output : TypeMeta * NetworkAttachment :=
  (att_type, MkNA att_meta (MkNASpec "node1" "s1" ["cat"] [])
    (MkNAStatus (MkNAErrors [] []) "l1" 1000 "10.0.0.2" "" "kos1" ""
      (Some (MkExecReport 0 (8 * second) (9 * second) (String "255" "") "")))).

Lemma raw_output_fits : att_fits raw_output.
Proof.
  split; [apply att_type_fits|]. split; [apply att_meta_fits|]. split; [by repeat constructor|].
  split; [done|]. split; [by repeat constructor|]. by intros r [= <-].
Qed.

(** A report arrives with its times in whole seconds; raw output arrives as another text, so its
    report never equals what was stored; a nil list stays nil. *)
Lemma objects_travel_witness :
  dec (enc (reported (8 * second + 5))) zero = Some (reported (8 * second)) ∧
  Equiv (PostCreateExecReport (na_Status raw_output.2)) (PostCreateExecReport (na_Status (arrived_att raw_output).2)) = false ∧
  @dec _ IPLockList_codec (@enc _ IPLockList_codec (att_type, ("7", None))) (@zero _ IPLockList_codec) =
    Some (att_type, ("7" : ListMeta, None)).
Proof.
  split; [exact (proj1 (proj1 objects_travel (reported (8 * second + 5)) (reported_fits (8 * second + 5) ltac:(done))))|].
  split; [exact (proj1 (proj2 (proj1 objects_travel raw_output raw_output_fits)))|].
  refine (proj2 (proj2 (proj2 (proj2 (proj2 objects_travel)))) (att_type, ("7" : ListMeta, None)) _).
  split; [exact att_type_fits|]. split; [reflexivity|]. intros l E. discriminate.
Defined.

(** The report with both times is as documented; one that never started is not; nor is a list
    with nil items. *)
Lemma objects_documented_witness :
  admitted 20 (kos "NetworkAttachment") (enc (reported (8 * second))) = true ∧
  admitted 20 (kos "NetworkAttachment") (enc (reported 0)) = false ∧
  admitted 20 (kos "IPLockList") (@enc _ IPLockList_codec (att_type, ("7" : ListMeta, None))) = false.
Proof.
  pose proof (objects_documented 6 meta_admitted list_meta_admitted 20 ltac:(lia)) as (_ & Hd & _ & _ & _ & _ & Hl).
  split; [exact (Hd (reported (8 * second)) (reported_sized (8 * second) ltac:(done)))|].
  split; [exact (Hd (reported 0) (reported_sized 0 ltac:(done)))|].
  refine (Hl (att_type, ("7" : ListMeta, None)) _). intros l E. discriminate.
Defined.

Lemma documents_closed_witness :
  NoDup (Dependencies (schema_pkg_apis_network_v1alpha1_Subnet (λ n, "#/definitions/" +:+ n))).
Proof.
  exact (proj1 (proj2 (documents_closed (λ n, "#/definitions/" +:+ n) (lib := rfc3339) (kos "Subnet") _
    ltac:(vm_compute; reflexivity)))).
Defined.

End ApiDocsRuns.
