(* ===== verification/ApiScheme.v ===== *)
(** * The scheme of the API server

    [apis/network/register.go], [v1alpha1/register.go], [install/install.go] and the [init] of
    [apiserver.go]: what the server tells the scheme of the API machinery about its types.  The
    scheme is a library: its state is the list of the calls that it has accepted, and the
    environment says which of the calls that can fail it refuses. *)

From S2P Require Import Prelude GoMemory ApiTypes ApiLayout ApiV1alpha1 ApiNetwork ApiConversion Registry.
Import ApiConversion.

Module ApiScheme.

Record GroupVersion := MkGV { gv_Group : string; gv_Version : string }.

#[export] Instance GroupVersion_dec : EqDecision GroupVersion.
Proof. solve_decision. Defined.

Section Scheme.
Context `{MetaV1}.

Inductive SchemeCall :=
| AddKnownTypes (gv : GroupVersion) (kinds : list GoType)
| AddToGroupVersion (gv : GroupVersion)
| AddFieldLabelConversionFunc (gv : GroupVersion) (kind : GoType) (f : string → string → option (string * string))
| AddGeneratedConversionFunc (c : Conversion)
| SetVersionPriority (gvs : list GroupVersion)
| AddUnversionedTypes (gv : GroupVersion).

Definition Scheme : Type := list SchemeCall.

(** [runtime.APIVersionInternal]. *)
Variable APIVersionInternal : string.
Variable refuses : SchemeCall → option error.

Definition accept (c : SchemeCall) : M Scheme unit := modify (.++ [c]).

(** A call that returns an error. *)
Definition attempt (c : SchemeCall) (s : Scheme) : option error * Scheme :=
  match refuses c with Some e => (Some e, s) | None => (None, s ++ [c]) end.

(** [runtime.SchemeBuilder.AddToScheme]: the functions in order, up to the first error. *)
Fixpoint AddToScheme (fs : list (M Scheme (option error))) : M Scheme (option error) :=
  match fs with
  | [] => mret None
  | f :: fs => err ← f; match err with Some e => mret (Some e) | None => AddToScheme fs end
  end.

(** [utilruntime.Must]. *)
Definition Must (err : option error) : M Scheme unit :=
  match err with Some e => panic (message e) | None => mret tt end.

(** ** The internal version *)

Definition GroupName : string := "network.example.com".

Definition internal_GroupVersion : GroupVersion := MkGV GroupName APIVersionInternal.

Definition internal_addKnownTypes : M Scheme (option error) :=
  accept (AddKnownTypes internal_GroupVersion
    [TNetworkAttachment; TNetworkAttachmentList; TSubnet; TSubnetList; TIPLock; TIPLockList]);;
  mret None.

Definition internal_SchemeBuilder : list (M Scheme (option error)) := [internal_addKnownTypes].

(** ** Version v1alpha1 *)

Definition v1alpha1_GroupVersion : GroupVersion := MkGV GroupName "v1alpha1".

Definition v1alpha1_addKnownTypes : M Scheme (option error) :=
  accept (AddKnownTypes v1alpha1_GroupVersion
    [TNetworkAttachment; TNetworkAttachmentList; TSubnet; TSubnetList; TIPLock; TIPLockList]);;
  accept (AddToGroupVersion v1alpha1_GroupVersion);;
  mret None.

Definition addFieldConversions : M Scheme (option error) := λ s,
  Ok (attempt (AddFieldLabelConversionFunc v1alpha1_GroupVersion TNetworkAttachment convertNetworkAttachmentFields) s).

(** The [init] of [register.go] comes before that of the generated conversions. *)
Definition v1alpha1_SchemeBuilder : list (M Scheme (option error)) :=
  [v1alpha1_addKnownTypes; addFieldConversions;
   λ s, Ok (RegisterConversions (λ c, attempt (AddGeneratedConversionFunc c)) s)].

(** ** Installation *)

Definition Install : M Scheme unit :=
  err ← AddToScheme internal_SchemeBuilder;
  Must err;;
  err ← AddToScheme v1alpha1_SchemeBuilder;
  Must err;;
  err ← (λ s, Ok (attempt (SetVersionPriority [v1alpha1_GroupVersion]) s));
  Must err.

Definition apiserver_init : M Scheme unit :=
  Install;;
  accept (AddToGroupVersion (MkGV "" "v1"));;
  accept (AddUnversionedTypes (MkGV "" "v1")).

(** ** What the server can do with its types *)

(** The kinds of a version. *)
Definition knows (s : Scheme) (gv : GroupVersion) (t : GoType) : Prop :=
  ∃ kinds, AddKnownTypes gv kinds ∈ s ∧ t ∈ kinds.

Context `{!MetaOps, !MetaLaws}.

Lemma register_accepts cs s :
  match register (λ c, attempt (AddGeneratedConversionFunc c)) cs s with
  | (None, s') => s' = s ++ (AddGeneratedConversionFunc <$> cs)
  | (Some e, _) => ∃ c, refuses (AddGeneratedConversionFunc c) = Some e
  end.
Proof.
  revert s. induction cs as [|c cs IH]; intros s; simpl; [by rewrite app_nil_r|].
  unfold attempt at 1. destruct (refuses (AddGeneratedConversionFunc c)) as [e|] eqn:E; [by eexists|].
  specialize (IH (s ++ [AddGeneratedConversionFunc c])). destruct (register _ cs _) as [[e|] s']; [done|].
  by rewrite IH, <- app_assoc.
Qed.

(** The scheme refuses some call. *)
Definition refused : Prop := ∃ c e, refuses c = Some e.

(** The computation panics only if a call was refused. *)
Definition or_refused {A} (m : M Scheme A) (s : Scheme) (Q : A → Scheme → Prop) : Prop :=
  match m s with Ok (a, s') => Q a s' | Panic _ => refused end.

Lemma or_bind {A B} (m : M Scheme A) (f : A → M Scheme B) s (Q : B → Scheme → Prop) :
  or_refused m s (λ a s', or_refused (f a) s' Q) → or_refused (m ≫= f) s Q.
Proof. unfold or_refused, mbind, M_bind. by destruct (m s) as [[??]|]. Qed.

Lemma or_attempt c s (Q : option error → Scheme → Prop) :
  (∀ e, refused → Q (Some e) s) → Q None (s ++ [c]) → or_refused (λ s, Ok (attempt c s)) s Q.
Proof. intros He HQ. unfold or_refused, attempt. destruct (refuses c) as [e|] eqn:E; [|done]. apply He. by exists c, e. Qed.

(** [Must(AddToScheme(fs))] for functions that fail only when a call is refused. *)
Definition adds (f : M Scheme (option error)) (calls : list SchemeCall) : Prop :=
  ∀ s, or_refused f s (λ err s', match err with Some _ => refused | None => s' = s ++ calls end).

Lemma AddToScheme_adds fs css :
  Forall2 adds fs css → adds (AddToScheme fs) (concat css).
Proof.
  induction 1 as [|f cs fs css Hf _ IH]; intros s; simpl; [by rewrite app_nil_r|].
  apply or_bind. specialize (Hf s). unfold or_refused in Hf |- *. destruct (f s) as [[[e|] s1]|]; [done| |done].
  subst s1. specialize (IH (s ++ cs)). unfold or_refused in IH. rewrite <- app_assoc in IH. exact IH.
Qed.

Lemma Must_adds {B} f calls s (k : M Scheme B) (Q : B → Scheme → Prop) :
  adds f calls → or_refused k (s ++ calls) Q → or_refused (err ← f; Must err;; k) s Q.
Proof.
  intros Hf HQ. apply or_bind. specialize (Hf s). unfold or_refused in Hf |- *.
  destruct (f s) as [[[e|] s1]|]; [done| |done]. by subst s1.
Qed.

Lemma attempt_adds c : adds (λ s, Ok (attempt c s)) [c].
Proof. intros s. by apply or_attempt. Qed.

Lemma register_adds : adds (λ s, Ok (RegisterConversions (λ c, attempt (AddGeneratedConversionFunc c)) s))
  (AddGeneratedConversionFunc <$> conversions).
Proof.
  intros s. unfold or_refused, RegisterConversions. pose proof (register_accepts conversions s) as Hr.
  destruct (register _ conversions s) as [[e|] s']; [|done]. destruct Hr as [c Hc]. by eexists _, e.
Qed.

(** The kinds of both versions. *)
Definition kinds : list GoType :=
  [TNetworkAttachment; TNetworkAttachmentList; TSubnet; TSubnetList; TIPLock; TIPLockList].

Lemma internal_known_adds : adds internal_addKnownTypes [AddKnownTypes internal_GroupVersion kinds].
Proof. by intros s. Qed.

Lemma v1alpha1_known_adds :
  adds v1alpha1_addKnownTypes [AddKnownTypes v1alpha1_GroupVersion kinds; AddToGroupVersion v1alpha1_GroupVersion].
Proof.
  intros s. change ((s ++ [AddKnownTypes v1alpha1_GroupVersion kinds]) ++ [AddToGroupVersion v1alpha1_GroupVersion] =
    s ++ [AddKnownTypes v1alpha1_GroupVersion kinds; AddToGroupVersion v1alpha1_GroupVersion]). by rewrite <- app_assoc.
Qed.

(** What the scheme has been told at the end. *)
Definition final_scheme : Scheme :=
  [AddKnownTypes internal_GroupVersion kinds; AddKnownTypes v1alpha1_GroupVersion kinds;
   AddToGroupVersion v1alpha1_GroupVersion;
   AddFieldLabelConversionFunc v1alpha1_GroupVersion TNetworkAttachment convertNetworkAttachmentFields] ++
  (AddGeneratedConversionFunc <$> conversions) ++
  [SetVersionPriority [v1alpha1_GroupVersion]; AddToGroupVersion (MkGV "" "v1"); AddUnversionedTypes (MkGV "" "v1")].

Lemma init_runs (Q : unit → Scheme → Prop) : Q tt final_scheme → or_refused apiserver_init [] Q.
Proof.
  intros HQ. unfold apiserver_init. apply or_bind. unfold Install.
  eapply Must_adds; [apply AddToScheme_adds, Forall2_cons_2; [apply internal_known_adds|apply Forall2_nil_2]|].
  eapply Must_adds; [apply AddToScheme_adds; repeat apply Forall2_cons_2;
    [apply v1alpha1_known_adds|apply attempt_adds|apply register_adds|apply Forall2_nil_2]|].
  apply or_bind, or_attempt; [by intros e Hr|]. unfold or_refused. cbn [Must accept concat app].
  rewrite app_nil_r. unfold final_scheme in HQ. revert HQ. generalize (AddGeneratedConversionFunc <$> conversions).
  intros cs HQ. unfold mbind, M_bind, accept, modify. simpl. by rewrite <- !app_assoc.
Qed.

Lemma knows_kinds gv t :
  gv = v1alpha1_GroupVersion ∨ gv = internal_GroupVersion → knows final_scheme gv t ↔ t ∈ kinds.
Proof.
  intros Hgv. unfold knows, final_scheme. split.
  - intros (ks & Hin & Ht). rewrite !elem_of_app, !elem_of_cons, elem_of_nil, list_elem_of_fmap in Hin.
    destruct Hin as [Hin|[(c & Hc & _)|Hin]]; [|done|]; naive_solver.
  - intros Ht. exists kinds. split; [|done]. apply elem_of_app. left. destruct Hgv as [->| ->]; set_solver.
Qed.

(** C33: the process dies at the first call that the scheme refuses.  Otherwise the server knows the
    same kinds in version v1alpha1 and internally, and for each kind, as for the types they are
    made of, it has a conversion there and one back: both always succeed and share all memory with what
    they convert, so that in every state of the memory the result stands for the same value,
    the type metadata of the struct apart; there and back is the identity.  Requests for attachments
    have their field labels checked. *)
Theorem scheme_converts :
  match apiserver_init [] with
  | Panic _ => ∃ c e, refuses c = Some e
  | Ok (_, s) =>
      (∀ t, knows s v1alpha1_GroupVersion t ↔ knows s internal_GroupVersion t) ∧
      (∀ t, ∃ f g, AddGeneratedConversionFunc (Inward t f) ∈ s ∧ AddGeneratedConversionFunc (Outward t g) ∈ s ∧ inverse t f g) ∧
      AddFieldLabelConversionFunc v1alpha1_GroupVersion TNetworkAttachment convertNetworkAttachmentFields ∈ s ∧
      SetVersionPriority [v1alpha1_GroupVersion] ∈ s
  end.
Proof.
  apply (init_runs (λ _ s,
    (∀ t, knows s v1alpha1_GroupVersion t ↔ knows s internal_GroupVersion t) ∧
    (∀ t, ∃ f g, AddGeneratedConversionFunc (Inward t f) ∈ s ∧ AddGeneratedConversionFunc (Outward t g) ∈ s ∧ inverse t f g) ∧
    AddFieldLabelConversionFunc v1alpha1_GroupVersion TNetworkAttachment convertNetworkAttachmentFields ∈ s ∧
    SetVersionPriority [v1alpha1_GroupVersion] ∈ s)).
  split; [intros t; rewrite !knows_kinds; auto|]. split.
  - intros t. destruct (conversions_inverse t) as (f & g & Hf & Hg & Hi). exists f, g. unfold final_scheme.
    rewrite !elem_of_app. split; [right; left; by apply list_elem_of_fmap_2|]. split; [right; left; by apply list_elem_of_fmap_2|done].
  - unfold final_scheme. rewrite !elem_of_app, !elem_of_cons. tauto.
Qed.

End Scheme.
End ApiScheme.
