(* ===== verification/ApiServer.v ===== *)
(** * The API server

    [pkg/cmd/server/start.go], [pkg/apiserver/apiserver.go], [pkg/registry/registry.go] and
    the [NewREST] functions ([etcd.go]): how the server of KOS is put together from the
    generic one, which is a library: the environment says which of its steps fail. *)

From S2P Require Import Prelude GoStr GoNet ApiTypes SubnetStrategy Registry Informers.
Import Informers.

Module ApiServer.

(** What serves a resource: a store with the strategies of [Registry]; the strategy for
    subnets has a lister, which reads the cache of an informer. *)
Inductive StandardStorage := NetworkAttachmentREST | SubnetREST (subnetLister : nat) | IPLockREST.

(** The outcome of the generic server: it does not start, or serves until it ends. *)
Inductive ServerRun := FailsToStart (err : error) | Serves (ended : option error).

Record Env := MkEnv {
  MaybeDefaultWithSelfSignedCerts : option error;
  ServerRunOptions_Validate : list error;
  RecommendedOptions_Validate : list error;
  NewAggregate : list error → option error;
  RecommendedOptions_ApplyTo : option error;
  ServerRunOptions_ApplyTo : option error;
  NewForConfig : option error;
  GenericConfig_New : option error;
  CompleteWithOptions : string → option error;
  InstallAPIGroup : option error;
  PrepareRun_Run : ServerRun }.

(** ** registry.go, etcd.go *)

Definition RESTInPeace (r : error + StandardStorage) : M State StandardStorage :=
  match r with
  | inl e => panic ("unable to create REST storage for a resource due to " +:+ message e +:+ ", will die")
  | inr storage => mret storage
  end.

Definition networkattachment_NewREST (E : Env) : error + StandardStorage :=
  match CompleteWithOptions E "networkattachments" with Some e => inl e | None => inr NetworkAttachmentREST end.

Definition iplock_NewREST (E : Env) : error + StandardStorage :=
  match CompleteWithOptions E "iplocks" with Some e => inl e | None => inr IPLockREST end.

(** [NewStrategy] asks for the lister, so that there is an informer from then on. *)
Definition subnet_NewStrategy (listerFactory : nat) : M State nat :=
  subnets ← Network listerFactory Subnets; Lister subnets.

Definition subnet_NewREST (E : Env) (informersFactory : nat) : M State (error + StandardStorage) :=
  subnetLister ← subnet_NewStrategy informersFactory;
  mret (match CompleteWithOptions E "subnets" with Some e => inl e | None => inr (SubnetREST subnetLister) end).

(** ** apiserver.go *)

(** [completedConfig.New]: the storage of version [v1alpha1]. *)
Definition New (E : Env) (NetworkSharedInformerFactory : nat) : M State (error + gmap string StandardStorage) :=
  match GenericConfig_New E with
  | Some e => mret (inl e)
  | None =>
      netatts ← RESTInPeace (networkattachment_NewREST E);
      r ← subnet_NewREST E NetworkSharedInformerFactory;
      subnets ← RESTInPeace r;
      locks ← RESTInPeace (iplock_NewREST E);
      let v1alpha1storage := <["iplocks" := locks]> (<["subnets" := subnets]> {["networkattachments" := netatts]}) in
      match InstallAPIGroup E with
      | Some e => mret (inl e)
      | None => mret (inr v1alpha1storage)
      end
  end.

(** ** start.go *)

Definition Complete (E : Env) : option error :=
  match MaybeDefaultWithSelfSignedCerts E with
  | Some e => Some (Errorf ("error creating self-signed certificates: " +:+ message e))
  | None => None
  end.

Definition Validate (E : Env) : option error :=
  NewAggregate E (ServerRunOptions_Validate E ++ RecommendedOptions_Validate E).

(** [Config]: the factory of the server's informers. *)
Definition Config (E : Env) : M State (error + nat) :=
  match RecommendedOptions_ApplyTo E with
  | Some e => mret (inl e)
  | None =>
      match ServerRunOptions_ApplyTo E with
      | Some e => mret (inl e)
      | None =>
          match NewForConfig E with
          | Some e => mret (inl e)
          | None => networkInformerFactory ← NewSharedInformerFactory 0; mret (inr networkInformerFactory)
          end
      end
  end.

(** How far the server gets.  The hook that starts the factory runs when the generic server
    has started. *)
Inductive Outcome := Failed (err : error) | Served (storage : gmap string StandardStorage) (ended : option error).

Definition RunNetworkAPIServer (E : Env) : M State Outcome :=
  config ← Config E;
  match config with
  | inl e => mret (Failed e)
  | inr f =>
      server ← New E f;
      match server with
      | inl e => mret (Failed e)
      | inr storage =>
          match PrepareRun_Run E with
          | FailsToStart e => mret (Failed e)
          | Serves ended => Start f;; mret (Served storage ended)
          end
      end
  end.

(** The command of [NewCommandStartNetworkAPIServer]. *)
Definition RunE (E : Env) : M State Outcome :=
  match Complete E with
  | Some e => mret (Failed e)
  | None =>
      match Validate E with
      | Some e => mret (Failed e)
      | None => RunNetworkAPIServer E
      end
  end.

(** [main] of [cmd/network-apiserver]: [glog.Fatal] exits with 255. *)
Definition exit_code (o : Outcome) : Z :=
  match o with
  | Failed _ | Served _ (Some _) => 255
  | Served _ None => 0
  end.

(** ** What the server serves *)

(** The strategy for subnets, when the cache holds [cached]. *)
Definition subnet_validation (cached : list Subnet) (s : Subnet) : res (list field_error) :=
  validate _ (subnetStrategy (Some cached)) s.

(** With an empty cache any well-formed subnet is accepted. *)
Lemma unsynced_accepts s :
  is_Some (block s) → minVNI ≤ vni_of s ≤ maxVNI → subnet_validation [] s = Ok [].
Proof.
  intros Hb Hv. change (SubnetStrategy.Validate (Some []) s = Ok []).
  destruct (Validate_iff [] s) as (errs & -> & Hiff); [constructor|done|].
  rewrite (proj2 Hiff); [done|]. split; [done|]. split; [done|]. by intros s' ?%elem_of_nil.
Qed.

(** All steps of the generic server succeed. *)
Definition starts_ok (E : Env) : Prop :=
  MaybeDefaultWithSelfSignedCerts E = None ∧ Validate E = None ∧ RecommendedOptions_ApplyTo E = None ∧
  ServerRunOptions_ApplyTo E = None ∧ NewForConfig E = None ∧ GenericConfig_New E = None ∧
  CompleteWithOptions E "networkattachments" = None ∧ CompleteWithOptions E "subnets" = None ∧
  CompleteWithOptions E "iplocks" = None ∧ InstallAPIGroup E = None ∧ ∃ ended, PrepareRun_Run E = Serves ended.

(** A step has failed. *)
#[local] Ltac not_ok := unfold starts_ok; intros Hok; destruct_and? Hok; congruence.
#[local] Ltac failed := split; [not_ok|done].
#[local] Ltac dies := split; [not_ok|eexists _, _; split; [|done]; set_solver].

(** The API server serves exactly when all its steps succeed; a step that fails makes the
    process exit with 255, or panic if it is the storage of a resource, and then no informer
    has been run.  A server that serves has the three resources of KOS and no other, and the
    informer whose cache its strategy for subnets reads was asked for before the hook started
    the factory, so that it runs, once.  But nothing waits for that cache: until it has synced
    the server accepts any well-formed subnet, whatever subnets are stored. *)
Lemma api_server (E : Env) :
  match RunE E init with
  | Panic _ => ¬ starts_ok E ∧
      ∃ r e, r ∈ ["networkattachments"; "subnets"; "iplocks"] ∧ CompleteWithOptions E r = Some e
  | Ok (Failed e, s) => ¬ starts_ok E ∧ calls s = [] ∧ exit_code (Failed e) = 255
  | Ok (Served storage ended, s) => starts_ok E ∧
      ∃ l, storage = {["networkattachments" := NetworkAttachmentREST; "subnets" := SubnetREST l; "iplocks" := IPLockREST]} ∧
        caches s l Subnets ∧ calls s = [GoRun l] ∧ wired l (calls s) = true ∧
        ∀ sn, is_Some (block sn) → minVNI ≤ vni_of sn ≤ maxVNI → subnet_validation [] sn = Ok []
  end.
Proof.
  unfold RunE, Complete. destruct (MaybeDefaultWithSelfSignedCerts E) eqn:E1; [failed|].
  destruct (Validate E) eqn:E2; [failed|]. unfold RunNetworkAPIServer, Config, mbind, M_bind.
  destruct (RecommendedOptions_ApplyTo E) eqn:E3; [failed|]. destruct (ServerRunOptions_ApplyTo E) eqn:E4; [failed|].
  destruct (NewForConfig E) eqn:E5; [failed|]. simpl.
  unfold New, networkattachment_NewREST, iplock_NewREST, subnet_NewREST.
  destruct (GenericConfig_New E) eqn:E6; [failed|]. destruct (CompleteWithOptions E "networkattachments") eqn:E7; [dies|].
  destruct (CompleteWithOptions E "subnets") eqn:E8; [dies|]. destruct (CompleteWithOptions E "iplocks") eqn:E9; [dies|].
  destruct (InstallAPIGroup E) eqn:E10; [failed|]. destruct (PrepareRun_Run E) as [e|ended] eqn:E11.
  { split; [|done]. intros Hok. unfold starts_ok in Hok. do 10 destruct Hok as [_ Hok]. by destruct Hok as [ended Hr]; rewrite E11 in Hr. }
  split; [by repeat (split; [done|]); exists ended|].
  exists 0%nat. split; [reflexivity|]. split; [by eexists|]. split; [reflexivity|]. split; [reflexivity|]. apply unsynced_accepts.
Qed.
End ApiServer.
