(* ===== verification/GoRegexp.v ===== *)
(** * Regular expressions of Go

    The part of [regexp] that the Open vSwitch fabric uses: expressions without
    captures or anchors, the leftmost match that a backtracking search finds first,
    and more of [strings], [encoding/binary] and [net].  The lemmas find a literal,
    and what follows it, in the middle of a text. *)

From S2P Require Import Prelude GoStr GoNet.
Import GoNet.

(** ** Expressions *)

Inductive regexp :=
| RLit (s : string)                       (* the text [s] *)
| RClass (P : ascii → bool)               (* one character of a class *)
| RSpan (P : ascii → bool)                (* [[...]+]: one or more of them *)
| ROpt (r : regexp)                       (* [r?] *)
| RSeq (r1 r2 : regexp)
| RAlt (r1 r2 : regexp).

Fixpoint RRep (n : nat) (r : regexp) : regexp :=
  match n with O => RLit "" | S n => RSeq r (RRep n r) end.

(** The rests after the non-empty prefixes of characters of the class, the longest
    prefix first. *)
Fixpoint span_rests (P : ascii → bool) (s : string) : list string :=
  match s with
  | EmptyString => []
  | String c s => if P c then span_rests P s ++ [s] else []
  end.

(** The rests of [s] after a match at its start, in order of preference. *)
Fixpoint rests (r : regexp) (s : string) : list string :=
  match r with
  | RLit t => if has_prefix t s then [str_drop (String.length t) s] else []
  | RClass P => match s with String c s => if P c then [s] else [] | EmptyString => [] end
  | RSpan P => span_rests P s
  | ROpt r => rests r s ++ [s]
  | RSeq r1 r2 => concat (rests r2 <$> rests r1 s)
  | RAlt r1 r2 => rests r1 s ++ rests r2 s
  end.

Fixpoint str_take (n : nat) (s : string) : string :=
  match n, s with S n, String c s => String c (str_take n s) | _, _ => EmptyString end.

(** [Regexp.FindString]: the leftmost match, or the empty string. *)
Fixpoint FindString (r : regexp) (s : string) : string :=
  match rests r s with
  | rest :: _ => str_take (String.length s - String.length rest) s
  | [] => match s with EmptyString => EmptyString | String _ s' => FindString r s' end
  end.

(** ** More of [strings] *)

Fixpoint in_cutset (c : ascii) (cutset : string) : bool :=
  match cutset with EmptyString => false | String d cutset => char_is c d || in_cutset c cutset end.

(** [strings.TrimLeft], [TrimRight] and [Trim]. *)
Fixpoint TrimLeft (s cutset : string) : string :=
  match s with
  | String c s' => if in_cutset c cutset then TrimLeft s' cutset else s
  | EmptyString => EmptyString
  end.

Fixpoint TrimRight (s cutset : string) : string :=
  match s with
  | EmptyString => EmptyString
  | String c s' =>
      match TrimRight s' cutset with
      | EmptyString => if in_cutset c cutset then EmptyString else String c EmptyString
      | t => String c t
      end
  end.

Definition Trim (s cutset : string) : string := TrimRight (TrimLeft s cutset) cutset.

(** [unicode.IsSpace] on ASCII characters. *)
Definition is_space (c : ascii) : bool :=
  let n := N_of_ascii c in ((9 <=? n) && (n <=? 13) || (n =? 32))%N.

(** [strings.Fields]; [w] is the word that is being read. *)
Fixpoint fields_go (w s : string) : list string :=
  match s with
  | EmptyString => match w with EmptyString => [] | _ => [w] end
  | String c s =>
      if is_space c then match w with EmptyString => fields_go "" s | _ => w :: fields_go "" s end
      else fields_go (w +:+ String c "") s
  end.
Definition Fields (s : string) : list string := fields_go "" s.

(** ** [binary.Uvarint]

    The value only; [shift] grows by 7 per byte. *)
Fixpoint uvarint_go (i : nat) (x shift : Z) (buf : list Z) : Z :=
  match buf with
  | [] => 0
  | b :: buf =>
      if b <? 0x80 then
        if (9 <? i)%nat || ((i =? 9)%nat && (1 <? b)) then 0 else Z.lor x (u64 (Z.shiftl b shift))
      else uvarint_go (S i) (Z.lor x (u64 (Z.shiftl (Z.land b 0x7f) shift))) (shift + 7) buf
  end.
Definition Uvarint (buf : list Z) : Z := uvarint_go 0 0 0 buf.

(** ** [net.ParseMAC]

    Of its formats, the one with two hexadecimal digits per byte and a colon or a
    dash between any two. *)
Definition xtoi2 (s : string) (e : ascii) : option Z :=
  match s with
  | String a (String b s) =>
      match s with
      | EmptyString => '(n, rest) ← xtoi (String a (String b "")); match rest with EmptyString => Some n | _ => None end
      | String c _ =>
          if char_is c e then
            '(n, rest) ← xtoi (String a (String b "")); match rest with EmptyString => Some n | _ => None end
          else None
      end
  | _ => None
  end.

Fixpoint parse_mac (n : nat) (e : ascii) (s : string) : option HardwareAddr :=
  match n with
  | O => Some []
  | S n => b ← xtoi2 s e; rest ← parse_mac n e (str_drop 3 s); Some (b :: rest)
  end.

Definition ParseMAC (s : string) : option HardwareAddr :=
  match s with
  | String _ (String _ (String e _)) =>
      let n := (String.length s + 1)%nat in
      if (String.length s <? 14)%nat then None
      else if (char_is e ":" || char_is e "-") && (n mod 3 =? 0)%nat &&
              bool_decide (n / 3 ∈ [6; 8; 20])%nat
      then parse_mac (n / 3) e s
      else None
  | _ => None
  end.

(** ** Strings *)

Lemma has_prefix_spec p s : has_prefix p s = true ↔ ∃ u, s = p +:+ u.
Proof.
  revert s. induction p as [|c p IH]; intros s; simpl; [split; [by exists s|done]|].
  destruct s as [|d s]; [split; [done|by intros [u [=]]]|].
  unfold char_is. rewrite andb_true_iff, bool_decide_eq_true, IH. split.
  - intros [<- [u ->]]. by exists u.
  - intros [u [= <- ->]]. split; [done|by exists u].
Qed.

Lemma has_prefix_app p s : has_prefix p (p +:+ s) = true.
Proof. apply has_prefix_spec. by exists s. Qed.

(** Two ways to split one string. *)
Lemma str_app_split (a b c d : string) :
  a +:+ b = c +:+ d → (∃ e, c = a +:+ e ∧ b = e +:+ d) ∨ (∃ e, a = c +:+ e ∧ d = e +:+ b).
Proof.
  revert c. induction a as [|x a IH]; intros c E.
  - left. by exists c.
  - destruct c as [|y c]; [right; by exists (String x a)|]. injection E as <- E.
    destruct (IH c E) as [(e & -> & ->)|(e & -> & ->)]; [left|right]; by exists e.
Qed.

Lemma str_contains_spec s t : str_contains s t = true ↔ ∃ u v, s = u +:+ t +:+ v.
Proof.
  induction s as [|c s IH]; simpl; rewrite orb_true_iff, has_prefix_spec.
  - split.
    + intros [[u Hu]|]; [|done]. exists "", u. exact Hu.
    + intros (u & v & E). left. destruct u; [|done]. by exists v.
  - rewrite IH. split.
    + intros [[u Hu]|(u & v & ->)]; [exists "", u; exact Hu|by exists (String c u), v].
    + intros (u & v & E). destruct u as [|x u]; [left; by exists v|]. right. injection E as -> ->. by exists u, v.
Qed.

Lemma str_contains_app_l s t u : str_contains s u = true → str_contains (s +:+ t) u = true.
Proof.
  rewrite !str_contains_spec. intros (v & w & ->). exists v, (w +:+ t). by rewrite !str_app_assoc.
Qed.

Lemma str_contains_app_r s t u : str_contains t u = true → str_contains (s +:+ t) u = true.
Proof.
  rewrite !str_contains_spec. intros (v & w & ->). exists (s +:+ v), w. by rewrite !str_app_assoc.
Qed.

Lemma str_length_app s t : String.length (s +:+ t) = (String.length s + String.length t)%nat.
Proof. induction s as [|c s IH]; [done|]. simpl. by rewrite <- IH. Qed.

Lemma str_drop_app s t : str_drop (String.length s) (s +:+ t) = t.
Proof. induction s as [|c s IH]; [by destruct t|]. apply IH. Qed.

Lemma str_take_app s t : str_take (String.length s) (s +:+ t) = s.
Proof. induction s as [|c s IH]; [by destruct t|]. apply (f_equal (String c) IH). Qed.

(** ** Finding *)

(** No match of [r] starts in [pre] when [s] follows. *)
Definition dead (r : regexp) (pre s : string) : Prop :=
  ∀ p q, pre = p +:+ q → q ≠ "" → rests r (q +:+ s) = [].

Lemma find_skip r pre s : dead r pre s → FindString r (pre +:+ s) = FindString r s.
Proof.
  induction pre as [|c pre IH]; intros Hd; [done|].
  assert (E : rests r (String c pre +:+ s) = []) by by apply (Hd "" (String c pre)).
  change (String c pre +:+ s) with (String c (pre +:+ s)) in *. simpl. rewrite E. apply IH.
  intros p q -> Hq. apply (Hd (String c p) q); [done|done].
Qed.

Lemma find_here r t u l : rests r (t +:+ u) = u :: l → FindString r (t +:+ u) = t.
Proof.
  intros E. assert (Hlen : str_take (String.length (t +:+ u) - String.length u) (t +:+ u) = t).
  { rewrite str_length_app, Nat.add_sub. apply str_take_app. }
  destruct (t +:+ u) as [|c s] eqn:Es; unfold FindString; fold FindString; rewrite E; exact Hlen.
Qed.

(** A literal none of whose proper suffixes is one of its prefixes. *)
Fixpoint no_border (lit s : string) : bool :=
  match s with
  | EmptyString => true
  | String _ s => match s with EmptyString => true | _ => negb (has_prefix s lit) end && no_border lit s
  end.

Lemma no_border_spec lit p q : no_border lit (p +:+ q) = true → p ≠ "" → q ≠ "" → has_prefix q lit = false.
Proof.
  induction p as [|c p IH]; [done|]. change (String c p +:+ q) with (String c (p +:+ q)). simpl.
  intros [H1 H2]%andb_true_iff _ Hq. destruct p as [|d p].
  - change ("" +:+ q) with q in *. destruct q; [done|]. by apply negb_true_iff.
  - by apply IH.
Qed.

Lemma lit_dead lit r pre s :
  no_border lit lit = true → str_contains pre lit = false → dead (RSeq (RLit lit) r) pre (lit +:+ s).
Proof.
  intros Hb Hc p q -> Hq. simpl. destruct (has_prefix lit (q +:+ lit +:+ s)) eqn:E; [|done]. exfalso.
  apply has_prefix_spec in E as [u E]. apply str_app_split in E as [(e & El & E)|(e & -> & _)].
  - destruct e as [|c e].
    + rewrite str_app_nil_r in El. subst q. apply not_true_iff_false in Hc. apply Hc.
      apply str_contains_app_r, str_contains_spec. exists "", "". by rewrite str_app_nil_r.
    + rewrite El in Hb at 2. apply no_border_spec in Hb; [|done|done].
      apply str_app_split in E as [(e' & E1 & E2)|(e' & E1 & E2)].
      * apply (f_equal String.length) in El. apply (f_equal String.length) in E1. rewrite str_length_app in *.
        destruct q; [done|]. simpl in *. lia.
      * rewrite E1, has_prefix_app in Hb. done.
  - apply not_true_iff_false in Hc. apply Hc, str_contains_app_r, str_contains_spec. by exists "", e.
Qed.

Lemma span_dead P pre s : str_forall (λ c, negb (P c)) pre = true → dead (RSpan P) pre s.
Proof.
  intros Hp p q -> Hq. rewrite str_forall_app in Hp. apply andb_true_iff in Hp as [_ Hp].
  destruct q as [|c q]; [done|]. simpl in *. apply andb_true_iff in Hp as [Hc _]. by destruct (P c).
Qed.

(** The text [u] does not start with a character of the class. *)
Definition stops (P : ascii → bool) (u : string) : bool :=
  match u with EmptyString => true | String c _ => negb (P c) end.

(** The preferred match of [r] at the start of [s] leaves [u]. *)
Definition leaves (r : regexp) (s u : string) : Prop := ∃ l, rests r s = u :: l.

Lemma leaves_seq r1 r2 s t u : leaves r1 s t → leaves r2 t u → leaves (RSeq r1 r2) s u.
Proof. intros [l1 E1] [l2 E2]. unfold leaves. simpl. rewrite E1. simpl. rewrite E2. by eexists. Qed.

Lemma seq_none r1 r2 s : rests r1 s = [] → rests (RSeq r1 r2) s = [].
Proof. intros E. simpl. by rewrite E. Qed.

Lemma leaves_lit t s : leaves (RLit t) (t +:+ s) s.
Proof. exists []. simpl. by rewrite has_prefix_app, str_drop_app. Qed.

Lemma leaves_span P t u :
  t ≠ "" → str_forall P t = true → stops P u = true → leaves (RSpan P) (t +:+ u) u.
Proof.
  intros Ht Hp Hu. assert (Eu : span_rests P u = []) by (destruct u; [done|]; simpl in *; by destruct (P a)).
  unfold leaves. simpl. induction t as [|c t IH]; [done|]. simpl in *. apply andb_true_iff in Hp as [Hc Hp].
  rewrite Hc. destruct t as [|d t].
  - change ("" +:+ u) with u. rewrite Eu. by exists [].
  - destruct (IH) as [l El]; [done|done|]. change ((String d t +:+ u)%string) with (String d t +:+ u).
    rewrite El. by eexists.
Qed.

Lemma find_leaves r pre t u : dead r pre (t +:+ u) → leaves r (t +:+ u) u → FindString r (pre +:+ t +:+ u) = t.
Proof. intros Hd [l E]. rewrite find_skip by done. by eapply find_here. Qed.

Lemma find_leaves_here r t u : leaves r (t +:+ u) u → FindString r (t +:+ u) = t.
Proof. intros [l E]. by eapply find_here. Qed.

Lemma find_whole r t : leaves r (t +:+ "") "" → FindString r t = t.
Proof. intros Hl. apply find_leaves_here in Hl. by rewrite str_app_nil_r in Hl. Qed.

(** ** Searching past a text *)

(** No match of [lit] starts in [k] when [s] follows. *)
Definition passes (lit k s : string) : Prop := dead (RLit lit) k s.

Lemma passes_prefix lit k s p q :
  passes lit k s → k = p +:+ q → q ≠ "" → has_prefix lit (q +:+ s) = false.
Proof. intros Hp -> Hq. specialize (Hp p q eq_refl Hq). simpl in Hp. by destruct (has_prefix lit (q +:+ s)). Qed.

Lemma find_pass lit r k s :
  passes lit k s → FindString (RSeq (RLit lit) r) (k +:+ s) = FindString (RSeq (RLit lit) r) s.
Proof.
  intros Hp. apply find_skip. intros p q E Hq. simpl. by rewrite (passes_prefix lit k s p q Hp E Hq).
Qed.

Lemma contains_pass lit k s : passes lit k s → str_contains (k +:+ s) lit = str_contains s lit.
Proof.
  induction k as [|c k IH]; intros Hp; [done|].
  assert (E : has_prefix lit (String c k +:+ s) = false) by by apply (passes_prefix _ _ _ "" (String c k) Hp).
  change (String c k +:+ s) with (String c (k +:+ s)) in *. cbn [str_contains]. rewrite E. apply IH.
  intros p q -> Hq. apply (Hp (String c p) q); done.
Qed.

(** A constant, whatever follows. *)
Fixpoint skips (lit k : string) : bool :=
  match k with
  | EmptyString => true
  | String _ k' => negb (has_prefix lit k || has_prefix k lit) && skips lit k'
  end.

Lemma skips_app lit p q : skips lit (p +:+ q) = true → skips lit q = true.
Proof. induction p as [|c p IH]; [done|]. simpl. intros [_ Hs]%andb_true_iff. by apply IH. Qed.

Lemma pass_lit lit k s : skips lit k = true → passes lit k s.
Proof.
  intros Hs p q -> Hq. apply skips_app in Hs. destruct q as [|c q]; [done|].
  cbn [skips] in Hs. apply andb_true_iff in Hs as [[H1 H2]%negb_true_iff%orb_false_iff _].
  simpl rests. destruct (has_prefix lit (String c q +:+ s)) eqn:E; [|done]. exfalso.
  apply has_prefix_spec in E as [u E]. apply str_app_split in E as [(e & -> & _)|(e & Ee & _)].
  - by rewrite has_prefix_app in H2.
  - by rewrite Ee, has_prefix_app in H1.
Qed.

(** A text without [lit], before a character that [lit] lacks. *)
Definition sep_at (lit k : string) : bool :=
  match k with EmptyString => false | String c _ => lacks c lit end.

Lemma lacks_split c a b : lacks c (a +:+ String c b) = false.
Proof.
  unfold lacks. rewrite str_forall_app. simpl. unfold char_is. rewrite bool_decide_eq_true_2 by done.
  apply andb_false_r.
Qed.

Lemma pass_sep lit a k s : sep_at lit k = true → str_contains a lit = false → passes lit a (k +:+ s).
Proof.
  intros Hk Ha p q -> Hq. destruct k as [|c k]; [done|]. simpl rests.
  destruct (has_prefix lit (q +:+ String c k +:+ s)) eqn:E; [|done]. exfalso.
  apply has_prefix_spec in E as [u E]. apply str_app_split in E as [(e & -> & E)|(e & -> & _)].
  - destruct e as [|d e].
    + apply not_true_iff_false in Ha. apply Ha, str_contains_app_r, str_contains_spec.
      exists "", "". by rewrite !str_app_nil_r.
    + injection E as <- _. simpl in Hk. by rewrite lacks_split in Hk.
  - apply not_true_iff_false in Ha. apply Ha, str_contains_app_r, str_contains_spec. by exists "", e.
Qed.

(** A text of characters of a class that [lit] is not of. *)
Lemma class_lacks P a lit :
  str_forall P a = true → str_forall P lit = false → str_contains a lit = false.
Proof.
  intros Ha Hl. apply not_true_iff_false. intros (u & v & ->)%str_contains_spec.
  rewrite !str_forall_app, Hl, andb_false_r in Ha. done.
Qed.
