(* ===== verification/IpLock.v ===== *)
(** * IP locks: names, owners and lists of parsed locks

    An IPLock object locks one address of one virtual network; its name spells
    the two.  This file models the part of [pkg/controllers/ipam/ipam.go] that
    deals in lock names ([makeIPLockName2], [parseIPLockName]), in owner
    references, and in [ParsedLock] and [ParsedLockList]. *)

From S2P Require Import Prelude GoStr GoNet ApiTypes SubnetStrategy.
Import GoNet.

(** ** Addresses as numbers *)

Definition IPv4ToUint32 (ip : IP) : res Z := ipv4ToUint32 ip.

Definition Uint32ToIPv4 (i : Z) : IP :=
  IPv4_16 (u8 (Z.shiftr i 24)) (u8 (Z.shiftr i 16)) (u8 (Z.shiftr i 8)) (u8 i).

Definition IPNetToBoundsU (ipNet : IPNet) : res (Z * Z) :=
  min ← IPv4ToUint32 (net_IP ipNet);
  Ok (min, min +₃₂ block_delta (net_Mask ipNet)).

Lemma Uint32ToIPv4_bytes i : Uint32ToIPv4 i = v4InV6Prefix ++ PutUint32 i.
Proof. done. Qed.

Lemma To4_Uint32ToIPv4 i : To4 (Uint32ToIPv4 i) = PutUint32 i.
Proof. by apply To4_mapped. Qed.

Lemma IPv4ToUint32_Uint32ToIPv4 i : is_u32 i → IPv4ToUint32 (Uint32ToIPv4 i) = Ok i.
Proof.
  intros Hi. destruct (PutUint32_bytes i Hi) as [Hb Hbe]. unfold IPv4ToUint32.
  by rewrite (ipv4ToUint32_be _ Hb), Hbe by apply To4_Uint32ToIPv4.
Qed.

Lemma Uint32ToIPv4_inj i j : is_u32 i → is_u32 j → Uint32ToIPv4 i = Uint32ToIPv4 j → i = j.
Proof.
  intros Hi Hj E. pose proof (IPv4ToUint32_Uint32ToIPv4 i Hi) as E1.
  rewrite E, IPv4ToUint32_Uint32ToIPv4 in E1 by done. congruence.
Qed.

(** ** Lock names *)

Definition makeIPLockName2 (VNI : Z) (ip : IP) : res string :=
  match To4 ip with
  | [a; b; c; d] => Ok (str_join "-" ["v1"; fmt_d VNI; fmt_d a; fmt_d b; fmt_d c; fmt_d d])
  | _ => Panic "index out of range"
  end.

(** The loop over the four address bytes. *)
Fixpoint parse_addr (parts : list string) (addrU : Z) : option Z :=
  match parts with
  | [] => Some addrU
  | p :: parts =>
      match ParseUint p 10 8 with
      | PVal b64 => parse_addr parts (u32 (addrU * 256 + b64))
      | _ => None
      end
  end.

(** The text of the errors only goes to the log. *)
Definition parseIPLockName (lockName : string) : option (Z * Z) :=
  match split_on "-" lockName with
  | v :: vni :: ([_; _; _; _] as addr) =>
      if negb (String.eqb v "v1") then None
      else
        match ParseUint vni 10 21 with
        | PVal VNI => addrU ← parse_addr addr 0; Some (VNI, addrU)
        | _ => None
        end
  | _ => None
  end.

Lemma ParseUint_fmt_d n bits :
  0 ≤ bits ≤ 64 → 0 ≤ n < 2 ^ bits → ParseUint (fmt_d n) 10 bits = PVal n.
Proof. intros. apply ParseUint_FormatUint; lia. Qed.

Lemma parse_addr_be p : bytes4 p → parse_addr (fmt_d <$> p) 0 = Some (be p).
Proof.
  intros (a & b & c & d & -> & Ha & Hb & Hc & Hd)%bytes4_inv. unfold be, is_u8 in *.
  simpl. rewrite !ParseUint_fmt_d by lia. f_equal. repeat rewrite (u32_small (_ + _)) by u32_lia. done.
Qed.

Lemma lock_name_parts v p :
  0 ≤ v → bytes4 p → split_on "-" (str_join "-" ("v1" :: fmt_d v :: (fmt_d <$> p))) =
    "v1" :: fmt_d v :: (fmt_d <$> p).
Proof.
  intros Hv [_ Hp]. apply split_on_join; [done|].
  constructor; [done|]. constructor; [by apply fmt_d_lacks|].
  apply Forall_fmap. eapply Forall_impl; [done|]. intros x Hx. unfold is_u8 in Hx.
  apply fmt_d_lacks; [lia|done].
Qed.

Lemma makeIPLockName2_eq v ip :
  bytes4 (To4 ip) → makeIPLockName2 v ip = Ok (str_join "-" ("v1" :: fmt_d v :: (fmt_d <$> To4 ip))).
Proof.
  unfold makeIPLockName2. by intros (a & b & c & d & -> & _)%bytes4_inv.
Qed.

(** A lock name parses back to the VNI and address it was made from. *)
Lemma parse_make_name v addrU :
  0 ≤ v ≤ maxVNI → is_u32 addrU →
  ∃ name, makeIPLockName2 v (Uint32ToIPv4 addrU) = Ok name ∧ parseIPLockName name = Some (v, addrU).
Proof.
  intros Hv Hu. destruct (PutUint32_bytes addrU Hu) as [Hb Hbe]. unfold maxVNI in Hv.
  rewrite makeIPLockName2_eq, To4_Uint32ToIPv4 by by rewrite To4_Uint32ToIPv4.
  eexists. split; [done|]. unfold parseIPLockName. rewrite lock_name_parts by (done || lia).
  pose proof (parse_addr_be _ Hb) as Hpa. rewrite Hbe in Hpa.
  destruct (bytes4_inv _ Hb) as (a & b & c & d & E & _). rewrite E in *. cbn [fmap list_fmap] in *.
  rewrite ParseUint_fmt_d by lia. by rewrite Hpa.
Qed.

(** C13: a lock name parses back to the VNI and address it was made from, so no other
    VNI and address make the same name: the name is what reserves the address. *)
Theorem lock_name_roundtrip v addrU :
  0 ≤ v ≤ maxVNI → is_u32 addrU →
  ∃ name, makeIPLockName2 v (Uint32ToIPv4 addrU) = Ok name ∧
    parseIPLockName name = Some (v, addrU) ∧
    ∀ v' addrU', 0 ≤ v' ≤ maxVNI → is_u32 addrU' →
      makeIPLockName2 v' (Uint32ToIPv4 addrU') = Ok name → v' = v ∧ addrU' = addrU.
Proof.
  intros Hv Hu. destruct (parse_make_name v addrU Hv Hu) as (name & E & Hp). exists name.
  split; [done|]. split; [done|]. intros v' u' Hv' Hu' E'.
  destruct (parse_make_name v' u' Hv' Hu') as (name' & E2 & Hp'). rewrite E' in E2.
  injection E2 as <-. rewrite Hp in Hp'. by injection Hp' as <- <-.
Qed.

(** ** Owners *)

Definition controls (kind : string) (oref : OwnerReference) : bool :=
  String.eqb (or_Kind oref) kind && match or_Controller oref with Some b => b | None => false end.

(** [AttachmentSubnets] and [OwningAttachments]: the keys of the informer
    indices. *)
Definition AttachmentSubnets (att : NetworkAttachment) : list string := [SubnetOf (na_Spec att)].

Definition OwningAttachments (meta : ObjectMeta) : list string :=
  foldl (λ owners oref,
    if controls "NetworkAttachment" oref then owners ++ [or_Name oref] else owners)
    [] (OwnerReferences meta).

(** [GetOwner]: the last controlling reference of the kind wins. *)
Definition GetOwner (meta : ObjectMeta) (ownerKind : string) : string * string :=
  foldl (λ nu oref, if controls ownerKind oref then (or_Name oref, or_UID oref) else nu)
    ("", "") (OwnerReferences meta).

(** ** Parsed locks *)

Record ParsedLock := MkParsedLock {
  pl_ns : string; pl_name : string; pl_VNI : Z; pl_addrU : Z;
  pl_UID : string; pl_CreationTime : Time; pl_Obj : option IPLock }.

#[export] Instance ParsedLock_eq_dec : EqDecision ParsedLock.
Proof. solve_decision. Defined.

(** Times count from the zero [time.Time]. *)
Definition zeroParsedLock : ParsedLock := MkParsedLock "" "" 0 0 "" 0 None.

Definition NewParsedLock (ipl : IPLock) : option ParsedLock :=
  '(vni, addrU) ← parseIPLockName (Name (ipl_meta ipl));
  Some (MkParsedLock (Namespace (ipl_meta ipl)) (Name (ipl_meta ipl)) vni addrU
          (UID (ipl_meta ipl)) (CreationTimestamp (ipl_meta ipl)) (Some ipl)).

Definition GetIP (x : ParsedLock) : IP := Uint32ToIPv4 (pl_addrU x).

Definition Equal (x y : ParsedLock) : bool :=
  (pl_VNI x =? pl_VNI y) && String.eqb (pl_UID x) (pl_UID y) &&
  (pl_CreationTime x =? pl_CreationTime y) && (pl_addrU x =? pl_addrU y).

Definition IsBetterThan (x y : ParsedLock) : bool :=
  if negb (pl_CreationTime x =? pl_CreationTime y) then pl_CreationTime x <? pl_CreationTime y
  else match String.compare (pl_UID x) (pl_UID y) with Gt => true | _ => false end.

Abbreviation ParsedLockList := (list ParsedLock).

Fixpoint best_of (ans : ParsedLock) (l : ParsedLockList) : ParsedLock :=
  match l with
  | [] => ans
  | elt :: l => best_of (if IsBetterThan elt ans then elt else ans) l
  end.

Definition Best (l : ParsedLockList) : ParsedLock :=
  match l with [] => zeroParsedLock | x :: l => best_of x l end.

Definition Has (l : ParsedLockList) (elt : ParsedLock) : bool := existsb (λ x, Equal x elt) l.

Definition Append (l elts : ParsedLockList) : ParsedLockList := l ++ elts.

Definition AddFunc (l : ParsedLockList) (elt : ParsedLock) : ParsedLockList * bool :=
  match l with
  | [] => ([elt], true)
  | _ => if existsb (λ x, Equal x elt) l then (l, false) else (l ++ [elt], true)
  end.

Definition AddListFunc (l l2 : ParsedLockList) : ParsedLockList * bool :=
  foldl (λ wd elt, let '(w, diffHere) := AddFunc wd.1 elt in (w, wd.2 || diffHere)) (l, false) l2.

(** The scan of [RemFunc]: the list without its first equal element. *)
Fixpoint remove_first (elt : ParsedLock) (l : ParsedLockList) : option ParsedLockList :=
  match l with
  | [] => None
  | x :: l => if Equal x elt then Some l else r ← remove_first elt l; Some (x :: r)
  end.

Definition RemFunc (l : ParsedLockList) (elt : ParsedLock) : ParsedLockList * bool :=
  match l with
  | [] => ([], false)
  | [x] => if Equal elt x then ([], true) else (l, false)
  | _ => match remove_first elt l with Some sans => (sans, true) | None => (l, false) end
  end.

(** *** Equality of locks *)

(** What [Equal] compares. *)
Definition lock_key (x : ParsedLock) : Z * string * Z * Z :=
  (pl_VNI x, pl_UID x, pl_CreationTime x, pl_addrU x).

Lemma Equal_key x y : Equal x y = true ↔ lock_key x = lock_key y.
Proof.
  unfold Equal, lock_key. rewrite !andb_true_iff, !Z.eqb_eq, String.eqb_eq.
  split; [intros (((?&?)&?)&?); congruence|intros [=]; done].
Qed.

#[export] Instance Equal_equivalence : Equivalence (λ x y, Equal x y = true).
Proof. split; [intros x|intros x y|intros x y z]; rewrite !Equal_key; congruence. Qed.

Lemma Has_keys l x : Has l x = true ↔ lock_key x ∈ lock_key <$> l.
Proof.
  unfold Has. rewrite existsb_exists, list_elem_of_fmap. setoid_rewrite Equal_key.
  split; intros (y & ? & ?); exists y; rewrite list_elem_of_In in *; done.
Qed.

(** *** The lists as sets *)

Lemma AddFunc_eq l x :
  AddFunc l x = if Has l x then (l, false) else (l ++ [x], true).
Proof. by destruct l. Qed.

(** [AddFunc] adds an element that is not there yet, and says so. *)
Lemma AddFunc_spec l x :
  let '(w, diff) := AddFunc l x in
  diff = negb (Has l x) ∧ (∀ y, Has w y = true ↔ Has l y = true ∨ Equal x y = true) ∧
  (NoDup (lock_key <$> l) → NoDup (lock_key <$> w)).
Proof.
  rewrite AddFunc_eq. destruct (Has l x) eqn:E; (split; [done|]); split; try done.
  - intros y. split; [auto|]. intros [?|Hxy%Equal_key]; [done|].
    apply Has_keys. rewrite <- Hxy. by apply Has_keys.
  - intros y. rewrite !Has_keys, fmap_app, elem_of_app, Equal_key. simpl.
    rewrite list_elem_of_singleton. split; (intros [?|?]; [by left|by right]).
  - intros Hnd. rewrite fmap_app. apply NoDup_app. split; [done|]. split; [|apply NoDup_singleton].
    intros k Hk Hk'. simpl in Hk'. apply list_elem_of_singleton in Hk' as ->.
    apply Has_keys in Hk. congruence.
Qed.

Lemma Has_snoc l x y : Has (l ++ [x]) y = true ↔ Has l y = true ∨ Equal x y = true.
Proof. unfold Has. rewrite existsb_app, orb_true_iff. simpl. by rewrite orb_false_r. Qed.

Lemma Has_Equal l x y : Equal x y = true → Has l x = Has l y.
Proof. intros E%Equal_key. apply eq_true_iff_eq. by rewrite !Has_keys, E. Qed.

(** What the loop of [AddListFunc] has built when [l0] of the second list is
    done. *)
Definition union_state (l l0 : ParsedLockList) (wd : ParsedLockList * bool) : Prop :=
  (∀ y, Has wd.1 y = true ↔ Has l y = true ∨ Has l0 y = true) ∧
  (NoDup (lock_key <$> l) → NoDup (lock_key <$> wd.1)) ∧
  (wd.2 = true ↔ ∃ y, Has l0 y = true ∧ Has l y = false).

Lemma union_state_step l l0 w d x :
  union_state l l0 (w, d) →
  union_state l (l0 ++ [x]) (let '(w', diffHere) := AddFunc w x in (w', d || diffHere)).
Proof.
  intros (Hw & Hnd & Hd). simpl in *. pose proof (AddFunc_spec w x) as Hx.
  destruct (AddFunc w x) as [w' d']. destruct Hx as (-> & Hw' & Hnd'). split; [|split]; simpl.
  - intros y. rewrite Hw', Hw, Has_snoc. tauto.
  - auto.
  - setoid_rewrite Has_snoc. rewrite orb_true_iff, Hd, negb_true_iff, <- not_true_iff_false, Hw. split.
    + intros [(y & ? & ?)|Hn]; [by exists y; auto|]. exists x.
      split; [right; by apply Equal_key|]. apply not_true_iff_false. tauto.
    + intros (y & Hy & Hl). destruct (Has l0 y) eqn:E0; [left; eauto|]. right.
      destruct Hy as [|Hxy]; [done|]. rewrite !(Has_Equal _ x y) by done. rewrite Hl, E0.
      by intros [|].
Qed.

Lemma AddListFunc_spec l l2 :
  let '(w, diff) := AddListFunc l l2 in
  (∀ y, Has w y = true ↔ Has l y = true ∨ Has l2 y = true) ∧
  (NoDup (lock_key <$> l) → NoDup (lock_key <$> w)) ∧
  (diff = true ↔ ∃ y, Has l2 y = true ∧ Has l y = false).
Proof.
  assert (Hgen : ∀ l0 wd, union_state l l0 wd → union_state l (l0 ++ l2)
    (foldl (λ wd elt, let '(w, diffHere) := AddFunc wd.1 elt in (w, wd.2 || diffHere)) wd l2)).
  { induction l2 as [|x l2 IH]; intros l0 [w d] Hs; [by rewrite app_nil_r|].
    rewrite (cons_middle x l0 l2), app_assoc. apply IH. by apply union_state_step. }
  unfold AddListFunc. specialize (Hgen [] (l, false)). destruct (foldl _ _ _) as [w d].
  apply Hgen. split; [|split]; simpl; [|done|].
  - intros y. split; [auto|]. by intros [|].
  - split; [done|]. by intros (y & ? & _).
Qed.

(** The union has no other elements. *)
Lemma AddListFunc_elem l l2 z : z ∈ (AddListFunc l l2).1 → z ∈ l ∨ z ∈ l2.
Proof.
  unfold AddListFunc. generalize false. revert l. induction l2 as [|x l2 IH]; intros l d; [auto|].
  cbn [foldl fst]. rewrite AddFunc_eq. destruct (Has l x); intros Hz%IH; rewrite elem_of_cons.
  - tauto.
  - rewrite elem_of_app, list_elem_of_singleton in Hz. tauto.
Qed.

Lemma RemFunc_eq l x :
  RemFunc l x = match remove_first x l with Some sans => (sans, true) | None => (l, false) end.
Proof.
  destruct l as [|y [|z l]]; [done| |done]. simpl.
  assert (Equal x y = Equal y x) as ->; [|by destruct (Equal y x)].
  apply eq_true_iff_eq. rewrite !Equal_key. by split.
Qed.

Lemma remove_first_spec x l :
  match remove_first x l with
  | Some sans => ∃ pre y post, l = pre ++ y :: post ∧ sans = pre ++ post ∧ Equal y x = true ∧ Has pre x = false
  | None => Has l x = false
  end.
Proof.
  induction l as [|y l IH]; [done|]. simpl. destruct (Equal y x) eqn:E.
  - by exists [], y, l.
  - destruct (remove_first x l) as [sans|]; simpl.
    + destruct IH as (pre & z & post & -> & -> & ? & Hp). exists (y :: pre), z, post.
      split_and!; [done..|]. simpl. by rewrite E.
    + done.
Qed.

Lemma RemFunc_spec l x :
  NoDup (lock_key <$> l) →
  let '(w, diff) := RemFunc l x in
  diff = Has l x ∧ (∀ y, Has w y = true ↔ Has l y = true ∧ Equal y x = false) ∧
  w `sublist_of` l ∧ NoDup (lock_key <$> w).
Proof.
  intros Hnd. rewrite RemFunc_eq. pose proof (remove_first_spec x l) as Hr.
  destruct (remove_first x l) as [sans|].
  - destruct Hr as (pre & z & post & -> & -> & Hz & Hp). apply Equal_key in Hz.
    rewrite fmap_app, fmap_cons in Hnd. apply NoDup_app in Hnd as (Hn1 & Hn2 & Hn3).
    apply NoDup_cons in Hn3 as [Hn3 Hn4].
    assert (Hnot : lock_key z ∉ lock_key <$> pre ++ post).
    { rewrite fmap_app, elem_of_app. intros [Hin|Hin]; [|done].
      by apply (Hn2 _ Hin), elem_of_cons; left. }
    split; [|split; [|split]].
    + symmetry. apply Has_keys. rewrite <- Hz, fmap_app, elem_of_app. right. apply elem_of_cons. by left.
    + intros y. rewrite <- not_true_iff_false, Equal_key, <- Hz, !Has_keys.
      rewrite !fmap_app, !elem_of_app, fmap_cons, elem_of_cons in *. split.
      * intros Hy. split; [tauto|]. intros E. rewrite E in Hy. tauto.
      * tauto.
    + apply sublist_app; [done|]. by apply sublist_cons.
    + rewrite fmap_app. apply NoDup_app. split; [done|]. split; [|done].
      intros k Hk Hk'. apply (Hn2 k Hk), elem_of_cons. by right.
  - split; [by rewrite Hr|]. split; [|done]. intros y. split; [|tauto]. intros Hy. split; [done|].
    apply not_true_iff_false. intros E%Equal_key. apply Has_keys in Hy. rewrite E in Hy.
    apply Has_keys in Hy. congruence.
Qed.

(** Removing adds nothing. *)
Lemma RemFunc_elem l x y : y ∈ (RemFunc l x).1 → y ∈ l.
Proof.
  rewrite RemFunc_eq. pose proof (remove_first_spec x l) as Hr. destruct (remove_first x l) as [sans|]; [|done].
  destruct Hr as (pre & z & post & -> & -> & _). simpl. rewrite !elem_of_app, elem_of_cons. tauto.
Qed.

(** *** The best lock *)

(** The order [IsBetterThan] decides: earlier first, then the larger UID. *)
Lemma IsBetterThan_iff x y :
  IsBetterThan x y = true ↔
  pl_CreationTime x < pl_CreationTime y ∨
  (pl_CreationTime x = pl_CreationTime y ∧ String.compare (pl_UID x) (pl_UID y) = Gt).
Proof.
  unfold IsBetterThan. destruct (Z.eqb_spec (pl_CreationTime x) (pl_CreationTime y)) as [->|]; simpl.
  - destruct (String.compare _ _); naive_solver lia.
  - rewrite Z.ltb_lt. naive_solver lia.
Qed.

Lemma ascii_compare_trans a b c : Ascii.compare a b = Lt → Ascii.compare b c = Lt → Ascii.compare a c = Lt.
Proof. unfold Ascii.compare. rewrite !N.compare_lt_iff. lia. Qed.

Lemma string_compare_trans s t u :
  String.compare s t = Lt → String.compare t u = Lt → String.compare s u = Lt.
Proof.
  revert t u. induction s as [|a s IH]; intros [|b t] [|c u]; simpl; try done.
  destruct (Ascii.compare a b) eqn:Eab, (Ascii.compare b c) eqn:Ebc; try done; intros H1 H2.
  - apply Ascii.compare_eq_iff in Eab as ->. rewrite Ebc. by eapply IH.
  - apply Ascii.compare_eq_iff in Eab as ->. by rewrite Ebc.
  - apply Ascii.compare_eq_iff in Ebc as <-. by rewrite Eab.
  - by rewrite (ascii_compare_trans _ _ _ Eab Ebc).
Qed.

Lemma string_compare_gt s t : String.compare s t = Gt ↔ String.compare t s = Lt.
Proof. rewrite (String.compare_antisym s t). by destruct (String.compare t s). Qed.

Lemma IsBetterThan_irrefl x : IsBetterThan x x = false.
Proof.
  apply not_true_iff_false. rewrite IsBetterThan_iff. intros [?|[_ E]]; [lia|].
  pose proof (String.compare_antisym (pl_UID x) (pl_UID x)) as Ha. by rewrite E in Ha.
Qed.

Lemma IsBetterThan_trans x y z :
  IsBetterThan x y = true → IsBetterThan y z = true → IsBetterThan x z = true.
Proof.
  rewrite !IsBetterThan_iff, !string_compare_gt. intros [?|[? H1]] [?|[? H2]]; [left; lia..|].
  right. split; [lia|]. by eapply string_compare_trans.
Qed.

(** Two locks neither of which is better have the same time and UID. *)
Lemma IsBetterThan_total x y :
  IsBetterThan x y = false → IsBetterThan y x = false →
  pl_CreationTime x = pl_CreationTime y ∧ pl_UID x = pl_UID y.
Proof.
  rewrite <- !not_true_iff_false, !IsBetterThan_iff, string_compare_gt. intros H1 H2.
  assert (E : pl_CreationTime x = pl_CreationTime y) by lia. split; [done|].
  destruct (String.compare (pl_UID x) (pl_UID y)) eqn:Ec.
  - by apply String.compare_eq_iff.
  - destruct H2. right. split; [lia|]. by apply string_compare_gt.
  - destruct H1. right. split; [lia|]. by apply string_compare_gt.
Qed.

Lemma best_of_spec ans l :
  best_of ans l ∈ ans :: l ∧ ∀ x, x ∈ ans :: l → IsBetterThan x (best_of ans l) = false.
Proof.
  revert ans. induction l as [|y l IH]; intros ans; simpl.
  - split; [by apply elem_of_cons; left|]. intros x ->%list_elem_of_singleton. apply IsBetterThan_irrefl.
  - destruct (IsBetterThan y ans) eqn:E; [destruct (IH y) as [Hin Hb]|destruct (IH ans) as [Hin Hb]].
    + split; [by apply elem_of_cons; right|]. intros x [->|Hx]%elem_of_cons; [|by apply Hb].
      apply not_true_iff_false. intros Ha. pose proof (IsBetterThan_trans _ _ _ E Ha) as Hy.
      rewrite Hb in Hy; [done|]. by apply elem_of_cons; left.
    + split; [set_solver|]. intros x [->|[->|Hx]%elem_of_cons]%elem_of_cons;
        [apply Hb; set_solver| |apply Hb; set_solver].
      apply not_true_iff_false. intros Hy.
      destruct (IsBetterThan ans (best_of ans l)) eqn:Ea; [rewrite Hb in Ea; [done|set_solver]|].
      destruct (IsBetterThan (best_of ans l) ans) eqn:Eb.
      * rewrite (IsBetterThan_trans y _ ans Hy Eb) in E. done.
      * destruct (IsBetterThan_total _ _ Ea Eb) as [Et Eu].
        rewrite IsBetterThan_iff, <- Et, <- Eu, <- IsBetterThan_iff in Hy. congruence.
Qed.

Lemma Best_spec l : l ≠ [] → Best l ∈ l ∧ ∀ x, x ∈ l → IsBetterThan x (Best l) = false.
Proof. destruct l as [|x l]; [done|]. intros _. apply best_of_spec. Qed.

(** C14: the chosen lock is one of the oldest, where the comment at its use speaks of
    picking the newest, and controllers that see the same locks in different orders
    choose the same one, provided a UID identifies a lock. *)
Theorem Best_choice l l' :
  l ≠ [] → l ≡ₚ l' → (∀ x y, x ∈ l → y ∈ l → pl_UID x = pl_UID y → x = y) →
  Best l ∈ l ∧ (∀ x, x ∈ l → pl_CreationTime (Best l) ≤ pl_CreationTime x) ∧ Best l = Best l'.
Proof.
  intros Hne Hp Hu. destruct (Best_spec l Hne) as [Hin Hb]. split_and!; [done| |].
  - intros x Hx. specialize (Hb x Hx). rewrite <- not_true_iff_false, IsBetterThan_iff in Hb. lia.
  - destruct (Best_spec l') as [Hin' Hb']. { intros ->. by apply Permutation_nil_r in Hp. }
    assert (Hm : ∀ x, x ∈ l ↔ x ∈ l') by (intros x; by rewrite Hp).
    apply Hu; [done|by apply Hm|]. apply IsBetterThan_total; [by apply Hb', Hm|by apply Hb, Hm].
Qed.

(** [AddListFunc] is the union of two lock lists and invents no lock, keeps the
    first list free of duplicates, and reports a difference exactly when the union
    is larger; [RemFunc] then takes one lock out of the union, leaves every other
    lock, and reports whether the lock was there. *)
Lemma lock_lists l l2 x :
  NoDup (lock_key <$> l) →
  let '(w, diff) := AddListFunc l l2 in
  (∀ y, Has w y = true ↔ Has l y = true ∨ Has l2 y = true) ∧
  (∀ z, z ∈ w → z ∈ l ∨ z ∈ l2) ∧
  NoDup (lock_key <$> w) ∧
  (diff = true ↔ ∃ y, Has l2 y = true ∧ Has l y = false) ∧
  let '(u, removed) := RemFunc w x in
  (∀ y, Has u y = true ↔ (Has l y = true ∨ Has l2 y = true) ∧ Equal y x = false) ∧
  u `sublist_of` w ∧ (removed = true ↔ Has l x = true ∨ Has l2 x = true).
Proof.
  intros Hnd. pose proof (AddListFunc_spec l l2) as Ha. pose proof (AddListFunc_elem l l2) as Hel.
  destruct (AddListFunc l l2) as [w diff]. destruct Ha as (Hw & Hn & Hd). specialize (Hn Hnd).
  pose proof (RemFunc_spec w x Hn) as Hr. destruct (RemFunc w x) as [u removed].
  destruct Hr as (-> & Hu & Hs & _). split; [done|]. split; [done|]. split; [done|]. split; [done|].
  split; [intros y; by rewrite Hu, Hw|]. split; [done|]. apply Hw.
Qed.

(** ** The properties at concrete inputs *)

Lemma lock_name_roundtrip_witness :
  ∃ name, makeIPLockName2 1 (Uint32ToIPv4 167772162) = Ok name ∧
    parseIPLockName name = Some (1, 167772162) ∧
    ∀ v' addrU', 0 ≤ v' ≤ maxVNI → is_u32 addrU' →
      makeIPLockName2 v' (Uint32ToIPv4 addrU') = Ok name → v' = 1 ∧ addrU' = 167772162.
Proof. apply (lock_name_roundtrip 1 167772162); [unfold maxVNI|unfold is_u32]; lia. Defined.

(** Two locks for one attachment, the second a second older. *)
Definition lock_a : ParsedLock := MkParsedLock "ns" "v1-1-10-0-0-2" 1 167772162 "ua" (7 * second) None.
Definition lock_b : ParsedLock := MkParsedLock "ns" "v1-1-10-0-0-3" 1 167772163 "ub" (6 * second) None.

Lemma lock_lists_witness :
  (AddListFunc [lock_a] [lock_b; lock_a]) = ([lock_a; lock_b], true) ∧
  (RemFunc [lock_a; lock_b] lock_a) = ([lock_b], true) ∧
  ∀ y, Has [lock_b] y = true ↔ (Has [lock_a] y = true ∨ Has [lock_b; lock_a] y = true) ∧ Equal y lock_a = false.
Proof.
  split; [done|]. split; [done|].
  assert (Hnd : NoDup (lock_key <$> [lock_a])) by apply NoDup_singleton.
  exact (proj1 (proj2 (proj2 (proj2 (proj2 (lock_lists [lock_a] [lock_b; lock_a] lock_a Hnd)))))).
Defined.

Lemma Best_choice_witness :
  Best [lock_a; lock_b] ∈ [lock_a; lock_b] ∧
  (∀ x, x ∈ [lock_a; lock_b] → pl_CreationTime (Best [lock_a; lock_b]) ≤ pl_CreationTime x) ∧
  Best [lock_a; lock_b] = Best [lock_b; lock_a].
Proof.
  apply (Best_choice [lock_a; lock_b] [lock_b; lock_a]); [done|apply perm_swap|].
  intros x y Hx Hy. rewrite !elem_of_cons, !elem_of_nil in Hx, Hy.
  destruct Hx as [->|[->|[]]], Hy as [->|[->|[]]]; done.
Defined.
