(* ===== verification/KosApi.v ===== *)
(** * The API server as its clients see it

    The typed client of [pkg/client/clientset] is generated code over the
    Kubernetes API machinery: here it is the class [KosClient] of the calls that
    the controllers make, over an abstract world, and its documented behaviour
    is the class [KosLaws].  Other clients act on the same server: each call may
    be preceded by any step of theirs.  The instance on a plain store shows that
    the laws can hold, and evaluates. *)

From S2P Require Import Prelude GoStr ApiTypes.

(** A result is an error or the object the server returns; Delete carries a UID
    precondition. *)
Class KosClient (W : Type) := {
  lock_Get : string → string → W → (error + IPLock) * W;
  lock_Create : IPLock → W → (error + IPLock) * W;
  lock_Delete : string → string → string → W → option error * W;
  att_Update : NetworkAttachment → W → (error + NetworkAttachment) * W
}.

Definition lock_nsn (ipl : IPLock) : NSN := (Namespace (ipl_meta ipl), Name (ipl_meta ipl)).

(** What the server keeps of an object it is asked to create. *)
Definition created_as (ipl ipl2 : IPLock) : Prop :=
  lock_nsn ipl2 = lock_nsn ipl ∧
  OwnerReferences (ipl_meta ipl2) = OwnerReferences (ipl_meta ipl) ∧
  SubnetName ipl2 = SubnetName ipl.

(** An updated attachment has the spec and the status that were sent, with the times of its
    report in whole seconds.  This is so of texts of UTF-8, as what the program makes itself is;
    what becomes of other output of commands on its way is shown in [ApiJson]. *)
Definition updated_as (att att2 : NetworkAttachment) : Prop :=
  AttNSN att2 = AttNSN att ∧ UID (na_meta att2) = UID (na_meta att) ∧
  na_Spec att2 = na_Spec att ∧ na_Status att2 = stored_status (na_Status att).

Class KosLaws (W : Type) `{KosClient W} := {
  locks : W → gmap NSN IPLock;
  natts : W → gmap NSN NetworkAttachment;
  others : W → W → Prop;
  lock_Create_law ipl w : ∃ w0, others w w0 ∧
    match lock_Create ipl w with
    | (inr ipl2, w') =>
        locks w0 !! lock_nsn ipl = None ∧ locks w' = <[lock_nsn ipl := ipl2]> (locks w0) ∧
        created_as ipl ipl2 ∧ natts w' = natts w0
    | (inl e, w') =>
        (IsAlreadyExists e = true → is_Some (locks w0 !! lock_nsn ipl)) ∧
        locks w' = locks w0 ∧ natts w' = natts w0
    end;
  lock_Get_law ns name w : ∃ w0, others w w0 ∧
    match lock_Get ns name w with
    | (inr ipl, w') => locks w0 !! (ns, name) = Some ipl ∧ locks w' = locks w0 ∧ natts w' = natts w0
    | (inl e, w') =>
        (IsNotFound e = true → locks w0 !! (ns, name) = None) ∧
        locks w' = locks w0 ∧ natts w' = natts w0
    end;
  lock_Delete_law ns name uid w : ∃ w0, others w w0 ∧
    match lock_Delete ns name uid w with
    | (None, w') =>
        (∃ ipl, locks w0 !! (ns, name) = Some ipl ∧ UID (ipl_meta ipl) = uid) ∧
        locks w' = delete (ns, name) (locks w0) ∧ natts w' = natts w0
    | (Some e, w') =>
        (IsNotFound e || IsGone e = true → locks w0 !! (ns, name) = None) ∧
        locks w' = locks w0 ∧ natts w' = natts w0
    end;
  att_Update_law att w : ∃ w0, others w w0 ∧
    match att_Update att w with
    | (inr att2, w') =>
        updated_as att att2 ∧ natts w' = <[AttNSN att := att2]> (natts w0) ∧ locks w' = locks w0
    | (inl e, w') => natts w' = natts w0 ∧ locks w' = locks w0
    end
}.

(** ** The work queue *)

(** Calls made to the rate limiting work queue. *)
Inductive QueueCall :=
| QAdd (nsn : NSN) | QForget (nsn : NSN) | QAddRateLimited (nsn : NSN) | QDone (nsn : NSN).

(** ** A plain store *)

Record Store := MkStore {
  s_locks : gmap NSN IPLock;
  s_atts : gmap NSN NetworkAttachment;
  s_next : Z;                         (* next UID, version and second *)
  s_reject : gmap NSN error           (* what Create answers for some names *) }.

Definition not_found : error := MkError ReasonNotFound "not found".

Definition store_create (ipl : IPLock) (w : Store) : (error + IPLock) * Store :=
  match s_reject w !! lock_nsn ipl, s_locks w !! lock_nsn ipl with
  | Some e, None => if IsAlreadyExists e then (inl not_found, w) else (inl e, w)
  | _, Some _ => (inl (MkError ReasonAlreadyExists "already exists"), w)
  | None, None =>
      let m := ipl_meta ipl in
      let n := s_next w in
      let ipl2 := MkIPLock (MkMeta (Namespace m) (Name m) (fmt_d n) (fmt_d n) (n * second)
        (OwnerReferences m) (Labels m) false) (SubnetName ipl) in
      (inr ipl2, MkStore (<[lock_nsn ipl := ipl2]> (s_locks w)) (s_atts w) (n + 1) (s_reject w))
  end.

Definition store_get (ns name : string) (w : Store) : (error + IPLock) * Store :=
  match s_locks w !! (ns, name) with Some ipl => (inr ipl, w) | None => (inl not_found, w) end.

Definition store_delete (ns name uid : string) (w : Store) : option error * Store :=
  match s_locks w !! (ns, name) with
  | None => (Some not_found, w)
  | Some ipl =>
      if String.eqb (UID (ipl_meta ipl)) uid
      then (None, MkStore (delete (ns, name) (s_locks w)) (s_atts w) (s_next w) (s_reject w))
      else (Some (MkError ReasonConflict "UID precondition failed"), w)
  end.

Definition store_update (att : NetworkAttachment) (w : Store) : (error + NetworkAttachment) * Store :=
  match s_atts w !! AttNSN att with
  | None => (inl not_found, w)
  | Some old =>
      if String.eqb (ResourceVersion (na_meta old)) (ResourceVersion (na_meta att)) then
        let m := na_meta att in
        let n := s_next w in
        let att2 := MkNA (MkMeta (Namespace m) (Name m) (UID m) (fmt_d n) (CreationTimestamp m)
          (OwnerReferences m) (Labels m) (Initializers m)) (na_Spec att) (stored_status (na_Status att)) in
        (inr att2, MkStore (s_locks w) (<[AttNSN att := att2]> (s_atts w)) (n + 1) (s_reject w))
      else (inl (MkError ReasonConflict "object has been modified"), w)
  end.

#[export] Instance store_client : KosClient Store := {|
  lock_Get := store_get; lock_Create := store_create; lock_Delete := store_delete;
  att_Update := store_update |}.

#[export] Instance store_laws : KosLaws Store.
Proof.
  refine {| locks := s_locks; natts := s_atts; others := eq |}.
  - intros ipl w. exists w. split; [done|]. unfold lock_Create; simpl. unfold store_create.
    destruct (s_reject w !! _) as [e|], (s_locks w !! lock_nsn ipl) eqn:E; simpl;
      try (split; [by eauto|done]).
    all: repeat case_match; simplify_eq; split; try done; congruence.
  - intros ns name w. exists w. split; [done|]. unfold lock_Get; simpl. unfold store_get.
    by destruct (s_locks w !! _) eqn:E.
  - intros ns name uid w. exists w. split; [done|]. unfold lock_Delete; simpl. unfold store_delete.
    destruct (s_locks w !! _) as [ipl|] eqn:E; [|done].
    destruct (String.eqb_spec (UID (ipl_meta ipl)) uid); [|done]. split; [eauto|done].
  - intros att w. exists w. split; [done|]. unfold att_Update; simpl. unfold store_update.
    destruct (s_atts w !! _) as [old|]; [|done].
    destruct (String.eqb _ _); [|done]. by repeat split.
Defined.
