(* ===== verification/KosRest.v ===== *)
(** * The typed clients: [pkg/client/clientset/versioned]

    The clients of the three kinds ([typed/network/v1alpha1]) over the REST client of the API
    machinery, which is a library; with a server as it is documented behind that, they are what
    the controllers assume ([KosApi.KosLaws]). *)

From S2P Require Import Prelude GoStr ApiTypes KosApi.

(** ** [k8s.io/client-go/rest] *)

Inductive Verb := GET | POST | PUT | DELETE | PATCH (pt : string).

Record DeleteOptions := MkDeleteOptions { PreconditionUID : option string }.
Record GetOptions := MkGetOptions { get_ResourceVersion : string }.
Record ListOptions := MkListOptions {
  LabelSelector : string; FieldSelector : string; watching : bool; list_ResourceVersion : string }.

(** What goes to the server and what comes back. *)
Inductive Object :=
| OLock (ipl : IPLock) | OAtt (att : NetworkAttachment) | OSubnet (sn : Subnet)
| OLocks (l : list IPLock) | OAtts (l : list NetworkAttachment) | OSubnets (l : list Subnet).
Inductive Content := ContentObject (o : Object) | ContentOptions (o : option DeleteOptions) | ContentData (data : list Z).
Inductive Params := ParamsGet (o : GetOptions) | ParamsList (o : ListOptions).

(** The calls on a request, in their order, and the request that they make. *)
Inductive Call :=
| InNamespace (ns : string) | Resource (r : string) | ByName (name : string) | SubResource (subs : list string)
| VersionedParams (p : Params) | Body (b : Content).

Record Request := MkRequest {
  rq_namespace : option string; rq_resource : option string; rq_name : option string;
  rq_subresources : list string; rq_params : option Params; rq_body : option Content }.

Definition add_call (r : Request) (c : Call) : Request :=
  match c with
  | InNamespace ns => MkRequest (Some ns) (rq_resource r) (rq_name r) (rq_subresources r) (rq_params r) (rq_body r)
  | Resource x => MkRequest (rq_namespace r) (Some x) (rq_name r) (rq_subresources r) (rq_params r) (rq_body r)
  | ByName n => MkRequest (rq_namespace r) (rq_resource r) (Some n) (rq_subresources r) (rq_params r) (rq_body r)
  | SubResource l => MkRequest (rq_namespace r) (rq_resource r) (rq_name r) (rq_subresources r ++ l) (rq_params r) (rq_body r)
  | VersionedParams p => MkRequest (rq_namespace r) (rq_resource r) (rq_name r) (rq_subresources r) (Some p) (rq_body r)
  | Body b => MkRequest (rq_namespace r) (rq_resource r) (rq_name r) (rq_subresources r) (rq_params r) (Some b)
  end.
Definition request (cs : list Call) : Request := foldl add_call (MkRequest None None None [] None None) cs.

(** [rest.Interface]: a chain of calls ended by [Do] or [Watch].  [Into] and [Error] are below. *)
Class RestClient (W : Type) := {
  Do : Verb → list Call → W → (error + Object) * W;
  Watcher : Type;
  Watch : Verb → list Call → W → (error + Watcher) * W
}.

(** What the server does with requests for locks and for attachments that name no subresource;
    other clients act before it takes one up. *)
Class RestLaws (W : Type) `{RestClient W} := {
  st_locks : W → gmap NSN IPLock;
  st_atts : W → gmap NSN NetworkAttachment;
  st_others : W → W → Prop;
  post_lock cs ns ipl w :
    request cs = MkRequest (Some ns) (Some "iplocks") None [] None (Some (ContentObject (OLock ipl))) →
    Namespace (ipl_meta ipl) = ns → ∃ w0, st_others w w0 ∧
    match Do POST cs w with
    | (inr o, w') => ∃ ipl2, o = OLock ipl2 ∧ created_as ipl ipl2 ∧
        st_locks w0 !! lock_nsn ipl = None ∧ st_locks w' = <[lock_nsn ipl := ipl2]> (st_locks w0) ∧ st_atts w' = st_atts w0
    | (inl e, w') => (IsAlreadyExists e = true → is_Some (st_locks w0 !! lock_nsn ipl)) ∧
        st_locks w' = st_locks w0 ∧ st_atts w' = st_atts w0
    end;
  get_lock cs ns name p w :
    request cs = MkRequest (Some ns) (Some "iplocks") (Some name) [] (Some (ParamsGet p)) None → ∃ w0, st_others w w0 ∧
    match Do GET cs w with
    | (inr o, w') => ∃ ipl, o = OLock ipl ∧ st_locks w0 !! (ns, name) = Some ipl ∧
        st_locks w' = st_locks w0 ∧ st_atts w' = st_atts w0
    | (inl e, w') => (IsNotFound e = true → st_locks w0 !! (ns, name) = None) ∧
        st_locks w' = st_locks w0 ∧ st_atts w' = st_atts w0
    end;
  delete_lock cs ns name uid w :
    request cs = MkRequest (Some ns) (Some "iplocks") (Some name) [] None
      (Some (ContentOptions (Some (MkDeleteOptions (Some uid))))) → ∃ w0, st_others w w0 ∧
    match Do DELETE cs w with
    | (inr _, w') => (∃ ipl, st_locks w0 !! (ns, name) = Some ipl ∧ UID (ipl_meta ipl) = uid) ∧
        st_locks w' = delete (ns, name) (st_locks w0) ∧ st_atts w' = st_atts w0
    | (inl e, w') => (IsNotFound e || IsGone e = true → st_locks w0 !! (ns, name) = None) ∧
        st_locks w' = st_locks w0 ∧ st_atts w' = st_atts w0
    end;
  put_att cs ns name att w :
    request cs = MkRequest (Some ns) (Some "networkattachments") (Some name) [] None (Some (ContentObject (OAtt att))) →
    AttNSN att = (ns, name) → ∃ w0, st_others w w0 ∧
    match Do PUT cs w with
    | (inr o, w') => ∃ att2, o = OAtt att2 ∧ updated_as att att2 ∧
        st_atts w' = <[(ns, name) := att2]> (st_atts w0) ∧ st_locks w' = st_locks w0
    | (inl e, w') => st_locks w' = st_locks w0 ∧ st_atts w' = st_atts w0
    end
}.

Module KosRest.

(** ** The clients of one kind

    [networkattachment.go], [subnet.go], [iplock.go], which are the same but for names. *)

(** The names of a kind, and its objects and lists as the library handles them. *)
Record Kind (A : Type) := MkKind {
  plural : string; to_object : A → Object; of_object : Object → option A; of_list : Object → option (list A);
  name_of : A → string }.
Arguments plural {A}.
Arguments to_object {A}.
Arguments of_object {A}.
Arguments of_list {A}.
Arguments name_of {A}.

Section Typed.
Context {W : Type} `{RestClient W} {A : Type} (K : Kind A).

(** The namespace that the client was made for; it keeps the REST client too. *)
Record Typed := MkTyped { ns : string }.

Definition undecodable : error := Errorf "unable to decode the response".

(** [Into] and [Error] of a result. *)
Definition Into {B} (decode : Object → option B) (r : error + Object) : error + B :=
  match r with inl e => inl e | inr o => match decode o with Some x => inr x | None => inl undecodable end end.
Definition Error (r : error + Object) : option error := match r with inl e => Some e | inr _ => None end.

Definition Get (c : Typed) (name : string) (options : GetOptions) (w : W) : (error + A) * W :=
  let '(r, w) := Do GET [InNamespace (ns c); Resource (plural K); ByName name; VersionedParams (ParamsGet options)] w in
  (Into (of_object K) r, w).

Definition List (c : Typed) (opts : ListOptions) (w : W) : (error + list A) * W :=
  let '(r, w) := Do GET [InNamespace (ns c); Resource (plural K); VersionedParams (ParamsList opts)] w in
  (Into (of_list K) r, w).

Definition WatchKind (c : Typed) (opts : ListOptions) (w : W) : (error + Watcher) * W :=
  let opts := MkListOptions (LabelSelector opts) (FieldSelector opts) true (list_ResourceVersion opts) in
  Watch GET [InNamespace (ns c); Resource (plural K); VersionedParams (ParamsList opts)] w.

Definition Create (c : Typed) (x : A) (w : W) : (error + A) * W :=
  let '(r, w) := Do POST [InNamespace (ns c); Resource (plural K); Body (ContentObject (to_object K x))] w in
  (Into (of_object K) r, w).

Definition Update (c : Typed) (x : A) (w : W) : (error + A) * W :=
  let '(r, w) := Do PUT [InNamespace (ns c); Resource (plural K); ByName (name_of K x); Body (ContentObject (to_object K x))] w in
  (Into (of_object K) r, w).

(** Attachments and subnets only. *)
Definition UpdateStatus (c : Typed) (x : A) (w : W) : (error + A) * W :=
  let '(r, w) := Do PUT [InNamespace (ns c); Resource (plural K); ByName (name_of K x); SubResource ["status"];
    Body (ContentObject (to_object K x))] w in
  (Into (of_object K) r, w).

Definition Delete (c : Typed) (name : string) (options : option DeleteOptions) (w : W) : option error * W :=
  let '(r, w) := Do DELETE [InNamespace (ns c); Resource (plural K); ByName name; Body (ContentOptions options)] w in
  (Error r, w).

Definition DeleteCollection (c : Typed) (options : option DeleteOptions) (listOptions : ListOptions) (w : W) : option error * W :=
  let '(r, w) := Do DELETE [InNamespace (ns c); Resource (plural K); VersionedParams (ParamsList listOptions);
    Body (ContentOptions options)] w in
  (Error r, w).

Definition Patch (c : Typed) (name pt : string) (data : list Z) (subresources : list string) (w : W) : (error + A) * W :=
  let '(r, w) := Do (PATCH pt) [InNamespace (ns c); Resource (plural K); SubResource subresources; ByName name;
    Body (ContentData data)] w in
  (Into (of_object K) r, w).
End Typed.

(** ** The three kinds *)

Definition iPLocks : Kind IPLock :=
  MkKind _ "iplocks" OLock (λ o, match o with OLock x => Some x | _ => None end)
    (λ o, match o with OLocks l => Some l | _ => None end) (Name ∘ ipl_meta).
Definition networkAttachments : Kind NetworkAttachment :=
  MkKind _ "networkattachments" OAtt (λ o, match o with OAtt x => Some x | _ => None end)
    (λ o, match o with OAtts l => Some l | _ => None end) (Name ∘ na_meta).
Definition subnets : Kind Subnet :=
  MkKind _ "subnets" OSubnet (λ o, match o with OSubnet x => Some x | _ => None end)
    (λ o, match o with OSubnets l => Some l | _ => None end) (Name ∘ sn_meta).

(** [network_client.go]. *)
Definition IPLocks (namespace : string) : Typed := MkTyped namespace.
Definition NetworkAttachments (namespace : string) : Typed := MkTyped namespace.
Definition Subnets (namespace : string) : Typed := MkTyped namespace.

(** ** What the controllers see *)

Section Client.
Context {W : Type} `{RestClient W}.

#[export] Instance rest_client : KosClient W := {|
  lock_Get ns name := Get iPLocks (IPLocks ns) name (MkGetOptions "");
  lock_Create ipl := Create iPLocks (IPLocks (Namespace (ipl_meta ipl))) ipl;
  lock_Delete ns name uid := Delete iPLocks (IPLocks ns) name (Some (MkDeleteOptions (Some uid)));
  att_Update att := Update networkAttachments (NetworkAttachments (Namespace (na_meta att))) att
|}.

Context `{!RestLaws W}.

#[export] Instance rest_laws : KosLaws W.
Proof.
  refine {| locks := st_locks; natts := st_atts; others := st_others |}.
  - intros ipl w. cbn [lock_Create rest_client]. unfold Create.
    destruct (post_lock [InNamespace (Namespace (ipl_meta ipl)); Resource "iplocks"; Body (ContentObject (OLock ipl))]
      (Namespace (ipl_meta ipl)) ipl w eq_refl eq_refl) as (w0 & Ho & Hd).
    exists w0. split; [done|]. simpl. destruct (Do POST _ w) as [[e|o] w']; [done|].
    destruct Hd as (ipl2 & -> & ? & ? & ? & ?). done.
  - intros ns name w. cbn [lock_Get rest_client]. unfold Get.
    destruct (get_lock [InNamespace ns; Resource "iplocks"; ByName name; VersionedParams (ParamsGet (MkGetOptions ""))]
      ns name (MkGetOptions "") w eq_refl) as (w0 & Ho & Hd).
    exists w0. split; [done|]. simpl. destruct (Do GET _ w) as [[e|o] w']; [done|]. by destruct Hd as (ipl & -> & ?).
  - intros ns name uid w. cbn [lock_Delete rest_client]. unfold Delete.
    destruct (delete_lock [InNamespace ns; Resource "iplocks"; ByName name;
      Body (ContentOptions (Some (MkDeleteOptions (Some uid))))] ns name uid w eq_refl) as (w0 & Ho & Hd).
    exists w0. split; [done|]. simpl. by destruct (Do DELETE _ w) as [[e|o] w'].
  - intros att w. cbn [att_Update rest_client]. unfold Update.
    destruct (put_att [InNamespace (Namespace (na_meta att)); Resource "networkattachments"; ByName (Name (na_meta att));
      Body (ContentObject (OAtt att))] (Namespace (na_meta att)) (Name (na_meta att)) att w eq_refl eq_refl) as (w0 & Ho & Hd).
    exists w0. split; [done|]. simpl. destruct (Do PUT _ w) as [[e|o] w']; [by destruct Hd|].
    destruct Hd as (att2 & -> & ? & ? & ?). done.
Defined.

(** C40: over a REST client whose server treats requests as documented, the typed clients, called as
    the controllers call them, are a client as the theorems on the controllers assume: what they
    create, look up, delete under a precondition and update are the locks and attachments of the
    server, in the namespace and under the name that the caller means, with the answers of the
    server, while the same others act. *)
Theorem typed_clients_refine :
  ∃ L : KosLaws W, (∀ w, locks w = st_locks w) ∧ (∀ w, natts w = st_atts w) ∧ (∀ w w', others w w' ↔ st_others w w').
Proof. by exists rest_laws. Qed.

End Client.

(** ** The set of clients: [clientset.go], [network_client.go] *)

(** What the clients are made of; rates are floating-point numbers. *)
Class RestLib := {
  Rate : Type; positive : Rate → bool;
  Limiter : Type; NewTokenBucketRateLimiter : Rate → Z → Limiter;
  Rest : Type; Discovery : Type;
  DefaultKubernetesUserAgent : string
}.

Section Clientset.
Context `{RestLib}.

(** The fields of [rest.Config] that are used; the others come along. *)
Record Config := MkConfig {
  Others : string; GroupVersion : option string; APIPath : string; direct_codecs : bool; UserAgent : string;
  RateLimiter : option Limiter; QPS : Rate; Burst : Z }.

Context (RESTClientFor : Config → error + Rest) (NewDiscoveryClientForConfig : Config → error + Discovery).

Definition setConfigDefaults (c : Config) : Config :=
  MkConfig (Others c) (Some "network.example.com/v1alpha1") "/apis" true
    (if String.eqb (UserAgent c) "" then DefaultKubernetesUserAgent else UserAgent c) (RateLimiter c) (QPS c) (Burst c).

Definition network_NewForConfig (c : Config) : error + Rest := RESTClientFor (setConfigDefaults c).

Definition network_NewForConfigOrDie (c : Config) : res Rest :=
  match network_NewForConfig c with inl e => Panic (message e) | inr net => Ok net end.
Definition network_New (c : Rest) : Rest := c.

(** A nil client has no REST client. *)
Definition RESTClient (c : option Rest) : option Rest := match c with None => None | Some r => Some r end.

Record Clientset := MkClientset { DiscoveryClient : Discovery; networkV1alpha1 : Rest }.

Definition NewForConfig (c : Config) : error + Clientset :=
  let copy := MkConfig (Others c) (GroupVersion c) (APIPath c) (direct_codecs c) (UserAgent c)
    (match RateLimiter c with
     | None => if positive (QPS c) then Some (NewTokenBucketRateLimiter (QPS c) (Burst c)) else None
     | Some l => Some l
     end) (QPS c) (Burst c) in
  match network_NewForConfig copy with
  | inl e => inl e
  | inr net =>
      match NewDiscoveryClientForConfig copy with
      | inl e => inl e
      | inr d => inr (MkClientset d net)
      end
  end.

Definition discovery_NewForConfigOrDie (c : Config) : res Discovery :=
  match NewDiscoveryClientForConfig c with inl e => Panic (message e) | inr d => Ok d end.

Definition NewForConfigOrDie (c : Config) : res Clientset :=
  match network_NewForConfigOrDie c with
  | Panic m => Panic m
  | Ok net => match discovery_NewForConfigOrDie c with Panic m => Panic m | Ok d => Ok (MkClientset d net) end
  end.

Definition New (NewDiscoveryClient : Rest → Discovery) (c : Rest) : Clientset :=
  MkClientset (NewDiscoveryClient c) (network_New c).

(** Nil for a nil set. *)
Definition DiscoveryOf (c : option Clientset) : option Discovery :=
  match c with None => None | Some cs => Some (DiscoveryClient cs) end.
Definition NetworkV1alpha1 (c : Clientset) : Rest := networkV1alpha1 c.
Definition Network (c : Clientset) : Rest := networkV1alpha1 c.

(** The constructor that panics passes the configuration on as it is, so that each client gets a
    limit of its own when the configuration has none. *)
Lemma die_keeps_limit c cs :
  NewForConfigOrDie c = Ok cs →
  RESTClientFor (setConfigDefaults c) = inr (NetworkV1alpha1 cs) ∧ NewDiscoveryClientForConfig c = inr (DiscoveryClient cs) ∧
  RateLimiter (setConfigDefaults c) = RateLimiter c.
Proof.
  unfold NewForConfigOrDie, network_NewForConfigOrDie, network_NewForConfig, discovery_NewForConfigOrDie.
  destruct (RESTClientFor _) as [e|net]; [done|]. destruct (NewDiscoveryClientForConfig c) as [e|d]; [done|]. by intros [= <-].
Qed.

(** Both clients of a set keep to one limit, which is the one of the configuration if it has one. *)
Lemma clients_share_limit c cs :
  NewForConfig c = inr cs → ∃ c1 c2,
    RESTClientFor c1 = inr (networkV1alpha1 cs) ∧ NewDiscoveryClientForConfig c2 = inr (DiscoveryClient cs) ∧
    RateLimiter c1 = RateLimiter c2 ∧ (∀ l, RateLimiter c = Some l → RateLimiter c1 = Some l) ∧
    GroupVersion c1 = Some "network.example.com/v1alpha1" ∧ APIPath c1 = "/apis" ∧ GroupVersion c2 = GroupVersion c.
Proof.
  unfold NewForConfig, network_NewForConfig. destruct (RESTClientFor _) as [e|net] eqn:E1; [done|].
  destruct (NewDiscoveryClientForConfig _) as [e|d] eqn:E2; [done|]. intros [= <-].
  do 2 eexists. split; [exact E1|]. split; [exact E2|]. split; [done|]. split; [|done]. intros l El. simpl. by rewrite El.
Qed.

End Clientset.

(** ** A server *)

(** Requests to a plain store. *)
Definition store_do (v : Verb) (cs : list Call) (w : Store) : (error + Object) * Store :=
  let bad := (inl (Errorf "the server does not do this"), w) in
  match v, request cs with
  | GET, MkRequest (Some ns) (Some "iplocks") (Some name) [] _ None =>
      let '(r, w) := store_get ns name w in (match r with inl e => inl e | inr x => inr (OLock x) end, w)
  | POST, MkRequest (Some ns) (Some "iplocks") None [] _ (Some (ContentObject (OLock ipl))) =>
      if String.eqb (Namespace (ipl_meta ipl)) ns then
        let '(r, w) := store_create ipl w in (match r with inl e => inl e | inr x => inr (OLock x) end, w)
      else bad
  | DELETE, MkRequest (Some ns) (Some "iplocks") (Some name) [] _ (Some (ContentOptions (Some (MkDeleteOptions (Some uid))))) =>
      let '(r, w) := store_delete ns name uid w in (match r with Some e => inl e | None => inr (OLocks []) end, w)
  | PUT, MkRequest (Some ns) (Some "networkattachments") (Some name) [] _ (Some (ContentObject (OAtt att))) =>
      if bool_decide (AttNSN att = (ns, name)) then
        let '(r, w) := store_update att w in (match r with inl e => inl e | inr x => inr (OAtt x) end, w)
      else bad
  | _, _ => bad
  end.

#[export] Instance store_rest : RestClient Store := {|
  Do := store_do; Watcher := unit; Watch _ _ w := (inl (Errorf "no watches"), w) |}.

#[export] Instance store_rest_laws : RestLaws Store.
Proof.
  refine {| st_locks := s_locks; st_atts := s_atts; st_others := eq |}.
  - intros cs ns ipl w Er En. destruct (lock_Create_law (W := Store) ipl w) as (w0 & <- & Hd). exists w. split; [done|].
    cbn [Do store_rest]. unfold store_do. rewrite Er, En, String.eqb_refl. simpl in Hd.
    destruct (store_create ipl w) as [[e|ipl2] w']; [done|]. exists ipl2. tauto.
  - intros cs ns name p w Er. destruct (lock_Get_law (W := Store) ns name w) as (w0 & <- & Hd). exists w. split; [done|].
    cbn [Do store_rest]. unfold store_do. rewrite Er. simpl in Hd.
    destruct (store_get ns name w) as [[e|ipl] w']; [done|]. exists ipl. tauto.
  - intros cs ns name uid w Er. destruct (lock_Delete_law (W := Store) ns name uid w) as (w0 & <- & Hd). exists w. split; [done|].
    cbn [Do store_rest]. unfold store_do. rewrite Er. simpl in Hd.
    by destruct (store_delete ns name uid w) as [[e|] w'].
  - intros cs ns name att w Er En. destruct (att_Update_law (W := Store) att w) as (w0 & <- & Hd). exists w. split; [done|].
    cbn [Do store_rest]. unfold store_do. rewrite Er, bool_decide_true by done. simpl in Hd. rewrite En in Hd.
    destruct (store_update att w) as [[e|att2] w']; [by destruct Hd|]. exists att2. tauto.
Defined.

Lemma typed_clients_refine_witness :
  ∃ L : @KosLaws Store rest_client, ∀ w, @locks Store rest_client L w = s_locks w.
Proof.
  destruct (@typed_clients_refine Store store_rest store_rest_laws) as (L & Hl & _). exists L. exact Hl.
Defined.

(** A lock that is created is found, and not created twice. *)
Example lock_created :
  let ipl := MkIPLock (MkMeta "ns" "v1-1-10-0-0-2" "" "" 0 [] ∅ false) "s1" in
  let '(r, w) := @lock_Create Store rest_client ipl (MkStore ∅ ∅ 1 ∅) in
  match r with
  | inr ipl2 => (@lock_Get Store rest_client "ns" "v1-1-10-0-0-2" w).1 = inr ipl2 ∧
      match (@lock_Create Store rest_client ipl w).1 with inl e => IsAlreadyExists e = true | inr _ => False end
  | inl _ => False
  end.
Proof. vm_compute. by split. Qed.

End KosRest.
