(* ===== verification/Ipam.v ===== *)
(** * The IPAM controller: [pkg/controllers/ipam/ipam.go]

    One controller assigns addresses to NetworkAttachments: it keeps a cache of
    the addresses in use per VNI, locks an address by creating an IPLock object
    through the API server, and records the locked address in the status of the
    attachment.  Local state (the address cache, the data about updates in
    flight) is an explicit record; the work queue is the list of the calls made
    to it; the informer caches are a record of lookup functions; the API server
    is the class [KosClient] of the calls made to it over a world state.
    Metrics and log lines are left out. *)

From S2P Require Import Prelude GoStr UInt32Set GoNet ApiTypes SubnetStrategy IpLock KosApi.
Import GoNet.

(** ** The environment *)

(** The informer caches, as the listers and indexers show them. *)
Record Listers := MkListers {
  netattLister : string → string → error + NetworkAttachment;
  subnetLister : string → string → error + Subnet;
  netattByIndex : string → error + list NetworkAttachment;   (* by subnet name *)
  lockByIndex : string → error + list IPLock                 (* by owner name *)
}.

Module Ipam.

(** ** State *)

Record NetworkAttachmentData := MkNAData {
  anticipatedIPv4 : IP;
  anticipatingResourceVersion : string;
  anticipatedResourceVersion : string;
  anticipationSubnetRV : string }.

Definition emptyData : NetworkAttachmentData := MkNAData [] "" "" "".

Section Model.
Context {S W : Type} `{UInt32Set S, !UInt32SetChooser S, !KosClient W}.

(** [uint32set.NewSortedUInt32Set(1)]. *)
Variable new_set : S.

Record State := MkState {
  atts : gmap NSN NetworkAttachmentData;
  addrCache : gmap Z S;
  queue : list QueueCall;
  world : W }.

Definition set_atts (f : gmap NSN NetworkAttachmentData → gmap NSN NetworkAttachmentData)
    : M State unit := modify (λ s, MkState (f (atts s)) (addrCache s) (queue s) (world s)).
Definition set_cache (f : gmap Z S → gmap Z S) : M State unit :=
  modify (λ s, MkState (atts s) (f (addrCache s)) (queue s) (world s)).
Definition enqueue (c : QueueCall) : M State unit :=
  modify (λ s, MkState (atts s) (addrCache s) (queue s ++ [c]) (world s)).
Definition call {A} (f : W → A * W) : M State A := λ s,
  let '(a, w) := f (world s) in Ok (a, MkState (atts s) (addrCache s) (queue s) w).
Definition lift {A} (r : res A) : M State A := λ s, a ← r; Ok (a, s).

(** ** The address cache *)

(** Run an operation on the set of a VNI, in place. *)
Definition on_set {A} (vni : Z) (m : M S A) : M State A := λ s,
  match addrCache s !! vni with
  | None => Panic "nil pointer"
  | Some addrs =>
      '(a, addrs') ← m addrs;
      Ok (a, MkState (atts s) (<[vni := addrs']> (addrCache s)) (queue s) (world s))
  end.

Definition ensure_set (vni : Z) : M State unit :=
  set_cache (λ c, match c !! vni with None => <[vni := new_set]> c | Some _ => c end).

Definition TakeAddress (vni addrU : Z) : M State bool :=
  ensure_set vni;; on_set vni (set_Add addrU).

Definition PickAddress (r : rng) (vni min max : Z) : M State (Z * bool) :=
  ensure_set vni;; on_set vni (set_AddOneInRange r min max).

Definition ReleaseAddress (vni addrU : Z) : M State bool :=
  c ← gets addrCache;
  match c !! vni with
  | None => mret false
  | Some _ =>
      changed ← on_set vni (set_Remove addrU);
      empty ← on_set vni set_IsEmpty;
      (if empty : bool then set_cache (delete vni) else mret tt);;
      mret changed
  end.

(** ** Notification handlers *)

Fixpoint enqueue_all (l : list NSN) : M State unit :=
  match l with [] => mret tt | nsn :: l => enqueue (QAdd nsn);; enqueue_all l end.

Definition OnSubnetNotify (L : Listers) (subnet : Subnet) : M State unit :=
  match netattByIndex L (Name (sn_meta subnet)) with
  | inl _ => mret tt
  | inr subnetAttachments => enqueue_all (AttNSN <$> subnetAttachments)
  end.

Definition OnSubnetCreate (L : Listers) (obj : notified Subnet) : M State unit :=
  subnet ← lift (assert_object obj); OnSubnetNotify L subnet.
Definition OnSubnetUpdate (L : Listers) (oldObj newObj : notified Subnet) : M State unit :=
  subnet ← lift (assert_object newObj); OnSubnetNotify L subnet.
Definition OnSubnetDelete (L : Listers) (obj : notified Subnet) : M State unit :=
  subnet ← lift (assert_object obj); OnSubnetNotify L subnet.

Definition OnAttachmentCreate (obj : notified NetworkAttachment) : M State unit :=
  att ← lift (assert_object obj); enqueue (QAdd (AttNSN att)).
Definition OnAttachmentUpdate (oldObj newObj : notified NetworkAttachment) : M State unit :=
  lift (assert_object oldObj);; newAtt ← lift (assert_object newObj); enqueue (QAdd (AttNSN newAtt)).
Definition OnAttachmentDelete (obj : notified NetworkAttachment) : M State unit :=
  att ← lift (Peel obj); enqueue (QAdd (AttNSN att)).

Definition OnLockNotify (ipl : IPLock) (exists_ : bool) : M State unit :=
  match parseIPLockName (Name (ipl_meta ipl)) with
  | None => mret tt
  | Some (vni, addrU) =>
      (if exists_ then TakeAddress vni addrU else ReleaseAddress vni addrU);;
      enqueue_all (pair (Namespace (ipl_meta ipl)) <$> OwningAttachments (ipl_meta ipl))
  end.

Definition OnLockCreate (obj : notified IPLock) : M State unit :=
  ipl ← lift (assert_object obj); OnLockNotify ipl true.
Definition OnLockUpdate (old new : notified IPLock) : M State unit :=
  newIPL ← lift (assert_object new); OnLockNotify newIPL true.
Definition OnLockDelete (obj : notified IPLock) : M State unit :=
  ipl ← lift (assert_object obj); OnLockNotify ipl false.

(** ** Local data of an attachment

    A worker holds a pointer into [atts]; it is the key here, and [true] for a
    pointer that is not nil. *)

Definition getNetworkAttachmentData (nsn : NSN) (addIfMissing : bool) : M State bool :=
  m ← gets atts;
  match m !! nsn with
  | Some _ => mret true
  | None => if addIfMissing then set_atts <[nsn := emptyData]>;; mret true else mret false
  end.

Definition clearNetworkAttachmentData (nsn : NSN) : M State unit := set_atts (delete nsn).

Definition read_data (nsn : NSN) : M State NetworkAttachmentData :=
  m ← gets atts;
  match m !! nsn with Some d => mret d | None => panic "nil pointer" end.
Definition write_data (nsn : NSN) (d : NetworkAttachmentData) : M State unit :=
  set_atts <[nsn := d]>.

(** ** Locks *)

(** [None]: no error. *)
Definition deleteIPLockObject (parsed : ParsedLock) : M State (option error) :=
  err ← call (lock_Delete (pl_ns parsed) (pl_name parsed) (pl_UID parsed));
  match err with
  | None => mret None
  | Some e => if IsNotFound e || IsGone e then mret None else mret (Some e)
  end.

Fixpoint delete_locks (l : ParsedLockList) : M State (option error) :=
  match l with
  | [] => mret None
  | lockToRelease :: l =>
      err ← deleteIPLockObject lockToRelease;
      match err with Some e => mret (Some e) | None => delete_locks l end
  end.

(** What [analyzeAndRelease] returns. *)
Record Analysis := MkAnalysis {
  a_subnetName : string; a_subnetRV : string;
  a_VNI : Z; a_base : Z; a_last : Z;
  a_lockInStatus : ParsedLock; a_lockForStatus : ParsedLock;
  a_statusErrs : list string; a_err : option error; a_ok : bool }.

(** The variables the closure [consider] updates. *)
Record Sorted := MkSorted {
  considered : gset Z; timeSlippers : ParsedLockList; undesiredLocks : ParsedLockList;
  usableLocks : ParsedLockList; lockInStatus : ParsedLock }.

Definition sorted0 : Sorted := MkSorted ∅ [] [] [] zeroParsedLock.

Definition consider (att : option NetworkAttachment) (desiredVNI desiredBaseU desiredLastU : Z)
    (ipl : IPLock) (x : Sorted) : Sorted :=
  match NewParsedLock ipl with
  | None => x
  | Some parsed =>
      let seen := {[pl_addrU parsed]} ∪ considered x in
      let ownerUID := (GetOwner (ipl_meta ipl) "NetworkAttachment").2 in
      if match att with Some a => negb (String.eqb ownerUID (UID (na_meta a))) | None => false end
      then MkSorted seen (Append (timeSlippers x) [parsed]) (undesiredLocks x) (usableLocks x)
             (lockInStatus x)
      else if negb (pl_VNI parsed =? desiredVNI) || (pl_addrU parsed <? desiredBaseU) ||
              (desiredLastU <? pl_addrU parsed)
      then MkSorted seen (timeSlippers x) (Append (undesiredLocks x) [parsed]) (usableLocks x)
             (lockInStatus x)
      else
        let inStatus :=
          match att with
          | Some a =>
              String.eqb (pl_UID parsed) (LockUID (na_Status a)) &&
              negb (String.eqb (StatusIPv4 (na_Status a)) "") &&
              String.eqb (StatusIPv4 (na_Status a)) (IP_String (GetIP parsed))
          | None => false
          end in
        MkSorted seen (timeSlippers x) (undesiredLocks x) (Append (usableLocks x) [parsed])
          (if inStatus then parsed else lockInStatus x)
  end.

(** The lock of the address in the status, fetched from the server when the
    informer has not shown it. *)
Definition consider_status (ns name : string) (att : option NetworkAttachment)
    (desiredVNI desiredBaseU desiredLastU : Z) (x : Sorted) : M State Sorted :=
  match att with
  | None => mret x
  | Some a =>
      if String.eqb (StatusIPv4 (na_Status a)) "" then mret x
      else
        let statusIP := ParseIP (StatusIPv4 (na_Status a)) in
        if bool_decide (statusIP = []) then mret x
        else
          statusIPU ← lift (IPv4ToUint32 statusIP);
          if bool_decide (statusIPU ∈ considered x) then mret x
          else
            antName ← lift (makeIPLockName2 desiredVNI statusIP);
            r ← call (lock_Get ns antName);
            match r with
            | inl _ => mret x
            | inr ipl =>
                if String.eqb (GetOwner (ipl_meta ipl) "NetworkAttachment").1 name
                then mret (consider att desiredVNI desiredBaseU desiredLastU ipl x)
                else mret x
            end
  end.

(** Forget an anticipation that is out of date. *)
Definition reset_anticipation (nsn : NSN) (nadat : bool) (att : option NetworkAttachment)
    (subnetRV : string) : M State unit :=
  if nadat then
    d ← read_data nsn;
    if match att with
       | None => true
       | Some a =>
           (negb (String.eqb (anticipatingResourceVersion d) (ResourceVersion (na_meta a))) &&
            negb (String.eqb (anticipatedResourceVersion d) (ResourceVersion (na_meta a)))) ||
           negb (String.eqb (anticipationSubnetRV d) subnetRV)
       end
    then write_data nsn emptyData else mret tt
  else mret tt.

(** Which lock to use and which usable ones to give up. *)
Definition choose_lock (att : option NetworkAttachment) (x : Sorted)
    : ParsedLock * ParsedLockList :=
  match att with
  | None => (zeroParsedLock, usableLocks x)
  | Some _ =>
      match pl_Obj (lockInStatus x), usableLocks x with
      | Some _, _ => (zeroParsedLock, (RemFunc (usableLocks x) (lockInStatus x)).1)
      | None, [] => (zeroParsedLock, [])
      | None, _ => let best := Best (usableLocks x) in (best, (RemFunc (usableLocks x) best).1)
      end
  end.

Definition release_and_choose (L : Listers) (ns name : string) (att : option NetworkAttachment)
    (nadat : bool) (subnetName subnetRV : string) (vni base last : Z) : M State Analysis :=
  match lockByIndex L name with
  | inl _ => mret (MkAnalysis subnetName subnetRV vni base last zeroParsedLock zeroParsedLock [] None false)
  | inr ownedObjs =>
      let x := foldl (λ x ipl, consider att vni base last ipl x) sorted0 ownedObjs in
      x ← consider_status ns name att vni base last x;
      reset_anticipation (ns, name) nadat att subnetRV;;
      let '(lockForStatus, usableToRelease) := choose_lock att x in
      let locksToRelease := (AddListFunc (undesiredLocks x) usableToRelease).1 in
      err ← delete_locks locksToRelease;
      mret (MkAnalysis subnetName subnetRV vni base last (lockInStatus x) lockForStatus [] err
              (match err with None => true | Some _ => false end))
  end.

Definition analyzeAndRelease (L : Listers) (ns name : string) (att : option NetworkAttachment)
    (nadat : bool) : M State Analysis :=
  match att with
  | None => release_and_choose L ns name None nadat "" "." 0 0 0
  | Some a =>
      let subnetName := SubnetOf (na_Spec a) in
      let stop rv vni errs ok :=
        mret (MkAnalysis subnetName rv vni 0 0 zeroParsedLock zeroParsedLock errs None ok) in
      match subnetLister L ns subnetName with
      | inl e =>
          if negb (IsNotFound e) then stop "." 0 [] false
          else stop "." 0 ["Subnet " +:+ subnetName +:+ " does not exist"] true
      | inr subnet =>
          let vni := VNI (sn_Spec subnet) in
          let rv := ResourceVersion (sn_meta subnet) in
          match ParseCIDR (IPv4 (sn_Spec subnet)) with
          | None =>
              stop rv vni ["Subnet " +:+ subnetName +:+ " has malformed IPv4 CIDR block (" +:+
                           IPv4 (sn_Spec subnet) +:+ ")"] true
          | Some (_, ipNet) =>
              '(base, last) ← lift (IPNetToBoundsU ipNet);
              release_and_choose L ns name att nadat subnetName rv vni base last
          end
      end
  end.

(** ** Picking and locking an address *)

Definition pick_bounds (subnetBaseU subnetLastU : Z) : Z * Z :=
  if 4 <=? subnetLastU -₃₂ subnetBaseU then (subnetBaseU +₃₂ 2, subnetLastU -₃₂ 1)
  else (subnetBaseU, subnetLastU).

Definition SchemeGroupVersion : string := "network.example.com/v1alpha1".

Definition new_lock (ns name lockName subnetName : string) (att : NetworkAttachment) : IPLock :=
  MkIPLock
    (MkMeta ns lockName "" "" 0
       [MkOwnerRef SchemeGroupVersion "NetworkAttachment" name (UID (na_meta att)) (Some true)] ∅ false)
    subnetName.

(** The create loop.  [Some ipl2]: locked; otherwise the error to return, if
    any. *)
Fixpoint create_lock (fuel : nat) (name : string) (att : NetworkAttachment) (vni addrU : Z)
    (ipl : IPLock) : M State (option IPLock * option error) :=
  match fuel with
  | O => panic "fuel"
  | Datatypes.S fuel =>
      let ns := Namespace (ipl_meta ipl) in
      let lockName := Name (ipl_meta ipl) in
      r ← call (lock_Create ipl);
      match r with
      | inr ipl2 => mret (Some ipl2, None)
      | inl err =>
          if IsAlreadyExists err then
            r2 ← call (lock_Get ns lockName);
            match r2 with
            | inl err2 =>
                if IsNotFound err2 then create_lock fuel name att vni addrU ipl
                else mret (None, Some (Errorf ("Failed to fetch allegedly existing IPLock " +:+
                       lockName +:+ " for " +:+ ns +:+ "/" +:+ name +:+ ": " +:+ message err2 +:+ nl)))
            | inr ipl2 =>
                let '(ownerName, ownerUID) := GetOwner (ipl_meta ipl2) "NetworkAttachment" in
                if String.eqb ownerName name && String.eqb ownerUID (UID (na_meta att))
                then mret (Some ipl2, None)
                else mret (None, Some (Errorf ("cache incoherence at " +:+ lockName)))
            end
          else
            ReleaseAddress vni addrU;;
            if IsInvalid err || str_contains (ToLower (message err)) "invalid"
            then mret (None, None)
            else mret (None, Some (Errorf ("Create of IPLock " +:+ lockName +:+ " for " +:+ ns +:+
                   "/" +:+ name +:+ " failed: " +:+ message err)))
      end
  end.

Definition pickAndLockAddress (fuel : nat) (r : rng) (ns name : string) (att : NetworkAttachment)
    (subnetName : string) (vni subnetBaseU subnetLastU : Z)
    : M State (ParsedLock * IP * option error) :=
  let '(addrMin, addrMax) := pick_bounds subnetBaseU subnetLastU in
  '(ipForStatusU, ok) ← PickAddress r vni addrMin addrMax;
  if negb ok then
    mret (zeroParsedLock, [], Some (Errorf ("No IP address available in " +:+ fmt_x vni +:+ "/" +:+
            fmt_x subnetBaseU +:+ "--" +:+ fmt_x subnetLastU +:+ " for " +:+ ns +:+ "/" +:+ name)))
  else
    let ipForStatus := Uint32ToIPv4 ipForStatusU in
    lockName ← lift (makeIPLockName2 vni ipForStatus);
    let lock0 := MkParsedLock ns lockName vni ipForStatusU "" 0 None in
    '(ipl2, err) ← create_lock fuel name att vni ipForStatusU (new_lock ns name lockName subnetName att);
    match ipl2 with
    | Some ipl2 =>
        mret (MkParsedLock ns lockName vni ipForStatusU (UID (ipl_meta ipl2))
                (CreationTimestamp (ipl_meta ipl2)) (Some ipl2), ipForStatus, None)
    | None => mret (lock0, ipForStatus, err)
    end.

(** ** Recording the result *)

Definition status_update (att : NetworkAttachment) (statusErrs : list string)
    (lockForStatus : ParsedLock) (ipForStatus : IP) : NetworkAttachment :=
  let st := na_Status att in
  MkNA (na_meta att) (na_Spec att)
    (MkNAStatus (MkNAErrors statusErrs (Host (Errors st))) (pl_UID lockForStatus)
       (pl_VNI lockForStatus)
       (if bool_decide (ipForStatus = []) then "" else IP_String ipForStatus)
       (MACAddress st) (IfcName st) (HostIP st) (PostCreateExecReport st)).

Definition updateNAStatus (ns name : string) (att : NetworkAttachment) (statusErrs : list string)
    (subnetRV : string) (lockForStatus : ParsedLock) (ipForStatus : IP) : M State (option error) :=
  r ← call (att_Update (status_update att statusErrs lockForStatus ipForStatus));
  match r with
  | inr att3 =>
      (if bool_decide (statusErrs = []) then
         read_data (ns, name);;
         write_data (ns, name)
           (MkNAData ipForStatus (ResourceVersion (na_meta att)) (ResourceVersion (na_meta att3))
              subnetRV)
       else mret tt);;
      mret None
  | inl err =>
      if IsNotFound err then mret None
      else mret (Some (Errorf ("Failed to update status of NetworkAttachment " +:+ ns +:+ "/" +:+
             name +:+ " to record address " +:+ IP_String ipForStatus +:+ ": " +:+ message err)))
  end.

(** ** Processing an attachment *)

Definition assign (fuel : nat) (r : rng) (ns name : string) (att : NetworkAttachment)
    (a : Analysis) : M State (option error) :=
  d ← read_data (ns, name);
  match a_statusErrs a, pl_Obj (a_lockForStatus a) with
  | _ :: _, _ =>
      updateNAStatus ns name att (a_statusErrs a) (a_subnetRV a) (a_lockForStatus a) []
  | [], Some _ =>
      let ipForStatus := GetIP (a_lockForStatus a) in
      if GoNet.Equal ipForStatus (anticipatedIPv4 d) then mret None
      else updateNAStatus ns name att [] (a_subnetRV a) (a_lockForStatus a) ipForStatus
  | [], None =>
      if negb (bool_decide (anticipatedIPv4 d = [])) then mret None
      else
        '(lockForStatus, ipForStatus, err) ←
          pickAndLockAddress fuel r ns name att (a_subnetName a) (a_VNI a) (a_base a) (a_last a);
        match err with
        | Some e => mret (Some e)
        | None => updateNAStatus ns name att [] (a_subnetRV a) lockForStatus ipForStatus
        end
  end.

Definition processNetworkAttachment (fuel : nat) (r : rng) (L : Listers) (ns name : string)
    : M State (option error) :=
  let found := netattLister L ns name in
  if match found with inl e => negb (IsNotFound e) | inr _ => false end then mret None
  else
    let att := match found with inl _ => None | inr a => Some a end in
    nadat ← getNetworkAttachmentData (ns, name) (match att with Some _ => true | None => false end);
    a ← analyzeAndRelease L ns name att nadat;
    if negb (bool_decide (a_err a = None)) || negb (a_ok a) then mret (a_err a)
    else
      match att with
      | None => (if nadat : bool then clearNetworkAttachmentData (ns, name) else mret tt);; mret None
      | Some att =>
          match pl_Obj (a_lockInStatus a) with
          | Some _ => mret None
          | None => assign fuel r ns name att a
          end
      end.

Definition processQueueItem (fuel : nat) (r : rng) (L : Listers) (nsn : NSN) : M State unit :=
  err ← processNetworkAttachment fuel r L nsn.1 nsn.2;
  (match err with
   | None => enqueue (QForget nsn)
   | Some _ => enqueue (QAddRateLimited nsn)
   end);;
  enqueue (QDone nsn).

(** A worker: the items [queue.Get] hands out until shutdown, each with the random
    draws and the informer caches of its moment. *)
Fixpoint processQueue (fuel : nat) (items : list (NSN * rng * Listers)) : M State unit :=
  match items with
  | [] => mret tt
  | (nsn, r, L) :: items => processQueueItem fuel r L nsn;; processQueue fuel items
  end.

(** ** The address cache is a set of (VNI, address) pairs *)

Context `{!SetLaws S, !ChooserLaws S}.
Hypothesis new_set_ok : set_ok new_set.
Hypothesis new_set_empty : ∀ x, ¬ set_mem new_set x.

Definition cached (s : State) (vni x : Z) : Prop :=
  ∃ a, addrCache s !! vni = Some a ∧ set_mem a x.

Definition cache_ok (s : State) : Prop := map_Forall (λ _ a, set_ok a) (addrCache s).

(** Only the cache has changed. *)
Definition cache_step (s s' : State) : Prop :=
  cache_ok s' ∧ atts s' = atts s ∧ queue s' = queue s ∧ world s' = world s.

Lemma cache_step_refl s : cache_ok s → cache_step s s.
Proof. by (split; [|repeat split]). Qed.

Lemma cache_step_trans s1 s2 s3 : cache_step s1 s2 → cache_step s2 s3 → cache_step s1 s3.
Proof. intros (_&?&?&?) (?&?&?&?). split; [done|]. repeat split; congruence. Qed.

Lemma on_set_runs {A} vni (m : M S A) s a (Q : A → S → Prop) (R : A → State → Prop) :
  cache_ok s → addrCache s !! vni = Some a → (set_ok a → runs m a Q) →
  (∀ r a' s', Q r a' → set_ok a' → cache_step s s' →
     addrCache s' = <[vni := a']> (addrCache s) → R r s') →
  (∀ r a', Q r a' → set_ok a') →
  runs (on_set vni m) s R.
Proof.
  intros Hok Ha Hm HR Hset. destruct (runs_inv _ _ _ (Hm (Hok _ _ Ha))) as (r & a' & E & HQ).
  unfold runs, on_set. rewrite Ha, E. simpl. eapply HR; [done|by eapply Hset| |done].
  split; [|done]. apply map_Forall_insert_2; [by eapply Hset|done].
Qed.

Lemma ensure_set_runs vni s (R : unit → State → Prop) :
  cache_ok s →
  (∀ s' a, cache_step s s' → addrCache s' !! vni = Some a →
     (∀ v x, cached s' v x ↔ cached s v x) → R tt s') →
  runs (ensure_set vni) s R.
Proof.
  intros Hok HR. unfold ensure_set, set_cache. apply runs_modify.
  destruct (addrCache s !! vni) as [a|] eqn:E.
  - apply (HR _ a); [by (split; [|repeat split])|done|done].
  - apply (HR _ new_set); [|by apply lookup_insert_eq|].
    + split; [by apply map_Forall_insert_2|done].
    + intros v x. unfold cached. simpl. destruct (decide (v = vni)) as [->|].
      * rewrite lookup_insert_eq, E. split; intros (a & [= <-] & Hx). by destruct (new_set_empty x).
      * by rewrite lookup_insert_ne.
Qed.

(** The pairs after the set of [vni] was replaced. *)
Lemma cached_insert s s' vni a a' :
  addrCache s !! vni = Some a → addrCache s' = <[vni := a']> (addrCache s) →
  ∀ v x, cached s' v x ↔ if decide (v = vni) then set_mem a' x else cached s v x.
Proof.
  intros Ha E v x. unfold cached. rewrite E. destruct (decide (v = vni)) as [->|].
  - rewrite lookup_insert_eq. naive_solver.
  - by rewrite lookup_insert_ne.
Qed.

Lemma cached_here s vni a x : addrCache s !! vni = Some a → cached s vni x ↔ set_mem a x.
Proof. intros Ha. unfold cached. rewrite Ha. naive_solver. Qed.

(** [TakeAddress] adds the pair and reports whether it was new. *)
Lemma TakeAddress_spec vni x s :
  cache_ok s → is_u32 x →
  runs (TakeAddress vni x) s (λ changed s', cache_step s s' ∧
    (∀ v y, cached s' v y ↔ (v = vni ∧ y = x) ∨ cached s v y) ∧
    (changed = true ↔ ¬ cached s vni x)).
Proof.
  intros Hok Hx. unfold TakeAddress. apply runs_bind, ensure_set_runs; [done|].
  intros s1 a Hs1 Ha Hsame.
  eapply on_set_runs; [apply Hs1|done|by intros; apply set_Add_spec| |intros ?? (?&_); done].
  intros b a' s2 (_ & Hm & Hb) _ Hs2 E. split; [by eapply cache_step_trans|]. split.
  - intros v y. rewrite (cached_insert s1 s2 vni a a' Ha E), <- Hsame.
    destruct (decide (v = vni)) as [->|]; [|naive_solver].
    rewrite Hm, (cached_here s1 vni a) by done. naive_solver.
  - by rewrite Hb, <- Hsame, (cached_here s1 vni a).
Qed.

(** [PickAddress] takes a free address of the range when there is one, and
    fails without changing the cache only when the whole range is taken. *)
Lemma PickAddress_spec r vni min max s :
  cache_ok s → rng_ok r → is_u32 min → is_u32 max →
  runs (PickAddress r vni min max) s (λ xb s', cache_step s s' ∧ is_u32 xb.1 ∧
    if xb.2
    then min ≤ xb.1 ≤ max ∧ ¬ cached s vni xb.1 ∧
         ∀ v y, cached s' v y ↔ (v = vni ∧ y = xb.1) ∨ cached s v y
    else (∀ v y, cached s' v y ↔ cached s v y) ∧ ∀ y, min ≤ y ≤ max → cached s vni y).
Proof.
  intros Hok Hr Hmin Hmax. unfold PickAddress. apply runs_bind, ensure_set_runs; [done|].
  intros s1 a Hs1 Ha Hsame.
  eapply on_set_runs; [apply Hs1|done|by intros; apply set_AddOneInRange_spec| |].
  2: { intros [x []] a' [_ Hc]; simpl in Hc; tauto. }
  intros [x ok] a' s2 [Hx Hc] _ Hs2 E. split; [by eapply cache_step_trans|]. split; [done|].
  simpl in *. assert (Hins := cached_insert s1 s2 vni a a' Ha E).
  assert (Hh : ∀ y, cached s vni y ↔ set_mem a y) by (intros y; by rewrite <- Hsame, (cached_here s1 vni a)).
  destruct ok.
  - destruct Hc as (? & Hn & _ & Hm). split; [done|]. split; [by rewrite Hh|].
    intros v y. rewrite Hins, <- Hsame. destruct (decide (v = vni)) as [->|]; [|naive_solver].
    rewrite Hm, Hsame, Hh. naive_solver.
  - destruct Hc as ((_ & Hm) & Hfull). split.
    + intros v y. rewrite Hins, <- Hsame. destruct (decide (v = vni)) as [->|]; [|done].
      by rewrite Hm, Hsame, Hh.
    + intros y Hy. by apply Hh, Hfull.
Qed.

(** [ReleaseAddress] removes the pair, reports whether it was there, and
    keeps no empty set for the VNI. *)
Lemma ReleaseAddress_spec vni x s :
  cache_ok s → is_u32 x →
  runs (ReleaseAddress vni x) s (λ changed s', cache_step s s' ∧
    (∀ v y, cached s' v y ↔ ¬ (v = vni ∧ y = x) ∧ cached s v y) ∧
    (changed = true ↔ cached s vni x) ∧
    (is_Some (addrCache s' !! vni) ↔ ¬ ∀ y, ¬ cached s' vni y)).
Proof.
  intros Hok Hx. unfold ReleaseAddress. apply runs_bind, runs_gets.
  destruct (addrCache s !! vni) as [a|] eqn:Ha.
  2: { apply runs_ret. split; [by apply cache_step_refl|].
       assert (Hn : ∀ y, ¬ cached s vni y) by (intros y (a & E & _); congruence).
       split; [naive_solver|]. split; [naive_solver|]. rewrite Ha. split; [by intros []|tauto]. }
  apply runs_bind.
  eapply on_set_runs; [done|done|by intros; apply set_Remove_spec| |intros ?? (?&_); done].
  intros b a1 s1 (Hok1 & Hm1 & Hb) _ Hs1 E1. apply runs_bind.
  assert (Ha1 : addrCache s1 !! vni = Some a1) by (rewrite E1; apply lookup_insert_eq).
  eapply on_set_runs; [apply Hs1|done|by intros; apply set_IsEmpty_spec| |intros ?? ((?&_)&_); done].
  intros e a2 s2 ((_ & Hm2) & He) _ Hs2 E2.
  assert (Hc1 := cached_insert s s1 vni a a1 Ha E1).
  assert (Hc2 := cached_insert s1 s2 vni a1 a2 Ha1 E2).
  assert (Hh := λ y, cached_here s vni a y Ha).
  assert (H2 : ∀ v y, cached s2 v y ↔ ¬ (v = vni ∧ y = x) ∧ cached s v y).
  { intros v y. rewrite Hc2. specialize (Hc1 v y). destruct (decide (v = vni)) as [->|].
    - rewrite Hm2, Hm1, Hh. naive_solver.
    - rewrite Hc1. naive_solver. }
  assert (Hs02 : cache_step s s2) by by eapply cache_step_trans.
  apply runs_bind. destruct e.
  - unfold set_cache. apply runs_modify, runs_ret. simpl.
    assert (He' := proj1 He eq_refl).
    assert (Hno : ∀ y, ¬ cached s2 vni y).
    { intros y. rewrite Hc2, decide_True, Hm2 by done. apply He'. }
    assert (Hd : ∀ v y, cached (MkState (atts s2) (delete vni (addrCache s2)) (queue s2) (world s2)) v y
      ↔ cached s2 v y).
    { intros v y. unfold cached at 1. simpl. destruct (decide (v = vni)) as [->|].
      - rewrite lookup_delete_eq. split; [by intros (?&?&_)|by intros ?%Hno].
      - by rewrite lookup_delete_ne. }
    split; [|split; [|split]].
    + destruct Hs02 as (?&?&?&?). split; [by apply map_Forall_delete|done].
    + intros v y. etrans; [apply Hd|apply H2].
    + by rewrite Hb, Hh.
    + rewrite lookup_delete_eq. split; [by intros []|]. intros Hn. destruct Hn.
      intros y ?%Hd. by apply (Hno y).
  - apply runs_ret, runs_ret. split; [done|]. split; [done|]. split; [by rewrite Hb, Hh|].
    split; [|intros _; rewrite E2, lookup_insert_eq; eauto]. intros _ Hno.
    assert (false = true); [|done]. apply He. intros y Hy. apply (Hno y).
    by rewrite Hc2, decide_True, Hm2 by done.
Qed.

End Model.
End Ipam.
