(* ===== verification/IpamCorrect.v ===== *)
(** * Correctness of the IPAM controller

    The theorems about [Ipam], against the interfaces: any address set with the
    laws of [UInt32SetChooser], any API server with [KosLaws]. *)

From S2P Require Import Prelude GoStr UInt32Set GoNet ApiTypes SubnetStrategy IpLock KosApi Ipam.
Import GoNet Ipam.

Module IpamCorrect.

Section Correct.
Context {S W : Type} `{UInt32Set S, !UInt32SetChooser S, !SetLaws S, !ChooserLaws S}.
Context `{KosClient W, !KosLaws W}.
Variable new_set : S.
Hypothesis new_set_ok : set_ok new_set.
Hypothesis new_set_empty : ∀ x, ¬ set_mem new_set x.
#[local] Abbreviation St := (@State S W).
Implicit Types s : St.

Lemma runs_call {A} (f : W → A * W) s (Q : A → St → Prop) :
  Q (f (world s)).1 (MkState (atts s) (addrCache s) (queue s) (f (world s)).2) →
  runs (call f) s Q.
Proof. unfold runs, call. by destruct (f (world s)). Qed.

(** ** The range addresses are picked from *)

(** A block of at least five addresses keeps its network address, the
    address after it and its last address out of use; a smaller block is used
    whole.  The range is never empty. *)
Lemma pick_bounds_spec base last :
  is_u32 base → is_u32 last → base ≤ last →
  let '(lo, hi) := pick_bounds base last in
  base ≤ lo ≤ hi ∧ hi ≤ last ∧ is_u32 lo ∧ is_u32 hi ∧
  if 4 <=? last - base then lo = base + 2 ∧ hi = last - 1 else lo = base ∧ hi = last.
Proof.
  intros Hb Hl Hle. unfold pick_bounds. rewrite (u32_small (last - base)) by u32_lia.
  destruct (Z.leb_spec 4 (last - base)).
  - rewrite !u32_small by u32_lia. unfold is_u32 in *. lia.
  - unfold is_u32 in *. lia.
Qed.

(** ** Creating the lock *)

(** The create loop repeats when the lock exists and is then gone: it ends when
    that stops happening. *)
Fixpoint settles (fuel : nat) (ipl : IPLock) (w : W) : Prop :=
  match fuel with
  | O => False
  | Datatypes.S fuel =>
      match lock_Create ipl w with
      | (inl e, w1) =>
          if IsAlreadyExists e then
            match lock_Get (Namespace (ipl_meta ipl)) (Name (ipl_meta ipl)) w1 with
            | (inl e2, w2) => if IsNotFound e2 then settles fuel ipl w2 else True
            | _ => True
            end
          else True
      | _ => True
      end
  end.

(** On a server where nobody else touches the locks the loop runs once. *)
Lemma settles_quiet ipl w :
  (∀ w w', others w w' → locks w' = locks w) → settles 1 ipl w.
Proof.
  intros Hq. simpl. destruct (lock_Create_law ipl w) as (w0 & Ho & Hc).
  destruct (lock_Create ipl w) as [[e|ipl2] w1]; [|done].
  destruct (IsAlreadyExists e); [|done]. destruct Hc as (He & Hl & _).
  destruct (lock_Get_law (Namespace (ipl_meta ipl)) (Name (ipl_meta ipl)) w1) as (w2 & Ho2 & Hg).
  destruct (lock_Get _ _ w1) as [[e2|ipl2] w3]; [|done].
  destruct (IsNotFound e2); [|done]. destruct Hg as (Hn & _).
  specialize (Hn eq_refl). rewrite (Hq _ _ Ho2), Hl in Hn.
  destruct (He eq_refl) as [l El]. unfold lock_nsn in El. congruence.
Qed.

(** The lock [ipl2] is on the server and belongs to the attachment. *)
Definition holds_lock (w : W) (name : string) (att : NetworkAttachment) (k : NSN) (ipl2 : IPLock) : Prop :=
  locks w !! k = Some ipl2 ∧ GetOwner (ipl_meta ipl2) "NetworkAttachment" = (name, UID (na_meta att)).

(** No attachment is written on the way, except by other clients. *)
Definition others_quiet : Prop := ∀ w w' : W, others w w' → natts w' = natts w.
Definition natts_kept (w w' : W) : Prop := others_quiet → natts w' = natts w.

Lemma natts_kept_refl w : natts_kept w w.
Proof. by intros ?. Qed.

Lemma natts_kept_trans w1 w2 w3 : natts_kept w1 w2 → natts_kept w2 w3 → natts_kept w1 w3.
Proof. intros H12 H23 Hq. by rewrite H23, H12. Qed.

Lemma natts_kept_call w w0 w' : others w w0 → natts w' = natts w0 → natts_kept w w'.
Proof. intros Ho E Hq. by rewrite E, (Hq _ _ Ho). Qed.

(** Everything but the cache and the locks is as before. *)
Definition keeps (s s' : St) : Prop :=
  cache_ok s' ∧ atts s' = atts s ∧ queue s' = queue s ∧ natts_kept (world s) (world s').

Lemma keeps_refl s : cache_ok s → keeps s s.
Proof. intros Hok. split; [done|]. split; [done|]. split; [done|]. apply natts_kept_refl. Qed.

Lemma keeps_trans s1 s2 s3 : keeps s1 s2 → keeps s2 s3 → keeps s1 s3.
Proof.
  intros (_&?&?&?) (?&?&?&?). split; [done|]. split; [congruence|]. split; [congruence|].
  by eapply natts_kept_trans.
Qed.

Lemma cache_step_keeps s s' : cache_step s s' → keeps s s'.
Proof.
  intros (?&?&?&E). split; [done|]. split; [done|]. split; [done|]. rewrite E. apply natts_kept_refl.
Qed.

Lemma keeps_world s w' :
  cache_ok s → natts_kept (world s) w' → keeps s (MkState (atts s) (addrCache s) (queue s) w').
Proof. by repeat split. Qed.

(** An error after which creating the lock again is pointless. *)
Definition permanent (e : error) : bool :=
  IsInvalid e || str_contains (ToLower (message e)) "invalid".

(** Create requests that met a lock which then was gone again. *)
Inductive retried (ipl : IPLock) : W → W → Prop :=
| retried_none w : retried ipl w w
| retried_once w e w1 e2 w2 w' :
    lock_Create ipl w = (inl e, w1) → IsAlreadyExists e = true →
    lock_Get (Namespace (ipl_meta ipl)) (Name (ipl_meta ipl)) w1 = (inl e2, w2) →
    IsNotFound e2 = true → retried ipl w2 w' → retried ipl w w'.

(** The server refuses to create the lock for good: the last request, from [w1]
    to [w'], is answered by an error of that kind. *)
Definition refused (w : W) (ipl : IPLock) (w' : W) : Prop :=
  ∃ w1 e, retried ipl w w1 ∧ lock_Create ipl w1 = (inl e, w') ∧
    IsAlreadyExists e = false ∧ permanent e = true.

Lemma create_lock_spec fuel name att vni addrU ipl s :
  cache_ok s → is_u32 addrU → settles fuel ipl (world s) →
  GetOwner (ipl_meta ipl) "NetworkAttachment" = (name, UID (na_meta att)) →
  runs (create_lock fuel name att vni addrU ipl) s (λ oe s', keeps s s' ∧
    match oe with
    | (Some ipl2, None) =>
        holds_lock (world s') name att (lock_nsn ipl) ipl2 ∧ addrCache s' = addrCache s
    | (None, None) => refused (world s) ipl (world s') ∧
        ∀ v y, cached s' v y ↔ ¬ (v = vni ∧ y = addrU) ∧ cached s v y
    | (None, Some _) => (∀ v y, cached s' v y → cached s v y) ∧
        ∀ v y, ¬ (v = vni ∧ y = addrU) → cached s v y → cached s' v y
    | (Some _, Some _) => False
    end).
Proof.
  intros Hok Hu Hset Hown. revert s Hok Hset. induction fuel as [|fuel IH]; intros s Hok Hset; [done|].
  cbn [create_lock settles] in *. apply runs_bind, runs_call.
  destruct (lock_Create_law ipl (world s)) as (w0 & Ho & Hc).
  destruct (lock_Create ipl (world s)) as [[e|ipl2] w1] eqn:Ec; cbn [fst snd] in *.
  2: { destruct Hc as (_ & Hl & (Hn & Hor & _) & Hna). apply runs_ret.
       split; [by apply keeps_world; [|eapply natts_kept_call]|]. split; [|done]. split.
       - simpl. rewrite Hl. apply lookup_insert_eq.
       - unfold GetOwner in *. by rewrite Hor. }
  destruct Hc as (_ & Hl1 & Hna1). assert (Hk1 := natts_kept_call _ _ _ Ho Hna1).
  destruct (IsAlreadyExists e) eqn:Ee.
  - apply runs_bind, runs_call. cbn [world].
    destruct (lock_Get_law (Namespace (ipl_meta ipl)) (Name (ipl_meta ipl)) w1) as (w2 & Ho2 & Hg).
    destruct (lock_Get _ _ w1) as [r2 w3] eqn:Eg; cbn [fst snd] in *.
    assert (Hk : keeps s (MkState (atts s) (addrCache s) (queue s) w3)).
    { apply keeps_world; [done|]. eapply natts_kept_trans; [done|]. eapply natts_kept_call; [done|].
      by destruct r2; apply Hg. }
    destruct r2 as [e2|ipl2].
    + destruct (IsNotFound e2) eqn:Ef; [|by apply runs_ret].
      eapply runs_conseq; [by apply IH|]. intros oe s' [Hk' Hoe].
      split; [by eapply keeps_trans|]. destruct oe as [[ipl2|] [err|]]; try done.
      destruct Hoe as [(wl & er & Hre & Hlast) Hcache]. split; [|done].
      exists wl, er. split; [|done]. by eapply retried_once.
    + destruct Hg as (Hl & Hl' & _). destruct (GetOwner (ipl_meta ipl2) _) as [on ou] eqn:Eo.
      destruct (String.eqb_spec on name) as [->|]; [|by apply runs_ret].
      destruct (String.eqb_spec ou (UID (na_meta att))) as [->|]; apply runs_ret; [|done].
      split; [done|]. split; [|done]. split; [|done]. simpl. by rewrite Hl'.
  - set (s1 := MkState (atts s) (addrCache s) (queue s) w1).
    apply runs_bind. eapply runs_conseq; [by apply (ReleaseAddress_spec (W := W) vni addrU s1)|].
    intros changed s' (Hst & Hm & _). simpl.
    assert (Hk : keeps s s').
    { eapply keeps_trans; [apply (keeps_world s w1); done|]. by apply cache_step_keeps. }
    pose proof Hst as (_ & _ & _ & Ew). simpl in Ew.
    destruct (IsInvalid e || _) eqn:Ep; apply runs_ret; (split; [done|]).
    + split; [|intros v y; apply Hm]. exists (world s), e. rewrite Ew. split; [constructor|]. by split_and!.
    + split; [intros v y Hy; apply Hm in Hy; by destruct Hy|intros v y Hne Hy; by apply Hm].
Qed.

(** ** Picking and locking *)

Definition server_settles (fuel : nat) : Prop := ∀ ipl w, settles fuel ipl w.

(** A lock made for the address it names, known to the server when [pl_Obj] is
    set. *)
Definition locked (w : W) (ns name : string) (att : NetworkAttachment) (lock : ParsedLock) : Prop :=
  ∃ ipl2, pl_Obj lock = Some ipl2 ∧ holds_lock w name att (ns, pl_name lock) ipl2 ∧
    pl_UID lock = UID (ipl_meta ipl2) ∧ pl_ns lock = ns ∧
    parseIPLockName (pl_name lock) = Some (pl_VNI lock, pl_addrU lock).

(** What stands for a lock that the server refused for good: the name of the address, but
    neither object nor UID. *)
Definition unlocked (ns name : string) (att : NetworkAttachment) (subnetName : string) (w w' : W)
    (lock : ParsedLock) : Prop :=
  pl_Obj lock = None ∧ pl_UID lock = "" ∧
  parseIPLockName (pl_name lock) = Some (pl_VNI lock, pl_addrU lock) ∧
  refused w (Ipam.new_lock ns name (pl_name lock) subnetName att) w'.

(** [pickAndLockAddress] on every branch, in terms of [pick_bounds]. *)
Lemma pickAndLock_runs fuel r ns name att subnetName vni base last s :
  cache_ok s → rng_ok r → server_settles fuel → 0 ≤ vni ≤ maxVNI →
  is_u32 base → is_u32 last → base ≤ last →
  runs (pickAndLockAddress new_set fuel r ns name att subnetName vni base last) s (λ res s',
    let '(lock, ip, err) := res in
    keeps s s' ∧
    match err with
    | Some _ => (∃ x, ∀ v y, cached s' v y → cached s v y ∨ (v = vni ∧ y = x)) ∧
        ∀ v y, cached s v y → cached s' v y
    | None =>
        (pick_bounds base last).1 ≤ pl_addrU lock ≤ (pick_bounds base last).2 ∧
        ¬ cached s vni (pl_addrU lock) ∧ pl_VNI lock = vni ∧ ip = GetIP lock ∧
        ((locked (world s') ns name att lock ∧
          ∀ v y, cached s' v y ↔ (v = vni ∧ y = pl_addrU lock) ∨ cached s v y) ∨
         (unlocked ns name att subnetName (world s) (world s') lock ∧
          ∀ v y, cached s' v y ↔ cached s v y))
    end).
Proof.
  intros Hok Hr Hset Hv Hb Hl Hle. unfold pickAndLockAddress.
  pose proof (pick_bounds_spec base last Hb Hl Hle) as Hpb.
  destruct (pick_bounds base last) as [lo hi]. destruct Hpb as (?&?&Hlo&Hhi&_).
  apply runs_bind. eapply runs_conseq.
  { apply (PickAddress_spec new_set new_set_ok new_set_empty r vni lo hi s Hok Hr Hlo Hhi). }
  intros [x ok] s1 (Hst & Hx & Hpick). simpl in Hx, Hpick.
  pose proof (cache_step_keeps _ _ Hst) as Hk1. destruct ok; simpl.
  2: { apply runs_ret. split; [done|]. split; [|intros v y; by apply Hpick].
       exists 0. intros v y Hy. left. by apply Hpick. }
  destruct Hpick as (Hrange & Hfree & Hadd).
  destruct (parse_make_name vni x Hv Hx) as (lockName & En & Epn).
  apply runs_bind. unfold runs at 1, lift. rewrite En. simpl.
  apply runs_bind. eapply runs_conseq.
  { apply (create_lock_spec fuel name att vni x (new_lock ns name lockName subnetName att) s1); 
      [apply Hst|done|apply Hset|done]. }
  intros [[ipl2|] err] s2 [Hk2 Hcase]; pose proof (keeps_trans _ _ _ Hk1 Hk2) as Hk.
  - destruct err as [|]; [done|]. destruct Hcase as [Hhold Hsame]. apply runs_ret.
    split; [done|]. simpl. split; [done|]. split; [done|]. split; [done|]. split; [done|]. left. split.
    + exists ipl2. by repeat split; try apply Hhold.
    + intros v y. rewrite <- Hadd. unfold cached. by rewrite Hsame.
  - apply runs_ret. destruct err as [e|]; (split; [done|]).
    + destruct Hcase as [Hless Hmore]. split; [exists x; intros v y Hy; apply Hless, Hadd in Hy; tauto|].
      intros v y Hy. apply Hmore; [intros [-> ->]; done|]. apply Hadd. by right.
    + simpl. split; [done|]. split; [done|]. split; [done|]. split; [done|]. right.
      destruct Hcase as [Href Hcase]. destruct Hst as (_ & _ & _ & Ew). rewrite Ew in Href.
      split; [by split_and!|]. intros v y. rewrite Hcase, Hadd.
      split; [tauto|]. intros Hy. split; [|auto]. intros [-> ->]. done.
Qed.

(** C8: when [pickAndLockAddress] returns no error it has picked an address of the
    subnet that the cache showed free, and in a block of at least five addresses
    neither of the first two nor the last one; either that address is now in
    the cache and locked on the server by a lock of the attachment, or the server
    refused the lock for good (its last answer was an error other than AlreadyExists whose
    reason is Invalid or whose message says "invalid", not any other error), the
    address is free again and what is returned names it without object and UID.  The
    assumptions are that the create loop does not meet a lock that comes and goes more often
    than [fuel] times, and the range of the block. *)
Theorem pickAndLockAddress_spec fuel r ns name att subnetName vni base last s :
  cache_ok s → rng_ok r → server_settles fuel → 0 ≤ vni ≤ maxVNI →
  is_u32 base → is_u32 last → base ≤ last →
  runs (pickAndLockAddress new_set fuel r ns name att subnetName vni base last) s (λ res s',
    let '(lock, ip, err) := res in
    keeps s s' ∧
    (err = None →
     base ≤ pl_addrU lock ≤ last ∧
     (base + 4 ≤ last → base + 2 ≤ pl_addrU lock ≤ last - 1) ∧
     ¬ cached s vni (pl_addrU lock) ∧ pl_VNI lock = vni ∧ ip = GetIP lock ∧
     ((locked (world s') ns name att lock ∧
       ∀ v y, cached s' v y ↔ (v = vni ∧ y = pl_addrU lock) ∨ cached s v y) ∨
      (unlocked ns name att subnetName (world s) (world s') lock ∧
       ∀ v y, cached s' v y ↔ cached s v y)))).
Proof.
  intros Hok Hr Hset Hv Hb Hl Hle. pose proof (pick_bounds_spec base last Hb Hl Hle) as Hp.
  eapply runs_conseq; [by apply (pickAndLock_runs fuel r ns name att subnetName vni base last)|].
  intros [[lock ip] err] s' (Hk & He). split; [done|]. intros ->.
  destruct (pick_bounds base last) as [lo hi]. simpl in He. destruct He as (Hin & He).
  destruct Hp as (H1 & H2 & _ & _ & H3). split; [lia|]. split; [|done].
  intros H5. destruct (Z.leb_spec 4 (last - base)); lia.
Qed.

(** ** Recording *)

(** The server took a status update of the attachment, and (others apart) no
    other attachment was written. *)
Definition wrote (w w' : W) (att : NetworkAttachment) (errs : list string) (lock : ParsedLock)
    (ip : IP) : Prop :=
  ∃ att3, natts w' !! AttNSN att = Some att3 ∧ updated_as (status_update att errs lock ip) att3 ∧
    (others_quiet → natts w' = <[AttNSN att := att3]> (natts w)).

Lemma wrote_after w1 w2 w3 att errs lock ip :
  natts_kept w1 w2 → wrote w2 w3 att errs lock ip → wrote w1 w3 att errs lock ip.
Proof.
  intros Hk (att3 & ? & ? & Hq). exists att3. split; [done|]. split; [done|]. intros Ho.
  by rewrite (Hq Ho), (Hk Ho).
Qed.

(** The cache loses no address. *)
Definition cache_grows (s s' : St) : Prop := ∀ v y, cached s v y → cached s' v y.

Lemma cache_grows_eq s s' : addrCache s' = addrCache s → cache_grows s s'.
Proof. intros E v y. unfold cached. by rewrite E. Qed.

(** Nothing but the data of one attachment, the cache and the world changes, and the cache
    loses nothing. *)
Definition touches (nsn : NSN) (s s' : St) : Prop :=
  cache_ok s' ∧ queue s' = queue s ∧ (∀ k, k ≠ nsn → atts s' !! k = atts s !! k) ∧ cache_grows s s'.

Lemma touches_trans k s1 s2 s3 : touches k s1 s2 → touches k s2 s3 → touches k s1 s3.
Proof.
  intros (_&?&Ha&Hc) (?&?&Hb&Hd). split; [done|]. split; [congruence|]. split; [intros k' Hk; by rewrite Hb, Ha|].
  intros v y Hy. by apply Hd, Hc.
Qed.

Lemma keeps_touches k s s' : keeps s s' → cache_grows s s' → touches k s s'.
Proof. intros (?&E&?&_) Hg. split; [done|]. split; [done|]. split; [intros; by rewrite E|done]. Qed.

Lemma touches_refl k s : cache_ok s → touches k s s.
Proof. split; [done|]. split; [done|]. split; [done|]. by intros v y. Qed.

Lemma touches_data nsn s s' :
  cache_ok s → addrCache s' = addrCache s → queue s' = queue s → (∀ k, k ≠ nsn → atts s' !! k = atts s !! k) →
  touches nsn s s'.
Proof.
  intros Hok Hc Hq Ha. split; [unfold cache_ok; by rewrite Hc|]. split; [done|]. split; [done|]. by apply cache_grows_eq.
Qed.

Lemma touches_call k s w' : cache_ok s → touches k s (MkState (atts s) (addrCache s) (queue s) w').
Proof. intros Hok. by apply touches_data. Qed.

Lemma runs_read_data nsn d s (Q : NetworkAttachmentData → St → Prop) :
  atts s !! nsn = Some d → Q d s → runs (read_data nsn) s Q.
Proof. intros E HQ. unfold read_data. apply runs_bind, runs_gets. rewrite E. by apply runs_ret. Qed.

Lemma runs_write_data nsn d s (Q : unit → St → Prop) :
  (∀ s', addrCache s' = addrCache s → queue s' = queue s → world s' = world s →
     atts s' = <[nsn := d]> (atts s) → Q tt s') → runs (write_data nsn d) s Q.
Proof. intros HQ. unfold write_data, set_atts. apply runs_modify. by apply HQ. Qed.

(** What the write of a status leaves behind. *)
Lemma updateNAStatus_spec ns name att errs rv lock ip s :
  cache_ok s → is_Some (atts s !! (ns, name)) →
  runs (updateNAStatus ns name att errs rv lock ip) s (λ err s', touches (ns, name) s s' ∧
    (∃ w0, others (world s) w0 ∧ locks (world s') = locks w0) ∧
    ((atts s' = atts s ∧ natts_kept (world s) (world s') ∧
      (err ≠ None ∨ ∃ e, att_Update (status_update att errs lock ip) (world s) = (inl e, world s') ∧
         IsNotFound e = true)) ∨
     (err = None ∧ wrote (world s) (world s') att errs lock ip ∧
      (∃ att3, att_Update (status_update att errs lock ip) (world s) = (inr att3, world s')) ∧
      (errs = [] → ∃ rv3, atts s' !! (ns, name) =
         Some (MkNAData ip (ResourceVersion (na_meta att)) rv3 rv))))).
Proof.
  intros Hok [d Hd]. unfold updateNAStatus. apply runs_bind, runs_call.
  destruct (att_Update_law (status_update att errs lock ip) (world s)) as (w0 & Ho & Hu).
  destruct (att_Update (status_update att errs lock ip) (world s)) as [[e|att3] w1] eqn:Eu; cbn [fst snd] in *.
  - destruct Hu as (Hna & Hl). assert (Hw : ∃ w0, others (world s) w0 ∧ locks w1 = locks w0) by eauto.
    assert (Hk := natts_kept_call _ _ _ Ho Hna).
    destruct (IsNotFound e) eqn:Ee; apply runs_ret; (split; [by apply touches_call|]); (split; [done|]);
      left; (split; [done|]); (split; [done|]); [right; by exists e|by left].
  - destruct Hu as (Hup & Hn & Hl).
    assert (Hwr : wrote (world s) w1 att errs lock ip).
    { exists att3. split; [rewrite Hn; apply lookup_insert_eq|]. split; [done|].
      intros Hq. by rewrite Hn, (Hq _ _ Ho). }
    assert (Hw : ∃ w0, others (world s) w0 ∧ locks w1 = locks w0) by eauto.
    apply runs_bind. case_bool_decide as Herr.
    + apply runs_bind. eapply runs_read_data; [done|]. apply runs_write_data.
      intros s' Hc Hq Hw' Ha. simpl in *. apply runs_ret. rewrite Hw'. split.
      * apply touches_data; [done..|]. intros k Hk. by rewrite Ha, lookup_insert_ne.
      * split; [done|]. right. split; [done|]. split; [done|]. split; [by eexists|]. intros _.
        rewrite Ha, lookup_insert_eq. eauto.
    + apply runs_ret, runs_ret. split; [by apply touches_call|]. split; [done|].
      right. split; [done|]. split; [done|]. split; [by eexists|]. done.
Qed.

(** ** Assigning an address *)

(** A lock object of the attachment that names the lock's address, in the range of
    the subnet. *)
Definition supported (att : NetworkAttachment) (vni base last : Z) (lock : ParsedLock) : Prop :=
  ∃ ipl2, pl_Obj lock = Some ipl2 ∧ pl_UID lock = UID (ipl_meta ipl2) ∧
    (GetOwner (ipl_meta ipl2) "NetworkAttachment").2 = UID (na_meta att) ∧
    parseIPLockName (pl_name lock) = Some (pl_VNI lock, pl_addrU lock) ∧
    pl_VNI lock = vni ∧ base ≤ pl_addrU lock ≤ last.

Lemma locked_supported w ns name att lock base last :
  locked w ns name att lock → base ≤ pl_addrU lock ≤ last →
  supported att (pl_VNI lock) base last lock.
Proof. intros (ipl2 & Ho & [_ Hown] & Hu & _ & Hp) Hr. exists ipl2. by rewrite Hown. Qed.

(** What a status write may record, which ended in the world [w']: the errors; without errors
    a lock that supports the address, or, when the server had just refused
    the lock for good, an address of the subnet with no lock. *)
Inductive recorded (ns name : string) (att : NetworkAttachment) (a : Analysis) (w' : W) :
    ParsedLock → IP → Prop :=
| rec_errors : a_statusErrs a ≠ [] → recorded ns name att a w' (a_lockForStatus a) []
| rec_lock lock : a_statusErrs a = [] →
    supported att (a_VNI a) (a_base a) (a_last a) lock → recorded ns name att a w' lock (GetIP lock)
| rec_refused w1 w2 att3 lock : a_statusErrs a = [] →
    unlocked ns name att (a_subnetName a) w1 w2 lock →
    pl_VNI lock = a_VNI a → a_base a ≤ pl_addrU lock ≤ a_last a →
    att_Update (status_update att [] lock (GetIP lock)) w2 = (inr att3, w') →
    recorded ns name att a w' lock (GetIP lock).

(** Why no status is written: an error, which is returned; an address in anticipation, whose
    write the informer does not show yet; or an attachment that is gone. *)
Inductive unwritten (ns name : string) (att : NetworkAttachment) (err : option error) (s' : St) : Prop :=
| uw_error : err ≠ None → unwritten ns name att err s'
| uw_anticipated d : atts s' !! (ns, name) = Some d → anticipatedIPv4 d ≠ [] →
    unwritten ns name att err s'
| uw_gone sent w2 e : AttNSN sent = AttNSN att → att_Update sent w2 = (inl e, world s') →
    IsNotFound e = true → unwritten ns name att err s'.

(** What processing an attachment does to the attachments on the server: one recorded status of
    that attachment, or nothing, with the reason. *)
Inductive outcome (ns name : string) (att : NetworkAttachment) (a : Analysis) (w : W)
    (err : option error) (s' : St) : Prop :=
| out_kept : natts_kept w (world s') → unwritten ns name att err s' → outcome ns name att a w err s'
| out_wrote lock ip : err = None →
    wrote w (world s') att (a_statusErrs a) lock ip → recorded ns name att a (world s') lock ip →
    outcome ns name att a w err s'.

Lemma outcome_after ns name att a w1 w2 err s' :
  natts_kept w1 w2 → outcome ns name att a w2 err s' → outcome ns name att a w1 err s'.
Proof.
  intros Hk [? Hu|lock ip He Hw Hr]; [apply out_kept; [by eapply natts_kept_trans|done]|].
  eapply out_wrote; [done|by eapply wrote_after|done].
Qed.

Lemma outcome_error ns name att a w err s' :
  outcome ns name att a w err s' → err ≠ None → natts_kept w (world s').
Proof. by intros [?|??]. Qed.

(** The analysis as [assign] relies on it. *)
Definition analysis_ok (att : NetworkAttachment) (a : Analysis) : Prop :=
  (a_statusErrs a = [] →
     0 ≤ a_VNI a ≤ maxVNI ∧ is_u32 (a_base a) ∧ is_u32 (a_last a) ∧ a_base a ≤ a_last a) ∧
  (pl_Obj (a_lockForStatus a) = None ∨
   supported att (a_VNI a) (a_base a) (a_last a) (a_lockForStatus a)).

Lemma GetIP_not_nil lock ip : GoNet.Equal (GetIP lock) ip = true → ip ≠ [].
Proof.
  intros E ->. unfold GoNet.Equal, GetIP in E. rewrite Uint32ToIPv4_bytes in E. simpl in E.
  by rewrite ?andb_false_r in E.
Qed.

(** The write of a status, after [s]. *)
Lemma update_outcome ns name att a s s1 lock ip :
  touches (ns, name) s s1 → natts_kept (world s) (world s1) → is_Some (atts s1 !! (ns, name)) →
  (∀ w' att3, att_Update (status_update att (a_statusErrs a) lock ip) (world s1) = (inr att3, w') →
     recorded ns name att a w' lock ip) →
  runs (updateNAStatus ns name att (a_statusErrs a) (a_subnetRV a) lock ip) s1
    (λ err s', touches (ns, name) s s' ∧ outcome ns name att a (world s) err s').
Proof.
  intros Ht Hk Hs1 Hrec. eapply runs_conseq; [apply updateNAStatus_spec; [apply Ht|done]|].
  intros err s' (Ht' & _ & He). split; [by eapply touches_trans|].
  destruct He as [(_ & Hk' & Hw)|(-> & Hw & [att3 Hu] & _)].
  - apply out_kept; [by eapply natts_kept_trans|]. destruct Hw as [?|(e & Eu & Ee)]; [by apply uw_error|].
    by eapply uw_gone; [|exact Eu|].
  - eapply out_wrote; [done|by eapply wrote_after|by eapply Hrec].
Qed.

(** Assigning an address writes the status of its attachment, with errors, with a
    supporting lock of the attachment in the range of the subnet, or with an address whose
    lock the server refused for good; or it writes none, for a reason. *)
Lemma assign_spec fuel r ns name att a s :
  cache_ok s → rng_ok r → server_settles fuel → is_Some (atts s !! (ns, name)) →
  analysis_ok att a →
  runs (assign new_set fuel r ns name att a) s (λ err s', touches (ns, name) s s' ∧
    outcome ns name att a (world s) err s').
Proof.
  intros Hok Hr Hset [d Hd] [Hrange Hlock]. unfold assign. apply runs_bind.
  eapply runs_read_data; [done|].
  assert (Hant : anticipatedIPv4 d ≠ [] → runs (mret None) s (λ err s', touches (ns, name) s s' ∧
    outcome ns name att a (world s) err s')).
  { intros Hne. apply runs_ret. split; [by apply touches_refl|].
    apply out_kept; [apply natts_kept_refl|by eapply uw_anticipated]. }
  assert (Hupd := λ lock ip, update_outcome ns name att a s s lock ip (touches_refl _ _ Hok)
    (natts_kept_refl _) (mk_is_Some _ _ Hd)).
  destruct (a_statusErrs a) as [|e0 errs] eqn:Ee.
  2: { apply Hupd. intros w' att3 _. apply rec_errors. by rewrite Ee. }
  destruct (Hrange eq_refl) as (Hv & Hb & Hl & Hle). destruct (pl_Obj (a_lockForStatus a)) as [ipl|] eqn:Eo.
  - destruct Hlock as [|Hsup]; [done|]. destruct (GoNet.Equal _ _) eqn:Eq.
    { apply Hant. by eapply GetIP_not_nil. }
    apply Hupd. intros w' att3 _. by apply rec_lock.
  - case_bool_decide as Hne; simpl; [|by apply Hant].
    apply runs_bind. eapply runs_conseq.
    { by apply (pickAndLock_runs fuel r ns name att (a_subnetName a) (a_VNI a) (a_base a) (a_last a) s). }
    intros [[lock ip] err] s1 [Hk Hres]. pose proof Hk as (_ & Ha1 & _ & Hkn). destruct err as [e|].
    { destruct Hres as [_ Hg]. apply runs_ret. split; [by apply keeps_touches|]. by apply out_kept, uw_error. }
    destruct Hres as (Hpb & _ & Ev & -> & Hcase).
    assert (Hg : cache_grows s s1) by (intros v y Hy; destruct Hcase as [[_ Hc]|[_ Hc]]; apply Hc; auto).
    pose proof (pick_bounds_spec _ _ Hb Hl Hle) as Hp. destruct (pick_bounds _ _) as [lo hi]. simpl in *.
    assert (Hin : a_base a ≤ pl_addrU lock ≤ a_last a) by lia.
    rewrite <- Ee. apply update_outcome; [by apply keeps_touches|done|rewrite Ha1; by eauto|].
    rewrite Ee. intros w' att3 Hu. destruct Hcase as [[Hlk _]|[Hun _]].
    + apply rec_lock; [done|]. rewrite <- Ev. by eapply locked_supported.
    + by eapply rec_refused.
Qed.

(** ** Sorting the locks of an attachment *)

Section Sorting.
Variables (att : option NetworkAttachment) (vni base last : Z).

(** The lock names an address of the subnet. *)
Definition desired (y : ParsedLock) : Prop := pl_VNI y = vni ∧ base ≤ pl_addrU y ≤ last.

(** The lock is owned by this edition of the attachment; any lock will do for an
    attachment that is gone. *)
Definition owned (ipl : IPLock) : Prop :=
  match att with
  | Some a => (GetOwner (ipl_meta ipl) "NetworkAttachment").2 = UID (na_meta a)
  | None => True
  end.

Definition in_status (y : ParsedLock) : Prop :=
  ∃ a, att = Some a ∧ pl_UID y = LockUID (na_Status a) ∧ StatusIPv4 (na_Status a) ≠ "" ∧
    StatusIPv4 (na_Status a) = IP_String (GetIP y).

(** The parsed locks of [ls] that are owned. *)
Definition owned_lock (ls : list IPLock) (y : ParsedLock) : Prop :=
  ∃ ipl, ipl ∈ ls ∧ NewParsedLock ipl = Some y ∧ owned ipl.

Definition lock_uid (ipl : IPLock) : string := UID (ipl_meta ipl).

(** The sorting of the locks [ls]. *)
Record sorted_locks (ls : list IPLock) (x : Sorted) : Prop := SortedLocks {
  so_usable y : y ∈ usableLocks x ↔ owned_lock ls y ∧ desired y;
  so_undesired y : y ∈ undesiredLocks x ↔ owned_lock ls y ∧ ¬ desired y;
  so_status : pl_Obj (lockInStatus x) = None ∨
    (lockInStatus x ∈ usableLocks x ∧ in_status (lockInStatus x));
  so_seen z : z ∈ considered x ↔ ∃ ipl y, ipl ∈ ls ∧ NewParsedLock ipl = Some y ∧ pl_addrU y = z;
  so_nodup : NoDup (lock_uid <$> ls) → NoDup (lock_key <$> usableLocks x) }.

Lemma NewParsedLock_inv ipl y :
  NewParsedLock ipl = Some y →
  pl_Obj y = Some ipl ∧ pl_UID y = UID (ipl_meta ipl) ∧ pl_name y = Name (ipl_meta ipl) ∧
  pl_ns y = Namespace (ipl_meta ipl) ∧
  parseIPLockName (pl_name y) = Some (pl_VNI y, pl_addrU y).
Proof.
  unfold NewParsedLock. intros ([v z] & E & [= <-])%bind_Some. by repeat split.
Qed.

Lemma sorted_nil : sorted_locks [] sorted0.
Proof.
  assert (Hno : ∀ y, ¬ owned_lock [] y) by (intros y (?&?%elem_of_nil&_); done).
  split; simpl; [intros y; rewrite elem_of_nil; naive_solver..|by left| |by constructor].
  intros z. split; [set_solver|]. by intros (?&?&?%elem_of_nil&_).
Qed.

Lemma owned_lock_snoc ls ipl y :
  owned_lock (ls ++ [ipl]) y ↔ owned_lock ls y ∨ (NewParsedLock ipl = Some y ∧ owned ipl).
Proof.
  unfold owned_lock. setoid_rewrite elem_of_app. setoid_rewrite list_elem_of_singleton. split.
  - intros (i & [?| ->] & ?); [left|right]; eauto.
  - intros [(i & ? & ?)|?]; eauto.
Qed.

Lemma seen_snoc ls ipl p z (seen : gset Z) :
  NewParsedLock ipl = Some p →
  (z ∈ seen ↔ ∃ i y, i ∈ ls ∧ NewParsedLock i = Some y ∧ pl_addrU y = z) →
  z ∈ {[pl_addrU p]} ∪ seen ↔
  ∃ i y, i ∈ ls ++ [ipl] ∧ NewParsedLock i = Some y ∧ pl_addrU y = z.
Proof.
  intros Hp Hs. rewrite elem_of_union, elem_of_singleton, Hs.
  setoid_rewrite elem_of_app. setoid_rewrite list_elem_of_singleton. split.
  - intros [->|(i & y & ? & ?)]; [exists ipl, p; auto|eauto].
  - intros (i & y & [?| ->] & ? & ?); [right; eauto|left]. by simplify_eq.
Qed.

Lemma desired_dec y :
  negb (pl_VNI y =? vni) || (pl_addrU y <? base) || (last <? pl_addrU y) = false ↔ desired y.
Proof.
  unfold desired. rewrite !orb_false_iff, negb_false_iff, Z.eqb_eq, !Z.ltb_ge. tauto.
Qed.

Lemma classic_desired y : desired y ∨ ¬ desired y.
Proof. rewrite <- desired_dec. destruct (negb _ || _ || _); auto. Qed.

Lemma in_status_dec a y :
  att = Some a →
  String.eqb (pl_UID y) (LockUID (na_Status a)) && negb (String.eqb (StatusIPv4 (na_Status a)) "") &&
  String.eqb (StatusIPv4 (na_Status a)) (IP_String (GetIP y)) = true → in_status y.
Proof.
  intros Ha. rewrite !andb_true_iff, negb_true_iff, !String.eqb_eq, String.eqb_neq.
  intros [[??]?]. by exists a.
Qed.

Lemma consider_sorted ls ipl x :
  sorted_locks ls x → sorted_locks (ls ++ [ipl]) (consider att vni base last ipl x).
Proof.
  intros [Hu Hd Hs Hseen Hnd]. unfold consider.
  assert (Hnd' : NoDup (lock_uid <$> ls ++ [ipl]) → NoDup (lock_key <$> usableLocks x)).
  { rewrite fmap_app. intros [? _]%NoDup_app. by apply Hnd. } destruct (NewParsedLock ipl) as [p|] eqn:Hp.
  2: { split; [intros y; rewrite ?Hu, ?Hd, owned_lock_snoc, Hp; naive_solver..|done| |done].
       intros z. rewrite Hseen. setoid_rewrite elem_of_app. setoid_rewrite list_elem_of_singleton.
       split; [naive_solver|]. intros (i & y & [?| ->] & ? & ?); [eauto|congruence]. }
  assert (Hseen' := λ z, seen_snoc ls ipl p z _ Hp (Hseen z)).
  assert (Hown : (match att with
    | Some a => negb (String.eqb (GetOwner (ipl_meta ipl) "NetworkAttachment").2 (UID (na_meta a)))
    | None => false end) = false ↔ owned ipl).
  { unfold owned. destruct att; [|done]. by rewrite negb_false_iff, String.eqb_eq. }
  assert (Hsn : ∀ y, owned_lock (ls ++ [ipl]) y ↔ owned_lock ls y ∨ (y = p ∧ owned ipl)).
  { intros y. rewrite owned_lock_snoc, Hp. naive_solver. }
  destruct (match att with Some _ => _ | None => false end) eqn:Eo.
  { assert (¬ owned ipl) by (intros ?%Hown; done).
    split; simpl; [intros y; rewrite ?Hu, ?Hd, Hsn; naive_solver..|done|done|done]. }
  clear Eo. assert (owned ipl) as Eo by by apply Hown. pose proof (desired_dec p) as Hdd.
  destruct (negb _ || _ || _).
  { assert (Hnp : ¬ desired p) by (intros ?%Hdd; done).
    split; simpl; [| |done|done|done]; intros y; rewrite Hsn; unfold Append;
      rewrite ?elem_of_app, ?list_elem_of_singleton, ?Hu, ?Hd; naive_solver. }
  apply proj1 in Hdd. specialize (Hdd eq_refl).
  split; simpl; [| | |done|].
  - intros y. rewrite Hsn. unfold Append. rewrite elem_of_app, list_elem_of_singleton, Hu. naive_solver.
  - intros y. rewrite Hsn, Hd. naive_solver.
  - unfold Append. setoid_rewrite elem_of_app. setoid_rewrite list_elem_of_singleton.
    destruct att as [a|] eqn:Ea; [|by destruct Hs as [?|[? ?]]; auto].
    destruct (String.eqb _ _ && _ && _) eqn:Es; [|by destruct Hs as [?|[? ?]]; auto].
    right. split; [by right|]. by apply (in_status_dec a).
  - intros Hn. unfold Append. rewrite fmap_app. apply NoDup_app. split; [by apply Hnd'|].
    split; [|apply NoDup_singleton]. intros k (y & -> & Hy)%list_elem_of_fmap Hk.
    simpl in Hk. apply list_elem_of_singleton in Hk. injection Hk as _ Hk _ _.
    apply Hu in Hy as [(i & Hi & Hpi & _) _]. apply NewParsedLock_inv in Hp as (_&Eu&_), Hpi as (_&Eui&_).
    rewrite fmap_app in Hn. apply NoDup_app in Hn as (_ & Hn & _). apply (Hn (lock_uid i)).
    + by apply list_elem_of_fmap_2.
    + apply list_elem_of_singleton. unfold lock_uid. congruence.
Qed.

Lemma consider_all ls : sorted_locks ls (foldl (λ x ipl, consider att vni base last ipl x) sorted0 ls).
Proof.
  assert (Hgen : ∀ l0 x, sorted_locks l0 x →
    sorted_locks (l0 ++ ls) (foldl (λ x ipl, consider att vni base last ipl x) x ls)).
  { induction ls as [|ipl ls IH]; intros l0 x Hx; [by rewrite app_nil_r|].
    rewrite (cons_middle ipl l0 ls), app_assoc. by apply IH, consider_sorted. }
  apply (Hgen []), sorted_nil.
Qed.

(** The lock in the status is found when a usable lock is it. *)
Definition found_status (x : Sorted) : Prop :=
  ∀ y, y ∈ usableLocks x → in_status y → is_Some (pl_Obj (lockInStatus x)).

Lemma in_status_true a y :
  att = Some a → in_status y →
  String.eqb (pl_UID y) (LockUID (na_Status a)) && negb (String.eqb (StatusIPv4 (na_Status a)) "") &&
  String.eqb (StatusIPv4 (na_Status a)) (IP_String (GetIP y)) = true.
Proof.
  intros Ea (a' & Ea' & Eu & Hne & Ei). assert (a' = a) as -> by congruence.
  rewrite Eu, <- Ei, !String.eqb_refl. by destruct (String.eqb_spec (StatusIPv4 (na_Status a)) "").
Qed.

Lemma consider_found ipl x : found_status x → found_status (consider att vni base last ipl x).
Proof.
  unfold found_status. intros Hx. unfold consider. destruct (NewParsedLock ipl) as [p|] eqn:Hp; [|done].
  apply NewParsedLock_inv in Hp as (Hobj & _).
  destruct (match att with Some a => _ | None => false end); [done|].
  destruct (negb _ || _ || _); [done|]. intros y. cbn [usableLocks lockInStatus]. unfold Append.
  rewrite elem_of_app, list_elem_of_singleton. intros Hy Hst. pose proof Hst as (a & Ea & _).
  pose proof (in_status_true a) as Hb. revert Hx Hb Hst. rewrite Ea. intros Hx Hb Hst.
  destruct Hy as [Hy| ->].
  - destruct (String.eqb _ _ && _ && _); [rewrite Hobj; eauto|by apply (Hx y)].
  - rewrite Hb by done. rewrite Hobj. eauto.
Qed.

Lemma consider_all_found ls :
  found_status (foldl (λ x ipl, consider att vni base last ipl x) sorted0 ls).
Proof.
  assert (Hgen : ∀ x, found_status x →
    found_status (foldl (λ x ipl, consider att vni base last ipl x) x ls)).
  { induction ls as [|ipl ls IH]; intros x Hx; [done|]. by apply IH, consider_found. }
  apply Hgen. by intros y ?%elem_of_nil.
Qed.

(** The lock that is kept: the one in the status if it is good, else the best. *)
Definition kept (x : Sorted) : ParsedLock :=
  match pl_Obj (lockInStatus x) with Some _ => lockInStatus x | None => Best (usableLocks x) end.

(** The locks that are given up. *)
Definition to_release (x : Sorted) : ParsedLockList :=
  (AddListFunc (undesiredLocks x) (choose_lock att x).2).1.

Lemma owned_lock_obj ls y : owned_lock ls y → is_Some (pl_Obj y).
Proof. intros (ipl & _ & Hp & _). apply NewParsedLock_inv in Hp as [-> _]. eauto. Qed.

(** For an attachment that exists, what is given up are the owned locks other than the one kept. *)
Lemma to_release_spec a ls x :
  att = Some a → sorted_locks ls x → NoDup (lock_uid <$> ls) →
  ∀ y, Has (to_release x) y = true ↔
    ∃ z, IpLock.Equal z y = true ∧ owned_lock ls z ∧ ¬ (desired z ∧ IpLock.Equal z (kept x) = true).
Proof.
  intros Ha Hx Hnd y. pose proof (so_nodup _ _ Hx Hnd) as Hndk. unfold to_release.
  pose proof (AddListFunc_spec (undesiredLocks x) (choose_lock att x).2) as Hun.
  destruct (AddListFunc _ _) as [w d]. destruct Hun as (Hw & _). simpl. rewrite Hw. clear Hw.
  assert (Hin : ∀ l, Has l y = true ↔ ∃ z, z ∈ l ∧ IpLock.Equal z y = true).
  { intros l. unfold Has. rewrite existsb_exists. setoid_rewrite list_elem_of_In. done. }
  assert (Hrest : ∀ v, Has (choose_lock att x).2 v = true ↔
    Has (usableLocks x) v = true ∧ IpLock.Equal v (kept x) = false).
  { intros v. rewrite Ha. unfold choose_lock, kept. destruct (pl_Obj (lockInStatus x)) eqn:Eo.
    - pose proof (RemFunc_spec _ (lockInStatus x) Hndk) as Hr. destruct (RemFunc _ _). apply Hr.
    - destruct (usableLocks x) as [|u us] eqn:Eu; [by split; [|intros [? _]]|].
      pose proof (RemFunc_spec _ (Best (u :: us)) Hndk) as Hr. destruct (RemFunc _ _). apply Hr. }
  rewrite Hrest, !Hin. setoid_rewrite (so_undesired _ _ Hx). setoid_rewrite (so_usable _ _ Hx). split.
  - intros [(z & (? & Hn) & ?)|((z & (? & ?) & Hzy) & Hk)].
    + exists z. split; [done|]. split; [done|]. tauto.
    + exists z. split; [done|]. split; [done|]. intros [_ Hzk]. apply not_true_iff_false in Hk.
      apply Hk. apply Equal_key in Hzy, Hzk. apply Equal_key. congruence.
  - intros (z & Hzy & Ho & Hn). destruct (classic_desired z) as [Hd|Hd]; [|left; eauto].
    right. split; [eauto|]. apply not_true_iff_false. intros Hk. apply Hn. split; [done|].
    apply Equal_key in Hzy, Hk. apply Equal_key. congruence.
Qed.

(** An attachment that is gone gives up every lock found for it. *)
Lemma to_release_all ls x ipl y :
  att = None → sorted_locks ls x → NoDup (lock_uid <$> ls) →
  ipl ∈ ls → NewParsedLock ipl = Some y → y ∈ to_release x.
Proof.
  intros Ha Hx Hnd Hin Hp.
  assert (Hown : owned_lock ls y) by (exists ipl; unfold owned; by rewrite Ha).
  assert (Hl : ∀ z, z ∈ to_release x → owned_lock ls z).
  { intros z [Hz|Hz]%AddListFunc_elem.
    - by apply (so_undesired _ _ Hx) in Hz as [? _].
    - rewrite Ha in Hz. by apply (so_usable _ _ Hx) in Hz as [? _]. }
  assert (Hh : Has (to_release x) y = true).
  { unfold to_release. pose proof (AddListFunc_spec (undesiredLocks x) (choose_lock att x).2) as Hu.
    destruct (AddListFunc _ _) as [w d]. apply Hu. rewrite Ha. simpl. rewrite !Has_keys.
    destruct (classic_desired y); [right|left]; apply list_elem_of_fmap_2.
    - by apply (so_usable _ _ Hx).
    - by apply (so_undesired _ _ Hx). }
  unfold Has in Hh. apply existsb_exists in Hh as (z & Hz%list_elem_of_In & Ez%Equal_key).
  destruct (Hl z Hz) as (i & Hi & Hpi & _). injection Ez as _ Eu _ _.
  pose proof (NewParsedLock_inv _ _ Hp) as (_ & Eu1 & _). pose proof (NewParsedLock_inv _ _ Hpi) as (_ & Eu2 & _).
  assert (i = ipl) as ->; [|by simplify_eq].
  apply list_elem_of_lookup in Hin as [k1 Hk1], Hi as [k2 Hk2].
  assert (k1 = k2) as ->; [|by simplify_eq].
  eapply (NoDup_lookup _ _ _ (lock_uid ipl) Hnd); rewrite list_lookup_fmap.
  - by rewrite Hk1.
  - rewrite Hk2. simpl. f_equal. unfold lock_uid. congruence.
Qed.

End Sorting.

(** ** Releasing locks *)

(** The lock object of a parsed lock is not on the server any more. *)
Definition released (w : W) (y : ParsedLock) : Prop :=
  ∀ ipl, locks w !! (pl_ns y, pl_name y) = Some ipl → UID (ipl_meta ipl) ≠ pl_UID y.

(** UIDs are unique over time: [issued w] are those the server has given so far.  Others may
    create locks, but only under new UIDs: what they leave under a UID that was
    issued has been there, under the same key. *)
Record uids_unique (issued : W → string → Prop) : Prop := UidsUnique {
  uu_grows w w' u : others w w' → issued w u → issued w' u;
  uu_get ns name w u : issued w u → issued (lock_Get ns name w).2 u;
  uu_delete ns name uid w u : issued w u → issued (lock_Delete ns name uid w).2 u;
  uu_same w w' k ipl : others w w' → locks w' !! k = Some ipl → issued w (lock_uid ipl) →
    ∃ ipl0, locks w !! k = Some ipl0 ∧ lock_uid ipl0 = lock_uid ipl }.

(** Once a lock is gone, it stays gone while others act. *)
Lemma released_others issued w w' y :
  uids_unique issued → others w w' → issued w (pl_UID y) → released w y → released w' y.
Proof.
  intros Hu Ho Hi Hr ipl Hl E. destruct (uu_same _ Hu _ _ _ _ Ho Hl) as (ipl0 & Hl0 & E0).
  - unfold lock_uid. by rewrite E.
  - apply (Hr ipl0 Hl0). unfold lock_uid in E0. congruence.
Qed.

Lemma delete_keeps_released w w' k y :
  locks w' = delete k (locks w) → released w y → released w' y.
Proof.
  intros E Hr ipl. rewrite E. intros [_ ?]%lookup_delete_Some. by apply Hr.
Qed.

(** From [w] to [w'] issued UIDs stay issued, and released locks of such UIDs released. *)
Definition stays_released (issued : W → string → Prop) (w w' : W) : Prop :=
  (∀ u, issued w u → issued w' u) ∧
  ∀ z, issued w (pl_UID z) → released w z → released w' z.

Lemma stays_released_trans issued w1 w2 w3 :
  stays_released issued w1 w2 → stays_released issued w2 w3 → stays_released issued w1 w3.
Proof. intros [I1 R1] [I2 R2]. split; auto. Qed.

Lemma get_stays_released issued ns n w :
  uids_unique issued → stays_released issued w (lock_Get ns n w).2.
Proof.
  intros Hu. split; [intros u; by apply uu_get|]. intros z Hi Hr.
  destruct (lock_Get_law ns n w) as (w0 & Ho & Hg). pose proof (released_others _ _ _ _ Hu Ho Hi Hr) as Hr0.
  intros ipl. destruct (lock_Get ns n w) as [[e|l] w1]; simpl; destruct Hg as (_ & -> & _); by apply Hr0.
Qed.

(** The request to delete a lock fails, and not because the lock is gone. *)
Definition delete_fails (y : ParsedLock) (w : W) (e : error) : Prop :=
  (lock_Delete (pl_ns y) (pl_name y) (pl_UID y) w).1 = Some e ∧ IsNotFound e || IsGone e = false.

Lemma deleteIPLockObject_spec y s :
  cache_ok s →
  runs (deleteIPLockObject y) s (λ err s', keeps s s' ∧ addrCache s' = addrCache s ∧
    world s' = (lock_Delete (pl_ns y) (pl_name y) (pl_UID y) (world s)).2 ∧
    match err with
    | None => ∀ ipl, locks (world s') !! (pl_ns y, pl_name y) ≠ Some ipl
    | Some e => delete_fails y (world s) e
    end ∧
    ∀ issued, uids_unique issued → stays_released issued (world s) (world s')).
Proof.
  intros Hok. unfold deleteIPLockObject. apply runs_bind, runs_call.
  destruct (lock_Delete_law (pl_ns y) (pl_name y) (pl_UID y) (world s)) as (w0 & Ho & Hd).
  assert (Hst : ∀ issued, uids_unique issued →
    stays_released issued (world s) (lock_Delete (pl_ns y) (pl_name y) (pl_UID y) (world s)).2).
  { intros issued Hu. split; [intros u; by apply uu_delete|]. intros z Hi Hz.
    pose proof (released_others _ _ _ _ Hu Ho Hi Hz) as Hz0. destruct (lock_Delete _ _ _ (world s)) as [[e|] w1].
    - destruct Hd as (_ & El & _). intros ipl. simpl. rewrite El. apply Hz0.
    - destruct Hd as (_ & El & _). by eapply delete_keeps_released. }
  unfold delete_fails. destruct (lock_Delete _ _ _ (world s)) as [oe w1]; cbn [fst snd] in *.
  assert (Hk : keeps s (MkState (atts s) (addrCache s) (queue s) w1)).
  { apply keeps_world; [done|]. eapply natts_kept_call; [done|]. by destruct oe; apply Hd. }
  destruct oe as [e|].
  - destruct (IsNotFound e || IsGone e) eqn:Ee; apply runs_ret; split_and!; try done.
    intros ipl. simpl. destruct Hd as (Hn & -> & _). by rewrite Hn.
  - apply runs_ret. split_and!; try done. intros ipl. simpl. destruct Hd as (_ & -> & _).
    by rewrite lookup_delete_eq.
Qed.

(** The delete requests that lead from one world to another, in order. *)
Fixpoint deletions (l : list ParsedLock) (w : W) : W :=
  match l with
  | [] => w
  | y :: l => deletions l (lock_Delete (pl_ns y) (pl_name y) (pl_UID y) w).2
  end.

(** The series ends with all requests made, or with one that failed. *)
Definition stopped (given rest : list ParsedLock) (w : W) (err : option error) : Prop :=
  match err with
  | None => rest = []
  | Some e => ∃ init y, given = init ++ [y] ∧ delete_fails y (deletions init w) e
  end.

Lemma delete_locks_runs l s :
  cache_ok s →
  runs (delete_locks l) s (λ err s', keeps s s' ∧ addrCache s' = addrCache s ∧
    (∃ given rest, l = given ++ rest ∧ world s' = deletions given (world s) ∧ stopped given rest (world s) err) ∧
    ∀ issued, uids_unique issued → stays_released issued (world s) (world s') ∧
       (err = None → ∀ y, y ∈ l → issued (world s) (pl_UID y) → released (world s') y)).
Proof.
  revert s. induction l as [|y l IH]; intros s Hok; simpl.
  - apply runs_ret. split; [by apply keeps_refl|]. split; [done|]. split; [by exists [], []|].
    intros issued _. split; [by split|]. by intros _ ? ?%elem_of_nil.
  - apply runs_bind. eapply runs_conseq; [by apply deleteIPLockObject_spec|].
    intros err s1 (Hk1 & Hc1 & Hw1 & Hd1 & H1). destruct err as [e|].
    + apply runs_ret. split; [done|]. split; [done|].
      split; [exists [y], l; split_and!; [done..|by exists [], y]|]. intros issued Hu. split; [by apply H1|done].
    + eapply runs_conseq; [apply IH, Hk1|]. intros err s2 (Hk2 & Hc2 & (d & r & -> & Hw2 & Hr) & H2).
      split; [by eapply keeps_trans|]. split; [congruence|].
      split.
      { exists (y :: d), r. simpl. rewrite Hw2, Hw1. split_and!; [done..|]. destruct err as [e|]; [|done].
        destruct Hr as (init & z & -> & Hz). exists (y :: init), z. simpl. by rewrite <- Hw1. }
      intros issued Hu.
      destruct (H2 issued Hu) as [Hp2 Hr2]. pose proof (H1 issued Hu) as Hp1.
      split; [by eapply stays_released_trans|]. intros -> z [->|Hz]%elem_of_cons Hi.
      * apply Hp2; [by apply Hp1|]. intros ipl Hl. by destruct (Hd1 ipl).
      * apply Hr2; [done..|]. by apply Hp1.
Qed.

(** ** Analysing an attachment *)

(** The address in the status, if it parses, is an IPv4 one (the controller writes
    no other). *)
Definition status_ipv4 (att : option NetworkAttachment) : Prop :=
  ∀ a, att = Some a → ParseIP (StatusIPv4 (na_Status a)) ≠ [] →
    To4 (ParseIP (StatusIPv4 (na_Status a))) ≠ [].

Lemma four_bytes (ip : IP) : To4 ip ≠ [] → ∃ a b c d, To4 ip = [a; b; c; d].
Proof.
  intros Hne. pose proof (To4_length _ Hne) as Hl. destruct (To4 ip) as [|a l]; [done|].
  destruct l as [|b l]; [done|]. destruct l as [|c l]; [done|]. destruct l as [|d l]; [done|].
  destruct l; [|done]. eauto.
Qed.

Lemma IPv4ToUint32_ok ip : To4 ip ≠ [] → ∃ x, IPv4ToUint32 ip = Ok x.
Proof.
  intros (a & b & c & d & E)%four_bytes. unfold IPv4ToUint32, ipv4ToUint32. rewrite E. eauto.
Qed.

Lemma makeIPLockName2_ok vni ip : To4 ip ≠ [] → ∃ n, makeIPLockName2 vni ip = Ok n.
Proof. intros (a & b & c & d & E)%four_bytes. unfold makeIPLockName2. rewrite E. eauto. Qed.

Lemma runs_lift {A} (m : res A) (x : A) s (Q : A → St → Prop) :
  m = Ok x → Q x s → runs (lift m) s Q.
Proof. intros -> HQ. done. Qed.

(** The lock of the address in the status is fetched from the server, when that address is
    not among those of the locks [ls]; it counts if it belongs to the name. *)
Definition fetched (name : string) (r : error + IPLock) : list IPLock :=
  match r with
  | inr ipl => if String.eqb (GetOwner (ipl_meta ipl) "NetworkAttachment").1 name then [ipl] else []
  | inl _ => []
  end.

Inductive looked_up (ns name : string) (a : NetworkAttachment) (vni : Z) (ls : list IPLock) (w : W) :
    list IPLock → W → Prop :=
| no_look :
    (let ip := ParseIP (StatusIPv4 (na_Status a)) in
     StatusIPv4 (na_Status a) = "" ∨ ip = [] ∨
     ∃ ipl y, ipl ∈ ls ∧ NewParsedLock ipl = Some y ∧ IPv4ToUint32 ip = Ok (pl_addrU y)) →
    looked_up ns name a vni ls w [] w
| look n : StatusIPv4 (na_Status a) ≠ "" →
    makeIPLockName2 vni (ParseIP (StatusIPv4 (na_Status a))) = Ok n →
    looked_up ns name a vni ls w (fetched name (lock_Get ns n w).1) (lock_Get ns n w).2.

Lemma looked_up_stays issued ns name a vni ls w more w' :
  uids_unique issued → looked_up ns name a vni ls w more w' → stays_released issued w w'.
Proof. intros Hu [_|n _ _]; [by split|by apply get_stays_released]. Qed.

Lemma consider_status_spec ns name att vni base last ls x s :
  cache_ok s → status_ipv4 att → sorted_locks att vni base last ls x → found_status att x →
  runs (consider_status ns name att vni base last x) s (λ x' s', keeps s s' ∧
    addrCache s' = addrCache s ∧ ∃ more, (att = None → more = [] ∧ world s' = world s) ∧
    (∀ a, att = Some a → looked_up ns name a vni ls (world s) more (world s')) ∧
    sorted_locks att vni base last (ls ++ more) x' ∧ found_status att x').
Proof.
  intros Hok Hst Hx Hfound. unfold consider_status.
  assert (Hret : (∀ a, att = Some a → looked_up ns name a vni ls (world s) [] (world s)) →
    runs (mret x : M St _) s (λ x' s', keeps s s' ∧
    addrCache s' = addrCache s ∧ ∃ more, (att = None → more = [] ∧ world s' = world s) ∧
    (∀ a, att = Some a → looked_up ns name a vni ls (world s) more (world s')) ∧
    sorted_locks att vni base last (ls ++ more) x' ∧ found_status att x')).
  { intros Hl. apply runs_ret. split; [by apply keeps_refl|]. split; [done|]. exists []. by rewrite app_nil_r. }
  destruct att as [a|] eqn:Ea; [|by apply Hret].
  destruct (String.eqb_spec (StatusIPv4 (na_Status a)) "") as [|Hne].
  { apply Hret. intros ? [= <-]. apply no_look. by left. }
  case_bool_decide as Hnil; [apply Hret; intros ? [= <-]; apply no_look; by right; left|].
  specialize (Hst a eq_refl Hnil).
  destruct (IPv4ToUint32_ok _ Hst) as [u Eu]. apply runs_bind. eapply runs_lift; [done|].
  case_bool_decide as Hin.
  { apply Hret. intros ? [= <-]. apply no_look. right. right.
    apply (so_seen _ _ _ _ _ _ Hx) in Hin as (ipl & y & ? & ? & <-). by exists ipl, y. }
  destruct (makeIPLockName2_ok vni _ Hst) as [n En]. apply runs_bind. eapply runs_lift; [done|].
  apply runs_bind, runs_call. destruct (lock_Get_law ns n (world s)) as (w0 & Ho & Hg).
  pose proof (look ns name a vni ls (world s) n Hne En) as Hlook.
  destruct (lock_Get ns n (world s)) as [r w1]; cbn [fst snd] in *.
  assert (Hk : keeps s (MkState (atts s) (addrCache s) (queue s) w1)).
  { apply keeps_world; [done|]. eapply natts_kept_call; [done|]. by destruct r; apply Hg. }
  destruct r as [e|ipl]; simpl in Hlook.
  - apply runs_ret. split; [done|]. split; [done|]. exists []. split; [done|].
    rewrite app_nil_r. split; [by intros ? [= <-]|done].
  - destruct (String.eqb _ name); apply runs_ret; (split; [done|]); (split; [done|]).
    + exists [ipl]. split; [done|]. split; [by intros ? [= <-]|]. split; [by apply consider_sorted|].
      by apply consider_found.
    + exists []. split; [done|]. rewrite app_nil_r. split; [by intros ? [= <-]|done].
Qed.

Lemma reset_anticipation_spec nsn nadat att rv s :
  cache_ok s → (nadat = true → is_Some (atts s !! nsn)) →
  runs (reset_anticipation nsn nadat att rv) s (λ _ s', touches nsn s s' ∧
    addrCache s' = addrCache s ∧ world s' = world s ∧
    ((is_Some (atts s !! nsn) → is_Some (atts s' !! nsn)) ∧ (nadat = false → atts s' = atts s))).
Proof.
  intros Hok Hn. unfold reset_anticipation. destruct nadat.
  2: { apply runs_ret. by split; [apply touches_refl|]. }
  destruct (Hn eq_refl) as [d Hd]. apply runs_bind. eapply runs_read_data; [done|].
  destruct (match att with Some _ => _ | None => true end).
  - apply runs_write_data. intros s' Hc Hq Hw Ha. split.
    + apply touches_data; [done..|]. intros k Hk. by rewrite Ha, lookup_insert_ne.
    + split; [done|]. split; [done|]. split; [|done]. intros _. rewrite Ha, lookup_insert_eq. eauto.
  - apply runs_ret. by split; [apply touches_refl|].
Qed.

Lemma owned_supported a vni base last ls y :
  owned_lock (Some a) ls y → desired vni base last y → supported a vni base last y.
Proof.
  intros (ipl & _ & Hp & Ho) [Hv Hr]. apply NewParsedLock_inv in Hp as (Hobj & Hu & _ & _ & Hpn).
  by exists ipl.
Qed.

(** What the analysis of an attachment's locks returns. *)
Definition choice_ok (att : option NetworkAttachment) (vni base last : Z) (a : Analysis) : Prop :=
  ∀ at_, att = Some at_ →
    (pl_Obj (a_lockForStatus a) = None ∨ supported at_ vni base last (a_lockForStatus a)) ∧
    (pl_Obj (a_lockInStatus a) = None ∨
     (supported at_ vni base last (a_lockInStatus a) ∧ in_status att (a_lockInStatus a))).

Lemma choose_lock_ok att vni base last ls x :
  sorted_locks att vni base last ls x →
  ∀ at_, att = Some at_ →
    (pl_Obj (choose_lock att x).1 = None ∨ supported at_ vni base last (choose_lock att x).1) ∧
    (pl_Obj (lockInStatus x) = None ∨
     (supported at_ vni base last (lockInStatus x) ∧ in_status att (lockInStatus x))).
Proof.
  intros Hx at_ ->. split.
  - unfold choose_lock. destruct (pl_Obj (lockInStatus x)); [by left|].
    destruct (usableLocks x) as [|u us] eqn:Eu; [by left|]. right.
    assert (Hin : Best (u :: us) ∈ usableLocks x) by (rewrite Eu; by apply Best_spec).
    apply (so_usable _ _ _ _ _ _ Hx) in Hin as [Ho Hd]. by eapply owned_supported.
  - destruct (so_status _ _ _ _ _ _ Hx) as [|[Hin Hs]]; [by left|]. right. split; [|done].
    apply (so_usable _ _ _ _ _ _ Hx) in Hin as [Ho Hd]. by eapply owned_supported.
Qed.

(** The lock that the attachment keeps: the one in its status, else the one chosen for it. *)
Definition kept_lock (a : Analysis) : ParsedLock :=
  match pl_Obj (a_lockInStatus a) with Some _ => a_lockInStatus a | None => a_lockForStatus a end.

(** A lock that can serve the attachment: of this edition, with an address of its subnet. *)
Definition usable (at_ : NetworkAttachment) (vni base last : Z) (ls : list IPLock) (y : ParsedLock) : Prop :=
  owned_lock (Some at_) ls y ∧ desired vni base last y.

(** Of the locks [ls] the one in the status is kept, if it can serve; else the oldest
    of those that can. *)
Definition well_chosen (at_ : NetworkAttachment) (vni base last : Z) (ls : list IPLock) (a : Analysis) : Prop :=
  match pl_Obj (a_lockInStatus a) with
  | Some _ => usable at_ vni base last ls (a_lockInStatus a) ∧ in_status (Some at_) (a_lockInStatus a)
  | None =>
      (∀ z, usable at_ vni base last ls z → ¬ in_status (Some at_) z) ∧
      match pl_Obj (a_lockForStatus a) with
      | Some _ => usable at_ vni base last ls (a_lockForStatus a) ∧
          ∀ z, usable at_ vni base last ls z → IsBetterThan z (a_lockForStatus a) = false
      | None => ∀ z, ¬ usable at_ vni base last ls z
      end
  end.

Lemma choose_lock_well at_ vni base last ls x sn rv err ok :
  sorted_locks (Some at_) vni base last ls x → found_status (Some at_) x →
  well_chosen at_ vni base last ls
    (MkAnalysis sn rv vni base last (lockInStatus x) (choose_lock (Some at_) x).1 [] err ok) ∧
  (usableLocks x ≠ [] → kept_lock
    (MkAnalysis sn rv vni base last (lockInStatus x) (choose_lock (Some at_) x).1 [] err ok) = kept x).
Proof.
  intros Hx Hf. unfold well_chosen, kept_lock, kept, choose_lock. simpl.
  assert (Hu : ∀ z, usable at_ vni base last ls z ↔ z ∈ usableLocks x).
  { intros z. unfold usable. by rewrite (so_usable _ _ _ _ _ _ Hx). }
  destruct (pl_Obj (lockInStatus x)) eqn:Eo.
  { split; [|done]. destruct (so_status _ _ _ _ _ _ Hx) as [|[? ?]]; [congruence|]. by rewrite Hu. }
  assert (Hno : ∀ z, usable at_ vni base last ls z → ¬ in_status (Some at_) z).
  { intros z Hz Hs. apply Hu in Hz. destruct (Hf z Hz Hs). congruence. }
  destruct (usableLocks x) as [|u us] eqn:Eu.
  - simpl. split; [|done]. split; [done|]. intros z Hz. apply Hu in Hz. by apply elem_of_nil in Hz.
  - destruct (Best_spec (u :: us)) as [Hin Hb]; [done|]. cbn [fst]. split; [|done]. split; [done|].
    apply Hu in Hin. pose proof Hin as [Ho _]. destruct (owned_lock_obj _ _ _ Ho) as [o ->].
    split; [done|]. intros z Hz. by apply Hb, Hu.
Qed.

(** What the analysis of the locks of an attachment that exists does on the server: it may
    fetch one lock; of all locks then known it gives up, one after the other, the owned
    ones but the one that is kept, and stops at the first error. *)
Definition releases (ns name : string) (at_ : NetworkAttachment) (vni base last : Z) (ls : list IPLock)
    (w : W) (a : Analysis) (w' : W) : Prop :=
  ∃ more w1 given rest,
    looked_up ns name at_ vni ls w more w1 ∧ w' = deletions given w1 ∧ stopped given rest w1 (a_err a) ∧
    (∀ y, y ∈ given ++ rest → owned_lock (Some at_) (ls ++ more) y) ∧
    well_chosen at_ vni base last (ls ++ more) a ∧
    (NoDup (lock_uid <$> ls ++ more) → ∀ y, Has (given ++ rest) y = true ↔
       ∃ z, IpLock.Equal z y = true ∧ owned_lock (Some at_) (ls ++ more) z ∧
         ¬ (desired vni base last z ∧ IpLock.Equal z (kept_lock a) = true)) ∧
    ∀ issued, uids_unique issued → a_err a = None →
      ∀ y, y ∈ given → issued w (pl_UID y) → released w' y.

Lemma to_release_owned att vni base last ls x y :
  sorted_locks att vni base last ls x → y ∈ to_release att x → owned_lock att ls y.
Proof.
  intros Hx [Hy|Hy]%AddListFunc_elem; [by apply (so_undesired _ _ _ _ _ _ Hx) in Hy as [? _]|].
  assert (Hu : y ∈ usableLocks x); [|by apply (so_usable _ _ _ _ _ _ Hx) in Hu as [? _]].
  unfold choose_lock in Hy. destruct att as [a|]; [|done].
  assert (Hr : ∀ z, y ∈ (RemFunc (usableLocks x) z).1 → y ∈ usableLocks x).
  { intros z. by apply RemFunc_elem. }
  destruct (pl_Obj (lockInStatus x)); [by eapply Hr|]. destruct (usableLocks x) eqn:E; [done|]. by eapply Hr.
Qed.

Lemma released_but_kept at_ vni base last ls x sn rv err ok :
  sorted_locks (Some at_) vni base last ls x → found_status (Some at_) x → NoDup (lock_uid <$> ls) →
  ∀ y, Has (to_release (Some at_) x) y = true ↔
    ∃ z, IpLock.Equal z y = true ∧ owned_lock (Some at_) ls z ∧ ¬ (desired vni base last z ∧ IpLock.Equal z
      (kept_lock (MkAnalysis sn rv vni base last (lockInStatus x) (choose_lock (Some at_) x).1 [] err ok)) = true).
Proof.
  intros Hx Hf Hnd y. rewrite (to_release_spec (Some at_) vni base last at_ ls x eq_refl Hx Hnd y).
  destruct (choose_lock_well at_ vni base last ls x sn rv err ok Hx Hf) as [_ Hk].
  apply exist_proper. intros z. apply and_iff_compat_l. split; intros [Ho Hn]; (split; [done|]);
    intros [Hd He]; apply Hn; (split; [done|]).
  all: assert (Hz : z ∈ usableLocks x) by by apply (so_usable _ _ _ _ _ _ Hx).
  all: assert (Hne : usableLocks x ≠ []) by (intros E; rewrite E in Hz; by apply elem_of_nil in Hz).
  - by rewrite <- Hk.
  - by rewrite Hk.
Qed.

(** The locks of an attachment that is gone are gone. *)
Definition all_released (w : W) (ls : list IPLock) (w' : W) : Prop :=
  ∀ issued, uids_unique issued → NoDup (lock_uid <$> ls) →
    ∀ ipl y, ipl ∈ ls → issued w (lock_uid ipl) → NewParsedLock ipl = Some y → released w' y.

Lemma release_and_choose_spec L ns name att nadat sn rv vni base last s :
  cache_ok s → status_ipv4 att → (nadat = true → is_Some (atts s !! (ns, name))) →
  runs (release_and_choose L ns name att nadat sn rv vni base last) s (λ a s',
    touches (ns, name) s s' ∧ natts_kept (world s) (world s') ∧ addrCache s' = addrCache s ∧
    ((is_Some (atts s !! (ns, name)) → is_Some (atts s' !! (ns, name))) ∧
     (nadat = false → atts s' = atts s)) ∧
    (a_VNI a = vni ∧ a_base a = base ∧ a_last a = last ∧ a_statusErrs a = [] ∧
     (∀ ls, lockByIndex L name = inr ls → a_err a = None → a_ok a = true)) ∧
    (a_err a = None → a_ok a = true → choice_ok att vni base last a) ∧
    ∀ ls, lockByIndex L name = inr ls →
      (∀ at_, att = Some at_ → releases ns name at_ vni base last ls (world s) a (world s')) ∧
      (att = None → a_err a = None → all_released (world s) ls (world s'))).
Proof.
  intros Hok Hst Hn. unfold release_and_choose. destruct (lockByIndex L name) as [e|ls] eqn:EL.
  { apply runs_ret. split; [by apply touches_refl|]. split; [apply natts_kept_refl|]. by repeat split. }
  apply runs_bind. eapply runs_conseq; [by apply consider_status_spec; [..|apply consider_all|apply consider_all_found]|].
  intros x s1 (Hk1 & Hc1 & more & Hmore & Hlook & Hx & Hfound). pose proof Hk1 as (Hok1 & Ha1 & Hq1 & Hn1).
  apply runs_bind. eapply runs_conseq; [by apply reset_anticipation_spec; rewrite ?Ha1|].
  intros _ s2 (Ht2 & Hc2 & Hw2 & Hs2). rewrite Ha1 in Hs2.
  pose proof (choose_lock_ok _ _ _ _ _ _ Hx) as Hch.
  destruct (choose_lock att x) as [lock rest] eqn:Ech. simpl in Hch. apply runs_bind.
  eapply runs_conseq; [apply delete_locks_runs, Ht2|].
  intros err s3 (Hk3 & Hc3 & (given & rest' & Eg & Hw3 & Hr3) & Hd).
  apply runs_ret. pose proof Hk3 as (_ & Ha3 & _ & Hn3). split; [|split; [|split; [|split; [|split; [|split]]]]].
  - eapply touches_trans; [by apply keeps_touches, cache_grows_eq|]. eapply touches_trans; [done|].
    by apply keeps_touches, cache_grows_eq.
  - eapply natts_kept_trans; [done|]. by rewrite <- Hw2.
  - congruence.
  - rewrite Ha3. split; [tauto|]. intros Hf. by rewrite (proj2 Hs2 Hf).
  - repeat split. by simpl; intros _ _ ->.
  - done.
  - intros ls0 [= <-]. split.
    + intros at_ ->. exists more, (world s1), given, rest'. rewrite <- Eg.
      assert (El : to_release (Some at_) x = (AddListFunc (undesiredLocks x) rest).1) by (unfold to_release; by rewrite Ech).
      rewrite <- El. split_and!.
      * by apply Hlook.
      * by rewrite Hw3, Hw2.
      * by rewrite <- Hw2.
      * intros y. intros Hy. by apply (to_release_owned (Some at_) vni base last _ x).
      * pose proof (choose_lock_well at_ vni base last _ x sn rv err
          (match err with None => true | Some _ => false end) Hx Hfound) as [Hw _]. by rewrite Ech in Hw.
      * intros Hnd. pose proof (released_but_kept at_ vni base last _ x sn rv err
          (match err with None => true | Some _ => false end) Hx Hfound Hnd) as Hw. by rewrite Ech in Hw.
      * intros issued Hu He y Hy Hi. apply (Hd issued Hu); [done| |].
        -- rewrite Eg. apply elem_of_app. by left.
        -- rewrite Hw2. by apply (looked_up_stays _ _ _ _ _ _ _ _ _ Hu (Hlook _ eq_refl)).
    + intros -> He issued Hu Hnd ipl y Hin Hi Hp. destruct (Hmore eq_refl) as [-> Ew1].
      rewrite app_nil_r in Hx. apply (Hd issued Hu); [done| |].
      * pose proof (to_release_all None vni base last _ x ipl y eq_refl Hx Hnd Hin Hp) as Hr.
        unfold to_release in Hr. by rewrite Ech in Hr.
      * rewrite Hw2, Ew1. pose proof (NewParsedLock_inv _ _ Hp) as (_ & -> & _). done.
Qed.

(** ** Processing *)

(** What the informer caches deliver: an attachment under its own name, with an
    IPv4 address in its status if any; subnets that passed validation. *)
Definition listers_ok (L : Listers) : Prop :=
  (∀ ns name a, netattLister L ns name = inr a → AttNSN a = (ns, name) ∧ status_ipv4 (Some a)) ∧
  (∀ ns name sn, subnetLister L ns name = inr sn →
     0 ≤ vni_of sn ≤ maxVNI ∧ ¬ ipv6_cidr sn).

Lemma IPNetToBoundsU_ok sn ip net :
  ParseCIDR (IPv4 (sn_Spec sn)) = Some (ip, net) → ¬ ipv6_cidr sn →
  ∃ ps, block sn = Some ps ∧ IPNetToBoundsU net = Ok (baseU ps, lastU ps) ∧
    is_u32 (baseU ps) ∧ is_u32 (lastU ps) ∧ baseU ps ≤ lastU ps.
Proof.
  intros E Hn. destruct (block_bounds _ _ _ E) as (x & n & _ & _ & Eb & El & Hb & Hl).
  { intros ET. apply Hn. by exists ip, net. }
  unfold IPNetToBoundsU, IPv4ToUint32, block, parseSubnet. rewrite E, Eb. simpl.
  eexists. split; [done|]. split; [done|]. simpl. rewrite El. unfold is_u32. lia.
Qed.

(** An analysis without status errors is about the subnet the attachment names. *)
Definition analysis_of (L : Listers) (ns : string) (att : NetworkAttachment) (a : Analysis) : Prop :=
  a_statusErrs a = [] → ∃ sn ps, subnetLister L ns (SubnetOf (na_Spec att)) = inr sn ∧
    block sn = Some ps ∧ a_VNI a = vni_of sn ∧ a_base a = baseU ps ∧ a_last a = lastU ps.

(** The informer caches do not answer. *)
Definition caches_fail (L : Listers) (ns name : string) (att : NetworkAttachment) : Prop :=
  (∃ e, subnetLister L ns (SubnetOf (na_Spec att)) = inl e ∧ IsNotFound e = false) ∨
  ∃ e, lockByIndex L name = inl e.

Lemma analyzeAndRelease_spec L ns name att nadat s :
  cache_ok s → listers_ok L → status_ipv4 att → (nadat = true → is_Some (atts s !! (ns, name))) →
  runs (analyzeAndRelease L ns name att nadat) s (λ a s',
    touches (ns, name) s s' ∧ natts_kept (world s) (world s') ∧ addrCache s' = addrCache s ∧
    ((is_Some (atts s !! (ns, name)) → is_Some (atts s' !! (ns, name))) ∧
     (nadat = false → atts s' = atts s)) ∧
    (att = None → ∀ ls, lockByIndex L name = inr ls → a_err a = None → a_ok a = true) ∧
    (∀ at_, att = Some at_ → a_err a = None → a_ok a = false → caches_fail L ns name at_) ∧
    (a_err a = None → a_ok a = true →
       (∀ at_, att = Some at_ → analysis_ok at_ a ∧ analysis_of L ns at_ a ∧
          (pl_Obj (a_lockInStatus a) = None ∨
           (supported at_ (a_VNI a) (a_base a) (a_last a) (a_lockInStatus a) ∧
            in_status att (a_lockInStatus a)))) ∧
       (att = None → ∀ ls, lockByIndex L name = inr ls → all_released (world s) ls (world s')))).
Proof.
  intros Hok [_ Hsn] Hst Hn. unfold analyzeAndRelease. destruct att as [a|].
  2: { eapply runs_conseq; [by apply release_and_choose_spec|].
       intros a s' (?&?&?&?&(_&_&_&_&?)&_&Hr). split; [done|]. split; [done|]. split; [done|].
       split; [done|]. split; [done|]. split; [done|]. intros He Ho. split; [done|]. intros _ ls Els. by apply (Hr ls Els). }
  assert (Hstop : ∀ rv vni errs ok, (errs = [] → ok = false) → (ok = false → caches_fail L ns name a) →
    runs (mret (MkAnalysis (SubnetOf (na_Spec a)) rv vni 0 0 zeroParsedLock zeroParsedLock errs None ok)) s
    (λ a' s', touches (ns, name) s s' ∧ natts_kept (world s) (world s') ∧ addrCache s' = addrCache s ∧
    ((is_Some (atts s !! (ns, name)) → is_Some (atts s' !! (ns, name))) ∧
     (nadat = false → atts s' = atts s)) ∧
    (Some a = None → ∀ ls, lockByIndex L name = inr ls → a_err a' = None → a_ok a' = true) ∧
    (∀ at_, Some a = Some at_ → a_err a' = None → a_ok a' = false → caches_fail L ns name at_) ∧
    (a_err a' = None → a_ok a' = true →
       (∀ at_, Some a = Some at_ → analysis_ok at_ a' ∧ analysis_of L ns at_ a' ∧
          (pl_Obj (a_lockInStatus a') = None ∨
           (supported at_ (a_VNI a') (a_base a') (a_last a') (a_lockInStatus a') ∧
            in_status (Some a) (a_lockInStatus a')))) ∧
       (Some a = None → ∀ ls, lockByIndex L name = inr ls → all_released (world s) ls (world s'))))).
  { intros rv vni errs ok Herr Hfail. apply runs_ret. split; [by apply touches_refl|].
    split; [apply natts_kept_refl|]. split; [done|]. split; [done|]. split; [done|].
    split; [by intros at_ [= <-] _; apply Hfail|]. intros _ Ho. simpl in Ho.
    split; [|done]. intros at_ _. split; [|split; [|by left]].
    - split; [|by left]. simpl. intros E. by rewrite Herr in Ho.
    - intros E. simpl in E. by rewrite Herr in Ho. }
  destruct (subnetLister L ns (SubnetOf (na_Spec a))) as [e|sn] eqn:Es.
  { destruct (IsNotFound e) eqn:Ee; apply Hstop; try done. intros _. left. by exists e. }
  destruct (Hsn _ _ _ Es) as [Hv H6]. destruct (ParseCIDR (IPv4 (sn_Spec sn))) as [[ip net]|] eqn:Ec.
  2: by apply Hstop.
  destruct (IPNetToBoundsU_ok sn ip net Ec H6) as (ps & Ebl & Eb & Hb & Hl & Hle).
  apply runs_bind. eapply runs_lift; [exact Eb|].
  eapply runs_conseq; [by apply release_and_choose_spec|].
  intros a' s' (?&?&?&?&(Ev & Ebs & Els & Herr & Hl2)&Hr&_). split; [done|]. split; [done|]. split; [done|].
  split; [done|]. split; [done|]. split.
  { intros at_ _ He Ho. right. destruct (lockByIndex L name) as [e|ls]; [by exists e|].
    rewrite (Hl2 ls) in Ho; done. }
  intros He Ho. pose proof (Hr He Ho) as Hc. split; [|done].
  intros at_ E. destruct (Hc at_ E) as [Hc1 Hc2]. injection E as <-.
  unfold analysis_ok, analysis_of. rewrite Ev, Ebs, Els. split; [by split|]. split; [|done].
  intros _. by exists sn, ps.
Qed.

Lemma getNetworkAttachmentData_spec nsn add s :
  cache_ok s →
  runs (getNetworkAttachmentData nsn add) s (λ b s', touches nsn s s' ∧ world s' = world s ∧
    (b = true → is_Some (atts s' !! nsn)) ∧ (b = false → add = false ∧ atts s' !! nsn = None)).
Proof.
  intros Hok. unfold getNetworkAttachmentData. apply runs_bind, runs_gets.
  destruct (atts s !! nsn) as [d|] eqn:Hd.
  - apply runs_ret. split; [by apply touches_refl|]. split; [done|]. split; [eauto|done].
  - destruct add.
    + apply runs_bind. unfold set_atts. apply runs_modify, runs_ret. split.
      * apply touches_data; [done..|]. intros k Hk. simpl. by rewrite lookup_insert_ne.
      * split; [done|]. simpl. rewrite lookup_insert_eq. split; [eauto|done].
    + apply runs_ret. split; [by apply touches_refl|]. by repeat split.
Qed.

(** Processing an attachment that is gone. *)
Lemma process_gone_lemma fuel r L ns name e s :
  cache_ok s → listers_ok L → netattLister L ns name = inl e → IsNotFound e = true →
  runs (processNetworkAttachment new_set fuel r L ns name) s (λ err s',
    touches (ns, name) s s' ∧ natts_kept (world s) (world s') ∧
    (err = None → ∀ ls, lockByIndex L name = inr ls →
       atts s' !! (ns, name) = None ∧ all_released (world s) ls (world s'))).
Proof.
  intros Hok HL EL He. unfold processNetworkAttachment. rewrite EL, He. simpl.
  apply runs_bind. eapply runs_conseq; [by apply getNetworkAttachmentData_spec|].
  intros nadat s1 (Ht1 & Hw1 & Hn1 & Hf1). apply runs_bind.
  eapply runs_conseq; [apply (analyzeAndRelease_spec L ns name None nadat s1); [apply Ht1|done|done|done]|].
  intros a s2 (Ht2 & Hk2 & _ & Hs2 & Hok2 & _ & Hr2). rewrite Hw1 in Hk2.
  assert (Ht : touches (ns, name) s s2) by by eapply touches_trans.
  destruct (negb (bool_decide (a_err a = None)) || negb (a_ok a)) eqn:Eb.
  - apply runs_ret. split; [done|]. split; [done|]. intros Ea ls Els.
    rewrite bool_decide_eq_true_2 in Eb by done. rewrite (Hok2 eq_refl ls Els Ea) in Eb. done.
  - apply orb_false_iff in Eb as [Ea%negb_false_iff%bool_decide_eq_true Eo%negb_false_iff].
    destruct (Hr2 Ea Eo) as [_ Hrel]. rewrite Hw1 in Hrel. apply runs_bind. destruct nadat.
    + unfold clearNetworkAttachmentData, set_atts. apply runs_modify, runs_ret. split; [|split].
      * eapply touches_trans; [done|]. apply touches_data; [apply Ht|done|done|]. intros k Hk. simpl.
        by rewrite lookup_delete_ne.
      * done.
      * intros _ ls Els. simpl. split; [apply lookup_delete_eq|]. by apply Hrel.
    + apply runs_ret, runs_ret. split; [done|]. split; [done|]. intros _ ls Els. split.
      * rewrite (proj2 Hs2 eq_refl). by apply Hf1.
      * by apply Hrel.
Qed.

(** The status has the lock of its address already. *)
Definition served (L : Listers) (ns : string) (att : NetworkAttachment) : Prop :=
  ∃ a lock, analysis_of L ns att a ∧ supported att (a_VNI a) (a_base a) (a_last a) lock ∧
    in_status (Some att) lock.

(** What processing does for an attachment that exists. *)
Definition processed (L : Listers) (ns name : string) (att : NetworkAttachment) (w : W)
    (err : option error) (s' : St) : Prop :=
  (∃ a, analysis_of L ns att a ∧ outcome ns name att a w err s') ∨
  (natts_kept w (world s') ∧ err = None ∧ (caches_fail L ns name att ∨ served L ns att)).

Lemma processed_error L ns name att w err s' :
  processed L ns name att w err s' → err ≠ None → natts_kept w (world s').
Proof. intros [(a & _ & Ho)|(? & _)] He; [by eapply outcome_error|done]. Qed.

(** Processing an attachment that exists. *)
Lemma process_found_spec fuel r L ns name att s :
  cache_ok s → rng_ok r → server_settles fuel → listers_ok L → netattLister L ns name = inr att →
  runs (processNetworkAttachment new_set fuel r L ns name) s (λ err s',
    touches (ns, name) s s' ∧ processed L ns name att (world s) err s').
Proof.
  intros Hok Hr Hset HL EL. pose proof HL as [Hatt _]. destruct (Hatt _ _ _ EL) as [_ Hst].
  unfold processNetworkAttachment. rewrite EL. simpl.
  apply runs_bind. eapply runs_conseq; [by apply getNetworkAttachmentData_spec|].
  intros nadat s1 (Ht1 & Hw1 & Hn1 & Hf1).
  assert (Hs1 : is_Some (atts s1 !! (ns, name))) by (destruct nadat; [auto|by destruct Hf1]).
  apply runs_bind. eapply runs_conseq.
  { apply (analyzeAndRelease_spec L ns name (Some att) nadat s1); [apply Ht1|done..]. }
  intros a s2 (Ht2 & Hk2 & _ & [Hs2 _] & _ & Hfail & Hr2). rewrite Hw1 in Hk2.
  assert (Ht : touches (ns, name) s s2) by by eapply touches_trans.
  destruct (a_err a) as [e|] eqn:Ea; simpl.
  { apply runs_ret. split; [done|]. left.
    exists (MkAnalysis "" "" 0 0 0 zeroParsedLock zeroParsedLock ["stopped"] None false).
    split; [done|]. by apply out_kept, uw_error. }
  destruct (a_ok a) eqn:Eo; simpl.
  2: { apply runs_ret. split; [done|]. right. split; [done|]. split; [done|]. left. by apply Hfail. }
  destruct (Hr2 eq_refl eq_refl) as [Han _]. destruct (Han att eq_refl) as (Hok2 & Hof & Hin).
  destruct (pl_Obj (a_lockInStatus a)) eqn:El.
  { apply runs_ret. split; [done|]. right. split; [done|]. split; [done|]. right.
    destruct Hin as [|[Hsup Hin]]; [done|]. by exists a, (a_lockInStatus a). }
  eapply runs_conseq; [apply assign_spec; [apply Ht2|done|done|by apply Hs2|done]|].
  intros err s3 (Ht3 & Ho). split; [by eapply touches_trans|]. left.
  exists a. split; [done|]. by eapply outcome_after.
Qed.




(** ** The work queue *)

(** Processing an attachment ends and changes no local data but its own. *)
Lemma process_touches fuel r L nsn s :
  cache_ok s → rng_ok r → server_settles fuel → listers_ok L →
  runs (processNetworkAttachment new_set fuel r L nsn.1 nsn.2) s (λ _ s', touches nsn s s').
Proof.
  intros Hok Hr Hset HL. destruct nsn as [ns name]. cbn [fst snd].
  destruct (netattLister L ns name) as [e|att] eqn:EL.
  - destruct (IsNotFound e) eqn:Ee.
    + eapply runs_conseq; [by eapply (process_gone_lemma fuel r L ns name e)|]. by intros ?? [? _].
    + unfold processNetworkAttachment. rewrite EL, Ee. simpl. apply runs_ret. by apply touches_refl.
  - eapply runs_conseq; [by apply (process_found_spec fuel r L ns name att)|]. by intros ?? [? _].
Qed.

(** An item is finished with exactly one verdict: forgotten when processing
    succeeded, re-queued with the rate limiter when it failed, and marked done
    after that. *)
Lemma processQueueItem_spec fuel r L nsn s :
  cache_ok s → rng_ok r → server_settles fuel → listers_ok L →
  runs (processQueueItem new_set fuel r L nsn) s (λ _ s', cache_ok s' ∧
    ∃ err s1, processNetworkAttachment new_set fuel r L nsn.1 nsn.2 s = Ok (err, s1) ∧
      queue s' = queue s ++
        [match err with None => QForget nsn | Some _ => QAddRateLimited nsn end; QDone nsn] ∧
      atts s' = atts s1 ∧ addrCache s' = addrCache s1 ∧ world s' = world s1).
Proof.
  intros Hok Hr Hset HL. unfold processQueueItem.
  pose proof (process_touches fuel r L nsn s Hok Hr Hset HL) as Hp.
  destruct (runs_inv _ _ _ Hp) as (err & s1 & E & Hc & Hq & _).
  apply runs_bind. eapply runs_eq; [exact E|]. apply runs_bind.
  destruct err as [e|]; unfold enqueue; apply runs_modify, runs_modify; (split; [done|]);
    eexists _, s1; (split; [done|]); simpl; by rewrite Hq, <- app_assoc.
Qed.

(** ** Handlers *)

(** A deletion notice that carries a tombstone is unwrapped for a
    NetworkAttachment, but makes the handlers for a Subnet and an IPLock panic. *)
Lemma tombstones L att subnet (ipl : IPLock) s :
  OnAttachmentDelete (DeletedFinalStateUnknown (Object att)) s =
    OnAttachmentDelete (Object att) s ∧
  (∃ msg, OnSubnetDelete L (DeletedFinalStateUnknown (Object subnet)) s = Panic msg) ∧
  (∃ msg, OnLockDelete new_set (DeletedFinalStateUnknown (Object ipl)) s = Panic msg).
Proof. split; [done|]. split; eexists; done. Qed.

End Correct.
End IpamCorrect.
