(* ===== verification/IpamCache.v ===== *)
(** * The address cache and the locks

    What the notifications about IPLocks leave in the address cache of the IPAM
    controller: for each address, what the last notification about a lock of that
    address said; and what this means for the locks that exist. *)

From S2P Require Import Prelude GoStr GoNet ApiTypes UInt32Set SubnetStrategy IpLock KosApi Ipam IpamCorrect.
Import GoNet Ipam IpamCorrect.

Module IpamCache.

(** ** The last word about an address *)

(** What a notification about the lock [ipl], which exists or is gone, says of an address. *)
Definition lock_word (vx : Z * Z) (ipl : IPLock) (exists_ : bool) : option bool :=
  if bool_decide (parseIPLockName (Name (ipl_meta ipl)) = Some vx) then Some exists_ else None.

(** The last word said about something, [false] if there is none. *)
Definition last_word {E} (word : E → option bool) (es : list E) : bool :=
  foldl (λ b e, default b (word e)) false es.

Lemma last_word_snoc {E} (word : E → option bool) es e :
  last_word word (es ++ [e]) = default (last_word word es) (word e).
Proof. unfold last_word. by rewrite foldl_app. Qed.

(** ** The locks that exist *)

(** The locks after a notification. *)
Definition after (ls : gmap NSN IPLock) (e : IPLock * bool) : gmap NSN IPLock :=
  if e.2 then <[lock_nsn e.1 := e.1]> ls else delete (lock_nsn e.1) ls.

(** The address a stored lock stands for. *)
Definition locks_addr (ls : gmap NSN IPLock) (k : NSN) (v x : Z) : Prop :=
  is_Some (ls !! k) ∧ parseIPLockName k.2 = Some (v, x).

(** No two locks stand for one address of one VNI (a VNI lives in one
    namespace). *)
Definition one_lock_per_address (ls : gmap NSN IPLock) : Prop :=
  ∀ k1 k2 v x, locks_addr ls k1 v x → locks_addr ls k2 v x → k1 = k2.

Lemma after_lock ls ipl b k v x :
  locks_addr (after ls (ipl, b)) k v x ↔
    if decide (k = lock_nsn ipl) then b = true ∧ parseIPLockName (Name (ipl_meta ipl)) = Some (v, x)
    else locks_addr ls k v x.
Proof.
  unfold locks_addr, after. destruct (decide (k = lock_nsn ipl)) as [->|]; destruct b; simpl.
  - rewrite lookup_insert_eq. split; [by intros [_ ?]|]. intros [_ ?]. split; [by eexists|done].
  - rewrite lookup_delete_eq. split; [by intros [[? ?] _]|by intros [? _]].
  - by rewrite lookup_insert_ne.
  - by rewrite lookup_delete_ne.
Qed.

(** A lock whose name is not one changes no address. *)
Lemma after_alien ls ipl b v x :
  parseIPLockName (Name (ipl_meta ipl)) = None →
  (∃ k, locks_addr (after ls (ipl, b)) k v x) ↔ ∃ k, locks_addr ls k v x.
Proof.
  intros Ep. apply exist_proper. intros k. rewrite after_lock. destruct (decide (k = lock_nsn ipl)) as [->|]; [|done].
  unfold locks_addr, lock_nsn. simpl. rewrite Ep. naive_solver.
Qed.

Lemma after_seen ls ipl vni addrU v x :
  parseIPLockName (Name (ipl_meta ipl)) = Some (vni, addrU) →
  (∃ k, locks_addr (after ls (ipl, true)) k v x) ↔ (v = vni ∧ x = addrU) ∨ ∃ k, locks_addr ls k v x.
Proof.
  intros Ep. split.
  - intros [k Hx%after_lock]. destruct (decide (k = lock_nsn ipl)); [left|right; eauto]. naive_solver.
  - intros [[-> ->]|[k Hx]]; [exists (lock_nsn ipl); apply after_lock; by rewrite decide_True|].
    exists k. apply after_lock. destruct (decide (k = lock_nsn ipl)) as [->|]; [|done]. split; [done|].
    destruct Hx as [_ Hx]. simpl in Hx. congruence.
Qed.

Lemma after_gone ls ipl vni addrU v x :
  parseIPLockName (Name (ipl_meta ipl)) = Some (vni, addrU) → one_lock_per_address ls → is_Some (ls !! lock_nsn ipl) →
  (∃ k, locks_addr (after ls (ipl, false)) k v x) ↔ ¬ (v = vni ∧ x = addrU) ∧ ∃ k, locks_addr ls k v x.
Proof.
  intros Ep H1 Hg. assert (Hhere : locks_addr ls (lock_nsn ipl) vni addrU) by done. split.
  - intros [k Hx%after_lock]. destruct (decide (k = lock_nsn ipl)) as [->|Hne]; [naive_solver|].
    split; [|eauto]. intros [-> ->]. by apply Hne, (H1 _ _ vni addrU).
  - intros [Hn [k Hx]]. exists k. apply after_lock. destruct (decide (k = lock_nsn ipl)) as [->|]; [|done].
    destruct Hn. destruct Hx as [_ Hx]. simpl in Hx. split; congruence.
Qed.

(** Notifications in order: what is deleted was known, and at every moment no address has two
    locks. *)
Fixpoint history_ok (ls : gmap NSN IPLock) (es : list (IPLock * bool)) : Prop :=
  one_lock_per_address ls ∧
  match es with
  | [] => True
  | e :: es => (e.2 = false → is_Some (ls !! lock_nsn e.1)) ∧ history_ok (after ls e) es
  end.

(** Then the last word about an address says whether a lock of it exists. *)
Lemma last_word_exists es v x :
  history_ok ∅ es →
  last_word (λ e, lock_word (v, x) e.1 e.2) es = true ↔ ∃ k, locks_addr (foldl after ∅ es) k v x.
Proof.
  assert (Hgen : ∀ ls b, (b = true ↔ ∃ k, locks_addr ls k v x) → history_ok ls es →
    foldl (λ b e, default b (lock_word (v, x) e.1 e.2)) b es = true ↔ ∃ k, locks_addr (foldl after ls es) k v x).
  { induction es as [|[ipl c] es IH]; intros ls b Hb Hh; [done|]. destruct Hh as (H1 & Hg & Hh).
    cbn [foldl fst snd] in *. apply IH; [|done]. unfold lock_word.
    destruct (parseIPLockName (Name (ipl_meta ipl))) as [[v' x']|] eqn:Ep.
    2: { rewrite bool_decide_eq_false_2 by done. simpl. by rewrite after_alien. }
    destruct c; [rewrite (after_seen _ _ _ _ _ _ Ep)|rewrite (after_gone _ _ _ _ _ _ Ep H1 (Hg eq_refl))];
      case_bool_decide as E; simpl; rewrite ?Hb; naive_solver. }
  intros Hh. apply Hgen; [|done]. split; [done|]. intros (k & [? Hk] & _). by rewrite lookup_empty in Hk.
Qed.

Section Cache.
Context {S W : Type} `{UInt32Set S, !UInt32SetChooser S, !SetLaws S, !ChooserLaws S}.
Context `{KosClient W}.
Variable new_set : S.
Hypothesis new_set_ok : set_ok new_set.
Hypothesis new_set_empty : ∀ x, ¬ set_mem new_set x.
#[local] Abbreviation St := (@State S W).
Implicit Types s : St.

(** ** One notification *)

Lemma parse_addr_u32 parts n x : is_u32 n → parse_addr parts n = Some x → is_u32 x.
Proof.
  revert n. induction parts as [|p parts IH]; intros n Hn; simpl; [by intros [= <-]|].
  destruct (ParseUint p 10 8); [|done..]. apply IH, u32_range.
Qed.

Lemma parseIPLockName_u32 n v x : parseIPLockName n = Some (v, x) → is_u32 x.
Proof.
  unfold parseIPLockName. intros Hp. repeat (case_match; try done).
  apply bind_Some in Hp as (u & Hu & [= <- <-]). eapply parse_addr_u32; [|done]. by unfold is_u32.
Qed.

Lemma enqueue_all_runs l s (Q : unit → St → Prop) :
  (∀ s', atts s' = atts s → addrCache s' = addrCache s → world s' = world s →
     queue s' = queue s ++ (QAdd <$> l) → Q tt s') → runs (enqueue_all l) s Q.
Proof.
  revert s. induction l as [|k l IH]; intros s HQ; simpl.
  - apply runs_ret, HQ; [done..|]. by rewrite app_nil_r.
  - apply runs_bind. unfold enqueue. apply runs_modify, IH. simpl. intros s' Ha Hc Hw Hq.
    apply HQ; [done..|]. by rewrite Hq, <- app_assoc.
Qed.

(** Whether an address is in the cache after a notification about a lock: what the notification says
    of it, or, if that is nothing, as before. *)
Lemma OnLockNotify_word ipl b s :
  cache_ok s →
  runs (OnLockNotify new_set ipl b) s (λ _ s', cache_ok s' ∧ atts s' = atts s ∧ world s' = world s ∧
    queue s' = queue s ++ (QAdd <$> match parseIPLockName (Name (ipl_meta ipl)) with
      | None => []
      | Some _ => pair (Namespace (ipl_meta ipl)) <$> OwningAttachments (ipl_meta ipl)
      end) ∧
    ∀ v x, cached s' v x ↔ match lock_word (v, x) ipl b with Some b' => b' = true | None => cached s v x end).
Proof.
  intros Hok. unfold OnLockNotify, lock_word.
  destruct (parseIPLockName (Name (ipl_meta ipl))) as [[vni addrU]|] eqn:Ep.
  2: { apply runs_ret. split_and!; [done..|by rewrite app_nil_r|done]. }
  pose proof (parseIPLockName_u32 _ _ _ Ep) as Hu.
  set (l := pair (Namespace (ipl_meta ipl)) <$> OwningAttachments (ipl_meta ipl)).
  assert (Hthen : ∀ s1, cache_step s s1 →
    (∀ v x, cached s1 v x ↔ if bool_decide (Some (vni, addrU) = Some (v, x)) then b = true else cached s v x) →
    runs (enqueue_all l) s1 (λ _ s', cache_ok s' ∧ atts s' = atts s ∧ world s' = world s ∧
      queue s' = queue s ++ (QAdd <$> l) ∧ ∀ v x, cached s' v x ↔
        match (if bool_decide (Some (vni, addrU) = Some (v, x)) then Some b else None) with
        | Some b' => b' = true | None => cached s v x end)).
  { intros s1 (Hok1 & Ea1 & Eq1 & Ew1) Hm. apply enqueue_all_runs. intros s' Ea Ec Ew Eq.
    unfold cache_ok, cached. rewrite Ec, Ea, Ew, Eq, Ea1, Eq1, Ew1. split_and!; [done..|].
    intros v x. specialize (Hm v x). unfold cached in Hm. rewrite Hm. by case_bool_decide. }
  apply runs_bind. destruct b.
  - eapply runs_conseq; [by apply TakeAddress_spec|]. intros changed s1 (Hst & Hm & _).
    apply Hthen; [done|]. intros v x. rewrite Hm. case_bool_decide as E; [simplify_eq; split; [done|by left]|].
    split; [by intros [[-> ->]|?]|by right].
  - eapply runs_conseq; [by apply ReleaseAddress_spec|]. intros changed s1 (Hst & Hm & _).
    apply Hthen; [done|]. intros v x. rewrite Hm. case_bool_decide as E.
    + simplify_eq. split; [intros [[] _]; done|done].
    + split; [by intros [_ ?]|intros ?; split; [by intros [-> ->]|done]].
Qed.

(** ** All notifications *)

(** Notifications about locks: a creation, an update (the initial listing and relistings send both),
    or a deletion, with the lock or with a tombstone that wraps it. *)
Inductive lock_event := Seen (ipl : IPLock) | Changed (old ipl : IPLock) | Gone (tombstone : bool) (ipl : IPLock).

Definition notify (e : lock_event) : M St unit :=
  match e with
  | Seen ipl => OnLockCreate new_set (Object ipl)
  | Changed old ipl => OnLockUpdate new_set (Object old) (Object ipl)
  | Gone t ipl => OnLockDelete new_set (if t then DeletedFinalStateUnknown (Object ipl) else Object ipl)
  end.

Fixpoint notify_all (es : list lock_event) : M St unit :=
  match es with [] => mret tt | e :: es => notify e;; notify_all es end.

Definition tombstone (e : lock_event) : bool := match e with Gone t _ => t | _ => false end.

(** The lock that a notification is about, and whether it exists. *)
Definition about (e : lock_event) : IPLock * bool :=
  match e with Seen ipl | Changed _ ipl => (ipl, true) | Gone _ ipl => (ipl, false) end.

Definition word (vx : Z * Z) (e : lock_event) : option bool := lock_word vx (about e).1 (about e).2.

Lemma notify_runs e s :
  cache_ok s →
  if tombstone e then ∃ msg, notify e s = Panic msg
  else runs (notify e) s (λ _ s', cache_ok s' ∧ ∀ v x,
    cached s' v x ↔ match word (v, x) e with Some b => b = true | None => cached s v x end).
Proof.
  intros Hok. destruct e as [ipl|old ipl|[] ipl]; simpl; [| |by eexists|];
    apply runs_bind; (eapply runs_lift; [done|]); (eapply runs_conseq; [by apply OnLockNotify_word|]);
    intros _ s' (? & _ & _ & _ & ?); by split.
Qed.

(** C6: from an empty controller, whatever notifications about locks arrive: if one of them is a deletion
    with a tombstone, the handlers panic; if none is, they do not, and then an address is in
    the cache exactly if the last notification about a lock of that
    address was not a deletion.  If moreover deletions are of known locks and no address of a
    VNI ever has two locks at once, the addresses in the cache are exactly those of the locks that
    exist. *)
Theorem cache_follows_locks es w :
  if existsb tombstone es then ∃ msg, notify_all es (MkState ∅ ∅ [] w) = Panic msg
  else runs (notify_all es) (MkState ∅ ∅ [] w) (λ _ s', cache_ok s' ∧
    (∀ v x, cached s' v x ↔ last_word (word (v, x)) es = true) ∧
    (history_ok ∅ (about <$> es) →
     ∀ v x, cached s' v x ↔ ∃ k, locks_addr (foldl after ∅ (about <$> es)) k v x)).
Proof.
  assert (Hgen : ∀ s bs, cache_ok s → (∀ v x, cached s v x ↔ bs v x = true) →
    if existsb tombstone es then ∃ msg, notify_all es s = Panic msg
    else runs (notify_all es) s (λ _ s', cache_ok s' ∧
      ∀ v x, cached s' v x ↔ foldl (λ b e, default b (word (v, x) e)) (bs v x) es = true)).
  { induction es as [|e es IH]; intros s bs Hok Hb; [by apply runs_ret|]. simpl.
    pose proof (notify_runs e s Hok) as He. destruct (tombstone e); simpl.
    { destruct He as [msg E]. exists msg. unfold mbind, M_bind. by rewrite E. }
    assert (Hnext : ∀ s1, cache_ok s1 → (∀ v x, cached s1 v x ↔ match word (v, x) e with
      Some b => b = true | None => cached s v x end) → ∀ v x, cached s1 v x ↔ default (bs v x) (word (v, x) e) = true).
    { intros s1 _ Hc v x. rewrite Hc. by destruct (word (v, x) e); [|apply Hb]. }
    destruct (runs_inv _ _ _ He) as ([] & s1 & E & Hok1 & Hc1). specialize (Hnext s1 Hok1 Hc1).
    specialize (IH s1 _ Hok1 Hnext). destruct (existsb tombstone es).
    - destruct IH as [msg E2]. exists msg. unfold mbind, M_bind. by rewrite E.
    - apply runs_bind. by eapply runs_eq. }
  specialize (Hgen (MkState ∅ ∅ [] w) (λ _ _, false)). destruct (existsb tombstone es).
  - apply Hgen; [by apply map_Forall_empty|]. intros v x. unfold cached. simpl. setoid_rewrite lookup_empty. naive_solver.
  - eapply runs_conseq; [apply Hgen; [by apply map_Forall_empty|]|].
    { intros v x. unfold cached. simpl. setoid_rewrite lookup_empty. naive_solver. }
    intros _ s' [Hok' Hc]. split; [done|]. split; [done|]. intros Hh v x.
    rewrite Hc, <- (last_word_exists _ _ _ Hh). unfold last_word, word. by rewrite foldl_fmap.
Qed.

End Cache.
End IpamCache.
