(* ===== verification/KosListers.v ===== *)
(** * Listers: [pkg/client/listers/network/v1alpha1]

    What the listers of the generated client give the IPAM controller, over the indexers of its
    informers, which are a library; and why what the controller assumes of its caches
    ([IpamCorrect.listers_ok]) holds when they show stored objects: the API server has
    validated the subnets ([SubnetStrategy]). *)

From S2P Require Import Prelude GoStr GoNet ApiTypes UInt32Set SubnetStrategy IpLock KosApi Ipam IpamCorrect.
Import GoNet Ipam IpamCorrect.

(** [labels.Selector], by the labels that it matches. *)
Definition Selector : Type := gmap string string → bool.
Definition Everything : Selector := λ _, true.

(** [cache.Indexer] of objects of one type, with [cache.ListAll] and [cache.ListAllByNamespace]
    on it: the objects that these give to their callback, and their error. *)
Record Indexer (A : Type) := MkIndexer {
  GetByKey : string → error + option A;
  ByIndex : string → string → error + list A;
  ListAll : Selector → list A * option error;
  ListAllByNamespace : string → Selector → list A * option error
}.
Arguments GetByKey {A}.
Arguments ByIndex {A}.
Arguments ListAll {A}.
Arguments ListAllByNamespace {A}.

(** [cache.MetaNamespaceKeyFunc]. *)
Definition MetaNamespaceKey (m : ObjectMeta) : string :=
  if String.eqb (Namespace m) "" then Name m else Namespace m +:+ "/" +:+ Name m.

(** An indexer that holds [contents], keyed by namespace and name, with the indices [indices];
    no two of its objects have one key. *)
Class IndexerLaws {A} (meta : A → ObjectMeta) (indices : string → option (A → list string)) (contents : list A)
    (ix : Indexer A) : Prop := {
  GetByKey_found k a : GetByKey ix k = inr (Some a) → a ∈ contents ∧ MetaNamespaceKey (meta a) = k;
  GetByKey_holds a : a ∈ contents → GetByKey ix (MetaNamespaceKey (meta a)) = inr (Some a);
  ByIndex_keys i f v l : indices i = Some f → ByIndex ix i v = inr l → ∀ a, a ∈ l ↔ a ∈ contents ∧ v ∈ f a;
  ListAll_matching sel l : ListAll ix sel = (l, None) → ∀ a, a ∈ l ↔ a ∈ contents ∧ sel (Labels (meta a)) = true;
  ListAllByNamespace_matching ns sel l : ns ≠ "" → ListAllByNamespace ix ns sel = (l, None) →
    ∀ a, a ∈ l ↔ a ∈ contents ∧ Namespace (meta a) = ns ∧ sel (Labels (meta a)) = true
}.

(** [errors.NewNotFound]. *)
Definition NewNotFound (resource name : string) : error :=
  let quote := String "034" "" in
  MkError ReasonNotFound (resource +:+ ".network.example.com " +:+ quote +:+ name +:+ quote +:+ " not found").

Module KosListers.

(** ** The listers

    One for each kind; the three files are the same but for names. *)

Section Lister.
Context {A : Type}.

Record Lister := MkLister { indexer : Indexer A; resource : string }.
Record NamespaceLister := MkNamespaceLister { ns_lister : Lister; namespace : string }.

(** [NetworkAttachments], [Subnets], [IPLocks]. *)
Definition InNamespace (s : Lister) (ns : string) : NamespaceLister := MkNamespaceLister s ns.

Definition Get (s : NamespaceLister) (name : string) : error + A :=
  match GetByKey (indexer (ns_lister s)) (namespace s +:+ "/" +:+ name) with
  | inl err => inl err
  | inr None => inl (NewNotFound (resource (ns_lister s)) name)
  | inr (Some obj) => inr obj
  end.

Definition append_to (ret : list A) (m : A) : list A := ret ++ [m].

Definition List (s : Lister) (selector : Selector) : list A * option error :=
  let '(ms, err) := ListAll (indexer s) selector in (foldl append_to [] ms, err).

Definition ListInNamespace (s : NamespaceLister) (selector : Selector) : list A * option error :=
  let '(ms, err) := ListAllByNamespace (indexer (ns_lister s)) (namespace s) selector in (foldl append_to [] ms, err).

Lemma appended l ms : foldl append_to l ms = l ++ ms.
Proof. revert l. induction ms as [|m ms IH]; intros l; simpl; [by rewrite app_nil_r|]. rewrite IH. unfold append_to. by rewrite <- app_assoc. Qed.
End Lister.

Definition NewNetworkAttachmentLister (ix : Indexer NetworkAttachment) : Lister := MkLister ix "networkattachment".
Definition NewSubnetLister (ix : Indexer Subnet) : Lister := MkLister ix "subnet".
Definition NewIPLockLister (ix : Indexer IPLock) : Lister := MkLister ix "iplock".

(** What the IPAM controller reads: the two listers, and the indexers of the informers of
    attachments and locks by the indices that it has added. *)
Definition ipam_listers (atts : Indexer NetworkAttachment) (subnets : Indexer Subnet) (locks : Indexer IPLock) : Listers :=
  MkListers
    (λ ns name, Get (InNamespace (NewNetworkAttachmentLister atts) ns) name)
    (λ ns name, Get (InNamespace (NewSubnetLister subnets) ns) name)
    (ByIndex atts "subnet")
    (ByIndex locks "owningAttachment").

(** The indices that [Run] adds. *)
Definition attachment_indices (i : string) : option (NetworkAttachment → list string) :=
  if String.eqb i "subnet" then Some AttachmentSubnets else None.
Definition lock_indices (i : string) : option (IPLock → list string) :=
  if String.eqb i "owningAttachment" then Some (OwningAttachments ∘ ipl_meta) else None.

(** ** Keys *)

(** No slash. *)
Fixpoint plain (s : string) : bool :=
  match s with EmptyString => true | String c s => negb (Ascii.eqb c "/") && plain s end.

Lemma plain_app a b : plain (a +:+ b) = plain a && plain b.
Proof. induction a as [|x a IH]; [done|]. simpl. by rewrite IH, andb_assoc. Qed.

Lemma slash_split a b c d : plain a = true → plain b = true → a +:+ "/" +:+ b = c +:+ "/" +:+ d → a = c ∧ b = d.
Proof.
  intros Ha Hb. revert a Ha. induction c as [|y c IH]; intros [|x a]; simpl; intros Ha E.
  - by injection E as E.
  - injection E as -> _. done.
  - injection E as _ E. change (b = c +:+ "/" +:+ d) in E. rewrite E, plain_app in Hb. simpl in Hb.
    by rewrite andb_false_r in Hb.
  - injection E as -> E. apply andb_true_iff in Ha as [_ Ha]. by destruct (IH a Ha E) as [-> ->].
Qed.

(** A key determines both names. *)
Lemma key_names m ns name :
  plain (Namespace m) = true → plain (Name m) = true →
  MetaNamespaceKey m = ns +:+ "/" +:+ name → (Namespace m, Name m) = (ns, name).
Proof.
  unfold MetaNamespaceKey. intros Hs Hn. destruct (String.eqb_spec (Namespace m) "") as [E|E]; intros Ek.
  - assert (Hf : plain (ns +:+ "/" +:+ name) = true) by by rewrite <- Ek. rewrite plain_app in Hf. simpl in Hf.
    by rewrite andb_false_r in Hf.
  - destruct (slash_split _ _ _ _ Hs Hn Ek) as [-> ->]. done.
Qed.

(** What [Get] gives is the object of that namespace and name. *)
Lemma Get_named {A} meta indices contents (ix : Indexer A) `{!IndexerLaws meta indices contents ix} r ns name a :
  (∀ a, a ∈ contents → plain (Namespace (meta a)) = true ∧ plain (Name (meta a)) = true) →
  Get (InNamespace (MkLister ix r) ns) name = inr a → a ∈ contents ∧ (Namespace (meta a), Name (meta a)) = (ns, name).
Proof.
  intros Hp. unfold Get, InNamespace. simpl. destruct (GetByKey ix _) as [e|[b|]] eqn:E; [done| |done]. intros [= ->].
  apply GetByKey_found in E as [Hin Hk]. split; [done|]. destruct (Hp a Hin). by apply key_names.
Qed.

(** Listing gives what is there and matches; the agent and the strategy of subnets list
    everything. *)
Lemma List_matching {A} meta indices contents (ix : Indexer A) `{!IndexerLaws meta indices contents ix} r sel l :
  List (MkLister ix r) sel = (l, None) → ∀ a, a ∈ l ↔ a ∈ contents ∧ sel (Labels (meta a)) = true.
Proof.
  unfold List. simpl. destruct (ListAll ix sel) as [ms err] eqn:E. rewrite appended. intros [= <- ->].
  by apply (ListAll_matching (indices := indices)).
Qed.

Lemma List_everything {A} meta indices contents (ix : Indexer A) `{!IndexerLaws meta indices contents ix} r l :
  List (MkLister ix r) Everything = (l, None) → ∀ a, a ∈ l ↔ a ∈ contents.
Proof. intros E a. rewrite (List_matching meta indices contents ix r _ l E a). naive_solver. Qed.

Lemma ListInNamespace_matching {A} meta indices contents (ix : Indexer A) `{!IndexerLaws meta indices contents ix} r ns sel l :
  ns ≠ "" → ListInNamespace (InNamespace (MkLister ix r) ns) sel = (l, None) →
  ∀ a, a ∈ l ↔ a ∈ contents ∧ Namespace (meta a) = ns ∧ sel (Labels (meta a)) = true.
Proof.
  intros Hn. unfold ListInNamespace, InNamespace. simpl. destruct (ListAllByNamespace ix ns sel) as [ms err] eqn:E.
  rewrite appended. intros [= <- ->]. by apply (ListAllByNamespace_matching (indices := indices)).
Qed.

(** ** Validated subnets *)

(** The API server has accepted the subnet, whatever was stored then. *)
Definition validated (sub : Subnet) : Prop := ∃ all, SubnetStrategy.Validate (Some all) sub = Ok [].

Lemma validated_fine sub : validated sub → 0 ≤ vni_of sub ≤ maxVNI ∧ ¬ ipv6_cidr sub.
Proof.
  intros [all E]. assert (Hv : minVNI ≤ vni_of sub ≤ maxVNI).
  { apply vni_range_ok. unfold SubnetStrategy.Validate in E. destruct (checkVNIRange sub); [done|]. by injection E. }
  split; [unfold minVNI in Hv; lia|]. intros H6. destruct (Validate_ipv6 all sub H6 Hv) as [_ [msg Hp]]. congruence.
Qed.

(** ** The controller on these caches *)

Section Controller.
Context (atts : list NetworkAttachment) (subnets : list Subnet) (locks : list IPLock).
Context (att_ix : Indexer NetworkAttachment) (subnet_ix : Indexer Subnet) (lock_ix : Indexer IPLock).
Context `{!IndexerLaws na_meta attachment_indices atts att_ix, !IndexerLaws sn_meta (λ _, None) subnets subnet_ix,
  !IndexerLaws ipl_meta lock_indices locks lock_ix}.

(** The caches hold objects with proper names that the API server has let in. *)
Definition caches_fine : Prop :=
  (∀ a, a ∈ atts → plain (Namespace (na_meta a)) = true ∧ plain (Name (na_meta a)) = true ∧ status_ipv4 (Some a)) ∧
  (∀ sub, sub ∈ subnets → plain (Namespace (sn_meta sub)) = true ∧ plain (Name (sn_meta sub)) = true ∧ validated sub).

Lemma listed_locks owner l ipl :
  lockByIndex (ipam_listers att_ix subnet_ix lock_ix) owner = inr l →
  ipl ∈ l ↔ ipl ∈ locks ∧ owner ∈ OwningAttachments (ipl_meta ipl).
Proof. intros El. exact (ByIndex_keys "owningAttachment" _ owner l eq_refl El ipl). Qed.

Lemma listed_attachments sn l a :
  netattByIndex (ipam_listers att_ix subnet_ix lock_ix) sn = inr l → a ∈ l ↔ a ∈ atts ∧ SubnetOf (na_Spec a) = sn.
Proof.
  intros El. rewrite (ByIndex_keys "subnet" AttachmentSubnets sn l eq_refl El a). unfold AttachmentSubnets.
  rewrite list_elem_of_singleton. naive_solver.
Qed.

(** The assumption that the theorems of [IpamCorrect] make of the caches. *)
Lemma listers_fit : caches_fine → listers_ok (ipam_listers att_ix subnet_ix lock_ix).
Proof.
  intros [Ha Hs]. split.
  - intros ns name a E.
    destruct (Get_named na_meta attachment_indices atts att_ix "networkattachment" ns name a) as [Hin Hk]; [|exact E|].
    + intros b Hb. by destruct (Ha b Hb) as (? & ? & _).
    + split; [exact Hk|by apply Ha].
  - intros ns name sub E. destruct (Get_named sn_meta (λ _, None) subnets subnet_ix "subnet" ns name sub) as [Hin Hk]; [|exact E|].
    + intros b Hb. by destruct (Hs b Hb) as (? & ? & _).
    + apply validated_fine. by apply Hs.
Qed.

Lemma listed_attachment a :
  a ∈ atts → Namespace (na_meta a) ≠ "" →
  netattLister (ipam_listers att_ix subnet_ix lock_ix) (Namespace (na_meta a)) (Name (na_meta a)) = inr a.
Proof.
  intros Hin Hn. simpl. unfold Get. simpl. pose proof (GetByKey_holds (meta := na_meta) a Hin) as E.
  unfold MetaNamespaceKey in E. destruct (String.eqb_spec (Namespace (na_meta a)) ""); [done|]. by rewrite E.
Qed.

(** C36: over informer caches that hold objects with proper names, attachments without an IPv6 address
    and subnets that the API server has validated, the listers and indexers give the controller
    what its theorems assume: an attachment or a subnet is found under its own namespace and name
    only, attachments are found, the VNI and the block of each subnet are good, the lock index
    lists exactly the locks that refer to an owner of that name, and the attachment index exactly
    the attachments of a subnet of that name, both in whatever namespace. *)
Theorem ipam_caches :
  caches_fine →
  let L := ipam_listers att_ix subnet_ix lock_ix in
  listers_ok L ∧
  (∀ a, a ∈ atts → Namespace (na_meta a) ≠ "" → netattLister L (Namespace (na_meta a)) (Name (na_meta a)) = inr a) ∧
  (∀ owner l, lockByIndex L owner = inr l → ∀ ipl, ipl ∈ l ↔ ipl ∈ locks ∧ owner ∈ OwningAttachments (ipl_meta ipl)) ∧
  (∀ sn l, netattByIndex L sn = inr l → ∀ a, a ∈ l ↔ a ∈ atts ∧ SubnetOf (na_Spec a) = sn).
Proof.
  intros Hf L. split; [by apply listers_fit|]. split; [apply listed_attachment|].
  split; intros ? ? E ?; [by apply listed_locks|by apply listed_attachments].
Qed.

End Controller.

(** ** An indexer over a list *)

Definition plain_indexer {A} (meta : A → ObjectMeta) (indices : string → option (A → list string)) (contents : list A)
    : Indexer A :=
  MkIndexer _ (λ k, inr (List.find (λ a, String.eqb (MetaNamespaceKey (meta a)) k) contents))
    (λ i v, match indices i with
            | Some f => inr (List.filter (λ a, bool_decide (v ∈ f a)) contents)
            | None => inl (Errorf ("Index with name " +:+ i +:+ " does not exist"))
            end)
    (λ sel, (List.filter (λ a, sel (Labels (meta a))) contents, None))
    (λ ns sel, (List.filter (λ a, String.eqb (Namespace (meta a)) ns && sel (Labels (meta a))) contents, None)).

Lemma elem_of_filtered {A} (f : A → bool) l a : a ∈ List.filter f l ↔ a ∈ l ∧ f a = true.
Proof. by rewrite list_elem_of_In, List.filter_In, <- list_elem_of_In. Qed.

Lemma plain_indexer_laws {A} (meta : A → ObjectMeta) indices contents :
  NoDup ((λ a, MetaNamespaceKey (meta a)) <$> contents) →
  IndexerLaws meta indices contents (plain_indexer meta indices contents).
Proof.
  intros Hnd. split.
  - intros k a [= E]. apply List.find_some in E as [Hin Hk%String.eqb_eq]. by rewrite list_elem_of_In.
  - intros a Hin. simpl. f_equal. induction contents as [|b l IH]; [by apply elem_of_nil in Hin|]. simpl.
    apply NoDup_cons in Hnd as [Hb Hnd]. destruct (String.eqb_spec (MetaNamespaceKey (meta b)) (MetaNamespaceKey (meta a))) as [E|E].
    + apply elem_of_cons in Hin as [->|Hin]; [done|]. destruct Hb. rewrite E. by apply (list_elem_of_fmap_2 (λ a, MetaNamespaceKey (meta a))).
    + apply elem_of_cons in Hin as [->|Hin]; [done|]. by apply IH.
  - intros i f v l Ei. simpl. rewrite Ei. intros [= <-] a. by rewrite elem_of_filtered, bool_decide_eq_true.
  - intros sel l [= <-] a. apply (elem_of_filtered (λ a, sel (Labels (meta a)))).
  - intros ns sel l _ [= <-] a. etrans; [apply (elem_of_filtered (λ a, _))|].
    by rewrite andb_true_iff, String.eqb_eq.
Qed.

End KosListers.
