(* ===== verification/IpamHistory.v ===== *)
(** * The IPAM controller at work

    The controller as an event machine: the notifications of its informers and its work
    items, in any order, from its start.  [IpamCorrect] says what each does; here is what
    holds of all of them together. *)

From S2P Require Import Prelude GoStr GoNet ApiTypes UInt32Set SubnetStrategy IpLock KosApi Ipam IpamCorrect IpamCache.
Import GoNet Ipam IpamCorrect IpamCache.

Module IpamHistory.

Section History.
Context {S W : Type} `{UInt32Set S, !UInt32SetChooser S, !SetLaws S, !ChooserLaws S}.
Context `{KosClient W, !KosLaws W}.
Variable new_set : S.
Hypothesis new_set_ok : set_ok new_set.
Hypothesis new_set_empty : ∀ x, ¬ set_mem new_set x.
Variable fuel : nat.
Hypothesis settles : server_settles (W := W) fuel.
#[local] Abbreviation St := (@State S W).

(** What happens: notifications, each with what the caches show then, the deletions
    with the object or with a tombstone that wraps it; work items with
    their random draws; and other clients of the server. *)
Inductive Event :=
| SubnetCreate (L : Listers) (subnet : Subnet)
| SubnetUpdate (L : Listers) (old subnet : Subnet)
| SubnetDelete (L : Listers) (tombstone : bool) (subnet : Subnet)
| AttachmentCreate (att : NetworkAttachment)
| AttachmentUpdate (old att : NetworkAttachment)
| AttachmentDelete (tombstone : bool) (att : NetworkAttachment)
| LockCreate (ipl : IPLock)
| LockUpdate (old ipl : IPLock)
| LockDelete (tombstone : bool) (ipl : IPLock)
| WorkItem (nsn : NSN) (r : rng) (L : Listers)
| Elsewhere (change : W → W).

(** What the informer hands over. *)
Definition wrapped {A} (tombstone : bool) (a : A) : notified A :=
  if tombstone then DeletedFinalStateUnknown (Object a) else Object a.

Definition handle (e : Event) : M St unit :=
  match e with
  | SubnetCreate L subnet => OnSubnetCreate L (Object subnet)
  | SubnetUpdate L old subnet => OnSubnetUpdate L (Object old) (Object subnet)
  | SubnetDelete L tombstone subnet => OnSubnetDelete L (wrapped tombstone subnet)
  | AttachmentCreate att => OnAttachmentCreate (Object att)
  | AttachmentUpdate old att => OnAttachmentUpdate (Object old) (Object att)
  | AttachmentDelete tombstone att => OnAttachmentDelete (wrapped tombstone att)
  | LockCreate ipl => OnLockCreate new_set (Object ipl)
  | LockUpdate old ipl => OnLockUpdate new_set (Object old) (Object ipl)
  | LockDelete tombstone ipl => OnLockDelete new_set (wrapped tombstone ipl)
  | WorkItem nsn r L => processQueueItem new_set fuel r L nsn
  | Elsewhere change => modify (λ s, MkState (atts s) (addrCache s) (queue s) (change (world s)))
  end.

Fixpoint history (evs : list Event) : M St unit :=
  match evs with [] => mret tt | e :: evs => handle e;; history evs end.

(** The handlers for subnets and locks take no tombstone. *)
Definition panics (e : Event) : bool :=
  match e with SubnetDelete _ t _ | LockDelete t _ => t | _ => false end.

(** What an event says about an address. *)
Definition event_word (vx : Z * Z) (e : Event) : option bool :=
  match e with
  | LockCreate ipl | LockUpdate _ ipl => lock_word vx ipl true
  | LockDelete _ ipl => lock_word vx ipl false
  | _ => None
  end.

(** What a work item comes with: random draws in their range, and caches that hold what passed
    validation. *)
Definition event_ok (e : Event) : Prop :=
  match e with WorkItem nsn r L => rng_ok r ∧ listers_ok L | _ => True end.

(** The attachments that an event concerns. *)
Definition concerned (e : Event) : list NSN :=
  match e with
  | SubnetCreate L subnet | SubnetUpdate L _ subnet | SubnetDelete L _ subnet =>
      match netattByIndex L (Name (sn_meta subnet)) with inl _ => [] | inr l => AttNSN <$> l end
  | AttachmentCreate att | AttachmentUpdate _ att | AttachmentDelete _ att => [AttNSN att]
  | LockCreate ipl | LockUpdate _ ipl | LockDelete _ ipl =>
      match parseIPLockName (Name (ipl_meta ipl)) with
      | None => []
      | Some _ => pair (Namespace (ipl_meta ipl)) <$> OwningAttachments (ipl_meta ipl)
      end
  | WorkItem _ _ _ | Elsewhere _ => []
  end.

Definition item_of (e : Event) : list NSN := match e with WorkItem nsn _ _ => [nsn] | _ => [] end.

(** The calls on the work queue that an event leads to, from state [s]. *)
Definition queue_calls (e : Event) (s : St) (calls : list QueueCall) : Prop :=
  match e with
  | WorkItem nsn r L => ∃ err s1, processNetworkAttachment new_set fuel r L nsn.1 nsn.2 s = Ok (err, s1) ∧
      calls = [match err with None => QForget nsn | Some _ => QAddRateLimited nsn end; QDone nsn]
  | _ => calls = QAdd <$> concerned e
  end.

(** What one event does: the cache takes over what it says and loses nothing else, the queue gets its
    calls, and the local data stays, but for that of the attachment of a work item. *)
Definition handled (e : Event) (s s' : St) : Prop :=
  cache_ok s' ∧
  (∀ v x, match event_word (v, x) e with
          | Some b => cached s' v x ↔ b = true
          | None => cached s v x → cached s' v x
          end) ∧
  (∃ calls, queue s' = queue s ++ calls ∧ queue_calls e s calls) ∧
  ∀ nsn, nsn ∉ item_of e → atts s' !! nsn = atts s !! nsn.

(** Handlers that only put what they concern into the queue. *)
Lemma enqueue_handled e l s :
  cache_ok s → (∀ vx, event_word vx e = None) → queue_calls e s (QAdd <$> l) →
  runs (enqueue_all l) s (λ _ s', handled e s s').
Proof.
  intros Hok Hn Hq. apply enqueue_all_runs. intros s' Ea Ec _ Eq.
  split; [unfold cache_ok; by rewrite Ec|]. split; [|split].
  - intros v x. rewrite Hn. by apply (cache_grows_eq s s' Ec).
  - eexists. by rewrite Eq.
  - intros. by rewrite Ea.
Qed.

(** Locks come and go. *)
Lemma lock_handled e ipl b s :
  cache_ok s → (∀ vx, event_word vx e = lock_word vx ipl b) →
  queue_calls e s (QAdd <$> match parseIPLockName (Name (ipl_meta ipl)) with
    | None => []
    | Some _ => pair (Namespace (ipl_meta ipl)) <$> OwningAttachments (ipl_meta ipl)
    end) →
  runs (OnLockNotify new_set ipl b) s (λ _ s', handled e s s').
Proof.
  intros Hok Hw Hq. eapply runs_conseq; [by apply OnLockNotify_word|].
  intros _ s' (Hok' & Ea & _ & Eq & Hc). split; [done|]. split; [|split; [by eexists|intros; by rewrite Ea]].
  intros v x. specialize (Hc v x). rewrite Hw. destruct (lock_word (v, x) ipl b); [done|]. apply Hc.
Qed.

(** A worker takes an item. *)
Lemma item_handled nsn r L s :
  cache_ok s → rng_ok r → listers_ok L →
  runs (processQueueItem new_set fuel r L nsn) s (λ _ s', handled (WorkItem nsn r L) s s').
Proof.
  intros Hok Hr HL.
  pose proof (process_touches new_set new_set_ok new_set_empty fuel r L nsn s Hok Hr settles HL) as Hp.
  destruct (runs_inv _ _ _ Hp) as (err & s1 & E & _ & _ & Ha & Hg).
  eapply runs_conseq; [by apply processQueueItem_spec|].
  intros [] s' (Hok' & err' & s1' & E' & Eq & Ea & Ec & _). rewrite E in E'. injection E' as <- <-.
  split; [done|]. split.
  - intros v x Hx. by apply (cache_grows_eq s1 s' Ec), Hg.
  - split; [by eexists; split; [done|]; eexists err, s1|].
    intros k Hk. rewrite Ea. apply Ha. intros ->. apply Hk. simpl. by apply list_elem_of_singleton.
Qed.

Lemma event_handled e s :
  cache_ok s → event_ok e →
  if panics e then ∃ msg, handle e s = Panic msg else runs (handle e) s (λ _ s', handled e s s').
Proof.
  intros Hok He. destruct e as [L sub|L old sub|L [] sub|att|old att|t att|ipl|old ipl|[] ipl|nsn r L|f]; simpl;
    try by eexists.
  1-3: apply runs_bind; (eapply runs_lift; [done|]); unfold OnSubnetNotify;
    destruct (netattByIndex L (Name (sn_meta sub))) as [?|l] eqn:El;
    [apply (enqueue_handled _ [])|apply enqueue_handled]; try done; by simpl; rewrite ?El.
  - by apply (enqueue_handled (AttachmentCreate att) [AttNSN att]).
  - by apply (enqueue_handled (AttachmentUpdate old att) [AttNSN att]).
  - by destruct t; apply (enqueue_handled (AttachmentDelete _ att) [AttNSN att]).
  - apply runs_bind. eapply runs_lift; [done|]. by apply lock_handled.
  - apply runs_bind. eapply runs_lift; [done|]. by apply lock_handled.
  - apply runs_bind. eapply runs_lift; [done|]. by apply lock_handled.
  - destruct He. by apply item_handled.
  - apply runs_modify. split; [done|]. split; [intros v x Hx; exact Hx|].
    split; [exists []; by rewrite app_nil_r|done].
Qed.

(** What the controller keeps along a history: every address whose last word is a lock that exists is in
    the cache, and there is local data only for attachments that were work items. *)
Definition inv (evs : list Event) (s : St) : Prop :=
  cache_ok s ∧ (∀ v x, last_word (event_word (v, x)) evs = true → cached s v x) ∧
  ∀ nsn, is_Some (atts s !! nsn) → nsn ∈ evs ≫= item_of.

Lemma handled_inv evs e s s' : inv evs s → handled e s s' → inv (evs ++ [e]) s'.
Proof.
  intros (_ & Hl & Ha) (Hok & Hc & _ & Hk). split; [done|]. split.
  - intros v x. rewrite last_word_snoc. specialize (Hc v x). destruct (event_word (v, x) e); simpl; [by apply Hc|].
    intros Hx. by apply Hc, Hl.
  - intros nsn Hn. rewrite bind_app. simpl. rewrite app_nil_r, elem_of_app.
    destruct (decide (nsn ∈ item_of e)); [by right|]. left. apply Ha. by rewrite <- Hk.
Qed.

Lemma evs_history_runs past evs s :
  inv past s → Forall event_ok evs →
  if existsb panics evs then ∃ msg, history evs s = Panic msg
  else runs (history evs) s (λ _ s', inv (past ++ evs) s').
Proof.
  revert past s. induction evs as [|e evs IH]; intros past s Hs Ho; simpl.
  - apply runs_ret. by rewrite app_nil_r.
  - apply Forall_cons in Ho as [He Ho]. pose proof Hs as (Hok & _). pose proof (event_handled e s Hok He) as Hh.
    destruct (panics e); simpl.
    { destruct Hh as [msg E]. exists msg. unfold mbind, M_bind. by rewrite E. }
    destruct (runs_inv _ _ _ Hh) as ([] & s1 & E & Hd).
    specialize (IH (past ++ [e]) s1 (handled_inv _ _ _ _ Hs Hd) Ho). rewrite <- app_assoc in IH.
    destruct (existsb panics evs).
    + destruct IH as [msg E2]. exists msg. unfold mbind, M_bind. by rewrite E.
    + apply runs_bind. by eapply runs_eq.
Qed.


End History.
End IpamHistory.
