(* ===== verification/IpamRuns.v ===== *)
(** * Concrete runs of the IPAM controller

    The controller on the sorted set over plain lists and the plain store: a
    normal assignment, and two runs in which the code does not do what its
    documentation promises. *)

From S2P Require Import Prelude GoStr UInt32Set SortedSet GoNet ApiTypes SubnetStrategy IpLock.
From S2P Require Import KosApi Ipam IpamCorrect IpamCache KosListers IpamHistory.
Import Ipam IpamCorrect IpamCache KosListers IpamHistory.

Module IpamRuns.

Abbreviation set := (SortedSet.t (list ssnode)).
Definition new_set : set := SortedSet.NewSortedUInt32Set 1.
Abbreviation St := (@State set Store).

(** The first number of the first gap, every time. *)
Definition rng0 : rng := Rng (λ _, 0) (λ _, 0).

Lemma rng0_ok : rng_ok rng0.
Proof. intros n Hn. simpl. lia. Qed.

Definition meta (ns name uid : string) : ObjectMeta := MkMeta ns name uid "7" 0 [] ∅ false.

Definition att (ns name uid : string) : NetworkAttachment :=
  MkNA (meta ns name uid) (MkNASpec "node1" "sn" [] [])
    (MkNAStatus (MkNAErrors [] []) "" 0 "" "" "" "" None).

Definition subnet : Subnet := MkSubnet (meta "nsA" "sn" "su") (MkSubnetSpec "10.0.0.0/29" 1) [].

Definition lock_of (ns lname owner uid ouid : string) : IPLock :=
  MkIPLock (MkMeta ns lname uid "7" 0
    [MkOwnerRef SchemeGroupVersion "NetworkAttachment" owner ouid (Some true)] ∅ false) "sn".

(** Informer caches with one subnet, and the given attachments and locks. *)
Definition listers (atts : list NetworkAttachment) (locks : list IPLock) : Listers :=
  MkListers
    (λ ns name, match List.find (λ a, bool_decide (AttNSN a = (ns, name))) atts with
                | Some a => inr a | None => inl not_found end)
    (λ ns name, if bool_decide ((ns, name) = ("nsA", "sn")) then inr subnet else inl not_found)
    (λ sn, inr (List.filter (λ a, bool_decide (sn ∈ AttachmentSubnets a)) atts))
    (λ owner, inr (List.filter (λ l, bool_decide (owner ∈ OwningAttachments (ipl_meta l))) locks)).

Definition start (w : Store) : St := MkState ∅ ∅ [] w.

Definition foo : NetworkAttachment := att "nsA" "foo" "u1".
Definition world1 : Store := MkStore ∅ {[("nsA", "foo") := foo]} 10 ∅.

Definition run_foo (w : Store) : res (option error * St) :=
  processNetworkAttachment new_set 1 rng0 (listers [foo] []) "nsA" "foo" (start w).

(** The status of attachment foo after a run. *)
Definition status_of (r : res (option error * St)) : option (string * string * Z) :=
  match r with
  | Ok (None, s) =>
      a ← s_atts (world s) !! ("nsA", "foo");
      Some (StatusIPv4 (na_Status a), LockUID (na_Status a), AddressVNI (na_Status a))
  | _ => None
  end.
Definition lock_names (r : res (option error * St)) : option (list NSN) :=
  match r with Ok (_, s) => Some (fst <$> map_to_list (s_locks (world s))) | _ => None end.

(** A normal run: the first usable address of the block is locked and recorded. *)
Example run_foo_assigns :
  status_of (run_foo world1) = Some ("10.0.0.2", "10", 1) ∧
  lock_names (run_foo world1) = Some [("nsA", "v1-1-10-0-0-2")].
Proof. split; vm_compute; reflexivity. Qed.

(** The server answers the creation of the lock with an Invalid error. *)
Definition world_invalid : Store :=
  MkStore ∅ {[("nsA", "foo") := foo]} 10
    {[("nsA", "v1-1-10-0-0-2") := MkError ReasonInvalid "invalid name"]}.

(** After a permanent error creating the lock the controller reports success
    and records the address in the status although no lock supports it. *)
Lemma permanent_error_records_unlocked_address :
  status_of (run_foo world_invalid) = Some ("10.0.0.2", "", 1) ∧
  lock_names (run_foo world_invalid) = Some [].
Proof. split; vm_compute; reflexivity. Qed.

(** Locks of two attachments called foo, in two namespaces. *)
Definition lockA : IPLock := lock_of "nsA" "v1-1-10-0-0-2" "foo" "l1" "u1".
Definition lockB : IPLock := lock_of "nsB" "v1-2-10-0-0-2" "foo" "l2" "u2".
Definition world2 : Store :=
  MkStore {[("nsA", "v1-1-10-0-0-2") := lockA; ("nsB", "v1-2-10-0-0-2") := lockB]}
    {[("nsB", "foo") := att "nsB" "foo" "u2"]} 20 ∅.

Definition run_deleted : res (option error * St) :=
  processNetworkAttachment new_set 1 rng0 (listers [att "nsB" "foo" "u2"] [lockA; lockB]) "nsA" "foo"
    (start world2).

(** Processing the deletion of nsA/foo also deletes the lock that nsB/foo, which
    still exists, holds in its own namespace. *)
Lemma deletion_releases_other_namespace :
  (∃ s, run_deleted = Ok (None, s) ∧ s_locks (world s) = ∅ ∧
     s_atts (world s) !! ("nsB", "foo") = Some (att "nsB" "foo" "u2")) ∧
  (GetOwner (ipl_meta lockB) "NetworkAttachment").2 = "u2".
Proof. split; [eexists; split; [vm_compute; reflexivity|split; vm_compute; reflexivity]|reflexivity]. Qed.

(** ** The general theorems at these inputs *)

Lemma new_set_facts : set_ok new_set ∧ ∀ x, ¬ set_mem new_set x.
Proof. apply (SortedSet.new_inv (T := list ssnode) 1). Qed.

Lemma start_ok w : cache_ok (start w).
Proof. apply map_Forall_empty. Qed.

Lemma store_settles : server_settles (W := Store) 1.
Proof. intros ipl w. apply settles_quiet. by intros ? ? ->. Qed.

Lemma listers_fine atts locks :
  Forall (λ a, StatusIPv4 (na_Status a) = "") atts → listers_ok (listers atts locks).
Proof.
  intros Hall. split.
  - intros ns name a. simpl. destruct (List.find _ _) as [b|] eqn:E; [|done]. intros [= ->].
    apply List.find_some in E as [Hin Hn]. apply bool_decide_eq_true in Hn. split; [done|].
    rewrite Forall_forall in Hall. intros a' [= <-] Hp. destruct Hp.
    rewrite (Hall a); [vm_compute; reflexivity|by apply list_elem_of_In].
  - intros ns name sn. simpl. case_bool_decide; [|done]. intros [= <-]. split.
    + unfold vni_of, maxVNI. simpl. lia.
    + intros (ip & net & E & ET). vm_compute in E. injection E as <- <-. vm_compute in ET. done.
Qed.

Lemma listers_fine_foo : listers_ok (listers [foo] []).
Proof. apply listers_fine. by repeat constructor. Qed.


Lemma pickAndLockAddress_witness :
  runs (pickAndLockAddress new_set 1 rng0 "nsA" "foo" foo "sn" 1 167772160 167772167) (start world1)
    (λ res s', res.2 = None → 167772162 ≤ pl_addrU res.1.1 ≤ 167772166).
Proof.
  refine (runs_conseq _ _ _ _ (pickAndLockAddress_spec new_set (proj1 new_set_facts)
    (proj2 new_set_facts) 1 rng0 "nsA" "foo" foo "sn" 1 167772160 167772167 (start world1)
    _ _ _ _ _ _ _) _).
  - apply start_ok.
  - apply rng0_ok.
  - apply store_settles.
  - unfold maxVNI. lia.
  - unfold is_u32. lia.
  - unfold is_u32. lia.
  - lia.
  - intros [[lock ip] err] s' (_ & He). simpl. intros Herr.
    destruct (He Herr) as (_ & Hr & _). lia.
Defined.

Lemma one_lock_none : one_lock_per_address ∅.
Proof. intros k1 k2 v x [[? Hk] _]. by rewrite lookup_empty in Hk. Qed.

Lemma one_lock_A : one_lock_per_address (after ∅ (lockA, true)).
Proof.
  intros k1 k2 v x [[? Hk1] _] [[? Hk2] _]. unfold after in *. simpl in *.
  apply lookup_insert_Some in Hk1 as [[<- _]|[_ ?]]; [|done].
  by apply lookup_insert_Some in Hk2 as [[<- _]|[_ ?]].
Qed.

(** Two locks of one address (in two namespaces): the deletion of one takes the address out of the
    cache, though the other exists; such a history is not one of those with one lock per address. *)
Definition lockA2 : IPLock := lock_of "nsB" "v1-1-10-0-0-2" "bar" "l3" "u3".

Lemma cache_follows_locks_witness :
  runs (notify_all new_set [Seen lockA; Changed lockA lockA2; Gone false lockA]) (start world1) (λ _ s',
    ¬ cached s' 1 167772162) ∧
  runs (notify_all new_set [Seen lockA; Changed lockA lockA]) (start world1) (λ _ s',
    cached s' 1 167772162 ∧
    (history_ok ∅ (about <$> [Seen lockA; Changed lockA lockA]) → ∀ v x, cached s' v x ↔
       ∃ k, locks_addr (foldl after ∅ (about <$> [Seen lockA; Changed lockA lockA])) k v x)) ∧
  history_ok ∅ (about <$> [Seen lockA; Changed lockA lockA]) ∧
  ∃ msg, notify_all new_set [Seen lockA; Gone true lockA] (start world1) = Panic msg.
Proof.
  split; [|split; [|split]].
  - refine (runs_conseq _ _ _ _ (cache_follows_locks new_set (proj1 new_set_facts) (proj2 new_set_facts)
      [Seen lockA; Changed lockA lockA2; Gone false lockA] world1) _).
    intros _ s' (_ & Hc & _). rewrite Hc. vm_compute. done.
  - refine (runs_conseq _ _ _ _ (cache_follows_locks new_set (proj1 new_set_facts) (proj2 new_set_facts)
      [Seen lockA; Changed lockA lockA] world1) _).
    intros _ s' (_ & Hc & He). split; [|exact He]. apply Hc. vm_compute. done.
  - pose proof one_lock_none as H0. pose proof one_lock_A as H1.
    assert (E2 : after (after ∅ (lockA, true)) (lockA, true) = after ∅ (lockA, true)) by reflexivity.
    unfold about. cbn [fmap list_fmap history_ok]. rewrite E2. by split_and!.
  - apply (cache_follows_locks new_set (proj1 new_set_facts) (proj2 new_set_facts)
      [Seen lockA; Gone true lockA] world1).
Defined.

(** An attachment is created and gets its lock, which the informer shows; an old object is
    processed again. *)
Definition evs_foo : list (Event (W := Store)) :=
  [AttachmentCreate foo; WorkItem ("nsA", "foo") rng0 (listers [foo] []); LockCreate lockA;
   Elsewhere (λ w, w); WorkItem ("nsA", "foo") rng0 (listers [foo] [])].

Lemma evs_foo_ok e : event_ok e → Forall event_ok (evs_foo ++ [e]).
Proof.
  pose proof listers_fine_foo as HL. pose proof rng0_ok as Hr. intros He. unfold evs_foo. cbn [app]. rewrite !Forall_cons. by split_and!.
Qed.


(** The caches of an informer of attachments, of subnets and of locks. *)
Lemma ipam_caches_witness :
  listers_ok (ipam_listers (plain_indexer na_meta attachment_indices [foo]) (plain_indexer sn_meta (λ _, None) [subnet])
    (plain_indexer ipl_meta lock_indices [lockA; lockB])).
Proof.
  refine (proj1 (@ipam_caches [foo] [subnet] [lockA; lockB] (plain_indexer na_meta attachment_indices [foo])
    (plain_indexer sn_meta (λ _, None) [subnet]) (plain_indexer ipl_meta lock_indices [lockA; lockB]) _ _ _ _)).
  1-3: apply plain_indexer_laws; apply (bool_decide_unpack _); vm_compute; exact I.
  split.
  - intros a ->%list_elem_of_singleton. split; [reflexivity|]. split; [reflexivity|]. intros a [= <-] Hp. by destruct Hp.
  - intros sb ->%list_elem_of_singleton. split; [reflexivity|]. split; [reflexivity|]. exists []. vm_compute. reflexivity.
Defined.

(** One usable lock and one outside the subnet's block: the second is released. *)
Definition lock_out : IPLock := lock_of "nsA" "v1-1-10-9-0-2" "foo" "l9" "u1".
Definition lock_in : IPLock := lock_of "nsA" "v1-1-10-0-0-2" "foo" "l1" "u1".
(** And a lock of an earlier edition of the attachment, which stays. *)
Definition lock_old : IPLock := lock_of "nsA" "v1-1-10-0-0-3" "foo" "l0" "u0".

Definition found_locks : list IPLock := [lock_in; lock_out; lock_old].
Definition world_locks : Store :=
  MkStore (list_to_map ((λ l, (lock_nsn l, l)) <$> found_locks)) {[("nsA", "foo") := foo]} 20 ∅.

Definition run_release : M St Analysis :=
  release_and_choose (listers [foo] found_locks) "nsA" "foo" (Some foo) false "sn" "." 1 167772160 167772167.

Example run_release_keeps :
  match run_release (start world_locks) with
  | Ok (a, s') => Some (pl_name (kept_lock a), fst <$> map_to_list (s_locks (world s')))
  | Panic _ => None
  end = Some ("v1-1-10-0-0-2", [("nsA", "v1-1-10-0-0-3"); ("nsA", "v1-1-10-0-0-2")]).
Proof. vm_compute. reflexivity. Qed.


End IpamRuns.
