(* ===== verification/IpamMain.v ===== *)
(** * The process of the IPAM controller

    [cmd/controllers/ipam/main.go] with [NewIPAMController] and [Run] of [ipam.go]: how the
    controller of [Ipam] gets its informers and workers.  Every call on the informer library
    is in the state ([Informers.State]); configuration files, clients and whether the caches
    sync are the environment's answers. *)

From S2P Require Import Prelude ApiTypes Ipam Informers.
Import Informers.

Module IpamMain.

(** The signals that a process has got: is its stop channel closed, and has it exited? *)
Definition StopOnSignals (signals : nat) : bool * option Z :=
  match signals with
  | O => (false, None)
  | 1%nat => (true, None)
  | _ => (true, Some 1)
  end.

Record Flags := MkFlags { kubeconfigFilename : string; workers : Z; clientQPS : Z; clientBurst : Z }.

Definition defaults : Flags := MkFlags "" 2 100 200.

(** [rest.Config], over the rest [C] of what is in the configuration file. *)
Record Config (C : Type) := MkConfig { cfg : C; QPS : Z; Burst : Z; Host : string; Insecure : bool }.
Arguments MkConfig {C}.
Arguments Host {C}.
Arguments Insecure {C}.

Section Main.
Context {C S W : Type}.

Record Env := MkEnv {
  BuildConfigFromFlags : string → error + Config C;
  NewForConfig : Config C → option error;
  synced : bool }.

(** ** ipam.go *)

(** The fields of the controller that are wired; the others are in [Ipam.State]. *)
Record IPAMController := MkController {
  subnetInformer : nat; subnetLister : nat; netattInformer : nat; netattLister : nat;
  lockInformer : nat; lockLister : nat; ctlr_workers : Z; fields : @Ipam.State S W }.

Definition NewIPAMController (world : W) (subnetI subnetL netattI netattL lockI lockL : nat) (n : Z)
    : error + IPAMController :=
  inr (MkController subnetI subnetL netattI netattL lockI lockL n (Ipam.MkState ∅ ∅ [] world)).

Fixpoint launch_workers (n : nat) : M State unit :=
  match n with O => mret tt | Datatypes.S n => call GoWorker;; launch_workers n end.

(** [Run], until the workers are at work; then it only waits for the stop channel. *)
Definition Run (E : Env) (ctlr : IPAMController) : M State (option error) :=
  call (AddIndexers (netattInformer ctlr) ["subnet"]);;
  call (AddIndexers (lockInformer ctlr) ["owningAttachment"]);;
  call (AddEventHandler (subnetInformer ctlr));;
  call (AddEventHandler (netattInformer ctlr));;
  call (AddEventHandler (lockInformer ctlr));;
  call (GoRun (lockInformer ctlr));;
  call (GoRun (netattInformer ctlr));;
  call (GoRun (subnetInformer ctlr));;
  call (WaitForCacheSync [subnetInformer ctlr; lockInformer ctlr; netattInformer ctlr]);;
  if synced E then
    launch_workers (Z.to_nat (ctlr_workers ctlr));;
    mret None
  else mret (Some (Errorf "Caches failed to sync")).

(** ** main.go *)

(** How far the process gets: an exit code, or the end of [Run], whose error is dropped. *)
Inductive Outcome := Exit (code : Z) | Ran (clientCfg : Config C) (ctlr : IPAMController).

Definition client_config (fl : Flags) (c : Config C) : Config C :=
  MkConfig (cfg _ c) (clientQPS fl) (clientBurst fl) "network-api:443" true.

(** The informers and listers that main asks for, after it has started the factory. *)
Definition request_informers : M State (nat * nat * nat * nat * nat * nat) :=
  sif ← NewSharedInformerFactory 0;
  subnets ← Network sif Subnets;
  netatts ← Network sif NetworkAttachments;
  locks ← Network sif IPLocks;
  Start sif;;
  subnetI ← Informer_ subnets;
  subnetL ← Lister subnets;
  netattI ← Informer_ netatts;
  netattL ← Lister netatts;
  lockI ← Informer_ locks;
  lockL ← Lister locks;
  mret (subnetI, subnetL, netattI, netattL, lockI, lockL).

Definition main (fl : Flags) (E : Env) (world : W) : M State Outcome :=
  match BuildConfigFromFlags E (kubeconfigFilename fl) with
  | inl _ => mret (Exit 2)
  | inr c =>
      let clientCfg := client_config fl c in
      match NewForConfig E clientCfg with
      | Some _ => mret (Exit 3)
      | None =>
          '(subnetI, subnetL, netattI, netattL, lockI, lockL) ← request_informers;
          match NewIPAMController world subnetI subnetL netattI netattL lockI lockL (workers fl) with
          | inl _ => mret (Exit 9)
          | inr ctlr => Run E ctlr;; mret (Ran clientCfg ctlr)
          end
      end
  end.

Lemma launch_workers_runs n s (Q : unit → State → Prop) :
  Q tt (MkState (made s) (factories s) (calls s ++ repeat GoWorker n)) → runs (launch_workers n) s Q.
Proof.
  revert s. induction n as [|n IH]; intros s HQ; simpl in *.
  - mstep. rewrite app_nil_r in HQ. by destruct s.
  - mstep. unfold call. mstep. apply IH. simpl. by rewrite <- app_assoc.
Qed.

(** ** What the process does *)

Definition workers_of (cs : list Call) : nat := length (filter (GoWorker =.) cs).

Lemma workers_of_workers n : workers_of (repeat GoWorker n) = n.
Proof. unfold workers_of. induction n as [|n IH]; [done|]. cbn [repeat]. rewrite filter_cons_True by done. simpl. by f_equal. Qed.

Lemma untouched_workers i n : forallb (untouched i) (repeat GoWorker n) = true.
Proof. by induction n. Qed.

(** The informers that main asks for are different ones, each also read by its lister; the
    factory, started before there are any, runs none. *)
Lemma request_runs (Q : nat * nat * nat * nat * nat * nat → State → Prop) :
  (∀ s, calls s = [] → caches s 0 Subnets → caches s 1 NetworkAttachments → caches s 2 IPLocks →
    Q (0, 0, 1, 1, 2, 2)%nat s) →
  runs request_informers init Q.
Proof.
  intros HQ. eapply runs_eq; [vm_compute; reflexivity|]. apply HQ; [done|..]; by eexists.
Qed.

(** The calls of [Run], before the workers. *)
Definition run_calls (ctlr : IPAMController) : list Call :=
  [AddIndexers (netattInformer ctlr) ["subnet"]; AddIndexers (lockInformer ctlr) ["owningAttachment"];
   AddEventHandler (subnetInformer ctlr); AddEventHandler (netattInformer ctlr); AddEventHandler (lockInformer ctlr);
   GoRun (lockInformer ctlr); GoRun (netattInformer ctlr); GoRun (subnetInformer ctlr);
   WaitForCacheSync [subnetInformer ctlr; lockInformer ctlr; netattInformer ctlr]].

Lemma Run_runs E ctlr s (Q : option error → State → Prop) :
  Q (if synced E then None else Some (Errorf "Caches failed to sync"))
    (MkState (made s) (factories s) (calls s ++ run_calls ctlr ++
       if synced E then repeat GoWorker (Z.to_nat (ctlr_workers ctlr)) else [])) →
  runs (Run E ctlr) s Q.
Proof.
  intros HQ. unfold Run, call. repeat (mstep; try mstep). rewrite <- !app_assoc. simpl. destruct (synced E).
  - mstep. apply launch_workers_runs. mstep. by rewrite <- app_assoc.
  - by mstep.
Qed.

(** The process of the controller exits with 2 or 3, before it has made an informer, when it
    gets no configuration or no client, and never with 9.  Otherwise the controller it runs,
    with no data yet, has one informer for all subnets, one for all attachments and one for all
    locks, and its listers read the same caches; each informer has its handler and its index
    before it is run, and is run once, although the factory is started too; and the workers,
    as many as the flag says, start only after all three caches have synced. *)
Lemma ipam_process (fl : Flags) (E : Env) (world : W) :
  runs (main fl E world) init (λ o s,
    match o with
    | Exit code => made s = [] ∧ calls s = [] ∧
        match BuildConfigFromFlags E (kubeconfigFilename fl) with
        | inl _ => code = 2
        | inr c => code = 3 ∧ is_Some (NewForConfig E (client_config fl c))
        end
    | Ran clientCfg ctlr =>
        Host clientCfg = "network-api:443" ∧ fields ctlr = Ipam.MkState ∅ ∅ [] world ∧
        caches s (subnetInformer ctlr) Subnets ∧ subnetLister ctlr = subnetInformer ctlr ∧
        caches s (netattInformer ctlr) NetworkAttachments ∧ netattLister ctlr = netattInformer ctlr ∧
        caches s (lockInformer ctlr) IPLocks ∧ lockLister ctlr = lockInformer ctlr ∧
        AddIndexers (netattInformer ctlr) ["subnet"] ∈ calls s ∧
        AddIndexers (lockInformer ctlr) ["owningAttachment"] ∈ calls s ∧
        Forall (λ i, wired i (calls s) = true ∧ AddEventHandler i ∈ calls s)
          [subnetInformer ctlr; netattInformer ctlr; lockInformer ctlr] ∧
        waits_for [subnetInformer ctlr; netattInformer ctlr; lockInformer ctlr] (calls s) = true ∧
        workers_of (calls s) = (if synced E then Z.to_nat (workers fl) else 0)%nat
    end).
Proof.
  unfold main. destruct (BuildConfigFromFlags E (kubeconfigFilename fl)) as [e|c] eqn:Eb; [by mstep|].
  destruct (NewForConfig E (client_config fl c)) eqn:En; [mstep; by eauto|].
  mstep. apply request_runs. intros s Hc H0 H1 H2. simpl. mstep. apply Run_runs. mstep. rewrite Hc. simpl.
  set (ws := if synced E then _ else _).
  assert (Hu : ∀ i, forallb (untouched i) ws = true) by (intros i; destruct (synced E); [apply untouched_workers|done]).
  split_and!; try done; try set_solver.
  - repeat apply Forall_cons_2; try apply Forall_nil_2; (split; [|set_solver]); apply Hu.
  - transitivity (workers_of ws); [done|]. unfold ws. destruct (synced E); [apply workers_of_workers|done].
Qed.

End Main.
End IpamMain.
