(* ===== verification/Addresses.v ===== *)
(** * Who holds which address: the abstract system

    What the API server stores about addresses, as a value; the changes that the
    IPAM controller may make to it on behalf of one attachment, and those that
    everybody else makes (users, the connection agents, the garbage collector,
    operators), as step relations; and what these steps promise: no two
    attachments ever have the same address.  That the controller's code keeps to
    its steps is proved in [AddressSteps]. *)

From S2P Require Import Prelude GoStr GoNet ApiTypes SubnetStrategy IpLock KosApi.

Module Addresses.

(** The IPLocks and NetworkAttachments on the server, with the history that the
    server's promises are about: which lock each UID was given to and which
    resource versions attachments have had. *)
Record Shared := MkShared {
  sh_locks : gmap NSN IPLock;
  sh_atts : gmap NSN NetworkAttachment;
  sh_issued : gmap string (NSN * (string * string));   (* UID to key and owner *)
  sh_versions : gset string }.

Implicit Types (σ : Shared) (k : NSN) (a : NetworkAttachment).

Definition owner (ipl : IPLock) : string * string := GetOwner (ipl_meta ipl) "NetworkAttachment".
Definition uid (ipl : IPLock) : string := UID (ipl_meta ipl).
Definition version (a : NetworkAttachment) : string := ResourceVersion (na_meta a).

Definition put_lock (ipl : IPLock) σ : Shared :=
  MkShared (<[lock_nsn ipl := ipl]> (sh_locks σ)) (sh_atts σ)
    (<[uid ipl := (lock_nsn ipl, owner ipl)]> (sh_issued σ)) (sh_versions σ).
Definition drop_lock (key : NSN) σ : Shared :=
  MkShared (delete key (sh_locks σ)) (sh_atts σ) (sh_issued σ) (sh_versions σ).
Definition put_att k a σ : Shared :=
  MkShared (sh_locks σ) (<[k := a]> (sh_atts σ)) (sh_issued σ) ({[version a]} ∪ sh_versions σ).
Definition drop_att k σ : Shared :=
  MkShared (sh_locks σ) (delete k (sh_atts σ)) (sh_issued σ) (sh_versions σ).

(** ** Addresses and the locks behind them *)

Definition has_address a : Prop := StatusIPv4 (na_Status a) ≠ "".

(** The same edition of an attachment, with the same address. *)
Definition same_address a a' : Prop :=
  UID (na_meta a') = UID (na_meta a) ∧ StatusIPv4 (na_Status a') = StatusIPv4 (na_Status a) ∧
  LockUID (na_Status a') = LockUID (na_Status a) ∧ AddressVNI (na_Status a') = AddressVNI (na_Status a).

(** [n] is the name that the controller gives to the lock of an address. *)
Definition names (v x : Z) (n : string) : Prop :=
  0 ≤ v ≤ maxVNI ∧ is_u32 x ∧ makeIPLockName2 v (Uint32ToIPv4 x) = Ok n.

(** The lock [ipl] of name [n] is the one that the status of attachment [k] relies on. *)
Definition backs k a (n : string) (ipl : IPLock) : Prop :=
  ∃ x, names (AddressVNI (na_Status a)) x n ∧ StatusIPv4 (na_Status a) = GoNet.IP_String (Uint32ToIPv4 x) ∧
    uid ipl = LockUID (na_Status a) ∧ owner ipl = (k.2, UID (na_meta a)).

Definition backed σ k a : Prop := ∃ n ipl, sh_locks σ !! (k.1, n) = Some ipl ∧ backs k a n ipl.

(** ** The steps *)

Section Steps.

(** The namespace whose subnets use a VNI (there is one: [SubnetStrategy]). *)
Variable home : Z → string.

Definition lock_place (key : NSN) : Prop := ∃ v x, names v x key.2 ∧ home v = key.1.

(** A lock that was not there, under a new UID, in the place its address gives it. *)
Definition new_lock σ (ipl : IPLock) : Prop :=
  sh_locks σ !! lock_nsn ipl = None ∧ sh_issued σ !! uid ipl = None ∧ lock_place (lock_nsn ipl).

(** What the IPAM controller does for attachment [k]: it creates locks that [k]
    owns, deletes such locks unless the status of [k] relies on them, and writes
    the status of [k], an address only together with its lock. *)
Inductive controller_step k : Shared → Shared → Prop :=
| cs_lock σ ipl :
    new_lock σ ipl → (lock_nsn ipl).1 = k.1 → (owner ipl).1 = k.2 →
    controller_step k σ (put_lock ipl σ)
| cs_release σ n ipl :
    sh_locks σ !! (k.1, n) = Some ipl → (owner ipl).1 = k.2 →
    (∀ a, sh_atts σ !! k = Some a → has_address a → ¬ backs k a n ipl) →
    controller_step k σ (drop_lock (k.1, n) σ)
| cs_status σ a a' :
    sh_atts σ !! k = Some a → UID (na_meta a') = UID (na_meta a) → version a' ∉ sh_versions σ →
    (has_address a' → backed σ k a') →
    controller_step k σ (put_att k a' σ).

(** What the others do: users create attachments without an address and delete
    them, users and agents change attachments but not the address, operators
    create locks, and the garbage collector deletes the locks whose owner is gone. *)
Inductive outside_step : Shared → Shared → Prop :=
| os_create σ k a :
    sh_atts σ !! k = None → ¬ has_address a → version a ∉ sh_versions σ →
    outside_step σ (put_att k a σ)
| os_delete σ k : outside_step σ (drop_att k σ)
| os_change σ k a a' :
    sh_atts σ !! k = Some a → same_address a a' → version a' ∉ sh_versions σ →
    outside_step σ (put_att k a' σ)
| os_lock σ ipl : new_lock σ ipl → outside_step σ (put_lock ipl σ)
| os_collect σ key ipl :
    sh_locks σ !! key = Some ipl →
    (∀ a, sh_atts σ !! (key.1, (owner ipl).1) = Some a → UID (na_meta a) ≠ (owner ipl).2) →
    outside_step σ (drop_lock key σ).

Inductive system_step : Shared → Shared → Prop :=
| ss_controller k σ σ' : controller_step k σ σ' → system_step σ σ'
| ss_outside σ σ' : outside_step σ σ' → system_step σ σ'.

(** The steps of everything but the worker that processes [k]: the work queue
    hands an attachment to one worker at a time. *)
Inductive elsewhere k : Shared → Shared → Prop :=
| ew_controller k' σ σ' : k' ≠ k → controller_step k' σ σ' → elsewhere k σ σ'
| ew_outside σ σ' : outside_step σ σ' → elsewhere k σ σ'.

(** ** The invariant *)

(** Every lock is on record, and in its place; every attachment with an address
    has its lock. *)
Record inv σ : Prop := Inv {
  inv_locks key ipl : sh_locks σ !! key = Some ipl →
    lock_nsn ipl = key ∧ sh_issued σ !! uid ipl = Some (key, owner ipl);
  inv_issued u key o : sh_issued σ !! u = Some (key, o) → lock_place key;
  inv_versions k a : sh_atts σ !! k = Some a → version a ∈ sh_versions σ;
  inv_backed k a : sh_atts σ !! k = Some a → has_address a → backed σ k a }.

Lemma inv_empty : inv (MkShared ∅ ∅ ∅ ∅).
Proof. by split; intros ??; rewrite ?lookup_empty. Qed.

Lemma backs_same k a a' n ipl : same_address a a' → backs k a' n ipl → backs k a n ipl.
Proof. intros (Eu & Ei & El & Ev) (x & ? & ? & ? & ?). exists x. by rewrite <- Ev, <- Ei, <- El, <- Eu. Qed.

Lemma same_address_sym a a' : same_address a a' → same_address a' a.
Proof. by intros (?&?&?&?). Qed.

Lemma same_address_trans a1 a2 a3 : same_address a1 a2 → same_address a2 a3 → same_address a1 a3.
Proof. intros (?&?&?&?) (?&?&?&?). repeat split; congruence. Qed.

Lemma same_has a a' : same_address a a' → has_address a' → has_address a.
Proof. intros (_ & E & _). unfold has_address. by rewrite E. Qed.

(** Creating a lock under a new UID disturbs nothing. *)
Lemma put_lock_inv σ ipl : new_lock σ ipl → inv σ → inv (put_lock ipl σ).
Proof.
  intros (Hfree & Hnew & Hpl) [Hl Hi Hv Hb]. split; simpl.
  - intros key l [[<- <-]|[Hne Hk]]%lookup_insert_Some; [by rewrite lookup_insert_eq|].
    destruct (Hl _ _ Hk) as (? & Hi'). split; [done|].
    rewrite lookup_insert_ne; [done|]. intros E. by rewrite <- E, Hnew in Hi'.
  - intros u key o [[<- [= <- <-]]|[_ Hu]]%lookup_insert_Some; [done|by apply (Hi u key o)].
  - exact Hv.
  - intros k a Ha Had. destruct (Hb k a Ha Had) as (n & l & Hk & ?). exists n, l. split; [|done].
    simpl. rewrite lookup_insert_ne; [done|]. intros E. by rewrite <- E, Hfree in Hk.
Qed.

(** A lock may be deleted when no status relies on it. *)
Lemma drop_lock_inv σ key :
  (∀ k a ipl, sh_locks σ !! key = Some ipl → sh_atts σ !! k = Some a → has_address a → k.1 = key.1 →
     ¬ backs k a key.2 ipl) → inv σ → inv (drop_lock key σ).
Proof.
  intros Hno [Hl Hi Hv Hb]. split; simpl; [|exact Hi|exact Hv|].
  - intros key' ipl [_ Hk]%lookup_delete_Some. by apply Hl.
  - intros k a Ha Had. destruct (Hb k a Ha Had) as (n & l & Hk & Hbk). exists n, l. split; [|done].
    simpl. rewrite lookup_delete_ne; [done|]. intros ->. by apply (Hno k a l).
Qed.

Lemma put_att_inv σ k a : (has_address a → backed σ k a) → inv σ → inv (put_att k a σ).
Proof.
  intros Hb [Hl Hi Hv Hb0]. split; simpl; [exact Hl|exact Hi| |].
  - intros k' a' [[<- <-]|[_ Hk]]%lookup_insert_Some; [set_solver|]. specialize (Hv _ _ Hk). set_solver.
  - intros k' a' [[<- <-]|[_ Hk]]%lookup_insert_Some Hh; [by apply Hb|by apply Hb0].
Qed.

Lemma drop_att_inv σ k : inv σ → inv (drop_att k σ).
Proof.
  intros [Hl Hi Hv Hb]. split; simpl; [exact Hl|exact Hi| |]; intros k' a [_ Hk]%lookup_delete_Some; [by apply (Hv k')|by apply Hb].
Qed.

Lemma controller_step_inv k σ σ' : controller_step k σ σ' → inv σ → inv σ'.
Proof.
  intros [σ1 ipl Hn _ _|σ1 n ipl Hk Ho Hno|σ1 a a' _ _ _ Hb] Hi.
  - by apply put_lock_inv.
  - apply drop_lock_inv; [|done]. intros k' a l Hl Ha Hh Ens Hbk. simplify_eq/=.
    destruct Hbk as (x & Hx & ? & ? & Eo). assert (k' = k) as ->.
    { destruct k as [ns nm], k' as [ns' nm']. rewrite Eo in Ho. simpl in *. congruence. }
    apply (Hno a Ha Hh). by exists x.
  - by apply put_att_inv.
Qed.

Lemma outside_step_inv σ σ' : outside_step σ σ' → inv σ → inv σ'.
Proof.
  intros [σ1 k a _ Hn _|σ1 k|σ1 k a a' Ha Hs _|σ1 ipl Hn|σ1 key ipl Hk Hno] Hi.
  - by apply put_att_inv.
  - by apply drop_att_inv.
  - apply put_att_inv; [|done]. intros Hh. destruct (inv_backed _ Hi _ _ Ha (same_has _ _ Hs Hh)) as (n & l & ? & ?).
    exists n, l. split; [done|]. eapply backs_same; [by apply same_address_sym|done].
  - by apply put_lock_inv.
  - apply drop_lock_inv; [|done]. intros k a l Hl Ha Hh Ens (x & _ & _ & _ & Eo). simplify_eq.
    rewrite Eo in Hno. apply (Hno a); [|done]. simpl. rewrite <- Ens. by destruct k.
Qed.

Lemma system_inv σ σ' : rtc system_step σ σ' → inv σ → inv σ'.
Proof.
  induction 1 as [|σ1 σ2 σ3 [k ?? Hs|?? Hs] _ IH]; intros Hi; [done|apply IH..].
  - by eapply controller_step_inv.
  - by eapply outside_step_inv.
Qed.

Lemma elsewhere_system k σ σ' : rtc (elsewhere k) σ σ' → rtc system_step σ σ'.
Proof.
  apply (rtc_subrel (elsewhere k) system_step). intros ?? [k' ?? _ Hs|?? Hs]; [by eapply ss_controller|by apply ss_outside].
Qed.

(** ** What the worker of an attachment can rely on *)

(** While the others act, an attachment keeps its address or loses it, a version
    that is gone does not come back, and while an edition of the attachment stays
    its locks stay. *)
Record rely k σ σ' : Prop := Rely {
  rl_version a : sh_atts σ' !! k = Some a → version a ∈ sh_versions σ → sh_atts σ !! k = Some a;
  rl_address a : sh_atts σ' !! k = Some a → has_address a →
    ∃ a0, sh_atts σ !! k = Some a0 ∧ same_address a0 a;
  rl_locks a n ipl : sh_atts σ' !! k = Some a → version a ∈ sh_versions σ →
    sh_locks σ !! (k.1, n) = Some ipl → owner ipl = (k.2, UID (na_meta a)) →
    sh_locks σ' !! (k.1, n) = Some ipl;
  rl_issued : sh_issued σ ⊆ sh_issued σ';
  rl_versions : sh_versions σ ⊆ sh_versions σ' }.

Lemma rely_refl k σ : rely k σ σ.
Proof. split; try done. intros a ? _. by exists a. Qed.

Lemma rely_trans k σ1 σ2 σ3 : rely k σ1 σ2 → rely k σ2 σ3 → rely k σ1 σ3.
Proof.
  intros [V1 A1 L1 I1 R1] [V2 A2 L2 I2 R2]. split; [| | |by etrans|by etrans].
  - intros a Ha Hv. apply V1; [|done]. apply V2; [done|]. by apply R1.
  - intros a Ha Hh. destruct (A2 a Ha Hh) as (a2 & Ha2 & Hs2).
    destruct (A1 a2 Ha2 (same_has _ _ Hs2 Hh)) as (a1 & ? & ?). exists a1. split; [done|].
    by eapply same_address_trans.
  - intros a n ipl Ha Hv Hl Ho. assert (Hv2 : version a ∈ sh_versions σ2) by by apply R1.
    apply (L2 a); [done..| |done]. apply (L1 a); [|done..]. by apply V2.
Qed.

Lemma put_lock_rely k σ ipl : new_lock σ ipl → rely k σ (put_lock ipl σ).
Proof.
  intros (Hfree & Hnew & _). split; simpl; [done|intros a ? _; by exists a| |by apply insert_subseteq|done].
  intros a n l _ _ Hl _. rewrite lookup_insert_ne; [done|]. intros E. by rewrite <- E, Hfree in Hl.
Qed.

Lemma put_att_rely k k' a σ :
  version a ∉ sh_versions σ →
  (k' = k → has_address a → ∃ a0, sh_atts σ !! k = Some a0 ∧ same_address a0 a) →
  rely k σ (put_att k' a σ).
Proof.
  intros Hv Hk. split; simpl; [| |done|done|set_solver].
  - by intros a' [[<- <-]|[_ ?]]%lookup_insert_Some.
  - intros a' [[-> <-]|[_ ?]]%lookup_insert_Some Hh; [by apply Hk|by exists a'].
Qed.

Lemma elsewhere_rely k σ σ' : elsewhere k σ σ' → rely k σ σ'.
Proof.
  intros [k' ?? Hne [σ1 ipl Hn _ _|σ1 n ipl Hk Ho _|σ1 a a' _ _ Hv _]|?? Hs].
  - by apply put_lock_rely.
  - split; simpl; try done; [intros a ? _; by exists a|]. intros a n' l _ _ Hl Eo.
    rewrite lookup_delete_ne; [done|]. intros [= E1 ->]. destruct Hne.
    rewrite E1, Hl in Hk. injection Hk as <-. rewrite Eo in Ho. destruct k, k'. simpl in *. congruence.
  - by apply put_att_rely.
  - destruct Hs as [σ1 k' a _ Hn Hv|σ1 k'|σ1 k' a a' Ha Hs Hv|σ1 ipl Hn|σ1 key ipl Hk Hno].
    + by apply put_att_rely.
    + split; simpl; try done; [by intros a [_ ?]%lookup_delete_Some|].
      intros a [_ ?]%lookup_delete_Some _. by exists a.
    + apply put_att_rely; [done|]. intros -> _. by exists a.
    + by apply put_lock_rely.
    + split; simpl; try done; [intros a ? _; by exists a|]. intros a n l Ha _ Hl Eo.
      rewrite lookup_delete_ne; [done|]. intros ->. simplify_eq. rewrite Eo in Hno. simpl in Hno.
      apply (Hno a); [|done]. by destruct k.
Qed.

Lemma elsewhere_relies k σ σ' : rtc (elsewhere k) σ σ' → rely k σ σ'.
Proof.
  induction 1 as [|σ1 σ2 σ3 Hs _ IH]; [apply rely_refl|]. eapply rely_trans; [by apply elsewhere_rely|done].
Qed.

(** A lock that appears while the others act has a new UID. *)
Lemma elsewhere_lock k σ σ' key ipl :
  elsewhere k σ σ' → sh_locks σ' !! key = Some ipl →
  sh_locks σ !! key = Some ipl ∨ sh_issued σ !! uid ipl = None.
Proof.
  intros [k' ?? _ [σ1 l (_ & Hn & _) _ _|σ1 n l _ _ _|σ1 a a' _ _ _ _]|?? [σ1 k1 a _ _ _|σ1 k1|σ1 k1 a a' _ _ _|σ1 l (_ & Hn & _)|σ1 key1 l _ _]];
    simpl; auto.
  - intros [[_ <-]|[_ ?]]%lookup_insert_Some; auto.
  - intros [_ ?]%lookup_delete_Some. by left.
  - intros [[_ <-]|[_ ?]]%lookup_insert_Some; auto.
  - intros [_ ?]%lookup_delete_Some. by left.
Qed.

(** ** No address is used twice *)

Lemma IP_String_inj x y :
  is_u32 x → is_u32 y → GoNet.IP_String (Uint32ToIPv4 x) = GoNet.IP_String (Uint32ToIPv4 y) → x = y.
Proof.
  intros Hx Hy E. apply Uint32ToIPv4_inj; [done..|].
  rewrite !Uint32ToIPv4_bytes in *. destruct (PutUint32_bytes x Hx) as [Bx _], (PutUint32_bytes y Hy) as [By _].
  rewrite <- (GoNet.ParseIP_String _ Bx), <- (GoNet.ParseIP_String _ By). by f_equal.
Qed.

(** An address string stands for one lock name. *)
Lemma backs_name k1 k2 a1 a2 n1 n2 l1 l2 :
  backs k1 a1 n1 l1 → backs k2 a2 n2 l2 →
  AddressVNI (na_Status a1) = AddressVNI (na_Status a2) →
  StatusIPv4 (na_Status a1) = StatusIPv4 (na_Status a2) → n1 = n2.
Proof.
  intros (x1 & (_ & H1 & E1) & Hs1 & _) (x2 & (_ & H2 & E2) & Hs2 & _) Ev Ei.
  rewrite Hs1, Hs2 in Ei. apply IP_String_inj in Ei as ->; [|done..]. rewrite Ev, E2 in E1. by injection E1.
Qed.

Lemma names_inj v x v' x' n : names v x n → names v' x' n → v = v' ∧ x = x'.
Proof.
  intros (Hv & Hx & E) (Hv' & Hx' & E').
  destruct (parse_make_name v x Hv Hx) as (m & Em & Ep), (parse_make_name v' x' Hv' Hx') as (m' & Em' & Ep').
  rewrite E in Em. rewrite E' in Em'. injection Em as <-. injection Em' as <-. rewrite Ep in Ep'. by injection Ep'.
Qed.

(** The lock behind an address is in the namespace of the VNI. *)
Lemma backs_home σ k a n ipl :
  inv σ → sh_locks σ !! (k.1, n) = Some ipl → backs k a n ipl → home (AddressVNI (na_Status a)) = k.1.
Proof.
  intros Hi Hl (x & Hn & _). destruct (inv_locks _ Hi _ _ Hl) as [_ Eu].
  destruct (inv_issued _ Hi _ _ _ Eu) as (v & y & Hv & Hh). simpl in *. by destruct (names_inj _ _ _ _ _ Hn Hv) as [-> _].
Qed.

(** Two attachments with one address in one virtual network are one attachment. *)
Definition distinct_addresses σ : Prop := ∀ k1 k2 a1 a2,
  sh_atts σ !! k1 = Some a1 → sh_atts σ !! k2 = Some a2 → has_address a1 →
  AddressVNI (na_Status a1) = AddressVNI (na_Status a2) →
  StatusIPv4 (na_Status a1) = StatusIPv4 (na_Status a2) → k1 = k2.

Lemma inv_distinct σ : inv σ → distinct_addresses σ.
Proof.
  intros Hi k1 k2 a1 a2 H1 H2 Ha Ev Ei.
  assert (Ha2 : has_address a2) by (unfold has_address in *; congruence).
  destruct (inv_backed _ Hi _ _ H1 Ha) as (n1 & l1 & Hl1 & Hb1).
  destruct (inv_backed _ Hi _ _ H2 Ha2) as (n2 & l2 & Hl2 & Hb2).
  assert (n1 = n2) as -> by by eapply backs_name.
  pose proof (backs_home _ _ _ _ _ Hi Hl1 Hb1) as Hh1. pose proof (backs_home _ _ _ _ _ Hi Hl2 Hb2) as Hh2.
  rewrite Ev, Hh2 in Hh1. rewrite <- Hh1, Hl2 in Hl1. injection Hl1 as <-.
  destruct Hb1 as (_ & _ & _ & _ & E1), Hb2 as (_ & _ & _ & _ & E2). rewrite E1 in E2.
  destruct k1, k2. simpl in *. congruence.
Qed.

End Steps.
(** ** Where VNIs live *)

(** The namespace of the first subnet of a VNI. *)
Fixpoint home_of (all : list Subnet) (v : Z) : string :=
  match all with
  | [] => ""
  | sn :: all => if vni_of sn =? v then ns_of sn else home_of all v
  end.

(** In a consistent set of subnets, which is what validation lets through, it is
    the namespace of every subnet of the VNI. *)
Lemma home_of_consistent all sn : consistent all → sn ∈ all → home_of all (vni_of sn) = ns_of sn.
Proof.
  intros (_ & _ & Hc) Hin.
  assert (Hgen : ∀ l, l ⊆ all → sn ∈ l → home_of l (vni_of sn) = ns_of sn).
  { induction l as [|s l IH]; intros Hl Hs; [by apply elem_of_nil in Hs|]. simpl.
    destruct (Z.eqb_spec (vni_of s) (vni_of sn)) as [E|E].
    - apply Hc; [by apply Hl; left|done|done].
    - apply IH; [intros x Hx; apply Hl; by right|]. by apply elem_of_cons in Hs as [->|]. }
  by apply Hgen.
Qed.

End Addresses.
