(* ===== verification/AddressSteps.v ===== *)
(** * The IPAM controller keeps to its steps

    Processing an attachment, however its calls interleave with what the others
    do, changes the API server by steps of [Addresses.system_step] only: the
    refinement of the abstract system by the controller's code. *)

From S2P Require Import Prelude GoStr UInt32Set GoNet ApiTypes SubnetStrategy IpLock KosApi.
From S2P Require Import Ipam IpamCorrect Addresses.
Import GoNet Ipam IpamCorrect Addresses.

(** ** The server's promises in terms of the shared state *)

(** Besides [KosLaws]: a UID is given once, and a version of an attachment is
    replaced only by a client that has seen it. *)
Class KosShared (W : Type) `{KosLaws W} := {
  view : W → Shared;
  view_locks w : sh_locks (view w) = locks w;
  view_atts w : sh_atts (view w) = natts w;
  create_step ipl w : ∃ w0, others w w0 ∧
    match lock_Create ipl w with
    | (inr ipl2, w') =>
        sh_locks (view w0) !! lock_nsn ipl = None ∧ sh_issued (view w0) !! uid ipl2 = None ∧
        created_as ipl ipl2 ∧ view w' = put_lock ipl2 (view w0)
    | (inl _, w') => view w' = view w0
    end;
  get_step ns name w : ∃ w0, others w w0 ∧
    match lock_Get ns name w with
    | (inr ipl, w') => sh_locks (view w0) !! (ns, name) = Some ipl ∧ view w' = view w0
    | (inl _, w') => view w' = view w0
    end;
  delete_step ns name u w : ∃ w0, others w w0 ∧
    match lock_Delete ns name u w with
    | (None, w') => ∃ ipl, sh_locks (view w0) !! (ns, name) = Some ipl ∧ uid ipl = u ∧
        view w' = drop_lock (ns, name) (view w0)
    | (Some _, w') => view w' = view w0
    end;
  update_step att w : ∃ w0, others w w0 ∧
    match att_Update att w with
    | (inr att2, w') => ∃ old, sh_atts (view w0) !! AttNSN att = Some old ∧ version old = version att ∧
        updated_as att att2 ∧ version att2 ∉ sh_versions (view w0) ∧
        view w' = put_att (AttNSN att) att2 (view w0)
    | (inl _, w') => view w' = view w0
    end
}.

Module AddressSteps.

Section Refine.
Context {S W : Type} `{UInt32Set S, !UInt32SetChooser S, !SetLaws S, !ChooserLaws S}.
Context `{KosClient W, !KosLaws W, !KosShared W}.
Variable new_set : S.
Hypothesis new_set_ok : set_ok new_set.
Hypothesis new_set_empty : ∀ x, ¬ set_mem new_set x.
#[local] Abbreviation St := (@State S W).
Implicit Types (s : St) (σ : Shared).

(** ** Computations that do not call the server *)

Definition quiet {A} (m : M St A) : Prop := ∀ s, ends m s (λ _ s', world s' = world s).

Lemma quiet_ret {A} (a : A) : quiet (mret a).
Proof. intros s. by apply ends_ret. Qed.

Lemma quiet_bind {A B} (m : M St A) (f : A → M St B) :
  quiet m → (∀ a, quiet (f a)) → quiet (m ≫= f).
Proof.
  intros Hm Hf s. apply ends_bind. eapply ends_conseq; [apply Hm|]. intros a s1 E. rewrite <- E. apply Hf.
Qed.

Lemma quiet_gets {A} (f : St → A) : quiet (gets f).
Proof. by intros s. Qed.

Lemma quiet_panic {A} msg : quiet (panic msg : M St A).
Proof. by intros s. Qed.

Lemma quiet_lift {A} (r : res A) : quiet (lift r).
Proof. intros s. unfold ends, lift. by destruct r. Qed.

Lemma quiet_set_atts f : quiet (set_atts f).
Proof. by intros s. Qed.

Lemma quiet_set_cache f : quiet (set_cache f).
Proof. by intros s. Qed.

Lemma quiet_on_set {A} vni (m : M S A) : quiet (on_set vni m).
Proof.
  intros s. unfold ends, on_set. destruct (addrCache s !! vni) as [a|]; [|done]. by destruct (m a) as [[??]|].
Qed.

Create HintDb quiet.
#[local] Hint Resolve quiet_ret quiet_gets quiet_panic quiet_lift quiet_set_atts quiet_set_cache
  quiet_on_set : quiet.

Ltac quiet_auto :=
  repeat (apply quiet_bind; [|intros ?]); repeat case_match; repeat (apply quiet_bind; [|intros ?]);
  repeat case_match; eauto with quiet.

Lemma quiet_PickAddress r vni lo hi : quiet (PickAddress new_set r vni lo hi).
Proof. unfold PickAddress, ensure_set. quiet_auto. Qed.

Lemma quiet_ReleaseAddress vni x : quiet (ReleaseAddress vni x : M St bool).
Proof. unfold ReleaseAddress. quiet_auto. Qed.

Lemma quiet_data nsn b : quiet (getNetworkAttachmentData nsn b).
Proof. unfold getNetworkAttachmentData. quiet_auto. Qed.

Lemma quiet_read nsn : quiet (read_data nsn).
Proof. unfold read_data. quiet_auto. Qed.

Lemma quiet_reset nsn b att rv : quiet (reset_anticipation nsn b att rv).
Proof. unfold reset_anticipation, read_data, write_data. quiet_auto. Qed.

Lemma ends_quiet {A} (m : M St A) s (Q : A → St → Prop) :
  quiet m → (∀ a s', world s' = world s → Q a s') → ends m s Q.
Proof. intros Hm HQ. eapply ends_conseq; [apply Hm|apply HQ]. Qed.

Lemma ends_call {A} (f : W → A * W) s (Q : A → St → Prop) :
  (∀ s', world s' = (f (world s)).2 → Q (f (world s)).1 s') → ends (call f) s Q.
Proof. unfold ends, call. destruct (f (world s)). intros HQ. by apply HQ. Qed.

Lemma ends_lift {A} (r : res A) s (Q : A → St → Prop) : (∀ a, r = Ok a → Q a s) → ends (lift r) s Q.
Proof. unfold ends, lift. destruct r; simpl; auto. Qed.

(** ** UIDs are unique over time *)

(** The UIDs on record are the ones issued: others create locks, under UIDs of their own. *)
Lemma shared_uids (home : Z → string) (k : NSN) :
  (∀ w w', others w w' → rtc (elsewhere home k) (view w) (view w')) →
  uids_unique (λ w u, is_Some (sh_issued (view w) !! u)).
Proof.
  intros Ho. assert (Hgrow : ∀ w w' u, others w w' → is_Some (sh_issued (view w) !! u) → is_Some (sh_issued (view w') !! u)).
  { intros w w' u Hw [x Hx]. exists x. eapply lookup_weaken; [done|]. by apply (rl_issued k), (elsewhere_relies home), Ho. }
  split.
  - done.
  - intros ns name w u Hi. destruct (get_step ns name w) as (w0 & Hw & Hg). apply (Hgrow _ _ _ Hw) in Hi.
    destruct (lock_Get ns name w) as [[e|l] w1]; simpl; [by rewrite Hg|]. destruct Hg as [_ Hg]. by rewrite Hg.
  - intros ns name v w u Hi. destruct (delete_step ns name v w) as (w0 & Hw & Hd). apply (Hgrow _ _ _ Hw) in Hi.
    destruct (lock_Delete ns name v w) as [[e|] w1]; simpl; [by rewrite Hd|]. by destruct Hd as (l & _ & _ & ->).
  - intros w w' key ipl Hw. rewrite <- !view_locks. specialize (Ho _ _ Hw). revert Ho.
    generalize (view w) (view w'). intros σ σ' Hr. induction Hr as [σ|σ1 σ2 σ3 Hs Hr IH]; [by exists ipl|].
    intros Hl Hi. destruct IH as (l2 & Hl2 & E2); [done| |].
    { destruct Hi as [x Hx]. exists x. eapply lookup_weaken; [done|]. by apply (rl_issued k), (elsewhere_rely home). }
    rewrite <- E2 in *. destruct (elsewhere_lock home k _ _ _ _ Hs Hl2) as [?|Hn]; [by exists l2|].
    destruct Hi as [x Hx]. change (lock_uid l2) with (uid l2) in Hx. congruence.
Qed.

(** ** One worker and the others *)

Variable home : Z → string.
Variables ns name : string.
#[local] Abbreviation key := (ns, name).
(** What the informer shows of the attachment. *)
Variable att : option NetworkAttachment.

Hypothesis others_elsewhere : ∀ w w', others w w' → rtc (elsewhere home key) (view w) (view w').

(** What the worker knows of the shared state: the invariant, and that the
    attachment is the version it has seen, a later one with the same address, or one
    without an address. *)
Record situation σ : Prop := Situation {
  st_inv : inv home σ;
  st_version a : att = Some a → version a ∈ sh_versions σ ∧
    ∀ a', sh_atts σ !! key = Some a' → version a' = version a → a' = a;
  st_address a' : sh_atts σ !! key = Some a' → has_address a' →
    ∃ a, att = Some a ∧ same_address a a' }.

(** A lock that has been under the attachment's name. *)
Definition known σ (ipl : IPLock) : Prop :=
  (lock_nsn ipl).1 = ns ∧ (owner ipl).1 = name ∧ sh_issued σ !! uid ipl = Some (lock_nsn ipl, owner ipl).

(** The lock is there, if it belongs to the attachment and the attachment is there. *)
Definition present σ (ipl : IPLock) : Prop :=
  ∀ a, att = Some a → sh_atts σ !! key = Some a → owner ipl = (name, UID (na_meta a)) →
    sh_locks σ !! lock_nsn ipl = Some ipl.

(** The shared state after some steps, of which those of the worker release only
    locks with UIDs of [D]. *)
Record follows (D : list string) σ σ' : Prop := Follows {
  fo_steps : rtc (system_step home) σ σ';
  fo_situation : situation σ';
  fo_known ipl : known σ ipl → known σ' ipl;
  fo_present ipl : (lock_nsn ipl).1 = ns → uid ipl ∉ D → present σ ipl → present σ' ipl }.

Lemma follows_refl D σ : situation σ → follows D σ σ.
Proof. by split. Qed.

Lemma follows_trans D σ1 σ2 σ3 : follows D σ1 σ2 → follows D σ2 σ3 → follows D σ1 σ3.
Proof. intros [R1 _ K1 P1] [R2 S2 K2 P2]. split; [by etrans|done|auto|auto]. Qed.

Lemma follows_weaken D D' σ σ' : D ⊆ D' → follows D σ σ' → follows D' σ σ'.
Proof. intros HD [R1 S1 K1 P1]. split; [done..|]. intros ipl ? Hn. apply P1; [done|]. by intros ?%HD. Qed.

(** The steps of the others leave the worker in its situation. *)
Lemma elsewhere_follows D σ σ' : situation σ → rtc (elsewhere home key) σ σ' → follows D σ σ'.
Proof.
  intros [Hi Hv Ha] Hr. pose proof (elsewhere_system _ _ _ _ Hr) as Hs.
  destruct (elsewhere_relies _ _ _ _ Hr) as [RV RA RL RI RR]. split; [done| | |].
  - split; [by eapply system_inv|..].
    + intros a E. destruct (Hv a E) as [Hva Hsame]. split; [by apply RR|].
      intros a' Ha' Ev. apply Hsame; [|done]. apply RV; [done|]. by rewrite Ev.
    + intros a' Ha' Hh. destruct (RA _ Ha' Hh) as (a0 & Ha0 & Hs0).
      destruct (Ha a0 Ha0 (same_has _ _ Hs0 Hh)) as (a & ? & ?). exists a. split; [done|].
      by eapply same_address_trans.
  - intros ipl (? & ? & Hi'). split; [done|]. split; [done|]. by eapply lookup_weaken.
  - intros ipl Ens _ Hp a E Ha' Ho. destruct (Hv a E) as [Hva _]. pose proof (RV a Ha' Hva) as Ha0.
    pose proof (Hp a E Ha0 Ho) as Hl. destruct (lock_nsn ipl) as [ns' n]. simpl in Ens. subst ns'.
    by apply (RL a).
Qed.

Lemma others_follow D w w' : situation (view w) → others w w' → follows D (view w) (view w').
Proof. intros. by apply elsewhere_follows; [|apply others_elsewhere]. Qed.

Lemma controller_system σ σ' : controller_step home key σ σ' → rtc (system_step home) σ σ'.
Proof. intros. by apply rtc_once, (ss_controller _ key). Qed.

Lemma lock_follows D σ ipl :
  situation σ → new_lock home σ ipl → (lock_nsn ipl).1 = ns → (owner ipl).1 = name →
  follows D σ (put_lock ipl σ) ∧ present (put_lock ipl σ) ipl.
Proof.
  intros [Hi Hv Ha] Hn Ens Eo. pose proof Hn as (Hfree & Hnew & _). split.
  - split; [by apply controller_system, cs_lock| | |].
    + split; [by apply put_lock_inv|exact Hv|exact Ha].
    + intros l (? & ? & Hl). split; [done|]. split; [done|]. simpl. rewrite lookup_insert_ne; [done|].
      intros E. by rewrite <- E, Hnew in Hl.
    + intros l _ _ Hp a E Ha' Hol. simpl. rewrite lookup_insert_ne; [by apply (Hp a)|].
      intros El. pose proof (Hp a E Ha' Hol) as Hl. by rewrite <- El, Hfree in Hl.
  - intros a _ _ _. apply lookup_insert_eq.
Qed.

(** A lock that the status of the attachment does not rely on. *)
Definition spare (n u : string) : Prop :=
  ∀ a ipl, att = Some a → has_address a → backs key a n ipl → uid ipl ≠ u.

Lemma release_follows D σ n ipl :
  situation σ → sh_locks σ !! (ns, n) = Some ipl → (owner ipl).1 = name → spare n (uid ipl) →
  uid ipl ∈ D → follows D σ (drop_lock (ns, n) σ).
Proof.
  intros [Hi Hv Ha] Hl Eo Hsp HD.
  assert (Hc : controller_step home key σ (drop_lock (key.1, n) σ)).
  { apply (cs_release _ _ _ n ipl); [done..|]. intros a' Ha' Hh Hb.
    destruct (Ha a' Ha' Hh) as (a & E & Hs). apply (Hsp a ipl E); [by eapply same_has| |done].
    by eapply backs_same. }
  split; [by apply controller_system| |done|].
  - split; [by eapply controller_step_inv|exact Hv|exact Ha].
  - intros l Ens Hu Hp a E Ha' Ho. simpl. rewrite lookup_delete_ne; [by apply (Hp a)|].
    intros El. pose proof (Hp a E Ha' Ho) as Hl'. rewrite <- El, Hl in Hl'. by injection Hl' as <-.
Qed.

(** ** Deleting locks *)

(** A lock that the worker may delete. *)
Definition disposable (D : list string) σ (y : ParsedLock) : Prop :=
  ∃ ipl, known σ ipl ∧ pl_ns y = ns ∧ lock_nsn ipl = (ns, pl_name y) ∧ pl_UID y = uid ipl ∧
    uid ipl ∈ D ∧ spare (pl_name y) (uid ipl).

Lemma disposable_follows D D' σ σ' y : follows D' σ σ' → disposable D σ y → disposable D σ' y.
Proof. intros Hf (ipl & Hk & Hr). exists ipl. split; [by eapply fo_known|done]. Qed.

Lemma delete_lock_follows D y s :
  situation (view (world s)) → disposable D (view (world s)) y →
  ends (deleteIPLockObject y) s (λ _ s', follows D (view (world s)) (view (world s'))).
Proof.
  intros Hs Hd. unfold deleteIPLockObject. apply ends_bind, ends_call. intros s1 Ew.
  assert (Hf : follows D (view (world s)) (view (world s1))).
  { rewrite Ew. destruct (delete_step (pl_ns y) (pl_name y) (pl_UID y) (world s)) as (w0 & Ho & Hd').
    pose proof (others_follow D _ _ Hs Ho) as Hf0.
    destruct (lock_Delete _ _ _ (world s)) as [[e|] w1]; cbn [snd]; [by rewrite Hd'|].
    destruct Hd' as (l & Hl & Eu & ->). eapply follows_trans; [done|].
    destruct (disposable_follows _ _ _ _ _ Hf0 Hd) as (ipl & (_ & Eo & Hi) & Ens & Enn & Eu' & HD & Hsp).
    pose proof (fo_situation _ _ _ Hf0) as Hs0.
    destruct (inv_locks _ _ (st_inv _ Hs0) _ _ Hl) as (_ & Hi'). rewrite Eu, Eu', Hi in Hi'.
    assert (owner l = owner ipl) as Eol by congruence. rewrite Ens in *. rewrite Eu' in Eu.
    rewrite <- Eu in *. apply (release_follows D _ _ l); [done|done| |done|done]. by rewrite Eol. }
  repeat case_match; by apply ends_ret.
Qed.

Lemma delete_locks_follow D l s :
  situation (view (world s)) → (∀ y, y ∈ l → disposable D (view (world s)) y) →
  ends (delete_locks l) s (λ _ s', follows D (view (world s)) (view (world s'))).
Proof.
  revert s. induction l as [|y l IH]; intros s Hs Hd; simpl.
  - by apply ends_ret, follows_refl.
  - apply ends_bind. eapply ends_conseq.
    { apply (delete_lock_follows D); [done|]. apply Hd. by left. }
    intros [e|] s1 Hf; [by apply ends_ret|]. eapply ends_conseq; [apply IH|].
    + by eapply fo_situation.
    + intros z Hz. eapply disposable_follows; [done|]. apply Hd. by right.
    + intros err s2 Hf2. by eapply follows_trans.
Qed.

(** ** Creating locks *)

(** The server has no reason of its own to turn down a lock. *)
Definition never_refused : Prop := ∀ ipl w e w', lock_Create ipl w = (inl e, w') →
  IsAlreadyExists e = true ∨ IsInvalid e || str_contains (ToLower (message e)) "invalid" = false.

(** A lock of the attachment that names its address: what a status may carry. *)
Definition good_lock σ (a : NetworkAttachment) (lock : ParsedLock) (ip : IP) : Prop :=
  ∃ n ipl x, lock_nsn ipl = (ns, n) ∧ owner ipl = (name, UID (na_meta a)) ∧ present σ ipl ∧
    pl_UID lock = uid ipl ∧ names (pl_VNI lock) x n ∧ ip = Uint32ToIPv4 x.

Lemma good_follows D σ σ' a lock ip :
  follows D σ σ' → pl_UID lock ∉ D → good_lock σ a lock ip → good_lock σ' a lock ip.
Proof.
  intros Hf HD (n & ipl & x & En & Eo & Hp & Eu & Hx). exists n, ipl, x. split; [done|]. split; [done|].
  split; [|done]. apply (fo_present _ _ _ Hf); [by rewrite En|by rewrite <- Eu|done].
Qed.

Lemma create_lock_follows fuel (a : NetworkAttachment) vni addrU ipl n v x s :
  never_refused → att = Some a → situation (view (world s)) →
  lock_nsn ipl = (ns, n) → names v x n → home v = ns → owner ipl = (name, UID (na_meta a)) →
  ends (create_lock fuel name a vni addrU ipl) s (λ oe s', follows [] (view (world s)) (view (world s')) ∧
    match oe.1 with
    | Some ipl2 => lock_nsn ipl2 = (ns, n) ∧ owner ipl2 = (name, UID (na_meta a)) ∧
        present (view (world s')) ipl2 ∧ oe.2 = None
    | None => oe.2 ≠ None
    end).
Proof.
  intros Hnr Ea Hs En Hx Hh Eo. revert s Hs. induction fuel as [|fuel IH]; intros s Hs; [done|].
  cbn [create_lock]. apply ends_bind, ends_call. intros s1 Ew.
  destruct (create_step ipl (world s)) as (w0 & Ho & Hc). pose proof (others_follow [] _ _ Hs Ho) as Hf0.
  pose proof (Hnr ipl (world s)) as Href.
  destruct (lock_Create ipl (world s)) as [[e|ipl2] w1]; cbn [fst snd] in *; subst w1.
  2: { destruct Hc as (Hfree & Hnew & (En2 & Eor & _) & Hv). apply ends_ret.
       assert (Eo2 : owner ipl2 = owner ipl) by (unfold owner, GetOwner; by rewrite Eor).
       destruct (lock_follows [] (view w0) ipl2) as [Hf1 Hp].
       - by eapply fo_situation.
       - split; [by rewrite En2|]. split; [done|]. exists v, x. by rewrite En2, En.
       - by rewrite En2, En.
       - by rewrite Eo2, Eo.
       - rewrite Hv. split; [by eapply follows_trans|]. cbn [fst snd]. by rewrite En2, Eo2. }
  rewrite <- Hc in Hf0. destruct (IsAlreadyExists e) eqn:Ee.
  - apply ends_bind, ends_call. intros s2 Ew2.
    destruct (get_step (Namespace (ipl_meta ipl)) (Name (ipl_meta ipl)) (world s1)) as (w2 & Ho2 & Hg).
    pose proof (others_follow [] _ _ (fo_situation _ _ _ Hf0) Ho2) as Hf2.
    destruct (lock_Get _ _ (world s1)) as [[e2|ipl2] w3]; cbn [fst snd] in *; subst w3.
    + rewrite <- Hg in Hf2. assert (follows [] (view (world s)) (view (world s2))) by by eapply follows_trans.
      destruct (IsNotFound e2); [|by apply ends_ret].
      eapply ends_conseq; [apply IH; by eapply fo_situation|]. intros oe s3 [Hf3 Hoe].
      split; [by eapply follows_trans|done].
    + destruct Hg as [Hl Hg]. rewrite <- Hg in Hf2, Hl.
      assert (Hf : follows [] (view (world s)) (view (world s2))) by by eapply follows_trans.
      destruct (GetOwner (ipl_meta ipl2) "NetworkAttachment") as [on ou] eqn:E2.
      destruct (String.eqb_spec on name) as [->|]; [|by apply ends_ret].
      destruct (String.eqb_spec ou (UID (na_meta a))) as [->|]; [|by apply ends_ret].
      apply ends_ret. split; [done|].
      destruct (inv_locks _ _ (st_inv _ (fo_situation _ _ _ Hf)) _ _ Hl) as (En2 & _).
      cbn [fst snd]. split; [by rewrite En2|]. split; [done|]. split; [|done].
      intros ????. by rewrite En2.
  - destruct (Href e (world s1) eq_refl) as [?|Hni]; [congruence|].
    apply ends_bind, ends_quiet; [apply quiet_ReleaseAddress|]. intros changed s2 E2. rewrite Hni.
    apply ends_ret. by rewrite E2.
Qed.

(** The bytes of a number are those of its 32 lower bits. *)
Lemma shiftr_u32 i k : 0 ≤ k ≤ 24 → u8 (Z.shiftr (u32 i) k) = u8 (Z.shiftr i k).
Proof.
  intros Hk. unfold u8, u32. apply Z.bits_inj'. intros j Hj.
  change W32 with (2 ^ 32). change 256 with (2 ^ 8).
  destruct (Z.ltb_spec j 8).
  - rewrite !Z.mod_pow2_bits_low, !Z.shiftr_spec, Z.mod_pow2_bits_low by lia. done.
  - by rewrite !Z.mod_pow2_bits_high by lia.
Qed.

Lemma Uint32ToIPv4_u32 i : Uint32ToIPv4 (u32 i) = Uint32ToIPv4 i.
Proof.
  unfold Uint32ToIPv4. rewrite !shiftr_u32 by lia.
  f_equal. pose proof (shiftr_u32 i 0) as E. rewrite !Z.shiftr_0_r in E. apply E. lia.
Qed.

Lemma pickAndLock_follows fuel r (a : NetworkAttachment) subnetName vni base last s :
  never_refused → att = Some a → situation (view (world s)) → 0 ≤ vni ≤ maxVNI → home vni = ns →
  ends (pickAndLockAddress new_set fuel r ns name a subnetName vni base last) s (λ res s',
    follows [] (view (world s)) (view (world s')) ∧
    (res.2 = None → good_lock (view (world s')) a res.1.1 res.1.2)).
Proof.
  intros Hnr Ea Hs Hv Hh. unfold pickAndLockAddress. destruct (pick_bounds base last) as [lo hi].
  apply ends_bind, ends_quiet; [apply quiet_PickAddress|]. intros [x ok] s1 E1.
  destruct ok; simpl; [|by apply ends_ret; rewrite E1; split; [apply follows_refl|]].
  apply ends_bind, ends_lift. intros lockName En.
  assert (Hx : names vni (u32 x) lockName).
  { split; [done|]. split; [apply u32_range|]. by rewrite Uint32ToIPv4_u32. }
  apply ends_bind. eapply ends_conseq.
  { apply (create_lock_follows fuel a vni x _ lockName vni (u32 x)); by rewrite ?E1. }
  rewrite E1. intros [[ipl2|] err] s2 [Hf Hc]; cbn [fst snd] in Hc; apply ends_ret; (split; [done|]).
  - intros _. destruct Hc as (En2 & Eo & Hp & _). exists lockName, ipl2, (u32 x).
    by rewrite Uint32ToIPv4_u32.
  - cbn [fst snd]. by intros ->.
Qed.

(** ** Writing the status *)

Lemma update_follows (a : NetworkAttachment) errs rv lock ip s :
  att = Some a → AttNSN a = key → situation (view (world s)) →
  (ip = [] ∨ good_lock (view (world s)) a lock ip) →
  ends (updateNAStatus ns name a errs rv lock ip) s (λ _ s',
    rtc (system_step home) (view (world s)) (view (world s'))).
Proof.
  intros Ea Ek Hs Hip. unfold updateNAStatus. apply ends_bind, ends_call. intros s1 Ew.
  assert (Hsteps : rtc (system_step home) (view (world s)) (view (world s1))).
  { rewrite Ew. clear Ew. set (sent := status_update a errs lock ip).
    destruct (update_step sent (world s)) as (w0 & Ho & Hu).
    pose proof (others_follow [] _ _ Hs Ho) as Hf. pose proof (fo_situation _ _ _ Hf) as Hs0.
    destruct (att_Update sent (world s)) as [[e|a2] w1]; cbn [snd]; [rewrite Hu; by apply fo_steps in Hf|].
    destruct Hu as (old & Hold & Ev & (_ & Euid & _ & Est) & Hnew & ->).
    change (AttNSN sent) with (AttNSN a) in *. rewrite Ek in *.
    assert (old = a) as -> by by apply (st_version _ Hs0 a).
    etrans; [by eapply fo_steps|]. apply controller_system, (cs_status _ _ _ a); [done|done|done|].
    unfold has_address. rewrite Est. intros Hne.
    destruct Hip as [->|Hg]; [done|]. apply (good_follows [] _ _ _ _ _ Hf) in Hg; [|apply not_elem_of_nil].
    destruct Hg as (n & ipl & x & En & Eo & Hp & Eu & Hx & ->).
    exists n, ipl. cbn [fst]. rewrite <- En. split; [by apply (Hp a)|]. exists x. rewrite Est, Euid. by split_and!. }
  destruct ((att_Update _ (world s)).1) as [e|a2].
  - destruct (IsNotFound e); by apply ends_ret.
  - apply ends_bind, ends_quiet; [|intros _ s2 E2; apply ends_ret; by rewrite E2].
    case_bool_decide; [|apply quiet_ret]. apply quiet_bind; [apply quiet_read|intros _; apply quiet_set_atts].
Qed.

(** ** Which locks are given up *)

Section Sorting.
Variables vni base last : Z.
#[local] Abbreviation sorts := (sorted_locks att vni base last).

(** The address in the status is one of the subnet. *)
Definition placed : Prop := ∀ a, att = Some a → has_address a → ∃ x n,
  names (AddressVNI (na_Status a)) x n ∧ StatusIPv4 (na_Status a) = IP_String (Uint32ToIPv4 x) ∧
  AddressVNI (na_Status a) = vni ∧ base ≤ x ≤ last.

(** Distinct locks have distinct UIDs. *)
Lemma owned_unique ls y z :
  NoDup (lock_uid <$> ls) → owned_lock att ls y → owned_lock att ls z → pl_UID y = pl_UID z → y = z.
Proof.
  intros Hnd (i & Hi & Hy & _) (j & Hj & Hz & _) E.
  pose proof (NewParsedLock_inv _ _ Hy) as (_ & Eu & _). pose proof (NewParsedLock_inv _ _ Hz) as (_ & Eu' & _).
  apply list_elem_of_lookup in Hi as [m Hm], Hj as [m' Hm'].
  assert (m = m') as ->; [|by simplify_eq].
  eapply (NoDup_lookup _ _ _ (lock_uid i) Hnd); rewrite list_lookup_fmap; [by rewrite Hm|].
  rewrite Hm'. simpl. unfold lock_uid. by rewrite <- Eu', <- E, Eu.
Qed.

(** What is given up is owned, and not the lock that is kept. *)
Lemma to_release_elem ls x y :
  sorts ls x → NoDup (lock_uid <$> ls) → y ∈ to_release att x →
  owned_lock att ls y ∧ (is_Some att → desired vni base last y → IpLock.Equal y (kept x) = false).
Proof.
  intros Hx Hnd [Hy|Hy]%AddListFunc_elem.
  - apply (so_undesired _ _ _ _ _ _ Hx) in Hy as [? ?]. by split.
  - pose proof (so_nodup _ _ _ _ _ _ Hx Hnd) as Hndk.
    assert (Hrem : ∀ z, y ∈ (RemFunc (usableLocks x) z).1 →
      y ∈ usableLocks x ∧ IpLock.Equal y z = false).
    { intros z Hz. pose proof (RemFunc_spec _ z Hndk) as Hr. destruct (RemFunc _ _) as [w d].
      destruct Hr as (_ & Hr & Hsub & _). split; [by eapply elem_of_sublist|].
      apply Hr. apply Has_keys. by apply list_elem_of_fmap_2. }
    unfold choose_lock, kept in *. destruct att as [a|].
    + destruct (pl_Obj (lockInStatus x)).
      * destruct (Hrem _ Hy) as [Hu ?]. by apply (so_usable _ _ _ _ _ _ Hx) in Hu as [? _].
      * destruct (usableLocks x) eqn:E; [by apply elem_of_nil in Hy|].
        destruct (Hrem _ Hy) as [Hu ?]. rewrite <- E in Hu.
        by apply (so_usable _ _ _ _ _ _ Hx) in Hu as [? _].
    + apply (so_usable _ _ _ _ _ _ Hx) in Hy as [? _]. split; [done|]. by intros [??].
Qed.

(** The status does not rely on what is given up. *)
Lemma to_release_spare ls x y :
  sorts ls x → found_status att x → NoDup (lock_uid <$> ls) → placed → y ∈ to_release att x →
  spare (pl_name y) (pl_UID y).
Proof.
  intros Hx Hfound Hnd Hpl Hy a l Ea Hh (z & (Hv & Hz & En) & Ei & Eu & _) E.
  destruct (to_release_elem _ _ _ Hx Hnd Hy) as [Hown Hnk].
  destruct (Hpl a Ea Hh) as (z' & n' & (_ & Hz' & _) & Ei' & Evni & Hr).
  rewrite Ei in Ei'. apply IP_String_inj in Ei' as <-; [|done..].
  destruct (parse_make_name _ _ Hv Hz) as (n2 & En2 & Epn). rewrite En in En2. injection En2 as <-.
  pose proof Hown as (i & Hi & Hpi & _). apply NewParsedLock_inv in Hpi as (_ & Eui & _ & _ & Ep).
  rewrite Epn in Ep. injection Ep as Ep1 Ep2.
  assert (Hd : desired vni base last y) by (unfold desired; rewrite <- Ep1, <- Ep2; by split).
  assert (Hst : in_status att y).
  { exists a. split; [done|]. split; [by rewrite <- E, Eu|]. split; [done|]. unfold GetIP. by rewrite <- Ep2. }
  assert (Hu : y ∈ usableLocks x) by by apply (so_usable _ _ _ _ _ _ Hx).
  destruct (Hfound y Hu Hst) as [o Ho]. destruct (so_status _ _ _ _ _ _ Hx) as [?|[Hk Hks]]; [congruence|].
  assert (lockInStatus x = y) as Hyk.
  { apply (so_usable _ _ _ _ _ _ Hx) in Hk as [Hok _]. apply (owned_unique ls); [done..|].
    destruct Hks as (a2 & Ea2 & -> & _), Hst as (a1 & Ea1 & -> & _). congruence. }
  assert (IpLock.Equal y (kept x) = true) as Heq.
  { unfold kept. rewrite Ho, Hyk. by apply Equal_key. }
  rewrite Hnk in Heq; [done| |done]. rewrite Ea. eauto.
Qed.

Lemma to_release_disposable σ ls x y :
  sorts ls x → found_status att x → NoDup (lock_uid <$> ls) → placed →
  (∀ ipl, ipl ∈ ls → known σ ipl) → y ∈ to_release att x →
  disposable (pl_UID <$> to_release att x) σ y.
Proof.
  intros Hx Hfound Hnd Hpl Hkn Hy. destruct (to_release_elem _ _ _ Hx Hnd Hy) as [(i & Hi & Hpi & _) _].
  pose proof (NewParsedLock_inv _ _ Hpi) as (_ & Eu & En & Ens & _).
  pose proof (Hkn i Hi) as Hk. pose proof Hk as (Hns & _). exists i. unfold lock_nsn in *. simpl in Hns.
  split; [done|]. split; [by rewrite Ens|]. split; [by rewrite En, Hns|]. split; [done|].
  change (uid i) with (UID (ipl_meta i)). rewrite <- Eu. split; [by apply list_elem_of_fmap_2|].
  by eapply to_release_spare.
Qed.

(** The lock chosen for the status is not given up. *)
Lemma chosen_survives ls x :
  sorts ls x → NoDup (lock_uid <$> ls) → is_Some att →
  pl_Obj (lockInStatus x) = None → usableLocks x ≠ [] →
  pl_UID (Best (usableLocks x)) ∉ pl_UID <$> to_release att x.
Proof.
  intros Hx Hnd Ha Hno Hne (y & E & Hy)%list_elem_of_fmap.
  destruct (to_release_elem _ _ _ Hx Hnd Hy) as [Hown Hnk].
  pose proof (proj1 (Best_spec _ Hne)) as Hb. apply (so_usable _ _ _ _ _ _ Hx) in Hb as [Hob Hdb].
  assert (y = Best (usableLocks x)) as -> by by apply (owned_unique ls).
  specialize (Hnk Ha Hdb). unfold kept in Hnk. rewrite Hno in Hnk.
  by rewrite (proj2 (Equal_key _ _) eq_refl) in Hnk.
Qed.

(** ** Looking at the locks *)

(** The locks that have been considered. *)
Definition candidates σ (ls : list IPLock) : Prop :=
  NoDup (lock_uid <$> ls) ∧ ∀ ipl, ipl ∈ ls → known σ ipl ∧ present σ ipl.

Lemma candidates_follows σ σ' ls : follows [] σ σ' → candidates σ ls → candidates σ' ls.
Proof.
  intros Hf [Hnd Hc]. split; [done|]. intros ipl Hin. destruct (Hc ipl Hin) as [Hk Hp].
  split; [by eapply fo_known|]. pose proof Hk as (Hns & _). eapply fo_present; [done..|apply not_elem_of_nil|done].
Qed.

(** A lock fetched by a name that no considered lock has is a new one. *)
Lemma candidates_snoc σ ls x ipl z n :
  situation σ → sorts ls x → candidates σ ls → names vni z n → z ∉ considered x →
  sh_locks σ !! (ns, n) = Some ipl → (owner ipl).1 = name → candidates σ (ls ++ [ipl]).
Proof.
  intros Hs Hx [Hnd Hc] (Hv & Hz & En) Hnot Hl Eo.
  destruct (inv_locks _ _ (st_inv _ Hs) _ _ Hl) as (Ek & Hi). split.
  - rewrite fmap_app. apply NoDup_app. split; [done|]. split; [|apply NoDup_singleton].
    intros u (j & -> & Hj)%list_elem_of_fmap Hu. apply list_elem_of_singleton in Hu.
    destruct (Hc j Hj) as [(_ & _ & Hij) _]. change (lock_uid j) with (uid j) in Hu.
    change (lock_uid ipl) with (uid ipl) in Hu. rewrite Hu, Hi in Hij.
    assert (Name (ipl_meta j) = n) as Ej by (unfold lock_nsn in *; congruence).
    destruct (parse_make_name _ _ Hv Hz) as (n2 & En2 & Ep). rewrite En in En2. injection En2 as <-.
    apply Hnot, (so_seen _ _ _ _ _ _ Hx). exists j, (MkParsedLock (Namespace (ipl_meta j)) n vni z
      (UID (ipl_meta j)) (CreationTimestamp (ipl_meta j)) (Some j)).
    split; [done|]. split; [|done]. unfold NewParsedLock. by rewrite Ej, Ep.
  - intros j [Hj|Hj%list_elem_of_singleton]%elem_of_app; [by apply Hc|]. subst j. split.
    + unfold known. rewrite Ek. by rewrite Hi.
    + intros ????. by rewrite Ek.
Qed.

Lemma consider_status_follows ls x s :
  situation (view (world s)) → sorts ls x → found_status att x → candidates (view (world s)) ls → placed →
  ends (consider_status ns name att vni base last x) s (λ x' s',
    follows [] (view (world s)) (view (world s')) ∧
    ∃ ls', sorts ls' x' ∧ found_status att x' ∧ candidates (view (world s')) ls').
Proof.
  intros Hs Hx Hfound Hc Hpl.
  assert (Hret : ∀ s', follows [] (view (world s)) (view (world s')) →
    ends (mret x) s' (λ x' s', follows [] (view (world s)) (view (world s')) ∧
    ∃ ls', sorts ls' x' ∧ found_status att x' ∧ candidates (view (world s')) ls')).
  { intros s' Hf. apply ends_ret. split; [done|]. exists ls. split; [done|]. split; [done|].
    by eapply candidates_follows. }
  unfold consider_status. destruct att as [a|] eqn:Ea; [rewrite <- Ea in *|by apply Hret, follows_refl].
  destruct (String.eqb_spec (StatusIPv4 (na_Status a)) "") as [|Hne]; [by apply Hret, follows_refl|].
  destruct (Hpl a Ea Hne) as (z & n & Hz & Ei & Ev & _). rewrite Ei.
  pose proof Hz as (_ & Hz32 & En). destruct (PutUint32_bytes z Hz32) as [Hb _].
  rewrite Uint32ToIPv4_bytes, (ParseIP_String _ Hb), <- Uint32ToIPv4_bytes.
  case_bool_decide; [by apply Hret, follows_refl|].
  apply ends_bind, ends_lift. intros u Eu. rewrite (IPv4ToUint32_Uint32ToIPv4 z Hz32) in Eu.
  injection Eu as <-. case_bool_decide as Hin; [by apply Hret, follows_refl|].
  apply ends_bind, ends_lift. intros n' En'. rewrite Ev in *. rewrite En in En'. injection En' as <-.
  apply ends_bind, ends_call. intros s1 Ew.
  destruct (get_step ns n (world s)) as (w0 & Ho & Hg). pose proof (others_follow [] _ _ Hs Ho) as Hf.
  destruct (lock_Get ns n (world s)) as [[e|ipl] w1]; cbn [fst snd] in *; subst w1.
  { apply Hret. by rewrite Hg. }
  destruct Hg as [Hl Hg]. rewrite <- Hg in Hf, Hl.
  destruct (String.eqb_spec (GetOwner (ipl_meta ipl) "NetworkAttachment").1 name) as [Eo|];
    [|by apply Hret].
  apply ends_ret. split; [done|]. exists (ls ++ [ipl]). split; [by apply consider_sorted|].
  split; [by apply consider_found|]. eapply candidates_snoc; try done.
  - by eapply fo_situation.
  - by eapply candidates_follows.
Qed.

(** The lock chosen for the status, if any. *)
Lemma choose_lock_best a x :
  att = Some a → is_Some (pl_Obj (choose_lock att x).1) →
  pl_Obj (lockInStatus x) = None ∧ usableLocks x ≠ [] ∧ (choose_lock att x).1 = Best (usableLocks x).
Proof.
  intros ->. unfold choose_lock. destruct (pl_Obj (lockInStatus x)); [by intros [??]|].
  by destruct (usableLocks x); [intros [??]|].
Qed.

(** A considered lock of the attachment may be put into its status. *)
Lemma good_candidate σ a ipl y :
  situation σ → known σ ipl → present σ ipl → NewParsedLock ipl = Some y →
  owner ipl = (name, UID (na_meta a)) → good_lock σ a y (GetIP y).
Proof.
  intros Hs (Hns & _ & Hi) Hp (_ & Eu & Enm & _ & Ep)%NewParsedLock_inv Eo.
  destruct (inv_issued _ _ (st_inv _ Hs) _ _ _ Hi) as (v & x & Hx & _). pose proof Hx as (Hv & Hz & En).
  destruct (parse_make_name _ _ Hv Hz) as (n & En2 & Ep'). rewrite En in En2. injection En2 as <-.
  exists (lock_nsn ipl).2, ipl, (pl_addrU y). split; [by destruct (lock_nsn ipl); simpl in *; congruence|].
  split; [done|]. split; [done|]. split; [done|]. split; [|done].
  unfold lock_nsn in *. simpl in *. rewrite Enm, Ep' in Ep. by injection Ep as <- <-.
Qed.

(** What the analysis of the locks leaves. *)
Lemma release_and_choose_follows L nadat sn rv s :
  situation (view (world s)) → placed →
  (∀ ls, lockByIndex L name = inr ls → candidates (view (world s)) ls) →
  ends (release_and_choose L ns name att nadat sn rv vni base last) s (λ a s',
    (∃ D, follows D (view (world s)) (view (world s'))) ∧ a_VNI a = vni ∧
    (∀ at_, att = Some at_ → is_Some (pl_Obj (a_lockForStatus a)) →
       good_lock (view (world s')) at_ (a_lockForStatus a) (GetIP (a_lockForStatus a)))).
Proof.
  intros Hs Hpl Hview. unfold release_and_choose. destruct (lockByIndex L name) as [e|ls] eqn:EL.
  { apply ends_ret. split; [exists []; by apply follows_refl|]. split; [done|]. by intros ? _ [??]. }
  apply ends_bind. eapply ends_conseq.
  { apply (consider_status_follows ls); [done|by apply (consider_all new_set new_set_ok new_set_empty)|apply consider_all_found|by apply Hview|done]. }
  intros x s1 (Hf1 & ls1 & Hx & Hfound & Hc). apply ends_bind, ends_quiet; [apply quiet_reset|].
  intros _ s2 E2. pose proof Hc as [Hnd Hkn].
  assert (Hdisp : ∀ y, y ∈ to_release att x →
    disposable (pl_UID <$> to_release att x) (view (world s2)) y).
  { intros y Hy. eapply to_release_disposable; [done..| |done]. intros ipl Hi. rewrite E2. by apply Hkn. }
  pose proof (chosen_survives ls1 x Hx Hnd) as Hsurv.
  unfold to_release in Hdisp, Hsurv.
  destruct (choose_lock att x) as [lock rest] eqn:Ech. cbn [fst snd] in *. apply ends_bind.
  eapply ends_conseq.
  { eapply (delete_locks_follow _ _ s2); [rewrite E2; by eapply fo_situation|exact Hdisp]. }
  intros err s3 Hf3. rewrite E2 in Hf3. apply ends_ret. split.
  { eexists. eapply follows_trans; [|exact Hf3]. by eapply follows_weaken; [|exact Hf1]; apply list_subseteq_nil. }
  split; [done|]. simpl. intros at_ Ea Ho. pose proof (choose_lock_best at_ x Ea) as Hbest.
  rewrite Ech in Hbest. cbn [fst] in Hbest. destruct (Hbest Ho) as (Eno & Hne & ->).
  assert (Hb : Best (usableLocks x) ∈ usableLocks x) by by apply Best_spec.
  apply (so_usable _ _ _ _ _ _ Hx) in Hb as [(i & Hi & Hpi & Hown) Hd].
  destruct (Hkn i Hi) as [Hk Hp]. pose proof (NewParsedLock_inv _ _ Hpi) as (_ & Eu1 & En & Ens & Ep).
  pose proof Hk as (Hns & Hon & _). pose proof (fo_situation _ _ _ Hf1) as Hs1.
  eapply (good_follows _ _ _ _ _ _ Hf3); [apply Hsurv; [by rewrite Ea; eauto|done|done]|].
  eapply good_candidate; [exact Hs1|exact Hk|exact Hp|exact Hpi|].
  unfold owned in Hown. rewrite Ea in Hown. unfold owner in *. destruct (GetOwner _ _). simpl in *. congruence.
Qed.

End Sorting.

(** ** Processing the attachment *)

(** What the informer caches show is up to date in these respects: the attachment
    is the version on the server, or without an address if it is gone; the locks
    under its name have been on the server, in its namespace, and those of its
    edition still are; its subnet is in the namespace of the VNI, and its address,
    if it has one, is in its subnet. *)
Record sees (L : Listers) σ : Prop := Sees {
  see_att a : att = Some a → sh_atts σ !! key = Some a;
  see_gone a : att = None → sh_atts σ !! key = Some a → ¬ has_address a;
  see_locks ls : lockByIndex L name = inr ls → candidates σ ls;
  see_subnet a sn : att = Some a → subnetLister L ns (SubnetOf (na_Spec a)) = inr sn →
    home (vni_of sn) = ns ∧
    (has_address a → AddressVNI (na_Status a) = vni_of sn ∧
       ∀ ps x, block sn = Some ps → is_u32 x → StatusIPv4 (na_Status a) = IP_String (Uint32ToIPv4 x) →
         baseU ps ≤ x ≤ lastU ps) }.

Lemma sees_situation L σ : inv home σ → sees L σ → situation σ.
Proof.
  intros Hi [Ha Hg _ _]. split; [done| |].
  - intros a E. specialize (Ha a E). split; [by eapply inv_versions|]. intros a' Ha' _. congruence.
  - intros a' Ha' Hh. destruct att as [a|] eqn:E; [|by destruct (Hg a' eq_refl Ha')].
    rewrite (Ha a eq_refl) in Ha'. injection Ha' as <-. by exists a.
Qed.

Lemma sees_placed L σ sn ps :
  inv home σ → sees L σ → block sn = Some ps →
  (∀ a, att = Some a → subnetLister L ns (SubnetOf (na_Spec a)) = inr sn) →
  placed (vni_of sn) (baseU ps) (lastU ps).
Proof.
  intros Hi Hv Hb Hsn a E Hh. destruct (see_subnet _ _ Hv a sn E (Hsn a E)) as [_ Hadd].
  destruct (Hadd Hh) as [Ev Hr]. destruct (inv_backed _ _ Hi _ _ (see_att _ _ Hv a E) Hh) as (n & l & _ & x & Hx & Ei & _).
  exists x, n. split; [done|]. split; [done|]. split; [done|]. apply Hr; [done| |done]. apply Hx.
Qed.

Lemma analyzeAndRelease_follows L nadat s :
  inv home (view (world s)) → sees L (view (world s)) → listers_ok L →
  ends (analyzeAndRelease L ns name att nadat) s (λ a s',
    (∃ D, follows D (view (world s)) (view (world s'))) ∧
    (∀ at_, att = Some at_ → (a_ok a = true → a_statusErrs a = [] → 0 ≤ a_VNI a ≤ maxVNI ∧ home (a_VNI a) = ns) ∧
      (is_Some (pl_Obj (a_lockForStatus a)) →
       good_lock (view (world s')) at_ (a_lockForStatus a) (GetIP (a_lockForStatus a))))).
Proof.
  intros Hi Hv [_ Hsn]. pose proof (sees_situation _ _ Hi Hv) as Hs. unfold analyzeAndRelease.
  destruct att as [a|] eqn:Ea; rewrite <- Ea in *.
  2: { eapply ends_conseq.
       - apply release_and_choose_follows; [done| |by apply (see_locks _ _ Hv)]. intros a E. congruence.
       - intros an s' (Hf & _). split; [done|]. intros ? E. congruence. }
  assert (Hstop : ∀ rv vni errs ok, (errs = [] → ok = false) →
    ends (mret (MkAnalysis (SubnetOf (na_Spec a)) rv vni 0 0 zeroParsedLock zeroParsedLock errs None ok)) s
    (λ a s', (∃ D, follows D (view (world s)) (view (world s'))) ∧
    (∀ at_, att = Some at_ → (a_ok a = true → a_statusErrs a = [] → 0 ≤ a_VNI a ≤ maxVNI ∧ home (a_VNI a) = ns) ∧
      (is_Some (pl_Obj (a_lockForStatus a)) →
       good_lock (view (world s')) at_ (a_lockForStatus a) (GetIP (a_lockForStatus a)))))).
  { intros rv vni errs ok Hne. apply ends_ret. split; [exists []; by apply follows_refl|].
    intros at_ _. simpl. split; [|by intros [??]]. intros -> E. by specialize (Hne E). }
  destruct (subnetLister L ns (SubnetOf (na_Spec a))) as [e|sn] eqn:Es.
  { destruct (negb (IsNotFound e)); by apply Hstop. }
  destruct (Hsn _ _ _ Es) as [Hvni H6]. destruct (ParseCIDR (IPv4 (sn_Spec sn))) as [[ip net]|] eqn:Ec.
  2: by apply Hstop.
  destruct (IPNetToBoundsU_ok sn ip net Ec H6) as (ps & Ebl & Eb & _).
  apply ends_bind, ends_lift. intros [base last] Ebl'. rewrite Eb in Ebl'. injection Ebl' as <- <-.
  eapply ends_conseq.
  { apply release_and_choose_follows; [done| |by apply (see_locks _ _ Hv)].
    eapply sees_placed; [done..|]. intros a' E. assert (a' = a) as -> by congruence. done. }
  intros an s' (Hf & Evni & Hg). split; [done|]. intros at_ E. split; [|by apply Hg]. intros _ _.
  rewrite Evni. split; [done|]. by apply (see_subnet _ _ Hv a).
Qed.

Lemma assign_steps fuel r a an s :
  never_refused → att = Some a → AttNSN a = key → situation (view (world s)) →
  (a_statusErrs an = [] → 0 ≤ a_VNI an ≤ maxVNI ∧ home (a_VNI an) = ns) →
  (is_Some (pl_Obj (a_lockForStatus an)) →
   good_lock (view (world s)) a (a_lockForStatus an) (GetIP (a_lockForStatus an))) →
  ends (assign new_set fuel r ns name a an) s (λ _ s',
    rtc (system_step home) (view (world s)) (view (world s'))).
Proof.
  intros Hnr Ea Ek Hs Hvni Hgood. unfold assign. apply ends_bind, ends_quiet; [apply quiet_read|].
  intros d s1 E1. rewrite <- E1 in *. clear s E1. destruct (a_statusErrs an) as [|e0 errs].
  2: { apply update_follows; auto. }
  destruct (Hvni eq_refl) as [Hv Hh]. destruct (pl_Obj (a_lockForStatus an)) as [o|].
  - destruct (GoNet.Equal _ _); [by apply ends_ret|]. apply update_follows; eauto.
  - destruct (negb _); [by apply ends_ret|]. apply ends_bind. eapply ends_conseq.
    { apply (pickAndLock_follows fuel r a (a_subnetName an) (a_VNI an) (a_base an) (a_last an) s1); done. }
    intros [[lock ip] [e|]] s2 [Hf Hg]; [by apply ends_ret, fo_steps in Hf|].
    eapply ends_conseq.
    { apply update_follows; [done|done|by eapply fo_situation|]. right. by apply Hg. }
    intros err s3 Hr. etrans; [by eapply fo_steps|exact Hr].
Qed.

End Refine.

(** What the informer shows of an attachment. *)
Definition shown (L : Listers) (ns name : string) : option NetworkAttachment :=
  match netattLister L ns name with inr a => Some a | inl _ => None end.

Section Process.
Context {S W : Type} `{UInt32Set S, !UInt32SetChooser S, !SetLaws S, !ChooserLaws S}.
Context `{KosClient W, !KosLaws W, !KosShared W}.
Variable new_set : S.
Hypothesis new_set_ok : set_ok new_set.
Hypothesis new_set_empty : ∀ x, ¬ set_mem new_set x.
Variable home : Z → string.
Implicit Types s : @State S W.

Lemma process_steps fuel r L ns name s :
  listers_ok L → never_refused (W := W) →
  (∀ w w', others w w' → rtc (elsewhere home (ns, name)) (view w) (view w')) →
  inv home (view (world s)) → sees home ns name (shown L ns name) L (view (world s)) →
  ends (processNetworkAttachment new_set fuel r L ns name) s (λ _ s',
    rtc (system_step home) (view (world s)) (view (world s'))).
Proof.
  intros HL Hnr Ho Hi Hv. unfold processNetworkAttachment.
  destruct (match netattLister L ns name with inl e => negb (IsNotFound e) | inr _ => false end);
    [by apply ends_ret|].
  change (match netattLister L ns name with inl _ => None | inr a => Some a end) with (shown L ns name).
  apply ends_bind, ends_quiet; [apply quiet_data|]. intros nadat s1 E1. rewrite <- E1 in *. clear s E1.
  apply ends_bind. eapply ends_conseq.
  { by apply (analyzeAndRelease_follows new_set new_set_ok new_set_empty home ns name). }
  intros an s2 [[D Hf] Han]. pose proof (fo_steps _ _ _ _ _ _ _ Hf) as Hr2.
  destruct (negb (bool_decide (a_err an = None)) || negb (a_ok an)) eqn:Eb; [by apply ends_ret|].
  apply orb_false_iff in Eb as [_ Eok%negb_false_iff].
  destruct (shown L ns name) as [a|] eqn:Ea.
  2: { destruct nadat; [|by apply ends_ret]. apply ends_bind. by apply ends_quiet; [|intros; apply ends_ret; congruence]. }
  destruct (pl_Obj (a_lockInStatus an)); [by apply ends_ret|].
  assert (Ek : AttNSN a = (ns, name)).
  { destruct HL as [Hatt _]. unfold shown in Ea. destruct (netattLister L ns name) as [|b] eqn:E; [done|].
    injection Ea as ->. by apply (Hatt _ _ _ E). }
  destruct (Han a eq_refl) as [Hvni Hg].
  eapply ends_conseq.
  { apply (assign_steps new_set home ns name (Some a) Ho fuel r a an s2 Hnr); [done|done|by eapply fo_situation|auto|auto]. }
  intros err s3 Hr3. by etrans.
Qed.


End Process.
End AddressSteps.
