(* ===== verification/AddressRuns.v ===== *)
(** * Addresses: a server, and concrete runs

    A server on which the laws of [KosShared] hold, with the steps of the others
    between any two calls; the theorems at concrete inputs; and the run in which a
    stale cache makes the controller give one address to two attachments. *)

From S2P Require Import Prelude GoStr UInt32Set SortedSet GoNet ApiTypes SubnetStrategy IpLock.
From S2P Require Import KosApi Ipam IpamCorrect IpamRuns Addresses AddressSteps.
Import Ipam IpamCorrect IpamRuns Addresses AddressSteps.

Module AddressRuns.

(** ** A server that keeps the history *)

Definition server_create (ipl : IPLock) (σ : Shared) : (error + IPLock) * Shared :=
  match sh_locks σ !! lock_nsn ipl with
  | Some _ => (inl (MkError ReasonAlreadyExists "already exists"), σ)
  | None =>
      let m := ipl_meta ipl in
      let u := fresh (dom (sh_issued σ)) in
      let ipl2 := MkIPLock (MkMeta (Namespace m) (Name m) u u (Z.of_nat (size (sh_issued σ)) * second)
        (OwnerReferences m) (Labels m) false) (SubnetName ipl) in
      (inr ipl2, put_lock ipl2 σ)
  end.

Definition server_get (ns name : string) (σ : Shared) : (error + IPLock) * Shared :=
  (match sh_locks σ !! (ns, name) with Some ipl => inr ipl | None => inl not_found end, σ).

Definition server_delete (ns name u : string) (σ : Shared) : option error * Shared :=
  match sh_locks σ !! (ns, name) with
  | None => (Some not_found, σ)
  | Some ipl =>
      if String.eqb (uid ipl) u then (None, drop_lock (ns, name) σ)
      else (Some (MkError ReasonConflict "UID precondition failed"), σ)
  end.

Definition server_update (att : NetworkAttachment) (σ : Shared) : (error + NetworkAttachment) * Shared :=
  match sh_atts σ !! AttNSN att with
  | None => (inl not_found, σ)
  | Some old =>
      if String.eqb (version old) (version att) then
        let m := na_meta att in
        let att2 := MkNA (MkMeta (Namespace m) (Name m) (UID m) (fresh (sh_versions σ))
          (CreationTimestamp m) (OwnerReferences m) (Labels m) (Initializers m)) (na_Spec att) (stored_status (na_Status att)) in
        (inr att2, put_att (AttNSN att) att2 σ)
      else (inl (MkError ReasonConflict "object has been modified"), σ)
  end.

#[export] Instance server_client : KosClient Shared := {|
  lock_Get := server_get; lock_Create := server_create; lock_Delete := server_delete;
  att_Update := server_update |}.

Section Laws.
Variables (home : Z → string) (k : NSN).

(** Between two calls of the worker of [k] the others take any number of steps. *)
#[export] Instance server_laws : KosLaws Shared.
Proof.
  refine {| locks := sh_locks; natts := sh_atts; others := rtc (elsewhere home k) |}.
  - intros ipl σ. exists σ. split; [done|]. unfold lock_Create; simpl. unfold server_create.
    destruct (sh_locks σ !! lock_nsn ipl) eqn:E; simpl; [by eauto|done].
  - intros ns name σ. exists σ. split; [done|]. unfold lock_Get; simpl. unfold server_get.
    by destruct (sh_locks σ !! _) eqn:E.
  - intros ns name u σ. exists σ. split; [done|]. unfold lock_Delete; simpl. unfold server_delete.
    destruct (sh_locks σ !! _) as [ipl|] eqn:E; [|done].
    destruct (String.eqb_spec (uid ipl) u); [|done]. split; [by exists ipl|done].
  - intros att σ. exists σ. split; [done|]. unfold att_Update; simpl. unfold server_update.
    destruct (sh_atts σ !! _) as [old|]; [|done]. destruct (String.eqb _ _); [|done]. by repeat split.
Defined.

#[export] Instance server_shared : KosShared Shared.
Proof.
  refine {| view := λ σ, σ |}; try done.
  - intros ipl σ. exists σ. split; [by apply rtc_refl|]. unfold lock_Create; simpl. unfold server_create.
    destruct (sh_locks σ !! lock_nsn ipl) eqn:E; [done|]. split; [done|]. split; [|done].
    apply not_elem_of_dom. unfold uid. simpl. apply is_fresh.
  - intros ns name σ. exists σ. split; [by apply rtc_refl|]. unfold lock_Get; simpl. unfold server_get.
    by destruct (sh_locks σ !! _) eqn:E.
  - intros ns name u σ. exists σ. split; [by apply rtc_refl|]. unfold lock_Delete; simpl. unfold server_delete.
    destruct (sh_locks σ !! _) as [ipl|] eqn:E; [|done].
    destruct (String.eqb_spec (uid ipl) u); [|done]. by exists ipl.
  - intros att σ. exists σ. split; [by apply rtc_refl|]. unfold att_Update; simpl. unfold server_update.
    destruct (sh_atts σ !! _) as [old|] eqn:E; [|done]. destruct (String.eqb_spec (version old) (version att)); [|done].
    exists old. split; [done|]. split; [done|]. split; [done|]. split; [|done].
    unfold version. simpl. apply is_fresh.
Defined.

Lemma server_settles_once : server_settles (W := Shared) 1.
Proof.
  intros ipl σ. unfold settles, lock_Create, lock_Get; simpl. unfold server_create, server_get.
  unfold lock_nsn. destruct (sh_locks σ !! _) eqn:E; [|done]. simpl. by rewrite E.
Qed.

Lemma server_never_refuses : never_refused (W := Shared).
Proof.
  intros ipl σ e σ'. unfold lock_Create; simpl. unfold server_create.
  destruct (sh_locks σ !! _); [|done]. intros [= <- _]. by left.
Qed.

End Laws.

(** ** The theorems at concrete inputs *)

Definition home1 : Z → string := home_of [subnet].

(** Attachment foo, without an address yet. *)
Definition before : Shared := MkShared ∅ {[("nsA", "foo") := foo]} ∅ {["7"]}.

Lemma before_inv : inv home1 before.
Proof.
  split; simpl.
  - intros key ipl. by rewrite lookup_empty.
  - intros u key o. by rewrite lookup_empty.
  - intros k a [_ <-]%lookup_singleton_Some. by apply elem_of_singleton.
  - by intros k a [_ <-]%lookup_singleton_Some.
Qed.

Lemma before_seen :
  sees home1 "nsA" "foo" (shown (listers [foo] []) "nsA" "foo") (listers [foo] []) before.
Proof.
  split; simpl.
  - by intros a [= <-].
  - done.
  - intros ls [= <-]. split; [apply NoDup_nil_2|]. by intros ipl ?%elem_of_nil.
  - intros a sn [= <-]. simpl. intros [= <-]. by split.
Qed.


(** ** A deleted attachment *)

(** Attachment foo is gone, its lock is not yet. *)
Definition foo_gone : Shared :=
  MkShared {[("nsA", "v1-1-10-0-0-2") := lockA]} ∅ {["l1" := (("nsA", "v1-1-10-0-0-2"), ("foo", "u1"))]} {["7"]}.

(** Meanwhile an operator may make a lock. *)
Definition other_lock : IPLock := lock_of "nsA" "v1-1-10-0-0-9" "bar" "l2" "u2".

Lemma other_lock_new : new_lock home1 foo_gone other_lock.
Proof.
  split; [done|]. split; [done|]. exists 1, 167772169. split; [|reflexivity].
  split; [unfold maxVNI; lia|]. split; [unfold is_u32; lia|reflexivity].
Qed.

Definition issued_on_record (σ : Shared) (u : string) : Prop := is_Some (sh_issued σ !! u).


(** ** A stale cache *)

(** A subnet of two addresses, and two attachments on it. *)
Definition small_subnet : Subnet := MkSubnet (meta "nsA" "sn" "su") (MkSubnetSpec "10.0.0.0/31" 1) [].

Definition small_listers (atts : list NetworkAttachment) (locks : list IPLock) : Listers :=
  let L := listers atts locks in
  MkListers (netattLister L)
    (λ ns name, if bool_decide ((ns, name) = ("nsA", "sn")) then inr small_subnet else inl not_found)
    (netattByIndex L) (lockByIndex L).

Definition with_version (a : NetworkAttachment) (rv : string) : NetworkAttachment :=
  let m := na_meta a in
  MkNA (MkMeta (Namespace m) (Name m) (UID m) rv (CreationTimestamp m) (OwnerReferences m) (Labels m)
    (Initializers m)) (na_Spec a) (na_Status a).

Definition bar : NetworkAttachment := att "nsA" "bar" "u2".
Definition foo2 : NetworkAttachment := with_version foo "8".

(** An agent has just updated foo: the server has version 8. *)
Definition world3 : Store := MkStore ∅ {[("nsA", "foo") := foo2; ("nsA", "bar") := bar]} 10 ∅.

Definition stored (n : string) : M St (option IPLock) := gets (λ s, s_locks (world s) !! ("nsA", n)).
Definition told {A} (f : notified A → M St unit) (o : option A) : M St unit :=
  match o with Some x => f (Object x) | None => mret tt end.
Definition work (atts : list NetworkAttachment) (locks : list (option IPLock)) (name : string) : M St unit :=
  processQueueItem new_set 1 rng0 (small_listers atts (omap id locks)) ("nsA", name).

Definition stale_run : M St unit :=
  (* the informer still shows version 7: an address is locked, but not recorded *)
  work [foo; bar] [] "foo";;
  (* it shows version 8, and no lock yet: a second address is locked, and recorded *)
  work [foo2; bar] [] "foo";;
  lock1 ← stored "v1-1-10-0-0-0";
  lock2 ← stored "v1-1-10-0-0-1";
  told (OnLockCreate new_set) lock1;;
  told (OnLockCreate new_set) lock2;;
  (* it shows both locks, but still version 8 *)
  work [foo2; bar] [lock1; lock2] "foo";;
  told (OnLockDelete new_set) lock2;;
  work [foo2; bar] [lock1] "bar".

(** Address and VNI of an attachment, with the owner of the lock that its status names. *)
Definition holding (w : Store) (name : string) : option (string * Z * option string) :=
  a ← s_atts w !! ("nsA", name);
  let st := na_Status a in
  let mine := List.filter (λ kl, String.eqb (UID (ipl_meta kl.2)) (LockUID st)) (map_to_list (s_locks w)) in
  Some (StatusIPv4 st, AddressVNI st, fst ∘ owner ∘ snd <$> head mine).

(** The hypothesis that the attachment is shown up to date is needed.  This attachment
    owns two locks, and the informer does not show yet which of them its
    status names: the controller keeps the older one and deletes the one in the
    status; the address is then given to another attachment, and both have it. *)
Lemma stale_cache_gives_address_twice :
  ∃ s, stale_run (start world3) = Ok (tt, s) ∧
    holding (world s) "foo" = Some ("10.0.0.1", 1, None) ∧
    holding (world s) "bar" = Some ("10.0.0.1", 1, Some "bar").
Proof. eexists. split; [vm_compute; reflexivity|]. split; vm_compute; reflexivity. Qed.

End AddressRuns.
