(* ===== verification/Fabric.v ===== *)
(** * Network fabrics

    [pkg/networkfabric]: the interface as the class [NetFabric], its contract as
    [NetFabricLaws], the registry of factories ([factory/factory.go]) and the
    logger fabric ([logger/logger.go]), an instance of the contract. *)

From S2P Require Import Prelude GoStr GoNet ApiTypes.
Import GoNet.

(** ** interfaces.go *)

Record LocalNetIfc := MkLocalIfc {
  li_Name : string; li_VNI : Z; li_GuestMAC : HardwareAddr; li_GuestIP : IP }.

Record RemoteNetIfc := MkRemoteIfc {
  ri_VNI : Z; ri_GuestMAC : HardwareAddr; ri_GuestIP : IP; ri_HostIP : IP }.

#[export] Instance LocalNetIfc_eq_dec : EqDecision LocalNetIfc.
Proof. solve_decision. Defined.
#[export] Instance RemoteNetIfc_eq_dec : EqDecision RemoteNetIfc.
Proof. solve_decision. Defined.

(** The methods, over the state [F] of the fabric; [None] is a nil error. *)
Class NetFabric (F : Type) := {
  fab_Name : string;
  fab_CreateLocalIfc : LocalNetIfc → F → option error * F;
  fab_DeleteLocalIfc : LocalNetIfc → F → option error * F;
  fab_CreateRemoteIfc : RemoteNetIfc → F → option error * F;
  fab_DeleteRemoteIfc : RemoteNetIfc → F → option error * F;
  fab_ListLocalIfcs : F → (error + list LocalNetIfc) * F;
  fab_ListRemoteIfcs : F → (error + list RemoteNetIfc) * F
}.

(** The same map except at one key. *)
Definition same_but {A} (k : string) (m m' : gmap string A) : Prop :=
  ∀ k', k' ≠ k → m' !! k' = m !! k'.

(** What clients rely on.  A fabric holds at most one local interface of a name and
    one remote interface of a key; an operation that succeeds does what it says and
    touches nothing else; one that fails leaves only its own interface in doubt;
    deleting what does not exist succeeds. *)
Class NetFabricLaws (F : Type) `{NetFabric F} := {
  fab_ok : F → Prop;
  rkey : RemoteNetIfc → string;
  locals : F → gmap string LocalNetIfc;
  remotes : F → gmap string RemoteNetIfc;
  locals_named f n ifc : fab_ok f → locals f !! n = Some ifc → li_Name ifc = n;
  remotes_keyed f k ifc : fab_ok f → remotes f !! k = Some ifc → rkey ifc = k;
  CreateLocalIfc_law ifc f :
    fab_ok f →
    let '(err, f') := fab_CreateLocalIfc ifc f in
    fab_ok f' ∧ remotes f' = remotes f ∧
    match err with
    | None => locals f' = <[li_Name ifc := ifc]> (locals f)
    | Some _ => same_but (li_Name ifc) (locals f) (locals f')
    end;
  DeleteLocalIfc_law ifc f :
    fab_ok f →
    let '(err, f') := fab_DeleteLocalIfc ifc f in
    fab_ok f' ∧ remotes f' = remotes f ∧
    match err with
    | None => locals f' = delete (li_Name ifc) (locals f)
    | Some _ => same_but (li_Name ifc) (locals f) (locals f') ∧ is_Some (locals f !! li_Name ifc)
    end;
  CreateRemoteIfc_law ifc f :
    fab_ok f →
    let '(err, f') := fab_CreateRemoteIfc ifc f in
    fab_ok f' ∧ locals f' = locals f ∧
    match err with
    | None => remotes f' = <[rkey ifc := ifc]> (remotes f)
    | Some _ => same_but (rkey ifc) (remotes f) (remotes f')
    end;
  DeleteRemoteIfc_law ifc f :
    fab_ok f →
    let '(err, f') := fab_DeleteRemoteIfc ifc f in
    fab_ok f' ∧ locals f' = locals f ∧
    match err with
    | None => remotes f' = delete (rkey ifc) (remotes f)
    | Some _ => same_but (rkey ifc) (remotes f) (remotes f') ∧ is_Some (remotes f !! rkey ifc)
    end;
  ListLocalIfcs_law f :
    fab_ok f →
    let '(r, f') := fab_ListLocalIfcs f in
    fab_ok f' ∧ locals f' = locals f ∧ remotes f' = remotes f ∧
    ∀ l, r = inr l → l ≡ₚ (map_to_list (locals f)).*2;
  ListRemoteIfcs_law f :
    fab_ok f →
    let '(r, f') := fab_ListRemoteIfcs f in
    fab_ok f' ∧ locals f' = locals f ∧ remotes f' = remotes f ∧
    ∀ l, r = inr l → l ≡ₚ (map_to_list (remotes f)).*2
}.

(** ** factory/factory.go *)

Module Factory.
Section Factory.
(** A factory makes a fabric of type [X], or fails. *)
Context {X : Type}.

Definition RegisterFactory (factory : error + X) (name : string)
    : M (gmap string (error + X)) unit :=
  r ← get;
  match r !! name with
  | Some _ => panic ("a factory with name " +:+ name +:+ " is already registered. Use a different name")
  | None => put (<[name := factory]> r)
  end.

Definition NewNetFabricForName (name : string) (factoryRegistry : gmap string (error + X)) : error + X :=
  match factoryRegistry !! name with
  | Some newNetfabric => newNetfabric
  | None =>
      if (0 <? size factoryRegistry)%nat then
        inl (Errorf ("No fabric is registered with name " +:+ name +:+ ". Registered names are: " +:+
                     str_join "," (map_to_list factoryRegistry).*1))
      else inl (Errorf ("No fabric is registered with name " +:+ name +:+
                        " because there are no registered fabrics"))
  end.

(** What is registered under a fresh name is what that name makes from then on, and
    no other name is affected; a name in use panics. *)
Lemma RegisterFactory_spec f name r :
  match RegisterFactory f name r with
  | Ok (_, r') => r !! name = None ∧ NewNetFabricForName name r' = f ∧
      ∀ n, n ≠ name → r' !! n = r !! n
  | Panic _ => is_Some (r !! name)
  end.
Proof.
  unfold RegisterFactory, NewNetFabricForName, get, put, mbind, M_bind.
  destruct (r !! name) as [g|] eqn:E; [by eexists|].
  split; [done|]. rewrite lookup_insert_eq. split; [done|]. intros n Hn. by rewrite lookup_insert_ne.
Qed.
End Factory.
End Factory.

(** ** logger/logger.go

    The logger only keeps the interfaces in maps. *)

Module Logger.

Record logger := MkLogger {
  localIfcs : gmap string LocalNetIfc;
  remoteIfcs : gmap string RemoteNetIfc }.

Definition new : logger := MkLogger ∅ ∅.

Definition Name : string := "logger".

Definition CreateLocalIfc (ifc : LocalNetIfc) (l : logger) : option error * logger :=
  (None, MkLogger (<[li_Name ifc := ifc]> (localIfcs l)) (remoteIfcs l)).

Definition DeleteLocalIfc (ifc : LocalNetIfc) (l : logger) : option error * logger :=
  (None, MkLogger (delete (li_Name ifc) (localIfcs l)) (remoteIfcs l)).

Definition CreateRemoteIfc (ifc : RemoteNetIfc) (l : logger) : option error * logger :=
  (None, MkLogger (localIfcs l) (<[MAC_String (ri_GuestMAC ifc) := ifc]> (remoteIfcs l))).

Definition DeleteRemoteIfc (ifc : RemoteNetIfc) (l : logger) : option error * logger :=
  (None, MkLogger (localIfcs l) (delete (MAC_String (ri_GuestMAC ifc)) (remoteIfcs l))).

(** The order of a Go map is arbitrary: the order of [map_to_list] stands for it. *)
Definition ListLocalIfcs (l : logger) : (error + list LocalNetIfc) * logger :=
  (inr (map_to_list (localIfcs l)).*2, l).

Definition ListRemoteIfcs (l : logger) : (error + list RemoteNetIfc) * logger :=
  (inr (map_to_list (remoteIfcs l)).*2, l).

#[global] Instance logger_fabric : NetFabric logger := {|
  fab_Name := Name;
  fab_CreateLocalIfc := CreateLocalIfc; fab_DeleteLocalIfc := DeleteLocalIfc;
  fab_CreateRemoteIfc := CreateRemoteIfc; fab_DeleteRemoteIfc := DeleteRemoteIfc;
  fab_ListLocalIfcs := ListLocalIfcs; fab_ListRemoteIfcs := ListRemoteIfcs |}.

(** The maps are keyed as the methods key them. *)
Definition logger_ok (l : logger) : Prop :=
  map_Forall (λ n ifc, li_Name ifc = n) (localIfcs l) ∧
  map_Forall (λ k ifc, MAC_String (ri_GuestMAC ifc) = k) (remoteIfcs l).

#[global] Instance logger_laws : NetFabricLaws logger.
Proof.
  refine {| fab_ok := logger_ok; rkey := λ ifc, MAC_String (ri_GuestMAC ifc);
            locals := localIfcs; remotes := remoteIfcs |}.
  - intros f n ifc [Hl _] E. apply (Hl n ifc E).
  - intros f k ifc [_ Hr] E. apply (Hr k ifc E).
  - intros ifc f [Hl Hr]. split; [|done]. split; [|done]. by apply map_Forall_insert_2.
  - intros ifc f [Hl Hr]. split; [|done]. split; [|done]. by apply map_Forall_delete.
  - intros ifc f [Hl Hr]. split; [|done]. split; [done|]. by apply map_Forall_insert_2.
  - intros ifc f [Hl Hr]. split; [|done]. split; [done|]. by apply map_Forall_delete.
  - intros f Hok. split; [done|]. split; [done|]. split; [done|]. by intros l [= <-].
  - intros f Hok. split; [done|]. split; [done|]. split; [done|]. by intros l [= <-].
Defined.

Lemma new_ok : logger_ok new.
Proof. split; apply map_Forall_empty. Qed.

End Logger.
