(* ===== verification/AgentIds.v ===== *)
(** * Names the connection agent derives

    [connectionagent.go]: the MAC address of an attachment, the name of its
    network interface, and the index key that matches interfaces to attachments,
    all functions of its VNI and IP address. *)

From S2P Require Import Prelude GoStr GoNet ApiTypes SubnetStrategy Fabric.
Import GoNet.

(** ** Definitions *)

Definition generateMACAddr (vni : Z) (guestIPv4 : IP) : res HardwareAddr :=
  match To4 guestIPv4 with
  | [g0; g1; g2; g3] =>
      Ok [Z.lor (Z.lor (Z.land (u8 (Z.shiftr vni 13)) 0xF8) (u8 (Z.shiftl (Z.land g0 0x02) 1))) 2;
          g1; g2; g3; u8 (Z.shiftr vni 8); u8 vni]
  | _ => Panic "index out of range"
  end.

Definition generateIfcName (macAddr : HardwareAddr) : string :=
  "kos" +:+ Replace (MAC_String macAddr) ":" "".

Definition attVNIAndIP (vni : Z) (ipv4 : string) : string := FormatUint vni 16 +:+ "/" +:+ ipv4.

Definition attVNIAndIPIndexer (att : NetworkAttachment) : list string :=
  [attVNIAndIP (AddressVNI (na_Status att)) (StatusIPv4 (na_Status att))].

Definition ifcVNIAndIP (vni : Z) (ipv4 : IP) : string :=
  FormatUint vni 16 +:+ "/" +:+ IP_String ipv4.
Definition localIfcVNIAndIP (ifc : LocalNetIfc) : string := ifcVNIAndIP (li_VNI ifc) (li_GuestIP ifc).
Definition remoteIfcVNIAndIP (ifc : RemoteNetIfc) : string := ifcVNIAndIP (ri_VNI ifc) (ri_GuestIP ifc).

Definition ifcNeedsUpdate (ifcHostIP newHostIP : IP) (ifcMAC newMAC : HardwareAddr) : bool :=
  negb (GoNet.Equal ifcHostIP newHostIP) || negb (bool_decide (ifcMAC = newMAC)).

(** ** MAC addresses *)

(** The bits of the VNI that the first byte of the address carries. *)
Lemma land_F8 b : is_u8 b → Z.land b 0xF8 = 8 * (b / 8).
Proof. revert b. apply byte_cases. apply (bool_decide_unpack _). vm_compute. exact I. Qed.

Lemma land_2 b : is_u8 b → Z.land b 2 = if Z.testbit b 1 then 2 else 0.
Proof. revert b. apply byte_cases. apply (bool_decide_unpack _). vm_compute. exact I. Qed.

Lemma mac_first v g :
  0 ≤ v ≤ maxVNI → is_u8 g →
  Z.lor (Z.lor (Z.land (u8 (Z.shiftr v 13)) 0xF8) (u8 (Z.shiftl (Z.land g 0x02) 1))) 2 =
  8 * (v / 65536) + (if Z.testbit g 1 then 4 else 0) + 2.
Proof.
  intros Hv Hg. unfold maxVNI in Hv. rewrite Z.shiftr_div_pow2 by lia. change (2 ^ 13) with 8192.
  assert (Hq : is_u8 (v / 8192)).
  { unfold is_u8. split; [apply Z.div_pos; lia|apply Z.div_lt_upper_bound; lia]. }
  rewrite u8_small, land_F8, land_2 by done. rewrite Z.div_div by lia. change (8192 * 8) with 65536.
  assert (Ht : 0 ≤ v / 65536 < 32) by (split; [apply Z.div_pos; lia|apply Z.div_lt_upper_bound; lia]).
  generalize dependent (v / 65536). clear. intros t Ht.
  assert (E : Forall (λ t, ∀ b : bool, Z.lor (Z.lor (8 * t) (u8 (Z.shiftl (if b then 2 else 0) 1))) 2
    = 8 * t + (if b then 4 else 0) + 2) (seqZ 0 32)) by (repeat constructor; intros []; reflexivity).
  rewrite Forall_forall in E. apply E, elem_of_seqZ. lia.
Qed.

Lemma generateMACAddr_eq v ip a b c d :
  0 ≤ v ≤ maxVNI → To4 ip = [a; b; c; d] → is_u8 a →
  generateMACAddr v ip = Ok [8 * (v / 65536) + (if Z.testbit a 1 then 4 else 0) + 2; b; c; d;
                             v / 256 mod 256; v mod 256].
Proof.
  intros Hv E Ha. unfold generateMACAddr. rewrite E, mac_first by done.
  rewrite Z.shiftr_div_pow2 by lia. done.
Qed.

(** The parts of an address that its MAC depends on. *)
Definition mac_key (v : Z) (p : list Z) : Z * bool * list Z := (v, Z.testbit (hd 0 p) 1, tl p).

Lemma mac_of_key v ip v' ip' :
  0 ≤ v ≤ maxVNI → 0 ≤ v' ≤ maxVNI → bytes4 (To4 ip) → bytes4 (To4 ip') →
  generateMACAddr v ip = generateMACAddr v' ip' ↔ mac_key v (To4 ip) = mac_key v' (To4 ip').
Proof.
  intros Hv Hv' (a & b & c & d & E & Ha & Hb & Hc & Hd)%bytes4_inv
    (a' & b' & c' & d' & E' & Ha' & Hb' & Hc' & Hd')%bytes4_inv.
  rewrite (generateMACAddr_eq v ip a b c d), (generateMACAddr_eq v' ip' a' b' c' d') by done.
  rewrite E, E'. unfold mac_key. cbn [hd tl]. unfold maxVNI in *.
  generalize (Z.testbit a 1), (Z.testbit a' 1). intros t t'. split.
  - intros [= H0 -> -> -> H1 H2].
    assert (v / 65536 = v' / 65536 ∧ t = t')
      as [H3 ->] by (destruct t, t'; split; try done; lia).
    assert (v = v') as ->; [Z.div_mod_to_equations; lia|done].
  - by intros [= -> -> -> -> ->].
Qed.

(** ** Interface names *)

(** A string without the characters equal to [c]. *)
Fixpoint strip (c : ascii) (s : string) : string :=
  match s with
  | EmptyString => EmptyString
  | String d s => if char_is c d then strip c s else String d (strip c s)
  end.

Lemma replace_strip c s n :
  (String.length s ≤ n)%nat → replace_go n (String c EmptyString) "" s = strip c s.
Proof.
  revert s. induction n as [|n IH]; intros [|d s] Hn; simpl in *; try (done || lia).
  destruct (char_is c d); simpl.
  - apply IH. lia.
  - f_equal. apply IH. lia.
Qed.

Lemma strip_app c s t : strip c (s +:+ t) = strip c s +:+ strip c t.
Proof.
  induction s as [|d s IH]; [done|]. cbn [strip]. change (String d s +:+ t) with (String d (s +:+ t)).
  cbn [strip]. rewrite IH. by destruct (char_is c d).
Qed.

(** The characters of two hexadecimal digits. *)
Lemma hex2_strip b : is_u8 b → strip ":" (hex2 b) = hex2 b.
Proof. revert b. apply byte_cases. apply (bool_decide_unpack _). vm_compute. exact I. Qed.

Lemma hex2_val b : is_u8 b → parse_go 16 255 0 (hex2 b) = PVal b.
Proof. revert b. apply byte_cases. repeat constructor. Qed.

Lemma hex2_inj a b : is_u8 a → is_u8 b → hex2 a = hex2 b → a = b.
Proof. intros Ha Hb E. apply hex2_val in Ha, Hb. rewrite E, Hb in Ha. by injection Ha. Qed.

Definition hex_all (m : HardwareAddr) : string := str_join "" (hex2 <$> m).

Lemma strip_MAC m : Forall is_u8 m → strip ":" (MAC_String m) = hex_all m.
Proof.
  unfold MAC_String, hex_all. induction 1 as [|b m Hb Hm IH]; [done|]. rewrite fmap_cons.
  destruct (hex2 <$> m) as [|w ws]; [by apply hex2_strip|].
  change (str_join ":" (hex2 b :: w :: ws)) with (hex2 b +:+ ":" +:+ str_join ":" (w :: ws)).
  rewrite !strip_app, hex2_strip, IH by done. done.
Qed.

Lemma generateIfcName_eq m : Forall is_u8 m → generateIfcName m = "kos" +:+ hex_all m.
Proof.
  intros Hm. unfold generateIfcName, Replace. rewrite replace_strip by done. by rewrite strip_MAC.
Qed.

Lemma hex_all_cons b m : hex_all (b :: m) = hex2 b +:+ hex_all m.
Proof.
  unfold hex_all. rewrite fmap_cons. destruct (hex2 <$> m); [|done]. symmetry. apply str_app_nil_r.
Qed.

Lemma hex_all_inj m m' :
  Forall is_u8 m → Forall is_u8 m' → length m = length m' → hex_all m = hex_all m' → m = m'.
Proof.
  intros Hm. revert m'. induction Hm as [|b m Hb Hm IH]; intros [|b' m'] Hm' Hl E; try done.
  apply Forall_cons in Hm' as [Hb' Hm']. rewrite !hex_all_cons in E. injection E as E1 E2 E.
  assert (b = b') as -> by (apply hex2_inj; [done|done|unfold hex2; congruence]).
  f_equal. apply IH; [done|by injection Hl|done].
Qed.

Lemma hex_all_length m : String.length (hex_all m) = (2 * length m)%nat.
Proof.
  induction m as [|b m IH]; [done|]. rewrite hex_all_cons.
  change (hex2 b +:+ hex_all m) with
    (String (digit_char (b / 16)) (String (digit_char (b mod 16)) (hex_all m))).
  simpl. rewrite IH. lia.
Qed.

(** A well-formed MAC address. *)
Definition mac6 (m : HardwareAddr) : Prop := length m = 6%nat ∧ Forall is_u8 m.

Lemma generateIfcName_inj m m' : mac6 m → mac6 m' → generateIfcName m = generateIfcName m' → m = m'.
Proof.
  intros [Hl Hm] [Hl' Hm'] E. rewrite !generateIfcName_eq in E by done.
  injection E as E. apply hex_all_inj; [done..|congruence|done].
Qed.

Lemma generateMACAddr_mac6 v ip :
  0 ≤ v ≤ maxVNI → bytes4 (To4 ip) → ∃ m, generateMACAddr v ip = Ok m ∧ mac6 m ∧ Z.land (hd 0 m) 3 = 2.
Proof.
  intros Hv (a & b & c & d & E & Ha & Hb & Hc & Hd)%bytes4_inv.
  rewrite (generateMACAddr_eq v ip a b c d) by done. eexists. split; [done|]. unfold maxVNI in Hv.
  assert (Ht : 0 ≤ v / 65536 < 32) by (split; [apply Z.div_pos; lia|apply Z.div_lt_upper_bound; lia]).
  split; [split; [done|]|].
  - repeat apply Forall_cons_2; try apply Forall_nil_2; try done; unfold is_u8.
    + destruct (Z.testbit a 1); lia.
    + apply Z.mod_pos_bound. lia.
    + apply Z.mod_pos_bound. lia.
  - cbn [hd]. change 3 with (Z.ones 2). rewrite Z.land_ones by lia. change (2 ^ 2) with 4.
    generalize dependent (v / 65536). intros t _. destruct (Z.testbit a 1).
    + replace (8 * t + 4 + 2) with (2 + (2 * t + 1) * 4) by lia. by rewrite Z_mod_plus_full.
    + replace (8 * t + 0 + 2) with (2 + (2 * t) * 4) by lia. by rewrite Z_mod_plus_full.
Qed.

(** C22: the interface name of an attachment has fifteen characters, which Linux
    allows, its MAC address is a locally administered unicast one, and two
    attachments get the same name (and the same MAC address) exactly when their
    VNIs, the last three bytes of their addresses and one bit of the first byte
    agree. *)
Theorem ifc_names v ip v' ip' :
  0 ≤ v ≤ maxVNI → 0 ≤ v' ≤ maxVNI → bytes4 (To4 ip) → bytes4 (To4 ip') →
  ∃ m m', generateMACAddr v ip = Ok m ∧ generateMACAddr v' ip' = Ok m' ∧
    String.length (generateIfcName m) = 15%nat ∧ Z.land (hd 0 m) 3 = 2 ∧
    (generateIfcName m = generateIfcName m' ↔ m = m') ∧
    (m = m' ↔ v = v' ∧ tl (To4 ip) = tl (To4 ip') ∧
              Z.testbit (hd 0 (To4 ip)) 1 = Z.testbit (hd 0 (To4 ip')) 1).
Proof.
  intros Hv Hv' Hi Hi'. pose proof (mac_of_key v ip v' ip' Hv Hv' Hi Hi') as Hk.
  destruct (generateMACAddr_mac6 v ip Hv Hi) as (m & E & Hm & Hbits).
  destruct (generateMACAddr_mac6 v' ip' Hv' Hi') as (m' & E' & Hm' & _).
  rewrite E, E' in Hk. exists m, m'. split; [done|]. split; [done|]. split.
  { destruct Hm as [Hl Hf]. rewrite generateIfcName_eq by done.
    change (String.length ("kos" +:+ hex_all m)) with (3 + String.length (hex_all m))%nat.
    rewrite hex_all_length. lia. }
  split; [done|]. split; [split; [by apply generateIfcName_inj|congruence]|].
  unfold mac_key in Hk. split.
  - intros ->. assert (Hx := proj1 Hk eq_refl). by injection Hx.
  - intros (Ev & Et & Eb). rewrite Ev, Et, Eb in Hk. by injection (proj2 Hk eq_refl).
Qed.

(** Two addresses of one VNI that differ in their first byte can share a MAC
    address and an interface name. *)
Example mac_collision :
  ∃ m, generateMACAddr 7 (IPv4_16 172 16 0 2) = Ok m ∧ generateMACAddr 7 (IPv4_16 192 16 0 2) = Ok m.
Proof. eexists. split; reflexivity. Qed.

Lemma ifc_names_witness :
  ∃ m m', generateMACAddr 7 (IPv4_16 10 0 0 2) = Ok m ∧ generateMACAddr 7 (IPv4_16 10 0 0 3) = Ok m' ∧
    String.length (generateIfcName m) = 15%nat ∧ Z.land (hd 0 m) 3 = 2 ∧
    (generateIfcName m = generateIfcName m' ↔ m = m') ∧
    (m = m' ↔ 7 = 7 ∧ tl (To4 (IPv4_16 10 0 0 2)) = tl (To4 (IPv4_16 10 0 0 3)) ∧
              Z.testbit (hd 0 (To4 (IPv4_16 10 0 0 2))) 1 = Z.testbit (hd 0 (To4 (IPv4_16 10 0 0 3))) 1).
Proof.
  apply (ifc_names 7 (IPv4_16 10 0 0 2) 7 (IPv4_16 10 0 0 3)).
  - unfold maxVNI. lia.
  - unfold maxVNI. lia.
  - split; [done|]. repeat (apply Forall_cons_2; [unfold is_u8; lia|]). apply Forall_nil_2.
  - split; [done|]. repeat (apply Forall_cons_2; [unfold is_u8; lia|]). apply Forall_nil_2.
Defined.

(** ** The index key *)

Lemma lacks_slash n : 0 ≤ n → lacks "/" (FormatUint n 16) = true.
Proof. intros Hn. apply FormatUint_forall; [lia|done|]. by repeat constructor. Qed.

(** An interface is found under the key of an attachment exactly when the VNI is
    that of the attachment and the address prints as its address. *)
Lemma index_key v s v' ip :
  is_u32 v → is_u32 v' → attVNIAndIP v s = ifcVNIAndIP v' ip ↔ v = v' ∧ s = IP_String ip.
Proof.
  unfold is_u32. intros Hv Hv'. split; [|by intros [-> ->]]. unfold attVNIAndIP, ifcVNIAndIP.
  intros [E ->]%split_at; [|apply lacks_slash; lia..]. split; [|done].
  apply (FormatUint_inj 16); [lia..|done].
Qed.
