(* ===== verification/Agent.v ===== *)
(** * The connection agent: [pkg/controllers/connectionagent]

    One agent runs on each node.  It keeps the network interfaces of the
    attachments on its node, and of the remote attachments in the same virtual
    networks, in step with the API objects.  [State] has the maps of
    [ConnectionAgent]; the informers it starts and stops are a list of stop
    channels, the goroutines that run commands a list of launches, the work queue
    the list of calls made to it.  The network fabric is any [NetFabric], the API
    client any [KosClient].  Metrics and log lines are left out. *)

From S2P Require Import Prelude GoStr GoNet ApiTypes SubnetStrategy KosApi Fabric AgentIds.
Import GoNet.

(** ** The environment *)

(** The informer caches.  A remote informer is named by its stop channel. *)
Record AgentEnv := MkEnv {
  localAttsLister_Get : string → string → error + NetworkAttachment;
  localAttsLister_List : error + list NetworkAttachment;
  localByIndex : string → error + list NetworkAttachment;       (* by VNI and IP *)
  remoteAttsLister_Get : nat → string → error + NetworkAttachment;
  remoteSynced : nat → bool;                                    (* or WaitForCacheSync *)
  remoteByIndex : nat → string → error + list NetworkAttachment
}.

Module Agent.

(** ** State *)

Record vnState := MkVnState {
  remoteAttsInformer : nat; vn_namespace : string;
  localAtts : gset string; remoteAtts : gset string }.

Record LocalAttachmentMainState := MkLocalMain {
  lm_ifc : LocalNetIfc; lm_PostDeleteExec : list string }.

Record LocalAttachmentState := MkLocalState {
  ls_main : LocalAttachmentMainState; ls_report : option ExecReport }.

(** A goroutine that runs a command for an attachment. *)
Record Launch := MkLaunch {
  l_nsn : NSN; l_ifc : LocalNetIfc; l_cmd : list string; l_what : string; l_saveReport : bool }.

Section Model.
Context {F W : Type} `{NetFabric F, KosClient W}.

(** The fields that never change. *)
Variables (localNodeName : string) (hostIP : IP) (allowedPrograms : gset string).

(** The [%#+v] verb of [fmt] on interfaces, for error texts. *)
Variables (fmt_local : LocalNetIfc → string) (fmt_remote : RemoteNetIfc → string).

Record State := MkState {
  vniToVnState : gmap Z vnState;
  nsnToVNStateVNI : gmap NSN Z;
  nsnToLocalMainState : gmap NSN LocalAttachmentMainState;
  nsnToPostCreateExecReport : gmap NSN (option ExecReport);
  nsnToRemoteIfc : gmap NSN RemoteNetIfc;
  nsnToVNIs : gmap NSN (gset Z);
  stopChs : list bool;                 (* of the remote informers: is it open? *)
  launched : list Launch;
  queue : list QueueCall;
  fabric : F;
  api : W }.

Definition NewConnectionAgent (f : F) (w : W) : State := MkState ∅ ∅ ∅ ∅ ∅ ∅ [] [] [] f w.

(** Updates of one field. *)
Definition set_vns (g : gmap Z vnState → gmap Z vnState) : M State unit := modify (λ s,
  MkState (g (vniToVnState s)) (nsnToVNStateVNI s) (nsnToLocalMainState s) (nsnToPostCreateExecReport s)
    (nsnToRemoteIfc s) (nsnToVNIs s) (stopChs s) (launched s) (queue s) (fabric s) (api s)).
Definition set_vnis (g : gmap NSN Z → gmap NSN Z) : M State unit := modify (λ s,
  MkState (vniToVnState s) (g (nsnToVNStateVNI s)) (nsnToLocalMainState s) (nsnToPostCreateExecReport s)
    (nsnToRemoteIfc s) (nsnToVNIs s) (stopChs s) (launched s) (queue s) (fabric s) (api s)).
Definition set_locals (g : gmap NSN LocalAttachmentMainState → gmap NSN LocalAttachmentMainState)
    : M State unit := modify (λ s,
  MkState (vniToVnState s) (nsnToVNStateVNI s) (g (nsnToLocalMainState s)) (nsnToPostCreateExecReport s)
    (nsnToRemoteIfc s) (nsnToVNIs s) (stopChs s) (launched s) (queue s) (fabric s) (api s)).
Definition set_reports (g : gmap NSN (option ExecReport) → gmap NSN (option ExecReport))
    : M State unit := modify (λ s,
  MkState (vniToVnState s) (nsnToVNStateVNI s) (nsnToLocalMainState s) (g (nsnToPostCreateExecReport s))
    (nsnToRemoteIfc s) (nsnToVNIs s) (stopChs s) (launched s) (queue s) (fabric s) (api s)).
Definition set_remotes (g : gmap NSN RemoteNetIfc → gmap NSN RemoteNetIfc) : M State unit := modify (λ s,
  MkState (vniToVnState s) (nsnToVNStateVNI s) (nsnToLocalMainState s) (nsnToPostCreateExecReport s)
    (g (nsnToRemoteIfc s)) (nsnToVNIs s) (stopChs s) (launched s) (queue s) (fabric s) (api s)).
Definition set_seen (g : gmap NSN (gset Z) → gmap NSN (gset Z)) : M State unit := modify (λ s,
  MkState (vniToVnState s) (nsnToVNStateVNI s) (nsnToLocalMainState s) (nsnToPostCreateExecReport s)
    (nsnToRemoteIfc s) (g (nsnToVNIs s)) (stopChs s) (launched s) (queue s) (fabric s) (api s)).
Definition set_stopChs (g : list bool → list bool) : M State unit := modify (λ s,
  MkState (vniToVnState s) (nsnToVNStateVNI s) (nsnToLocalMainState s) (nsnToPostCreateExecReport s)
    (nsnToRemoteIfc s) (nsnToVNIs s) (g (stopChs s)) (launched s) (queue s) (fabric s) (api s)).
Definition launch (l : Launch) : M State unit := modify (λ s,
  MkState (vniToVnState s) (nsnToVNStateVNI s) (nsnToLocalMainState s) (nsnToPostCreateExecReport s)
    (nsnToRemoteIfc s) (nsnToVNIs s) (stopChs s) (launched s ++ [l]) (queue s) (fabric s) (api s)).
Definition enqueue (c : QueueCall) : M State unit := modify (λ s,
  MkState (vniToVnState s) (nsnToVNStateVNI s) (nsnToLocalMainState s) (nsnToPostCreateExecReport s)
    (nsnToRemoteIfc s) (nsnToVNIs s) (stopChs s) (launched s) (queue s ++ [c]) (fabric s) (api s)).
Definition call_fabric {A} (g : F → A * F) : M State A := λ s,
  let '(a, f) := g (fabric s) in
  Ok (a, MkState (vniToVnState s) (nsnToVNStateVNI s) (nsnToLocalMainState s) (nsnToPostCreateExecReport s)
    (nsnToRemoteIfc s) (nsnToVNIs s) (stopChs s) (launched s) (queue s) f (api s)).
Definition call_api {A} (g : W → A * W) : M State A := λ s,
  let '(a, w) := g (api s) in
  Ok (a, MkState (vniToVnState s) (nsnToVNStateVNI s) (nsnToLocalMainState s) (nsnToPostCreateExecReport s)
    (nsnToRemoteIfc s) (nsnToVNIs s) (stopChs s) (launched s) (queue s) (fabric s) w).
Definition lift {A} (r : res A) : M State A := λ s, a ← r; Ok (a, s).

(** ** Accessors of the maps *)

Definition getLocalAttState (nsn : NSN) : M State (option LocalAttachmentState) :=
  s ← get;
  match nsnToLocalMainState s !! nsn with
  | Some main => mret (Some (MkLocalState main (default None (nsnToPostCreateExecReport s !! nsn))))
  | None => mret None
  end.

Definition setLocalAttMainState (nsn : NSN) (state : LocalAttachmentMainState) : M State unit :=
  set_locals <[nsn := state]>.

Definition setExecReport (nsn : NSN) (er : option ExecReport) : M State unit :=
  m ← gets nsnToLocalMainState;
  match m !! nsn with Some _ => set_reports <[nsn := er]> | None => mret tt end.

Definition unsetLocalAttState (nsn : NSN) : M State unit :=
  set_locals (delete nsn);; set_reports (delete nsn).

Definition getRemoteIfc (nsn : NSN) : M State (option RemoteNetIfc) :=
  gets (λ s, nsnToRemoteIfc s !! nsn).
Definition assignRemoteIfc (nsn : NSN) (ifc : RemoteNetIfc) : M State unit := set_remotes <[nsn := ifc]>.
Definition unsetRemoteIfc (nsn : NSN) : M State unit := set_remotes (delete nsn).

Definition getVNStateVNI (nsn : NSN) : M State (option Z) := gets (λ s, nsnToVNStateVNI s !! nsn).
Definition unsetVNStateVNI (nsn : NSN) : M State unit := set_vnis (delete nsn).
Definition setVNStateVNI (nsn : NSN) (vni : Z) : M State unit := set_vnis <[nsn := vni]>.

Definition addVNI (nsn : NSN) (vni : Z) : M State unit :=
  set_seen (λ m, <[nsn := {[vni]} ∪ default ∅ (m !! nsn)]> m).

Definition removeSeenInVNI (nsn : NSN) (vni : Z) : M State unit :=
  set_seen (λ m,
    match m !! nsn with
    | None => m
    | Some attVNIs =>
        let attVNIs := attVNIs ∖ {[vni]} in
        if bool_decide (attVNIs = ∅) then delete nsn m else <[nsn := attVNIs]> m
    end).

(** The VNI if there is exactly one, and how many there are. *)
Definition getAttSeenInVNI (nsn : NSN) : M State (Z * nat) :=
  m ← gets nsnToVNIs;
  let attVNIs := default ∅ (m !! nsn) in
  mret (match elements attVNIs with [vni] => vni | _ => 0 end, size attVNIs).

(** The lister of the virtual network, by the name of its informer. *)
Definition getRemoteAttListerForVNI (vni : Z) : M State (option nat) :=
  gets (λ s, remoteAttsInformer <$> vniToVnState s !! vni).

(** ** Virtual networks *)

(** [close] of a stop channel: panics when it is closed already. *)
Definition close_stopCh (id : nat) : M State unit :=
  chs ← gets stopChs;
  match chs !! id with
  | Some true => set_stopChs <[id := false]>
  | _ => panic "close of closed channel"
  end.

(** The remote attachments of a virtual network that became irrelevant. *)
Fixpoint requeue_remotes (ns : string) (vni : Z) (names : list string) : M State unit :=
  match names with
  | [] => mret tt
  | aRemoteAttName :: names =>
      removeSeenInVNI (ns, aRemoteAttName) vni;;
      enqueue (QAdd (ns, aRemoteAttName));;
      requeue_remotes ns vni names
  end.

(** The order of a Go map is arbitrary: that of [elements] stands for it. *)
Definition clearVNResources (vn : vnState) (lastAttName : string) (vni : Z) : M State unit :=
  close_stopCh (remoteAttsInformer vn);;
  requeue_remotes (vn_namespace vn) vni (elements (remoteAtts vn)).

Definition initVNState (vni : Z) (namespace : string) : M State vnState :=
  chs ← gets stopChs;
  set_stopChs (λ chs, chs ++ [true]);;
  mret (MkVnState (length chs) namespace ∅ ∅).

Definition removeAttFromVNState (attName : string) (vni : Z) : M State (option vnState) :=
  m ← gets vniToVnState;
  match m !! vni with
  | None => mret None
  | Some vn =>
      let locals' := localAtts vn ∖ {[attName]} in
      if bool_decide (locals' = ∅) then
        set_vns (delete vni);;
        mret (Some (MkVnState (remoteAttsInformer vn) (vn_namespace vn) locals' (remoteAtts vn)))
      else
        set_vns <[vni := MkVnState (remoteAttsInformer vn) (vn_namespace vn) locals'
                           (remoteAtts vn ∖ {[attName]})]>;;
        mret None
  end.

Definition updateVNStateAfterAttDeparture (attName : string) (vni : Z) : M State unit :=
  vn ← removeAttFromVNState attName vni;
  match vn with
  | None => mret tt
  | Some vn => clearVNResources vn attName vni
  end.

(** The part of [updateVNStateForExistingAtt] under the mutex. *)
Definition join_vn (attNSN : NSN) (attIsLocal : bool) (vni : Z) : M State (option vnState * bool) :=
  let attName := attNSN.2 in
  m ← gets vniToVnState;
  if attIsLocal then
    vn ← match m !! vni with Some vn => mret vn | None => initVNState vni attNSN.1 end;
    set_vns <[vni := MkVnState (remoteAttsInformer vn) (vn_namespace vn) ({[attName]} ∪ localAtts vn)
                       (remoteAtts vn ∖ {[attName]})]>;;
    mret (None, false)
  else
    match m !! vni with
    | None => mret (None, true)
    | Some vn =>
        let vn := MkVnState (remoteAttsInformer vn) (vn_namespace vn) (localAtts vn ∖ {[attName]})
                    ({[attName]} ∪ remoteAtts vn) in
        if bool_decide (localAtts vn = ∅) then set_vns (delete vni);; mret (Some vn, false)
        else set_vns <[vni := vn]>;; mret (None, false)
    end.

Definition updateVNStateForExistingAtt (attNSN : NSN) (attIsLocal : bool) (vni : Z)
    : M State (option vnState * bool) :=
  r ← join_vn attNSN attIsLocal vni;
  (match r with
   | (None, false) => setVNStateVNI attNSN vni
   | _ => unsetVNStateVNI attNSN
   end);;
  mret r.

Definition updateVNState (attNewVNI : Z) (attNSN : NSN) (attNode : string)
    : M State (option vnState * bool) :=
  old ← getVNStateVNI attNSN;
  (match old with
   | Some attOldVNI =>
       if negb (attOldVNI =? attNewVNI) then
         updateVNStateAfterAttDeparture attNSN.2 attOldVNI;;
         unsetVNStateVNI attNSN
       else mret tt
   | None => mret tt
   end);;
  updateVNStateForExistingAtt attNSN (String.eqb attNode localNodeName) attNewVNI.

(** ** Commands: [attachment-testing.go] *)

Definition FailProgramForbidden : Z := -1.
Definition FailErrNotExit : Z := -2.
Definition FailSysUnexpectedType : Z := -3.

Definition LaunchCommand (attNSN : NSN) (localIfc : LocalNetIfc) (cmd : list string) (what : string)
    (doit saveReport : bool) : M State (list string) :=
  match cmd with
  | [] => mret []
  | cmd0 :: _ =>
      if negb (bool_decide (cmd0 ∈ allowedPrograms)) then
        mret [what +:+ " specifies non-allowed path " +:+ cmd0]
      else if negb doit then mret []
      else launch (MkLaunch attNSN localIfc cmd what saveReport);; mret []
  end.

(** How a run of a command ends, as [exec.Cmd.Run] reports it. *)
Inductive run_error :=
| RunOk
| RunExit (status : Z)        (* an [ExitError] that wraps a [WaitStatus] *)
| RunExitOther                (* an [ExitError] that wraps something else *)
| RunOther.                   (* any other error *)

Record run_result := MkRun {
  rr_err : run_error; rr_start : Time; rr_stop : Time; rr_stdout : string; rr_stderr : string }.

(** The arguments of the command, expanded. *)
Definition expand (ifc : LocalNetIfc) (arg : string) : string :=
  Replace (Replace (Replace arg "${ifname}" (li_Name ifc)) "${ipv4}" (IP_String (li_GuestIP ifc)))
    "${mac}" (MAC_String (li_GuestMAC ifc)).

Definition exec_report (r : run_result) : ExecReport :=
  MkExecReport
    (match rr_err r with
     | RunOk => 0
     | RunExit status => status
     | RunExitOther => FailSysUnexpectedType
     | RunOther => FailErrNotExit
     end)
    (rr_start r) (rr_stop r) (rr_stdout r) (rr_stderr r).

(** [exec]: what running a command does. *)
Definition RunCommand (exec : string → list string → run_result) (l : Launch) : M State unit :=
  match l_cmd l with
  | [] => panic "index out of range"
  | cmd0 :: args =>
      let r := exec cmd0 (expand (l_ifc l) <$> args) in
      if negb (l_saveReport l) then mret tt
      else
        setExecReport (l_nsn l) (Some (exec_report r));;
        enqueue (QAdd (l_nsn l))
  end.

(** ** Interfaces *)

Definition NSN_String (nsn : NSN) : string := nsn.1 +:+ "/" +:+ nsn.2.

Definition DeleteLocalIfc (ifc : LocalNetIfc) : M State (option error) :=
  call_fabric (fab_DeleteLocalIfc ifc).
Definition DeleteRemoteIfc (ifc : RemoteNetIfc) : M State (option error) :=
  call_fabric (fab_DeleteRemoteIfc ifc).

(** Remove the interface that an attachment has, before it gets another one. *)
Definition delete_old_ifc (attNSN : NSN) (oldLocal : option LocalAttachmentState)
    (oldRemote : option RemoteNetIfc) : M State (option error) :=
  match oldLocal, oldRemote with
  | Some old, _ =>
      let ifc := lm_ifc (ls_main old) in
      err ← DeleteLocalIfc ifc;
      match err with
      | Some e =>
          mret (Some (Errorf ("update of network interface of attachment " +:+ NSN_String attNSN +:+
            " failed, old local interface " +:+ fmt_local ifc +:+ " could not be deleted: " +:+ message e)))
      | None =>
          LaunchCommand attNSN ifc (lm_PostDeleteExec (ls_main old)) "postDelete" true false;;
          unsetLocalAttState attNSN;;
          mret None
      end
  | None, Some ifc =>
      err ← DeleteRemoteIfc ifc;
      match err with
      | Some e =>
          mret (Some (Errorf ("update of network interface of attachment " +:+ NSN_String attNSN +:+
            " failed, old remote interface " +:+ fmt_remote ifc +:+ " could not be deleted: " +:+ message e)))
      | None => unsetRemoteIfc attNSN;; mret None
      end
  | None, None => mret None
  end.

(** Make the new interface; the status errors of launching its command. *)
Definition create_ifc (attNSN : NSN) (attGuestIP attHostIP : IP) (attVNI : Z) (attMAC : HardwareAddr)
    (ifcName : string) (PostCreateExec PostDeleteExec : list string)
    : M State (error + list string) :=
  if GoNet.Equal attHostIP hostIP then
    let ifc := MkLocalIfc ifcName attVNI attMAC attGuestIP in
    err ← call_fabric (fab_CreateLocalIfc ifc);
    match err with
    | Some e =>
        mret (inl (Errorf ("creation of local network interface of attachment " +:+ NSN_String attNSN +:+
          " failed, interface " +:+ fmt_local ifc +:+ " could not be created: " +:+ message e)))
    | None =>
        setLocalAttMainState attNSN (MkLocalMain ifc PostDeleteExec);;
        statusErrs ← LaunchCommand attNSN ifc PostCreateExec "postCreateExec" true true;
        mret (inr statusErrs)
    end
  else
    let ifc := MkRemoteIfc attVNI attMAC attGuestIP attHostIP in
    err ← call_fabric (fab_CreateRemoteIfc ifc);
    match err with
    | Some e =>
        mret (inl (Errorf ("creation of remote network interface of attachment " +:+ NSN_String attNSN +:+
          " failed, interface " +:+ fmt_remote ifc +:+ " could not be created: " +:+ message e)))
    | None => assignRemoteIfc attNSN ifc;; mret (inr [])
    end.

(** MAC address, interface name, status errors and report, or an error. *)
Definition createOrUpdateIfc (attGuestIP attHostIP : IP) (attVNI : Z) (attNSN : NSN)
    (PostCreateExec PostDeleteExec : list string)
    : M State (error + (string * string * list string * option ExecReport)) :=
  attMAC ← lift (generateMACAddr attVNI attGuestIP);
  let attMACStr := MAC_String attMAC in
  let ifcName := generateIfcName attMAC in
  oldLocal ← getLocalAttState attNSN;
  oldRemote ← getRemoteIfc attNSN;
  let localNeeds := match oldLocal with
    | Some old => ifcNeedsUpdate hostIP attHostIP (li_GuestMAC (lm_ifc (ls_main old))) attMAC
    | None => false end in
  let remoteNeeds := match oldRemote with
    | Some ifc => ifcNeedsUpdate (ri_HostIP ifc) attHostIP (ri_GuestMAC ifc) attMAC
    | None => false end in
  let none := match oldLocal, oldRemote with None, None => true | _, _ => false end in
  if none || localNeeds || remoteNeeds then
    err ← delete_old_ifc attNSN oldLocal oldRemote;
    match err with
    | Some e => mret (inl e)
    | None =>
        r ← create_ifc attNSN attGuestIP attHostIP attVNI attMAC ifcName PostCreateExec PostDeleteExec;
        match r with
        | inl e => mret (inl e)
        | inr statusErrs => mret (inr (attMACStr, ifcName, statusErrs, None))
        end
    end
  else
    match oldLocal with
    | Some old =>
        statusErrs ← LaunchCommand attNSN (lm_ifc (ls_main old)) PostCreateExec "postCreateExec" false true;
        mret (inr (attMACStr, ifcName, statusErrs, ls_report old))
    | None => mret (inr (attMACStr, ifcName, [], None))
    end.

(** ** Processing an attachment *)

Definition status_with (att : NetworkAttachment) (macAddrS ifcName : string) (statusErrs : list string)
    (pcer : option ExecReport) : NetworkAttachment :=
  let st := na_Status att in
  MkNA (na_meta att) (na_Spec att)
    (MkNAStatus (MkNAErrors (IPAM (Errors st)) statusErrs) (LockUID st) (AddressVNI st) (StatusIPv4 st)
       macAddrS ifcName (IP_String hostIP) pcer).

Definition setAttStatus (att : NetworkAttachment) (macAddrS ifcName : string) (statusErrs : list string)
    (pcer : option ExecReport) : M State (error + NetworkAttachment) :=
  call_api (att_Update (status_with att macAddrS ifcName statusErrs pcer)).

Definition processDeletedAtt (attNSN : NSN) : M State (option error) :=
  old ← getVNStateVNI attNSN;
  (match old with
   | Some vni => updateVNStateAfterAttDeparture attNSN.2 vni;; unsetVNStateVNI attNSN
   | None => mret tt
   end);;
  localState ← getLocalAttState attNSN;
  match localState with
  | Some st =>
      let ifc := lm_ifc (ls_main st) in
      err ← DeleteLocalIfc ifc;
      match err with
      | Some e => mret (Some e)
      | None =>
          LaunchCommand attNSN ifc (lm_PostDeleteExec (ls_main st)) "postDelete" true false;;
          unsetLocalAttState attNSN;;
          mret None
      end
  | None =>
      remoteIfc ← getRemoteIfc attNSN;
      match remoteIfc with
      | Some ifc =>
          err ← DeleteRemoteIfc ifc;
          match err with
          | Some e => mret (Some e)
          | None => unsetRemoteIfc attNSN;; mret None
          end
      | None => mret None
      end
  end.

(** Does the status of a local attachment say what the agent holds? *)
Definition status_current (att : NetworkAttachment) (macAddrS ifcName : string)
    (statusErrs : list string) (pcer : option ExecReport) : bool :=
  let st := na_Status att in
  String.eqb (IP_String hostIP) (HostIP st) && String.eqb ifcName (IfcName st) &&
  String.eqb macAddrS (MACAddress st) && Equiv pcer (PostCreateExecReport st) &&
  SliceOfString_Equal statusErrs (Host (Errors st)).

Definition processExistingAtt (att : NetworkAttachment) : M State (option error) :=
  let attNSN := AttNSN att in
  let attVNI := AddressVNI (na_Status att) in
  let attNode := Node (na_Spec att) in
  '(vn, noVnStateFoundForRemoteAtt) ← updateVNState attVNI attNSN attNode;
  match vn with
  | Some vn => clearVNResources vn attNSN.2 attVNI;; mret None
  | None =>
      if (noVnStateFoundForRemoteAtt : bool) then
        removeSeenInVNI attNSN attVNI;;
        processDeletedAtt attNSN
      else
        let attHostIP := if String.eqb attNode localNodeName then hostIP
                         else ParseIP (HostIP (na_Status att)) in
        let attGuestIP := ParseIP (StatusIPv4 (na_Status att)) in
        r ← createOrUpdateIfc attGuestIP attHostIP attVNI attNSN
              (PostCreateExec (na_Spec att)) (PostDeleteExec (na_Spec att));
        match r with
        | inl e => mret (Some e)
        | inr (macAddrS, ifcName, statusErrs, pcer) =>
            if negb (String.eqb attNode localNodeName) then mret None
            else if status_current att macAddrS ifcName statusErrs pcer then mret None
            else
              u ← setAttStatus att macAddrS ifcName statusErrs pcer;
              mret (match u with inl e => Some e | inr _ => None end)
        end
  end.

(** [aggregateErrors]; [None] is a nil error. *)
Fixpoint aggregate_from (i : Z) (errs : list (option error)) : list string :=
  match errs with
  | [] => []
  | err :: errs =>
      match err with
      | Some e =>
          if str_forall (λ c, char_is c " ") (message e) then aggregate_from (i + 1) errs
          else ("error nbr. " +:+ fmt_d i +:+ " " +:+ message e) :: aggregate_from (i + 1) errs
      | None => aggregate_from (i + 1) errs
      end
  end.

Definition aggregateErrors (sep : string) (errs : list (option error)) : option string :=
  match aggregate_from 0 errs with [] => None | l => Some (str_join sep l) end.

Definition lookup_failed {A} (r : error + A) : bool :=
  match r with inl e => negb (IsNotFound e) | inr _ => false end.
Definition lookup_error {A} (r : error + A) : option error :=
  match r with inl e => Some e | inr _ => None end.

(** The end of [getAttachment]: the outcomes of the lookups, [None] for no lister. *)
Definition combine_lookups (attAsLocal : error + NetworkAttachment)
    (attAsRemote : option (error + NetworkAttachment)) : M State (option NetworkAttachment * bool) :=
  if match attAsRemote with Some r => lookup_failed r | None => false end || lookup_failed attAsLocal
  then
    (* the error text of the log line *)
    match aggregateErrors (nl +:+ String.String "009" "")
            [attAsRemote ≫= lookup_error; lookup_error attAsLocal] with
    | None => panic "nil pointer"
    | Some _ => mret (None, true)
    end
  else
    match attAsLocal, attAsRemote with
    | inr _, Some (inr _) => mret (None, true)
    | inr att, _ => mret (Some att, false)
    | inl _, Some (inr att) => mret (Some att, false)
    | inl _, _ => mret (None, true)
    end.

Definition getAttachment (E : AgentEnv) (attNSN : NSN) : M State (option NetworkAttachment * bool) :=
  '(vni, nbrOfVNIs) ← getAttSeenInVNI attNSN;
  if (1 <? nbrOfVNIs)%nat then mret (None, false)
  else
    attAsRemote ←
      (if (nbrOfVNIs =? 1)%nat then
         lister ← getRemoteAttListerForVNI vni;
         mret ((λ id, remoteAttsLister_Get E id attNSN.2) <$> lister)
       else mret None);
    combine_lookups (localAttsLister_Get E attNSN.1 attNSN.2) attAsRemote.

Definition processNetworkAttachment (E : AgentEnv) (attNSN : NSN) : M State (option error) :=
  '(att, deleted) ← getAttachment E attNSN;
  match att with
  | Some att => processExistingAtt att
  | None => if (deleted : bool) then processDeletedAtt attNSN else mret None
  end.

Definition processQueueItem (E : AgentEnv) (attNSN : NSN) : M State unit :=
  err ← processNetworkAttachment E attNSN;
  (match err with
   | Some _ => enqueue (QAddRateLimited attNSN)
   | None => enqueue (QForget attNSN)
   end);;
  enqueue (QDone attNSN).

(** The items [queue.Get] hands out, each with the informer caches of its moment. *)
Fixpoint processQueue (items : list (NSN * AgentEnv)) : M State unit :=
  match items with
  | [] => mret tt
  | (attNSN, E) :: items => processQueueItem E attNSN;; processQueue items
  end.

(** ** Notification handlers *)

Definition onLocalAttAdded (obj : notified NetworkAttachment) : M State unit :=
  att ← lift (assert_object obj); enqueue (QAdd (AttNSN att)).
Definition onLocalAttUpdated (oldObj newObj : notified NetworkAttachment) : M State unit :=
  lift (assert_object oldObj);; newAtt ← lift (assert_object newObj); enqueue (QAdd (AttNSN newAtt)).
Definition onLocalAttRemoved (obj : notified NetworkAttachment) : M State unit :=
  att ← lift (Peel obj); enqueue (QAdd (AttNSN att)).

Definition onRemoteAttAdded (obj : notified NetworkAttachment) : M State unit :=
  att ← lift (assert_object obj);
  addVNI (AttNSN att) (AddressVNI (na_Status att));;
  enqueue (QAdd (AttNSN att)).
Definition onRemoteAttUpdated (oldObj newObj : notified NetworkAttachment) : M State unit :=
  lift (assert_object oldObj);; newAtt ← lift (assert_object newObj); enqueue (QAdd (AttNSN newAtt)).
Definition onRemoteAttRemoved (obj : notified NetworkAttachment) : M State unit :=
  att ← lift (Peel obj);
  removeSeenInVNI (AttNSN att) (AddressVNI (na_Status att));;
  enqueue (QAdd (AttNSN att)).

(** ** Interfaces that exist when the agent starts *)

(** The loops that delete until it works; [fuel] bounds the attempts. *)
Fixpoint delete_local_until (fuel : nat) (ifc : LocalNetIfc) : M State unit :=
  match fuel with
  | O => panic "fuel"
  | S fuel =>
      err ← DeleteLocalIfc ifc;
      match err with None => mret tt | Some _ => delete_local_until fuel ifc end
  end.

Fixpoint delete_remote_until (fuel : nat) (ifc : RemoteNetIfc) : M State unit :=
  match fuel with
  | O => panic "fuel"
  | S fuel =>
      err ← DeleteRemoteIfc ifc;
      match err with None => mret tt | Some _ => delete_remote_until fuel ifc end
  end.

Fixpoint sync_local_ifcs (E : AgentEnv) (fuel : nat) (ifcs : list LocalNetIfc) : M State (option error) :=
  match ifcs with
  | [] => mret None
  | ifc :: ifcs =>
      match localByIndex E (localIfcVNIAndIP ifc) with
      | inl e =>
          mret (Some (Errorf ("indexing local network interface with VNI/IP=" +:+ localIfcVNIAndIP ifc +:+
            " failed: " +:+ message e)))
      | inr [owner] =>
          let nsn := AttNSN owner in
          oldLocalState ← getLocalAttState nsn;
          setLocalAttMainState nsn (MkLocalMain ifc (PostDeleteExec (na_Spec owner)));;
          setExecReport nsn (PostCreateExecReport (na_Status owner));;
          (match oldLocalState with
           | Some old => delete_local_until fuel (lm_ifc (ls_main old))
           | None => mret tt
           end);;
          sync_local_ifcs E fuel ifcs
      | inr _ => delete_local_until fuel ifc;; sync_local_ifcs E fuel ifcs
      end
  end.

Definition syncPreExistingLocalIfcs (E : AgentEnv) (fuel : nat) : M State (option error) :=
  r ← call_fabric fab_ListLocalIfcs;
  match r with
  | inl e => mret (Some (Errorf ("failed initial local network interfaces list: " +:+ message e)))
  | inr ifcs => sync_local_ifcs E fuel ifcs
  end.

Fixpoint start_remote_caches (atts : list NetworkAttachment) : M State unit :=
  match atts with
  | [] => mret tt
  | att :: atts =>
      updateVNStateForExistingAtt (AttNSN att) true (AddressVNI (na_Status att));;
      start_remote_caches atts
  end.

(** What the index of the remote informer says of an interface; [inl]: its cache
    did not sync. *)
Definition remote_owners (E : AgentEnv) (ifc : RemoteNetIfc)
    : M State (error + list NetworkAttachment) :=
  m ← gets vniToVnState;
  mret match m !! ri_VNI ifc with
  | None => inr []
  | Some vn =>
      let id := remoteAttsInformer vn in
      if negb (remoteSynced E id) then
        inl (Errorf ("failed to sync cache of remote attachments for VNI " +:+ fmt_06x (ri_VNI ifc)))
      else inr (match remoteByIndex E id (remoteIfcVNIAndIP ifc) with inl _ => [] | inr l => l end)
  end.

Fixpoint sync_remote_ifcs (E : AgentEnv) (fuel : nat) (ifcs : list RemoteNetIfc) : M State (option error) :=
  match ifcs with
  | [] => mret None
  | ifc :: ifcs =>
      owners ← remote_owners E ifc;
      match owners with
      | inl e => mret (Some e)
      | inr [owner] =>
          let nsn := AttNSN owner in
          oldRemoteIfc ← getRemoteIfc nsn;
          assignRemoteIfc nsn ifc;;
          (match oldRemoteIfc with
           | Some old => delete_remote_until fuel old
           | None =>
               oldLocalState ← getLocalAttState nsn;
               match oldLocalState with
               | Some old => delete_local_until fuel (lm_ifc (ls_main old))
               | None => mret tt
               end
           end);;
          sync_remote_ifcs E fuel ifcs
      | inr _ => delete_remote_until fuel ifc;; sync_remote_ifcs E fuel ifcs
      end
  end.

Definition syncPreExistingRemoteIfcs (E : AgentEnv) (fuel : nat) : M State (option error) :=
  match localAttsLister_List E with
  | inl e => mret (Some (Errorf ("failed initial local attachments list: " +:+ message e)))
  | inr atts =>
      start_remote_caches atts;;
      r ← call_fabric fab_ListRemoteIfcs;
      match r with
      | inl e => mret (Some (Errorf ("failed initial remote network interfaces list: " +:+ message e)))
      | inr ifcs => sync_remote_ifcs E fuel ifcs
      end
  end.

Definition syncPreExistingIfcs (E : AgentEnv) (fuel : nat) : M State (option error) :=
  err ← syncPreExistingLocalIfcs E fuel;
  match err with
  | Some e => mret (Some e)
  | None => syncPreExistingRemoteIfcs E fuel
  end.

(** [Run]: [items] is what the work queue hands to the worker until it is stopped. *)
Definition Run (E : AgentEnv) (fuel : nat) (items : list (NSN * AgentEnv)) : M State (option error) :=
  err ← syncPreExistingIfcs E fuel;
  match err with
  | Some e => mret (Some e)
  | None => processQueue items;; mret None
  end.

End Model.
End Agent.
