(* ===== verification/ApiUpdates.v ===== *)
(** * Status updates and the informer caches

    [updateNAStatus] of [ipam.go] and [setAttStatus] of [connectionagent.go] change a deep copy of an
    object that they have from the cache of an informer.  [Ipam.status_update] and
    [Agent.status_with] say what the copy is in the end; here the code itself, on memory that
    the cache and other goroutines refer to as well. *)

From S2P Require Import Prelude GoNet GoMemory ApiTypes ApiLayout ApiV1alpha1 IpLock KosApi Ipam Agent.
Import GoNet GoMemory GoViews V1alpha1.

Module ApiUpdates.

Section Updates.
Context `{MetaV1, !MetaOps}.

(** An assignment to a field of the status. *)
Definition set_status (att2 : ptr) (f : NetworkAttachmentStatus → NetworkAttachmentStatus) : M Heap unit :=
  assign att2 (λ a, MkAttachment (a_TypeMeta a) (a_ObjectMeta a) (a_Spec a) (f (a_Status a))).

(** The first part of [updateNAStatus]: the object that it sends. *)
Definition update_of (att : ptr) (statusErrs : slice) (lockForStatus : ParsedLock) (ipForStatus : IP) : M Heap ptr :=
  att2 ← NetworkAttachment_DeepCopy att;
  set_status att2 (λ st, MkStatus (MkErrors statusErrs (e_Host (t_Errors st))) (t_LockUID st) (t_AddressVNI st)
    (t_IPv4 st) (t_MACAddress st) (t_IfcName st) (t_HostIP st) (t_PostCreateExecReport st));;
  set_status att2 (λ st, MkStatus (t_Errors st) (pl_UID lockForStatus) (t_AddressVNI st)
    (t_IPv4 st) (t_MACAddress st) (t_IfcName st) (t_HostIP st) (t_PostCreateExecReport st));;
  set_status att2 (λ st, MkStatus (t_Errors st) (t_LockUID st) (pl_VNI lockForStatus)
    (t_IPv4 st) (t_MACAddress st) (t_IfcName st) (t_HostIP st) (t_PostCreateExecReport st));;
  (if bool_decide (ipForStatus = []) then
     set_status att2 (λ st, MkStatus (t_Errors st) (t_LockUID st) (t_AddressVNI st)
       "" (t_MACAddress st) (t_IfcName st) (t_HostIP st) (t_PostCreateExecReport st))
   else
     set_status att2 (λ st, MkStatus (t_Errors st) (t_LockUID st) (t_AddressVNI st)
       (IP_String ipForStatus) (t_MACAddress st) (t_IfcName st) (t_HostIP st) (t_PostCreateExecReport st)));;
  mret att2.

(** The first part of [setAttStatus].  The report of the command is the one that the local state
    of the attachment refers to, too. *)
Definition status_of (hostIP : IP) (att : ptr) (macAddrS ifcName : string) (statusErrs : slice) (pcer : ptr) : M Heap ptr :=
  att2 ← NetworkAttachment_DeepCopy att;
  set_status att2 (λ st, MkStatus (MkErrors (e_IPAM (t_Errors st)) statusErrs) (t_LockUID st) (t_AddressVNI st)
    (t_IPv4 st) (t_MACAddress st) (t_IfcName st) (t_HostIP st) (t_PostCreateExecReport st));;
  set_status att2 (λ st, MkStatus (t_Errors st) (t_LockUID st) (t_AddressVNI st)
    (t_IPv4 st) macAddrS (t_IfcName st) (t_HostIP st) (t_PostCreateExecReport st));;
  set_status att2 (λ st, MkStatus (t_Errors st) (t_LockUID st) (t_AddressVNI st)
    (t_IPv4 st) (t_MACAddress st) (t_IfcName st) (IP_String hostIP) (t_PostCreateExecReport st));;
  set_status att2 (λ st, MkStatus (t_Errors st) (t_LockUID st) (t_AddressVNI st)
    (t_IPv4 st) (t_MACAddress st) ifcName (t_HostIP st) (t_PostCreateExecReport st));;
  set_status att2 (λ st, MkStatus (t_Errors st) (t_LockUID st) (t_AddressVNI st)
    (t_IPv4 st) (t_MACAddress st) (t_IfcName st) (t_HostIP st) pcer);;
  mret att2.

Context `{!MetaLaws}.

(** A new object stands for the changed attachment, and everything else is as it was. *)
Definition changed_copy (h : Heap) (tm : TypeMeta) (att : ApiTypes.NetworkAttachment) (p : ptr) (h' : Heap) : Prop :=
  h ⊆ h' ∧ view_ptr (T := NetworkAttachment) h' p = Some (Some (tm, att)) ∧ ∃ l, p = Some (l, 0%nat) ∧ h !! l = None.

(** The copy before the assignments. *)
Lemma copy_runs h att tm a (k : ptr → M Heap ptr) (Q : ptr → Heap → Prop) :
  view_ptr (T := NetworkAttachment) h att = Some (Some (tm, a)) →
  (∀ l n y h', h !! l = None → n !! l = None → grown h (<[l := as_cell [y]]> n) h' → view n y = Some (tm, a) →
    runs (k (Some (l, 0%nat))) h' Q) →
  runs (NetworkAttachment_DeepCopy att ≫= k) h Q.
Proof.
  intros Hv HQ. destruct att as [[l i]|]; [|done]. simpl in Hv. apply fmap_Some in Hv as (w & Hw & [= <-]).
  apply runs_bind. eapply runs_conseq; [apply DeepCopy_new; [apply att_copies|done]|].
  intros p h' (l' & n & y & -> & ? & ? & ? & ?). by eapply HQ.
Qed.

(** The assignments change the new object only. *)
Lemma set_status_runs f l x h n h' (Q : unit → Heap → Prop) :
  grown h (<[l := as_cell [x]]> n) h' →
  (∀ h'', grown h (<[l := as_cell [MkAttachment (a_TypeMeta x) (a_ObjectMeta x) (a_Spec x) (f (a_Status x))]]> n) h'' →
    Q tt h'') →
  runs (set_status (Some (l, 0%nat)) f) h' Q.
Proof. intros Hg HQ. eapply runs_assign; [exact Hg|]. exact HQ. Qed.

Lemma changed_copy_new h n h' l (x : NetworkAttachment) tm att :
  h !! l = None → n !! l = None → grown h (<[l := as_cell [x]]> n) h' → view (h ∪ n) x = Some (tm, att) →
  changed_copy h tm att (Some (l, 0%nat)) h'.
Proof.
  intros Hl Hn Hg Hv. destruct Hg as [-> Hd]. split; [apply map_union_subseteq_l|]. split; [|by exists l].
  rewrite <- insert_union_r by done. simpl. rewrite (view_new (h ∪ n) l x (tm, att)); [done| |done]. by apply lookup_union_None.
Qed.

(** The parts of an attachment with a changed status. *)
Lemma view_parts n (y : NetworkAttachment) tm a :
  view n y = Some (tm, a) →
  a_TypeMeta y = tm ∧ view n (a_ObjectMeta y) = Some (na_meta a) ∧ view n (a_Spec y) = Some (na_Spec a) ∧
  view_status n (a_Status y) = Some (na_Status a).
Proof.
  intros Hv. apply bind_Some in Hv as (m & Hm & Hv). apply bind_Some in Hv as (sp & Hsp & Hv).
  apply bind_Some in Hv as (st & Hst & [= <- <-]). done.
Qed.

Lemma view_status_fields m st v :
  view_status m st = Some v ↔
    strings m (e_IPAM (t_Errors st)) = Some (IPAM (Errors v)) ∧ strings m (e_Host (t_Errors st)) = Some (Host (Errors v)) ∧
    view_ptr (T := ExecReport) m (t_PostCreateExecReport st) = Some (PostCreateExecReport v) ∧
    t_LockUID st = LockUID v ∧ t_AddressVNI st = AddressVNI v ∧ t_IPv4 st = StatusIPv4 v ∧
    t_MACAddress st = MACAddress v ∧ t_IfcName st = IfcName v ∧ t_HostIP st = HostIP v.
Proof.
  split.
  - intros Hv. apply bind_Some in Hv as (e & He & Hv). apply bind_Some in Hv as (r & Hr & [= <-]).
    apply bind_Some in He as (i & Hi & He). apply bind_Some in He as (o & Ho & [= <-]). done.
  - intros (Hi & Ho & Hr & ? & ? & ? & ? & ? & ?). apply bind_Some. exists (Errors v). split.
    + apply bind_Some. eexists. split; [exact Hi|]. apply bind_Some. eexists. split; [exact Ho|]. by destruct v as [[]].
    + apply bind_Some. eexists. split; [exact Hr|]. destruct v. simpl in *. congruence.
Qed.

Lemma view_with_status h n (y : NetworkAttachment) tm a st st' :
  h ##ₘ n → view n y = Some (tm, a) → view_status (h ∪ n) st = Some st' →
  view (h ∪ n) (MkAttachment (a_TypeMeta y) (a_ObjectMeta y) (a_Spec y) st) = Some (tm, MkNA (na_meta a) (na_Spec a) st').
Proof.
  intros Hd (<- & Hm & Hsp & _)%view_parts Hst. pose proof (map_union_subseteq_r h n Hd) as Hs.
  apply bind_Some. eexists. split; [by eapply view_mono|]. apply bind_Some. eexists. split; [by eapply view_mono|].
  apply bind_Some. by eexists.
Qed.

Lemma ipam_update_new h att tm a statusErrs errs lock ip :
  view_ptr (T := NetworkAttachment) h att = Some (Some (tm, a)) → strings h statusErrs = Some errs →
  runs (update_of att statusErrs lock ip) h (changed_copy h tm (Ipam.status_update a errs lock ip)).
Proof.
  intros Hv He. unfold update_of. eapply copy_runs; [exact Hv|]. intros l n y h1 Hl Hn Hg Hy.
  do 3 (apply runs_bind; eapply set_status_runs; [exact Hg|]; clear Hg; intros ? Hg).
  apply runs_bind. case_bool_decide as Hip; (eapply set_status_runs; [exact Hg|]); clear Hg; intros h2 Hg; apply runs_ret.
  all: eapply changed_copy_new; [done..|exact Hg|].
  all: destruct Hg as [_ [_ Hd]%map_disjoint_insert_r].
  all: eapply (view_with_status h n y tm a); [done..|]; apply view_status_fields; simpl.
  all: apply view_parts in Hy as (_ & _ & _ & (? & ? & ? & ? & ? & ? & ? & ? & ?)%view_status_fields).
  all: assert (Hs := map_union_subseteq_r h n Hd); assert (Hs' := map_union_subseteq_l h n).
  all: split_and!; try done; eauto with views; by case_bool_decide.
Qed.

Lemma agent_update_new hostIP h att tm a mac ifc statusErrs errs pcer report :
  view_ptr (T := NetworkAttachment) h att = Some (Some (tm, a)) → strings h statusErrs = Some errs →
  view_ptr (T := ExecReport) h pcer = Some report →
  runs (status_of hostIP att mac ifc statusErrs pcer) h (changed_copy h tm (Agent.status_with hostIP a mac ifc errs
    report)).
Proof.
  intros Hv He Hr. unfold status_of. eapply copy_runs; [exact Hv|]. intros l n y h1 Hl Hn Hg Hy.
  do 5 (apply runs_bind; eapply set_status_runs; [exact Hg|]; clear Hg; intros ? Hg). apply runs_ret.
  eapply changed_copy_new; [done..|exact Hg|].
  destruct Hg as [_ [_ Hd]%map_disjoint_insert_r].
  eapply (view_with_status h n y tm a); [done..|]; apply view_status_fields; simpl.
  apply view_parts in Hy as (_ & _ & _ & (? & ? & ? & ? & ? & ? & ? & ? & ?)%view_status_fields).
  assert (Hs := map_union_subseteq_r h n Hd). assert (Hs' := map_union_subseteq_l h n).
  split_and!; try done; eauto with views.
Qed.

(** C35: what the two controllers send to record their results is a new object, which stands for what
    [Ipam.status_update] and [Agent.status_with] say of the attachment that they have from the
    cache of an informer; all memory that was in use before is unchanged, the object in the cache
    and all it refers to included, and so is everything else that shares that memory. *)
Theorem updates_leave_caches h att tm a statusErrs errs :
  view_ptr (T := NetworkAttachment) h att = Some (Some (tm, a)) → strings h statusErrs = Some errs →
  (∀ lock ip, runs (update_of att statusErrs lock ip) h (changed_copy h tm (Ipam.status_update a errs lock ip))) ∧
  (∀ hostIP mac ifc pcer report, view_ptr (T := ExecReport) h pcer = Some report →
     runs (status_of hostIP att mac ifc statusErrs pcer) h
       (changed_copy h tm (Agent.status_with hostIP a mac ifc errs report))).
Proof. intros Hv He. split; intros; [by apply ipam_update_new|by apply agent_update_new]. Qed.

End Updates.
End ApiUpdates.
