(* ===== verification/ApiRuns.v ===== *)
(** * Objects in memory: concrete runs

    Metadata whose labels are a map that several objects may refer to, an attachment in the
    memory of an informer, and the theorems of [ApiV1alpha1], [ApiConversion] and [ApiUpdates]
    about it. *)

From S2P Require Import Prelude GoStr GoNet GoMemory ApiTypes ApiLayout ApiV1alpha1 ApiNetwork ApiConversion.
From S2P Require Import IpLock KosApi Ipam Agent ApiUpdates.
Import GoNet GoMemory GoViews ApiUpdates.

Module ApiRuns.

Definition no_meta : ObjectMeta := MkMeta "" "" "" "" 0 [] ∅ false.

(** Labels are a map object; the other metadata is a value. *)
#[local] Instance meta : MetaV1 := {|
  TypeMeta := string * string; noType := ("", ""); ListMeta := string; noList := "";
  MetaMem := ObjectMeta * ptr; noMeta := (no_meta, None); LibCell := gmap string string; noLib := ∅ |}.

#[local] Instance labels_view : View LibCell (gmap string string).
Proof. by refine {| view _ x := Some x |}. Defined.

Definition meta_view_of (h : Heap) (m : MetaMem) : option ObjectMeta :=
  labels ← view_ptr (T := LibCell) h m.2;
  Some (MkMeta (Namespace m.1) (Name m.1) (UID m.1) (ResourceVersion m.1) (CreationTimestamp m.1)
    (OwnerReferences m.1) (default ∅ labels) (Initializers m.1)).

#[local] Instance meta_ops : MetaOps := {|
  meta_DeepCopyInto m := labels ← DeepCopy (T := LibCell) mret m.2; mret (m.1, labels);
  Time_DeepCopyInto := mret |}.

#[local] Instance meta_mem_view : View MetaMem ObjectMeta.
Proof. refine {| view := meta_view_of |}. intros ????. unfold meta_view_of. view_grows. Defined.

Lemma labels_copies : copies (T := LibCell) mret.
Proof. intros h x v Hv. exists ∅. split; [apply grown_refl|done]. Qed.

Lemma meta_copies_of : copies meta_DeepCopyInto.
Proof.
  apply copies_news. intros h m v Hv. apply bind_Some in Hv as (labels & Hl & Hv).
  eapply news_bind; [eapply pointer_news; [apply labels_copies|done]|]. intros p h' _. apply news_ret.
  intros m' [Hp _]. apply bind_Some. by exists labels.
Qed.

#[local] Instance meta_laws : MetaLaws.
Proof.
  refine {| meta_view := meta_mem_view; meta_copies := meta_copies_of |}. intros h t. by apply news_ret.
Defined.

(** The memory of an informer: the labels of an object, its commands, and the object; and the
    errors that a controller is about to report. *)
Definition att_in_cache : V1alpha1.NetworkAttachment :=
  V1alpha1.MkAttachment ("NetworkAttachment", "v1alpha1")
    (MkMeta "ns" "foo" "u1" "7" 0 [] ∅ false, Some (1%positive, 0%nat))
    (V1alpha1.MkSpec "node1" "sn" (Some (2%positive, 0, 2)%nat) None) V1alpha1.zero_status.

Definition informer_heap : Heap :=
  <[1%positive := as_cell (T := LibCell) [{["app" := "web"]}]]>
  (<[2%positive := as_cell ["/bin/echo"; "${ifname}"]]>
  (<[3%positive := as_cell [att_in_cache]]>
  {[4%positive := as_cell ["Subnet sn does not exist"]]})).

Definition cached_att : NetworkAttachment :=
  MkNA (MkMeta "ns" "foo" "u1" "7" 0 [] {["app" := "web"]} false)
    (MkNASpec "node1" "sn" ["/bin/echo"; "${ifname}"] [])
    (MkNAStatus (MkNAErrors [] []) "" 0 "" "" "" "" None).

Definition att_ptr : ptr := Some (3%positive, 0%nat).
Definition errs_slice : slice := Some (4%positive, 0, 1)%nat.

Lemma att_cached :
  view_ptr (T := V1alpha1.NetworkAttachment) informer_heap att_ptr = Some (Some (("NetworkAttachment", "v1alpha1"), cached_att)).
Proof. vm_compute. reflexivity. Qed.

Lemma deep_copies_witness :
  runs (V1alpha1.NetworkAttachment_DeepCopyObject att_ptr) informer_heap (λ p h', ∃ n, grown informer_heap n h' ∧
    view_ptr (T := V1alpha1.NetworkAttachment) n p = Some (Some (("NetworkAttachment", "v1alpha1"), cached_att)) ∧
    (p = None ↔ att_ptr = None)).
Proof.
  destruct V1alpha1.deep_copies as (_ & _ & _ & _ & _ & _ & _ & _ & _ & _ & _ & _ & _ & _ & _ & Hc & _).
  apply (Hc informer_heap att_ptr _ att_cached).
Defined.

Lemma updates_leave_caches_witness :
  view_ptr (T := V1alpha1.NetworkAttachment) informer_heap att_ptr = Some (Some (("NetworkAttachment", "v1alpha1"), cached_att)) ∧
  strings informer_heap errs_slice = Some ["Subnet sn does not exist"] ∧
  runs (update_of att_ptr errs_slice zeroParsedLock []) informer_heap
    (changed_copy informer_heap ("NetworkAttachment", "v1alpha1")
      (Ipam.status_update cached_att ["Subnet sn does not exist"] zeroParsedLock [])).
Proof.
  assert (He : strings informer_heap errs_slice = Some ["Subnet sn does not exist"]) by (vm_compute; reflexivity).
  split; [apply att_cached|]. split; [done|].
  exact (proj1 (updates_leave_caches informer_heap att_ptr ("NetworkAttachment", "v1alpha1") cached_att errs_slice
    ["Subnet sn does not exist"] att_cached He) zeroParsedLock []).
Defined.

(** The conversion shares the memory of the original: what is written through one is seen through
    the other. *)
Definition converted : Network.NetworkAttachment :=
  Network.MkAttachment ("", "") (V1alpha1.a_ObjectMeta att_in_cache)
    (Network.MkSpec "node1" "sn" (Some (2%positive, 0, 2)%nat) None) Network.zero_status.

Example converted_shares :
  ApiConversion.Convert_v1alpha1_NetworkAttachment_To_network_NetworkAttachment att_in_cache zero = inr converted ∧
  (PostCreateExec ∘ na_Spec ∘ snd <$> view (<[2%positive := as_cell ["/bin/true"; ""]]> informer_heap) converted) =
    Some ["/bin/true"; ""].
Proof. split; vm_compute; reflexivity. Qed.

End ApiRuns.
