(* ===== verification/AgentNets.v ===== *)
(** * Virtual networks of the connection agent

    The part of the agent's state that says which virtual networks are relevant:
    its invariant and the operations that change it. *)

From S2P Require Import Prelude GoStr GoNet ApiTypes SubnetStrategy KosApi Fabric AgentIds Agent.
Import Agent.

Module AgentNets.

Section Nets.
Context {F W : Type} `{NetFabric F, KosClient W}.
#[local] Abbreviation St := (@State F W).
Implicit Types s : St.

(** The namespace of a virtual network: the subnets of a VNI are in one. *)
Variable ns_of : Z → string.

(** ** The invariant

    Every virtual network the agent keeps has a local attachment and one open
    informer of its own; no other informer is open, except the one that is about to
    be closed ([pend]); the names it lists are those of attachments that are recorded
    in it. *)
Definition informer_of (vns : gmap Z vnState) (id : nat) : Prop :=
  ∃ v vn, vns !! v = Some vn ∧ remoteAttsInformer vn = id.

Definition members (vn : vnState) : gset string := localAtts vn ∪ remoteAtts vn.

Record vn_inv (pend : option nat) (vns : gmap Z vnState) (vnis : gmap NSN Z) (chs : list bool) : Prop := {
  vi_relevant v vn : vns !! v = Some vn → localAtts vn ≠ ∅;
  vi_ns v vn : vns !! v = Some vn → vn_namespace vn = ns_of v;
  vi_disj v vn : vns !! v = Some vn → localAtts vn ## remoteAtts vn;
  vi_member v vn n : vns !! v = Some vn → n ∈ members vn → vnis !! (ns_of v, n) = Some v;
  vi_vnis nsn v : vnis !! nsn = Some v → ns_of v = nsn.1;
  vi_inj v1 v2 vn1 vn2 : vns !! v1 = Some vn1 → vns !! v2 = Some vn2 →
    remoteAttsInformer vn1 = remoteAttsInformer vn2 → v1 = v2;
  vi_open id : chs !! id = Some true ↔ informer_of vns id ∨ pend = Some id;
  vi_pend id : pend = Some id → ¬ informer_of vns id }.

Lemma vn_inv_new : vn_inv None ∅ ∅ [].
Proof.
  split.
  - intros v vn E. by rewrite lookup_empty in E.
  - intros v vn E. by rewrite lookup_empty in E.
  - intros v vn E. by rewrite lookup_empty in E.
  - intros v vn n E. by rewrite lookup_empty in E.
  - intros nsn v E. by rewrite lookup_empty in E.
  - intros v1 v2 vn1 vn2 E. by rewrite lookup_empty in E.
  - intros id. split; [done|]. intros [(v & vn & E & _)|]; [by rewrite lookup_empty in E|done].
  - done.
Qed.

Lemma informer_replace vns v vn vn' id :
  vns !! v = Some vn → remoteAttsInformer vn' = remoteAttsInformer vn →
  informer_of (<[v := vn']> vns) id ↔ informer_of vns id.
Proof.
  intros E Ei. split; intros (v1 & vn1 & E1 & <-).
  - apply lookup_insert_Some in E1 as [[<- <-]|[Hne E1]]; [exists v, vn|exists v1, vn1]; done.
  - destruct (decide (v = v1)) as [<-|Hne].
    + exists v, vn'. rewrite lookup_insert_eq. split; [done|congruence].
    + exists v1, vn1. by rewrite lookup_insert_ne.
Qed.

Lemma informer_delete p vns vnis chs v vn id :
  vn_inv p vns vnis chs → vns !! v = Some vn →
  informer_of (delete v vns) id ↔ informer_of vns id ∧ id ≠ remoteAttsInformer vn.
Proof.
  intros Hi E. split.
  - intros (v1 & vn1 & [Hne E1]%lookup_delete_Some & <-). split; [by exists v1, vn1|].
    intros Hid. apply Hne. symmetry. by apply (vi_inj _ _ _ _ Hi v1 v vn1 vn).
  - intros [(v1 & vn1 & E1 & <-) Hne]. exists v1, vn1. split; [|done].
    apply lookup_delete_Some. split; [|done]. intros ->. congruence.
Qed.

(** Replacing the record of one network by one with the same informer. *)
Lemma vn_inv_replace p vns vnis vnis' chs v vn vn' :
  vn_inv p vns vnis chs → vns !! v = Some vn →
  remoteAttsInformer vn' = remoteAttsInformer vn → vn_namespace vn' = vn_namespace vn →
  localAtts vn' ≠ ∅ → localAtts vn' ## remoteAtts vn' →
  (∀ n, n ∈ members vn' → vnis' !! (ns_of v, n) = Some v) →
  (∀ v' n, v' ≠ v → vnis !! (ns_of v', n) = Some v' → vnis' !! (ns_of v', n) = Some v') →
  (∀ nsn v', vnis' !! nsn = Some v' → vnis !! nsn = Some v' ∨ nsn.1 = ns_of v') →
  vn_inv p (<[v := vn']> vns) vnis' chs.
Proof.
  intros Hi E Ei En Hl Hd Hm Ho Hn.
  assert (Hfor : ∀ P : Z → vnState → Prop, P v vn' → (∀ v1 vn1, vns !! v1 = Some vn1 → v1 ≠ v → P v1 vn1) →
    ∀ v1 vn1, <[v := vn']> vns !! v1 = Some vn1 → P v1 vn1).
  { intros P HP HP' v1 vn1 [[<- <-]|[Hne E1]]%lookup_insert_Some; [done|]. by apply HP'. }
  split.
  - apply (Hfor (λ _ x, localAtts x ≠ ∅)); [done|]. intros v1 vn1 E1 _. by eapply vi_relevant.
  - apply (Hfor (λ w x, vn_namespace x = ns_of w)).
    + rewrite En. by eapply vi_ns.
    + intros v1 vn1 E1 _. by eapply vi_ns.
  - apply (Hfor (λ _ x, localAtts x ## remoteAtts x)); [done|]. intros v1 vn1 E1 _. by eapply vi_disj.
  - intros v1 vn1 n E1. revert v1 vn1 E1 n.
    apply (Hfor (λ w x, ∀ n, n ∈ members x → vnis' !! (ns_of w, n) = Some w)); [done|].
    intros v1 vn1 E1 Hne n Hm1. apply Ho; [done|]. by eapply vi_member.
  - intros nsn v' [Hv|Hv]%Hn; [by apply (vi_vnis _ _ _ _ Hi)|done].
  - intros v1 v2 vn1 vn2 [[<- <-]|[Hne1 E1]]%lookup_insert_Some [[<- <-]|[Hne2 E2]]%lookup_insert_Some Hid;
      [done|..].
    + apply (vi_inj _ _ _ _ Hi v v2 vn vn2); [done..|congruence].
    + apply (vi_inj _ _ _ _ Hi v1 v vn1 vn); [done..|congruence].
    + by apply (vi_inj _ _ _ _ Hi v1 v2 vn1 vn2).
  - intros id. rewrite (informer_replace vns v vn vn' id E Ei). apply Hi.
  - intros id Hp. rewrite (informer_replace vns v vn vn' id E Ei). by apply Hi.
Qed.

(** A network that became irrelevant is dropped; its informer is to be closed. *)
Lemma vn_inv_drop vns vnis chs v vn :
  vn_inv None vns vnis chs → vns !! v = Some vn →
  vn_inv (Some (remoteAttsInformer vn)) (delete v vns) vnis chs.
Proof.
  intros Hi E. split.
  - intros v1 vn1 [_ E1]%lookup_delete_Some. by eapply vi_relevant.
  - intros v1 vn1 [_ E1]%lookup_delete_Some. by eapply vi_ns.
  - intros v1 vn1 [_ E1]%lookup_delete_Some. by eapply vi_disj.
  - intros v1 vn1 n [_ E1]%lookup_delete_Some. by eapply vi_member.
  - apply Hi.
  - intros v1 v2 vn1 vn2 [_ E1]%lookup_delete_Some [_ E2]%lookup_delete_Some. by eapply vi_inj.
  - intros id. rewrite (vi_open _ _ _ _ Hi), (informer_delete _ _ _ _ v vn id Hi E). split.
    + intros [Hid|]; [|done]. destruct (decide (id = remoteAttsInformer vn)) as [->|]; auto.
    + intros [[? _]|[= <-]]; [by left|]. left. by exists v, vn.
  - intros id [= <-]. rewrite (informer_delete _ _ _ _ v vn _ Hi E). tauto.
Qed.

Lemma vn_inv_close vns vnis chs id :
  vn_inv (Some id) vns vnis chs → chs !! id = Some true ∧ vn_inv None vns vnis (<[id := false]> chs).
Proof.
  intros Hi. assert (Ho : chs !! id = Some true) by (apply Hi; by right). split; [done|].
  destruct Hi as [H1 H2 H3 H4 H4' H5 H6 H7]. split; [done..| |done].
  intros id'. destruct (decide (id' = id)) as [->|Hne].
  - rewrite list_lookup_insert_eq by by eapply lookup_lt_Some. split; [done|].
    intros [Hn|]; [by apply H7 in Hn|done].
  - rewrite list_lookup_insert_ne by done. rewrite H6. split; intros [|[=]]; auto; congruence.
Qed.

(** Forgetting the network of an attachment that no network lists. *)
Lemma vn_inv_unset p vns vnis chs nsn :
  vn_inv p vns vnis chs →
  (∀ v vn, vns !! v = Some vn → nsn.2 ∈ members vn → ns_of v ≠ nsn.1) →
  vn_inv p vns (delete nsn vnis) chs.
Proof.
  intros [H1 H2 H3 H4 H4' H5 H6 H7] Hn. split; [done..| | |done|done|done].
  - intros v vn n E Hm. rewrite lookup_delete_ne; [by eapply H4|]. intros ->. by eapply Hn.
  - intros k v [_ Hk]%lookup_delete_Some. by apply H4'.
Qed.

(** A new network with its first attachment and a new informer. *)
Lemma vn_inv_init vns vnis chs v n :
  vn_inv None vns vnis chs → vns !! v = None →
  (∀ v', vnis !! (ns_of v, n) = Some v' → v' = v) →
  vn_inv None (<[v := MkVnState (length chs) (ns_of v) {[n]} ∅]> vns)
    (<[(ns_of v, n) := v]> vnis) (chs ++ [true]).
Proof.
  intros Hi E Hv.
  assert (Hlt : ∀ id, informer_of vns id → (id < length chs)%nat).
  { intros id Hid. eapply lookup_lt_Some. apply Hi. by left. }
  assert (Hnew : ∀ id, informer_of (<[v := MkVnState (length chs) (ns_of v) {[n]} ∅]> vns) id ↔
    informer_of vns id ∨ id = length chs).
  { intros id. split.
    - intros (v1 & vn1 & [[<- <-]|[Hne E1]]%lookup_insert_Some & <-); [by right|]. left. by exists v1, vn1.
    - intros [(v1 & vn1 & E1 & <-)| ->].
      + exists v1, vn1. rewrite lookup_insert_ne; [done|]. intros ->. congruence.
      + eexists v, _. by rewrite lookup_insert_eq. }
  assert (Hinf : ∀ v1 vn1, vns !! v1 = Some vn1 → remoteAttsInformer vn1 ≠ length chs).
  { intros v1 vn1 E1 Hid. assert (remoteAttsInformer vn1 < length chs)%nat; [|lia]. apply Hlt. by exists v1, vn1. }
  split.
  - intros v1 vn1 [[<- <-]|[Hne E1]]%lookup_insert_Some; [simpl; set_solver|by eapply vi_relevant].
  - intros v1 vn1 [[<- <-]|[Hne E1]]%lookup_insert_Some; [done|by eapply vi_ns].
  - intros v1 vn1 [[<- <-]|[Hne E1]]%lookup_insert_Some; [simpl; set_solver|by eapply vi_disj].
  - intros v1 vn1 m [[<- <-]|[Hne E1]]%lookup_insert_Some.
    + unfold members. simpl. intros Hm. assert (m = n) as -> by set_solver. apply lookup_insert_eq.
    + intros Hm. pose proof (vi_member _ _ _ _ Hi v1 vn1 m E1 Hm) as Hk.
      rewrite lookup_insert_ne; [done|]. intros Ek. rewrite <- Ek in Hk. by apply Hv in Hk.
  - intros k w [[<- <-]|[_ Hk]]%lookup_insert_Some; [done|]. by apply Hi.
  - intros v1 v2 vn1 vn2 [[<- <-]|[Hne1 E1]]%lookup_insert_Some [[<- <-]|[Hne2 E2]]%lookup_insert_Some Hid;
      [done|..]; simpl in Hid.
    + by apply Hinf in E2.
    + by apply Hinf in E1.
    + by apply (vi_inj _ _ _ _ Hi v1 v2 vn1 vn2).
  - intros id. rewrite Hnew. destruct (decide (id = length chs)) as [->|Hne].
    + rewrite lookup_app_r, Nat.sub_diag by lia. naive_solver.
    + rewrite lookup_app. split.
      * intros Hid. destruct (chs !! id) as [b|] eqn:Eb.
        -- left. left. assert (Hx : chs !! id = Some true) by congruence. by apply Hi in Hx as [|].
        -- apply lookup_lt_Some in Hid as Hl. simpl in *. apply lookup_ge_None in Eb. lia.
      * intros [[Hid|]|]; [|done|done]. by rewrite (proj2 (vi_open _ _ _ _ Hi id)) by by left.
  - done.
Qed.

(** ** What the operations leave alone *)

Definition ifcs_same s s' : Prop :=
  nsnToLocalMainState s' = nsnToLocalMainState s ∧
  nsnToPostCreateExecReport s' = nsnToPostCreateExecReport s ∧
  nsnToRemoteIfc s' = nsnToRemoteIfc s ∧ launched s' = launched s ∧
  fabric s' = fabric s ∧ api s' = api s.

Definition nets_same s s' : Prop :=
  vniToVnState s' = vniToVnState s ∧ nsnToVNStateVNI s' = nsnToVNStateVNI s ∧ stopChs s' = stopChs s.

Definition nets_ok (pend : option nat) s : Prop :=
  vn_inv pend (vniToVnState s) (nsnToVNStateVNI s) (stopChs s).

Lemma ifcs_same_trans s1 s2 s3 : ifcs_same s1 s2 → ifcs_same s2 s3 → ifcs_same s1 s3.
Proof. unfold ifcs_same. intros (?&?&?&?&?&?) (?&?&?&?&?&?). split_and!; congruence. Qed.

Lemma ifcs_same_refl s : ifcs_same s s.
Proof. done. Qed.

Lemma nets_same_trans s1 s2 s3 : nets_same s1 s2 → nets_same s2 s3 → nets_same s1 s3.
Proof. unfold nets_same. intros (?&?&?) (?&?&?). split_and!; congruence. Qed.

Lemma nets_same_ok p s s' : nets_same s s' → nets_ok p s → nets_ok p s'.
Proof. unfold nets_ok. by intros (-> & -> & ->). Qed.

(** ** Where remote attachments have been seen *)

Definition seen s (nsn : NSN) (v : Z) : Prop := ∃ vs, nsnToVNIs s !! nsn = Some vs ∧ v ∈ vs.

(** No attachment has an empty set of VNIs. *)
Definition seen_ok s : Prop := map_Forall (λ _ vs, vs ≠ ∅) (nsnToVNIs s).

(** No more was seen than before, and the queue has only grown. *)
Definition quieter s s' : Prop :=
  (seen_ok s → seen_ok s') ∧ (∀ nsn v, seen s' nsn v → seen s nsn v) ∧ ∃ q, queue s' = queue s ++ q.

Lemma quieter_refl s : quieter s s.
Proof. split; [done|]. split; [done|]. exists []. by rewrite app_nil_r. Qed.

Lemma quieter_trans s1 s2 s3 : quieter s1 s2 → quieter s2 s3 → quieter s1 s3.
Proof.
  intros (?&?&q1&E1) (?&?&q2&E2). split; [auto|]. split; [auto|]. exists (q1 ++ q2).
  by rewrite E2, E1, app_assoc.
Qed.

Lemma quieter_same s s' : nsnToVNIs s' = nsnToVNIs s → queue s' = queue s → quieter s s'.
Proof.
  intros E1 E2. unfold quieter, seen_ok, seen. rewrite E1, E2. split; [done|]. split; [done|].
  exists []. by rewrite app_nil_r.
Qed.

Lemma removeSeenInVNI_runs nsn v s (Q : unit → St → Prop) :
  (∀ s', ifcs_same s s' → nets_same s s' → queue s' = queue s → (seen_ok s → seen_ok s') →
     (∀ k x, seen s' k x ↔ seen s k x ∧ ¬ (k = nsn ∧ x = v)) → Q tt s') →
  runs (removeSeenInVNI nsn v) s Q.
Proof.
  intros HQ. unfold removeSeenInVNI, set_seen. apply runs_modify. apply HQ; [done..| |]; unfold seen_ok, seen; simpl.
  - intros Hok. destruct (nsnToVNIs s !! nsn) as [vs|]; [|done]. case_bool_decide.
    + by apply map_Forall_delete.
    + by apply map_Forall_insert_2.
  - intros k x. destruct (nsnToVNIs s !! nsn) as [vs|] eqn:E.
    + case_bool_decide as Hv; destruct (decide (k = nsn)) as [->|Hne].
      * rewrite lookup_delete_eq, E. split; [by intros (?&?&_)|]. intros ((vs1 & [= <-] & Hx) & Hn). set_solver.
      * rewrite lookup_delete_ne by done. split; [|by intros [? _]]. intros Hx. split; [done|]. by intros [? _].
      * rewrite lookup_insert_eq, E. split.
        -- intros (? & [= <-] & Hx). split; [exists vs; split; [done|set_solver]|]. set_solver.
        -- intros ((vs1 & [= <-] & Hx) & Hn). eexists. split; [done|]. set_solver.
      * rewrite lookup_insert_ne by done. split; [|by intros [? _]]. intros Hx. split; [done|]. by intros [? _].
    + split; [|tauto]. intros (vs & Ek & Hx). split; [by exists vs|]. intros [-> _]. congruence.
Qed.

Lemma requeue_remotes_runs ns v names s (Q : unit → St → Prop) :
  (∀ s', ifcs_same s s' → nets_same s s' → quieter s s' →
     queue s' = queue s ++ ((λ n, QAdd (ns, n)) <$> names) →
     (∀ n, n ∈ names → ¬ seen s' (ns, n) v) → Q tt s') →
  runs (requeue_remotes ns v names) s Q.
Proof.
  revert s Q. induction names as [|n names IH]; intros s Q HQ; simpl.
  - apply runs_ret, HQ; [done|done|apply quieter_refl|by rewrite app_nil_r|by intros n ?%elem_of_nil].
  - apply runs_bind, removeSeenInVNI_runs. intros s1 Hi1 Hn1 Hq1 Hok1 Hs1.
    apply runs_bind. unfold enqueue. apply runs_modify. apply IH. intros s3 Hi3 Hn3 (Hok3&Hs3&_) Hq3 Hu3.
    simpl in Hq3. apply HQ.
    + by apply (ifcs_same_trans s s1 s3).
    + by apply (nets_same_trans s s1 s3).
    + split; [auto|]. split; [intros k x Hk; by apply Hs1, (Hs3 k x)|]. rewrite Hq3, Hq1, <- app_assoc. by eexists.
    + by rewrite Hq3, Hq1, <- app_assoc.
    + intros m [->|Hm]%elem_of_cons; [|by apply Hu3]. intros Hm%(Hs3 _ _)%Hs1. tauto.
Qed.

(** ** Leaving a network *)

Lemma clearVNResources_runs vn name v s (Q : unit → St → Prop) :
  nets_ok (Some (remoteAttsInformer vn)) s →
  (∀ s', ifcs_same s s' → nets_ok None s' → vniToVnState s' = vniToVnState s →
     nsnToVNStateVNI s' = nsnToVNStateVNI s → quieter s s' →
     queue s' = queue s ++ ((λ n, QAdd (vn_namespace vn, n)) <$> elements (remoteAtts vn)) →
     (∀ n, n ∈ remoteAtts vn → ¬ seen s' (vn_namespace vn, n) v) → Q tt s') →
  runs (clearVNResources vn name v) s Q.
Proof.
  intros Hok HQ. destruct (vn_inv_close _ _ _ _ Hok) as [Ho Hok'].
  unfold clearVNResources, close_stopCh. apply runs_bind, runs_bind, runs_gets. rewrite Ho.
  unfold set_stopChs. apply runs_modify, requeue_remotes_runs. intros s' Hi Hn Hq Hqe Hu.
  destruct Hn as (E1 & E2 & E3). apply HQ; try done.
  - unfold nets_ok. rewrite E1, E2, E3. done.
  - intros n Hin. apply Hu. by apply elem_of_elements.
Qed.

(** Network [v] without attachment [n]: a network that loses its last local attachment
    is dropped, and its remote attachments are forgotten and come up again. *)
Definition net_left (v : Z) (n : string) s s' : Prop :=
  (∀ v', v' ≠ v → vniToVnState s' !! v' = vniToVnState s !! v') ∧
  match vniToVnState s !! v with
  | None => vniToVnState s' !! v = None ∧ queue s' = queue s
  | Some vn =>
      if bool_decide (localAtts vn ∖ {[n]} = ∅) then
        vniToVnState s' !! v = None ∧
        queue s' = queue s ++ ((λ m, QAdd (vn_namespace vn, m)) <$> elements (remoteAtts vn)) ∧
        ∀ m, m ∈ remoteAtts vn → ¬ seen s' (vn_namespace vn, m) v
      else
        vniToVnState s' !! v = Some (MkVnState (remoteAttsInformer vn) (vn_namespace vn)
          (localAtts vn ∖ {[n]}) (remoteAtts vn ∖ {[n]})) ∧ queue s' = queue s
  end.

Lemma net_left_none v n s s' w : net_left v n s s' → vniToVnState s !! w = None → vniToVnState s' !! w = None.
Proof.
  intros [Ho Hv] E. destruct (decide (w = v)) as [->|Hne]; [|by rewrite Ho].
  rewrite E in Hv. tauto.
Qed.

(** What the departure of attachment [n] from network [v] does. *)
Record departed (v : Z) (n : string) s s' : Prop := {
  dp_ifcs : ifcs_same s s';
  dp_vnis : nsnToVNStateVNI s' = nsnToVNStateVNI s;
  dp_ok : nets_ok None s';
  dp_quieter : quieter s s';
  dp_left : net_left v n s s';
  dp_gone vn : vniToVnState s' !! v = Some vn → n ∉ members vn }.

Lemma departure_runs n v s :
  nets_ok None s →
  runs (updateVNStateAfterAttDeparture n v) s (λ _ s', departed v n s s').
Proof.
  intros Hok. unfold updateVNStateAfterAttDeparture, removeAttFromVNState.
  apply runs_bind, runs_bind, runs_gets. destruct (vniToVnState s !! v) as [vn|] eqn:E.
  2: { apply runs_ret, runs_ret. split; try done; [apply quieter_refl| |by rewrite E].
       split; [done|by rewrite E]. }
  case_bool_decide as Hl.
  - apply runs_bind. unfold set_vns. apply runs_modify, runs_ret.
    apply clearVNResources_runs; [by apply (vn_inv_drop _ _ _ _ vn)|].
    intros s' Hi Hok' Ev Evi Hq Hqe Hu. simpl in *. split; try done.
    + split; [intros v' Hne; rewrite Ev; by rewrite lookup_delete_ne|].
      rewrite E, bool_decide_eq_true_2 by done. by rewrite Ev, lookup_delete_eq.
    + intros vn'. by rewrite Ev, lookup_delete_eq.
  - apply runs_bind. unfold set_vns. apply runs_modify, runs_ret, runs_ret. split; try done; simpl.
    + apply (vn_inv_replace None (vniToVnState s) (nsnToVNStateVNI s) _ _ v vn); try done.
      * pose proof (vi_disj _ _ _ _ Hok v vn E). simpl. set_solver.
      * intros m Hm. apply (vi_member _ _ _ _ Hok v vn m E). unfold members in *. simpl in Hm. set_solver.
      * auto.
    + by apply quieter_same.
    + split; simpl; [intros v' Hne; by rewrite lookup_insert_ne|].
      rewrite E, bool_decide_eq_false_2 by done. by rewrite lookup_insert_eq.
    + intros vn'. rewrite lookup_insert_eq. intros [= <-]. unfold members. simpl. set_solver.
Qed.

(** ** Joining a network *)

(** How an existing attachment [nsn] relates to network [v] afterwards. *)
Inductive joined (loc : bool) (v : Z) (nsn : NSN) s s' : option vnState * bool → Prop :=
| joined_in vn :
    nets_ok None s' → nsnToVNStateVNI s' !! nsn = Some v → vniToVnState s' !! v = Some vn →
    nsn.2 ∈ (if loc then localAtts vn else remoteAtts vn) →
    joined loc v nsn s s' (None, false)
| joined_last vn :
    (* it was the last local one and is remote now *)
    loc = false → nets_ok (Some (remoteAttsInformer vn)) s' → nsnToVNStateVNI s' !! nsn = None →
    vniToVnState s' !! v = None → nsn.2 ∈ remoteAtts vn → vn_namespace vn = ns_of v →
    joined loc v nsn s s' (Some vn, false)
| joined_none :
    (* remote, in a network that is not relevant *)
    loc = false → nets_ok None s' → nsnToVNStateVNI s' !! nsn = None →
    vniToVnState s' !! v = None → joined loc v nsn s s' (None, true).

(** No network lists an attachment that is recorded in none. *)
Lemma unlisted p vns vnis chs nsn :
  vn_inv p vns vnis chs → vnis !! nsn = None →
  ∀ v vn, vns !! v = Some vn → nsn.2 ∈ members vn → ns_of v ≠ nsn.1.
Proof.
  intros Hi E v vn Ev Hm En. pose proof (vi_member _ _ _ _ Hi v vn nsn.2 Ev Hm) as Hk.
  destruct nsn. simpl in *. congruence.
Qed.

Lemma join_local_runs v n s :
  nets_ok None s → (∀ v', nsnToVNStateVNI s !! (ns_of v, n) = Some v' → v' = v) →
  runs (updateVNStateForExistingAtt (ns_of v, n) true v) s (λ r s',
    joined true v (ns_of v, n) s s' r ∧ ifcs_same s s' ∧ quieter s s').
Proof.
  intros Hok Hv. unfold updateVNStateForExistingAtt, join_vn. simpl.
  apply runs_bind, runs_bind, runs_gets. destruct (vniToVnState s !! v) as [vn|] eqn:E.
  - apply runs_bind, runs_ret. unfold set_vns. apply runs_bind, runs_modify, runs_ret. simpl.
    unfold setVNStateVNI, set_vnis. apply runs_bind, runs_modify, runs_ret.
    split; [|split; [done|by apply quieter_same]].
    assert (Hnew : vn_inv None
      (<[v := MkVnState (remoteAttsInformer vn) (vn_namespace vn) ({[n]} ∪ localAtts vn) (remoteAtts vn ∖ {[n]})]>
        (vniToVnState s)) (<[(ns_of v, n) := v]> (nsnToVNStateVNI s)) (stopChs s)).
    { apply (vn_inv_replace None (vniToVnState s) (nsnToVNStateVNI s) _ _ v vn); try done; simpl.
      - set_solver.
      - pose proof (vi_disj _ _ _ _ Hok v vn E). set_solver.
      - intros m Hm. destruct (decide (m = n)) as [->|Hne]; [apply lookup_insert_eq|].
        rewrite lookup_insert_ne by congruence. apply (vi_member _ _ _ _ Hok v vn m E).
        unfold members in *. simpl in Hm. set_solver.
      - intros v' m Hne Hm. rewrite lookup_insert_ne; [done|]. intros Ek. rewrite <- Ek in Hm.
        by apply Hv in Hm.
      - intros k w [[<- <-]|[_ Hk]]%lookup_insert_Some; auto. }
    eapply joined_in; [exact Hnew|apply lookup_insert_eq|apply lookup_insert_eq|simpl; set_solver].
  - unfold initVNState, set_stopChs, set_vns. apply runs_bind, runs_bind, runs_gets.
    apply runs_bind, runs_modify, runs_ret. apply runs_bind, runs_modify, runs_ret. simpl.
    unfold setVNStateVNI, set_vnis. apply runs_bind, runs_modify, runs_ret.
    split; [|split; [done|by apply quieter_same]].
    eapply joined_in; [|apply lookup_insert_eq|apply lookup_insert_eq|simpl; set_solver].
    pose proof (vn_inv_init _ _ _ v n Hok E Hv) as Hi. unfold nets_ok. simpl.
    rewrite (right_id_L ∅ (∪)). by replace (∅ ∖ {[n]}) with (∅ : gset string) by set_solver.
Qed.

Lemma join_remote_runs v n s :
  nets_ok None s → (∀ v', nsnToVNStateVNI s !! (ns_of v, n) = Some v' → v' = v) →
  runs (updateVNStateForExistingAtt (ns_of v, n) false v) s (λ r s',
    joined false v (ns_of v, n) s s' r ∧ ifcs_same s s' ∧ quieter s s').
Proof.
  intros Hok Hv. unfold updateVNStateForExistingAtt, join_vn. simpl.
  apply runs_bind, runs_bind, runs_gets.
  assert (Hnot : ∀ w vn, vniToVnState s !! w = Some vn → n ∈ members vn → ns_of w = ns_of v → w = v).
  { intros w vn E Hm En. apply Hv. rewrite <- En. by apply (vi_member _ _ _ _ Hok w vn n). }
  destruct (vniToVnState s !! v) as [vn|] eqn:E.
  2: { apply runs_ret. unfold unsetVNStateVNI, set_vnis. apply runs_bind, runs_modify, runs_ret.
       split; [|split; [done|by apply quieter_same]].
       apply joined_none; [done| |apply lookup_delete_eq|done]. apply vn_inv_unset; [done|].
       simpl. intros w vn Ew Hm En. assert (w = v) as -> by by eapply Hnot. simpl in Ew. congruence. }
  case_bool_decide as Hl; simpl in Hl.
  - unfold set_vns, unsetVNStateVNI, set_vnis. apply runs_bind, runs_modify, runs_ret.
    apply runs_bind, runs_modify, runs_ret. split; [|split; [done|by apply quieter_same]].
    apply joined_last; simpl;
      [done| |apply lookup_delete_eq|apply lookup_delete_eq|set_solver|by apply (vi_ns _ _ _ _ Hok v vn)].
    unfold nets_ok. simpl. apply vn_inv_unset; [by apply (vn_inv_drop _ _ _ v vn)|].
    simpl. intros w vn' [Hne Ew]%lookup_delete_Some Hm En. apply Hne. symmetry. by eapply Hnot.
  - unfold set_vns. apply runs_bind, runs_modify, runs_ret.
    unfold setVNStateVNI, set_vnis. apply runs_bind, runs_modify, runs_ret.
    split; [|split; [done|by apply quieter_same]].
    eapply joined_in; [|apply lookup_insert_eq|apply lookup_insert_eq|simpl; set_solver].
    apply (vn_inv_replace None (vniToVnState s) (nsnToVNStateVNI s) _ _ v vn); try done; simpl.
    + pose proof (vi_disj _ _ _ _ Hok v vn E). set_solver.
    + intros m Hm. destruct (decide (m = n)) as [->|Hne]; [apply lookup_insert_eq|].
      rewrite lookup_insert_ne by congruence. apply (vi_member _ _ _ _ Hok v vn m E).
      unfold members in *. simpl in Hm. set_solver.
    + intros v' m Hne Hm. rewrite lookup_insert_ne; [done|]. intros Ek. rewrite <- Ek in Hm.
      by apply Hv in Hm.
    + intros k w [[<- <-]|[_ Hk]]%lookup_insert_Some; auto.
Qed.

Lemma join_runs loc v n s :
  nets_ok None s → (∀ v', nsnToVNStateVNI s !! (ns_of v, n) = Some v' → v' = v) →
  runs (updateVNStateForExistingAtt (ns_of v, n) loc v) s (λ r s',
    joined loc v (ns_of v, n) s s' r ∧ ifcs_same s s' ∧ quieter s s').
Proof. destruct loc; [apply join_local_runs|apply join_remote_runs]. Qed.

Lemma leave_runs nsn v s :
  nets_ok None s → nsnToVNStateVNI s !! nsn = Some v →
  runs (updateVNStateAfterAttDeparture nsn.2 v;; unsetVNStateVNI nsn) s (λ _ s',
    nets_ok None s' ∧ ifcs_same s s' ∧ quieter s s' ∧
    nsnToVNStateVNI s' = delete nsn (nsnToVNStateVNI s) ∧ net_left v nsn.2 s s').
Proof.
  intros Hok Ev. pose proof (vi_vnis _ _ _ _ Hok _ _ Ev) as Hns. apply runs_bind. eapply runs_conseq; [by apply departure_runs|].
  intros [] s1 Hd. unfold unsetVNStateVNI, set_vnis. apply runs_modify.
  destruct (dp_quieter _ _ _ _ Hd) as (Hq1 & Hq2 & Hq3).
  split; [|split; [apply (dp_ifcs _ _ _ _ Hd)|split; [done|split;
    [simpl; by rewrite (dp_vnis _ _ _ _ Hd)|apply (dp_left _ _ _ _ Hd)]]]].
  apply vn_inv_unset; [apply (dp_ok _ _ _ _ Hd)|]. simpl. intros w vn Ew Hm En.
  destruct (decide (w = v)) as [Ewv|Hne].
  { rewrite Ewv in Ew. by apply (dp_gone _ _ _ _ Hd vn). }
  pose proof (vi_member _ _ _ _ (dp_ok _ _ _ _ Hd) w vn nsn.2 Ew Hm) as Hk.
  rewrite (dp_vnis _ _ _ _ Hd), En in Hk. destruct nsn. simpl in *. congruence.
Qed.

Variable localNodeName : string.

(** [updateVNState] on an attachment of network [v]. *)
Lemma updateVNState_runs v n node s :
  nets_ok None s →
  runs (updateVNState localNodeName v (ns_of v, n) node) s (λ r s',
    joined (String.eqb node localNodeName) v (ns_of v, n) s s' r ∧ ifcs_same s s' ∧ quieter s s').
Proof.
  intros Hok. unfold updateVNState, getVNStateVNI. apply runs_bind, runs_gets.
  destruct (nsnToVNStateVNI s !! (ns_of v, n)) as [old|] eqn:E.
  - destruct (Z.eqb_spec old v) as [->|Hne]; cbn [negb].
    + apply runs_bind, runs_ret. apply join_runs; [done|]. intros v' E'. rewrite E in E'. by injection E'.
    + apply runs_bind. eapply runs_conseq; [by apply (leave_runs (ns_of v, n) old)|].
      intros _ s1 (Hok1 & Hi1 & Hq1 & Ev1 & _).
      eapply runs_conseq; [apply (join_runs _ v n s1); [done|]|].
      { intros v' E'. by rewrite Ev1, lookup_delete_eq in E'. }
      intros r s2 (Hj & Hi2 & Hq2). split; [|split; [by eapply ifcs_same_trans|by eapply quieter_trans]].
      destruct Hj; [eapply joined_in|eapply joined_last|eapply joined_none]; done.
  - apply runs_bind, runs_ret. apply join_runs; [done|]. intros v' E'. by rewrite E in E'.
Qed.
End Nets.
End AgentNets.
