(* ===== verification/AgentIfcs.v ===== *)
(** * Interfaces of the connection agent

    The part of the agent's state that says which interfaces it has made, its
    invariant, and the operations that create, replace and delete interfaces and
    launch the commands of attachments. *)

From S2P Require Import Prelude GoStr GoNet ApiTypes SubnetStrategy KosApi Fabric AgentIds Agent AgentNets.
Import GoNet Agent AgentNets.

(** ** Equality of addresses *)

Definition norm (ip : IP) : IP := if (length ip =? 4)%nat then v4InV6Prefix ++ ip else ip.

Lemma Equal_norm x y : GoNet.Equal x y = true ↔ norm x = norm y.
Proof.
  assert (H16 : ∀ a b : IP, length b = 16%nat →
    (bool_decide (take 12 b = v4InV6Prefix) && bool_decide (a = drop 12 b) = true ↔ v4InV6Prefix ++ a = b)).
  { intros a b Hb. rewrite andb_true_iff, !bool_decide_eq_true. split.
    - intros [<- ->]. apply take_drop.
    - intros <-. by rewrite (take_app_length' v4InV6Prefix a 12), (drop_app_length' v4InV6Prefix a 12). }
  unfold GoNet.Equal, norm.
  destruct (Nat.eqb_spec (length x) (length y)) as [E|E].
  { rewrite bool_decide_eq_true, E. destruct (length y =? 4)%nat; [|done].
    split; [by intros ->|]. by intros ?%app_inv_head. }
  destruct (Nat.eqb_spec (length x) 4) as [E4|E4]; cbn [andb].
  - destruct (Nat.eqb_spec (length y) 16) as [E16|E16]; cbn [andb].
    + rewrite H16 by done. destruct (Nat.eqb_spec (length y) 4); [lia|done].
    + destruct (Nat.eqb_spec (length x) 16); [lia|]. cbn [andb].
      destruct (Nat.eqb_spec (length y) 4); [lia|]. split; [done|]. intros Hy.
      rewrite <- Hy in E16. simpl in E16. lia.
  - destruct (Nat.eqb_spec (length x) 16) as [E16|E16]; cbn [andb].
    + destruct (Nat.eqb_spec (length y) 4) as [Ey|Ey]; cbn [andb].
      * rewrite (bool_decide_ext (drop 12 x = y) (y = drop 12 x)) by done. rewrite H16 by done.
        split; by intros ->.
      * split; [done|]. intros ->. congruence.
    + destruct (Nat.eqb_spec (length y) 4) as [Ey|Ey]; split; try done.
      * intros Hx. rewrite Hx in E16. simpl in E16. lia.
      * intros ->. congruence.
Qed.

#[export] Instance Equal_equivalence : Equivalence (λ x y, GoNet.Equal x y = true).
Proof. split; [intros x|intros x y|intros x y z]; rewrite !Equal_norm; congruence. Qed.

Lemma Equal_false_trans x y z :
  GoNet.Equal x y = true → GoNet.Equal x z = false → GoNet.Equal y z = false.
Proof.
  rewrite <- !not_true_iff_false, !Equal_norm. congruence.
Qed.

Module AgentIfcs.

Section Ifcs.
Context {F W : Type} `{NetFabric F, !NetFabricLaws F, KosClient W}.
Variables (hostIP : IP) (allowedPrograms : gset string).
Variables (fmt_local : LocalNetIfc → string) (fmt_remote : RemoteNetIfc → string).
#[local] Abbreviation St := (@State F W).
Implicit Types s : St.

(** ** The invariant

    Reports exist for local interfaces only, an attachment has at most one
    interface, a remote interface leads to another host, and only allowed programs
    are launched. *)
Definition program_allowed (cmd : list string) : Prop :=
  ∃ cmd0 args, cmd = cmd0 :: args ∧ cmd0 ∈ allowedPrograms.

Record ifc_inv s : Prop := {
  ii_report nsn : is_Some (nsnToPostCreateExecReport s !! nsn) → is_Some (nsnToLocalMainState s !! nsn);
  ii_one nsn : is_Some (nsnToLocalMainState s !! nsn) → nsnToRemoteIfc s !! nsn = None;
  ii_away nsn ifc : nsnToRemoteIfc s !! nsn = Some ifc → GoNet.Equal (ri_HostIP ifc) hostIP = false;
  ii_allowed : Forall (λ l, program_allowed (l_cmd l)) (launched s);
  ii_fabric : fab_ok (fabric s) }.

Lemma ifc_inv_new f w : fab_ok f → ifc_inv (NewConnectionAgent f w).
Proof.
  intros Hf. split; simpl; [..|done].
  - intros nsn [? E]. by rewrite lookup_empty in E.
  - intros nsn [? E]. by rewrite lookup_empty in E.
  - intros nsn ifc E. by rewrite lookup_empty in E.
  - done.
Qed.

Lemma ifcs_same_inv s s' : ifcs_same s s' → ifc_inv s → ifc_inv s'.
Proof. intros (E1&E2&E3&E4&E5&_) [H1 H2 H3 H4 H5]. split; rewrite ?E1, ?E2, ?E3, ?E4, ?E5; done. Qed.

(** Everything but the interfaces is as before. *)
Definition side_same s s' : Prop :=
  nets_same s s' ∧ nsnToVNIs s' = nsnToVNIs s ∧ queue s' = queue s ∧ api s' = api s.

Lemma side_same_refl s : side_same s s.
Proof. done. Qed.

Lemma side_same_trans s1 s2 s3 : side_same s1 s2 → side_same s2 s3 → side_same s1 s3.
Proof.
  intros (?&?&?&?) (?&?&?&?). split; [by eapply nets_same_trans|]. split_and!; congruence.
Qed.

(** No attachment but [nsn] changes its interfaces. *)
Definition only (nsn : NSN) s s' : Prop :=
  ∀ k, k ≠ nsn →
    nsnToLocalMainState s' !! k = nsnToLocalMainState s !! k ∧
    nsnToPostCreateExecReport s' !! k = nsnToPostCreateExecReport s !! k ∧
    nsnToRemoteIfc s' !! k = nsnToRemoteIfc s !! k.

Lemma only_refl nsn s : only nsn s s.
Proof. done. Qed.

Lemma only_trans nsn s1 s2 s3 : only nsn s1 s2 → only nsn s2 s3 → only nsn s1 s3.
Proof.
  intros H1 H2 k Hk. destruct (H1 k Hk) as (?&?&?), (H2 k Hk) as (?&?&?). split_and!; congruence.
Qed.

(** ** Commands *)

(** The status errors of a command. *)
Definition cmd_errors (what : string) (cmd : list string) : list string :=
  match cmd with
  | [] => []
  | cmd0 :: _ => if bool_decide (cmd0 ∈ allowedPrograms) then []
                 else [what +:+ " specifies non-allowed path " +:+ cmd0]
  end.

Lemma LaunchCommand_runs nsn ifc cmd what doit save s (Q : list string → St → Prop) :
  ifc_inv s →
  (∀ s', ifc_inv s' → side_same s s' → nsnToLocalMainState s' = nsnToLocalMainState s →
     nsnToPostCreateExecReport s' = nsnToPostCreateExecReport s →
     nsnToRemoteIfc s' = nsnToRemoteIfc s → fabric s' = fabric s →
     (doit = false → s' = s) → Q (cmd_errors what cmd) s') →
  runs (LaunchCommand allowedPrograms nsn ifc cmd what doit save) s Q.
Proof.
  intros Hi HQ. unfold LaunchCommand, cmd_errors in *. destruct cmd as [|cmd0 cmd].
  { apply runs_ret. by apply HQ. }
  case_bool_decide as Ha; simpl.
  2: { apply runs_ret. by apply HQ. }
  destruct doit; simpl; [|apply runs_ret; by apply HQ].
  apply runs_bind. unfold launch. apply runs_modify, runs_ret. apply HQ; try done.
  destruct Hi as [H1 H2 H3 H4 H5]. split; simpl; [done..| |done].
  apply Forall_app_2; [done|]. apply Forall_singleton. by exists cmd0, cmd.
Qed.

(** ** Deleting interfaces *)

Lemma unsetLocal_inv nsn s : ifc_inv s →
  runs (unsetLocalAttState nsn) s (λ _ s', ifc_inv s' ∧ side_same s s' ∧ only nsn s s' ∧
    nsnToLocalMainState s' !! nsn = None ∧ nsnToPostCreateExecReport s' !! nsn = None ∧
    nsnToRemoteIfc s' = nsnToRemoteIfc s ∧ fabric s' = fabric s).
Proof.
  intros [H1 H2 H3 H4 H5]. unfold unsetLocalAttState, set_locals, set_reports.
  apply runs_bind, runs_modify, runs_modify. split.
  - split; simpl; [..|done|done].
    + intros k [? [Hk Er]%lookup_delete_Some]. rewrite lookup_delete_ne by done. apply H1. by eexists.
    + intros k [? [Hk El]%lookup_delete_Some]. apply H2. by eexists.
    + done.
  - split; [done|]. split; [|simpl; by rewrite !lookup_delete_eq].
    intros k Hk. simpl. by rewrite !lookup_delete_ne.
Qed.

Lemma DeleteLocalIfc_runs ifc s (Q : option error → St → Prop) :
  ifc_inv s →
  (∀ err s', ifc_inv s' → side_same s s' → nsnToLocalMainState s' = nsnToLocalMainState s →
     nsnToPostCreateExecReport s' = nsnToPostCreateExecReport s →
     nsnToRemoteIfc s' = nsnToRemoteIfc s → remotes (fabric s') = remotes (fabric s) →
     match err with
     | None => locals (fabric s') = delete (li_Name ifc) (locals (fabric s))
     | Some _ => same_but (li_Name ifc) (locals (fabric s)) (locals (fabric s')) ∧
         is_Some (locals (fabric s) !! li_Name ifc)
     end → Q err s') →
  runs (DeleteLocalIfc ifc) s Q.
Proof.
  intros Hi HQ. pose proof (DeleteLocalIfc_law ifc (fabric s) (ii_fabric _ Hi)) as Hl.
  unfold DeleteLocalIfc, call_fabric, runs. destruct (fab_DeleteLocalIfc ifc (fabric s)) as [err f].
  destruct Hl as (Hok & Hr & He). apply HQ; try done. destruct Hi as [H1 H2 H3 H4 H5]. by split.
Qed.

Lemma DeleteRemoteIfc_runs ifc s (Q : option error → St → Prop) :
  ifc_inv s →
  (∀ err s', ifc_inv s' → side_same s s' → nsnToLocalMainState s' = nsnToLocalMainState s →
     nsnToPostCreateExecReport s' = nsnToPostCreateExecReport s →
     nsnToRemoteIfc s' = nsnToRemoteIfc s → locals (fabric s') = locals (fabric s) →
     match err with
     | None => remotes (fabric s') = delete (rkey ifc) (remotes (fabric s))
     | Some _ => same_but (rkey ifc) (remotes (fabric s)) (remotes (fabric s')) ∧
         is_Some (remotes (fabric s) !! rkey ifc)
     end → Q err s') →
  runs (DeleteRemoteIfc ifc) s Q.
Proof.
  intros Hi HQ. pose proof (DeleteRemoteIfc_law ifc (fabric s) (ii_fabric _ Hi)) as Hl.
  unfold DeleteRemoteIfc, call_fabric, runs. destruct (fab_DeleteRemoteIfc ifc (fabric s)) as [err f].
  destruct Hl as (Hok & Hr & He). apply HQ; try done. destruct Hi as [H1 H2 H3 H4 H5]. by split.
Qed.

Lemma unsetRemote_runs nsn s (Q : unit → St → Prop) :
  ifc_inv s →
  (∀ s', ifc_inv s' → side_same s s' → only nsn s s' → nsnToLocalMainState s' = nsnToLocalMainState s →
     nsnToPostCreateExecReport s' = nsnToPostCreateExecReport s →
     nsnToRemoteIfc s' !! nsn = None → fabric s' = fabric s → Q tt s') →
  runs (unsetRemoteIfc nsn) s Q.
Proof.
  intros [H1 H2 H3 H4 H5] HQ. unfold unsetRemoteIfc, set_remotes. apply runs_modify. apply HQ; try done.
  - split; simpl; try done.
    + intros k Hk. apply lookup_delete_None. right. by apply H2.
    + intros k ifc [_ Hk]%lookup_delete_Some. by eapply H3.
  - intros k Hk. simpl. by rewrite lookup_delete_ne.
  - apply lookup_delete_eq.
Qed.

(** What the fabric does when attachment [nsn] loses its interface: nothing if it
    has none; on an error only that interface is in doubt. *)
Definition fabric_dropped (nsn : NSN) s s' (err : option error) : Prop :=
  match nsnToLocalMainState s !! nsn, nsnToRemoteIfc s !! nsn with
  | Some st, _ =>
      let name := li_Name (lm_ifc st) in
      remotes (fabric s') = remotes (fabric s) ∧
      match err with
      | None => locals (fabric s') = delete name (locals (fabric s))
      | Some _ => same_but name (locals (fabric s)) (locals (fabric s')) ∧
          is_Some (locals (fabric s) !! name)
      end
  | None, Some ifc =>
      locals (fabric s') = locals (fabric s) ∧
      match err with
      | None => remotes (fabric s') = delete (rkey ifc) (remotes (fabric s))
      | Some _ => same_but (rkey ifc) (remotes (fabric s)) (remotes (fabric s')) ∧
          is_Some (remotes (fabric s) !! rkey ifc)
      end
  | None, None => err = None ∧ fabric s' = fabric s
  end.

(** Attachment [nsn] has lost its interface, or, on an error, nothing has changed
    in the agent. *)
Record dropped (nsn : NSN) s (err : option error) s' : Prop := {
  dr_inv : ifc_inv s';
  dr_side : side_same s s';
  dr_only : only nsn s s';
  dr_none : err = None → nsnToLocalMainState s' !! nsn = None ∧
    nsnToPostCreateExecReport s' !! nsn = None ∧ nsnToRemoteIfc s' !! nsn = None;
  dr_kept : err ≠ None → nsnToLocalMainState s' = nsnToLocalMainState s ∧
    nsnToPostCreateExecReport s' = nsnToPostCreateExecReport s ∧
    nsnToRemoteIfc s' = nsnToRemoteIfc s;
  dr_fabric : fabric_dropped nsn s s' err }.

Lemma drop_local_runs nsn st (g : error → error) s :
  ifc_inv s → nsnToLocalMainState s !! nsn = Some st →
  runs (err ← DeleteLocalIfc (lm_ifc st);
        match err with
        | Some e => mret (Some (g e))
        | None =>
            LaunchCommand allowedPrograms nsn (lm_ifc st) (lm_PostDeleteExec st) "postDelete" true false;;
            unsetLocalAttState nsn;;
            mret None
        end) s (dropped nsn s).
Proof.
  intros Hi Hl. apply runs_bind, DeleteLocalIfc_runs; [done|].
  intros err s1 Hi1 Hs1 E1 E2 E3 Er Ef. destruct err as [e|].
  - apply runs_ret. split; try done; [intros k _; by rewrite E1, E2, E3|].
    unfold fabric_dropped. by rewrite Hl.
  - apply runs_bind, LaunchCommand_runs; [done|]. intros s2 Hi2 Hs2 L1 L2 L3 Lf _.
    apply runs_bind. eapply runs_conseq; [by apply unsetLocal_inv|].
    intros [] s3 (Hi3 & Hs3 & Ho & Hn1 & Hn2 & Hr & Hf). apply runs_ret. split; try done.
    + by eapply side_same_trans, side_same_trans.
    + intros k Hk. destruct (Ho k Hk) as (-> & -> & ->). by rewrite L1, L2, L3, E1, E2, E3.
    + intros _. split; [done|]. split; [done|]. rewrite Hr, L3, E3. apply (ii_one _ Hi). by eexists.
    + unfold fabric_dropped. rewrite Hl, Hf, Lf. done.
Qed.

Lemma drop_remote_runs nsn ifc (g : error → error) s :
  ifc_inv s → nsnToLocalMainState s !! nsn = None → nsnToRemoteIfc s !! nsn = Some ifc →
  runs (err ← DeleteRemoteIfc ifc;
        match err with
        | Some e => mret (Some (g e))
        | None => unsetRemoteIfc nsn;; mret None
        end) s (dropped nsn s).
Proof.
  intros Hi Hl Hr. apply runs_bind, DeleteRemoteIfc_runs; [done|].
  intros err s1 Hi1 Hs1 E1 E2 E3 Er Ef. destruct err as [e|].
  - apply runs_ret. split; try done; [intros k _; by rewrite E1, E2, E3|].
    unfold fabric_dropped. by rewrite Hl, Hr.
  - apply runs_bind, unsetRemote_runs; [done|]. intros s2 Hi2 Hs2 Ho L1 L2 Hn Lf. apply runs_ret.
    split; try done.
    + by eapply side_same_trans.
    + intros k Hk. destruct (Ho k Hk) as (-> & -> & ->). by rewrite E1, E2, E3.
    + intros _. rewrite L1, E1, L2, E2. split; [done|]. split; [|done].
      destruct (nsnToPostCreateExecReport s !! nsn) eqn:Ep; [|done].
      destruct (ii_report _ Hi nsn) as [? Hx]; [by eexists|]. congruence.
    + unfold fabric_dropped. rewrite Hl, Hr, Lf. done.
Qed.

Lemma drop_nothing nsn s :
  ifc_inv s → nsnToLocalMainState s !! nsn = None → nsnToRemoteIfc s !! nsn = None →
  dropped nsn s None s.
Proof.
  intros Hi Hl Hr. split; try done.
  - intros _. split; [done|]. split; [|done]. destruct (nsnToPostCreateExecReport s !! nsn) eqn:Ep; [|done].
    destruct (ii_report _ Hi nsn) as [? Hx]; [by eexists|]. congruence.
  - unfold fabric_dropped. by rewrite Hl, Hr.
Qed.

Lemma delete_old_ifc_runs nsn s :
  ifc_inv s →
  runs (delete_old_ifc allowedPrograms fmt_local fmt_remote nsn
          ((λ main, MkLocalState main (default None (nsnToPostCreateExecReport s !! nsn))) <$>
             nsnToLocalMainState s !! nsn)
          (nsnToRemoteIfc s !! nsn)) s (dropped nsn s).
Proof.
  intros Hi. unfold delete_old_ifc. destruct (nsnToLocalMainState s !! nsn) as [st|] eqn:El; simpl.
  - by apply (drop_local_runs nsn st).
  - destruct (nsnToRemoteIfc s !! nsn) as [ifc|] eqn:Er.
    + by apply (drop_remote_runs nsn ifc).
    + by apply runs_ret, drop_nothing.
Qed.

(** ** Creating interfaces *)

Lemma setLocal_runs nsn st s (Q : unit → St → Prop) :
  ifc_inv s → nsnToRemoteIfc s !! nsn = None →
  (∀ s', ifc_inv s' → side_same s s' → only nsn s s' → nsnToLocalMainState s' !! nsn = Some st →
     nsnToPostCreateExecReport s' = nsnToPostCreateExecReport s →
     nsnToRemoteIfc s' = nsnToRemoteIfc s → fabric s' = fabric s → Q tt s') →
  runs (setLocalAttMainState nsn st) s Q.
Proof.
  intros [H1 H2 H3 H4 H5] Hr HQ. unfold setLocalAttMainState, set_locals. apply runs_modify. apply HQ; try done.
  - split; simpl; try done.
    + intros k Hk. apply H1 in Hk. destruct (decide (k = nsn)) as [->|Hne].
      * rewrite lookup_insert_eq. by eexists.
      * by rewrite lookup_insert_ne.
    + intros k [x [[<- _]|[_ Hk]]%lookup_insert_Some]; [done|]. apply H2. by eexists.
  - intros k Hk. simpl. by rewrite lookup_insert_ne.
  - apply lookup_insert_eq.
Qed.

Lemma assignRemote_runs nsn ifc s (Q : unit → St → Prop) :
  ifc_inv s → nsnToLocalMainState s !! nsn = None → GoNet.Equal (ri_HostIP ifc) hostIP = false →
  (∀ s', ifc_inv s' → side_same s s' → only nsn s s' → nsnToLocalMainState s' = nsnToLocalMainState s →
     nsnToPostCreateExecReport s' = nsnToPostCreateExecReport s →
     nsnToRemoteIfc s' !! nsn = Some ifc → fabric s' = fabric s → Q tt s') →
  runs (assignRemoteIfc nsn ifc) s Q.
Proof.
  intros [H1 H2 H3 H4 H5] Hl Ha HQ. unfold assignRemoteIfc, set_remotes. apply runs_modify. apply HQ; try done.
  - split; simpl; try done.
    + intros k Hk. rewrite lookup_insert_ne; [by apply H2|]. intros <-. destruct Hk. congruence.
    + intros k i [[<- <-]|[_ Hk]]%lookup_insert_Some; [done|by eapply H3].
  - intros k Hk. simpl. by rewrite lookup_insert_ne.
  - apply lookup_insert_eq.
Qed.

(** The interface that attachment [nsn] is to have. *)
Definition new_local (ip : IP) (vni : Z) (m : HardwareAddr) : LocalNetIfc :=
  MkLocalIfc (generateIfcName m) vni m ip.
Definition new_remote (ip host : IP) (vni : Z) (m : HardwareAddr) : RemoteNetIfc :=
  MkRemoteIfc vni m ip host.

Definition no_ifc s (nsn : NSN) : Prop :=
  nsnToLocalMainState s !! nsn = None ∧ nsnToPostCreateExecReport s !! nsn = None ∧
  nsnToRemoteIfc s !! nsn = None.

(** Attachment [nsn] has got its new interface, or has none. *)
Record made (nsn : NSN) (ip host : IP) (vni : Z) (m : HardwareAddr) (pce pde : list string)
    s (r : error + list string) s' : Prop := {
  mk_inv : ifc_inv s';
  mk_side : side_same s s';
  mk_only : only nsn s s';
  mk_fail e : r = inl e → no_ifc s' nsn;
  mk_ok errs : r = inr errs →
    if GoNet.Equal host hostIP then
      errs = cmd_errors "postCreateExec" pce ∧
      nsnToLocalMainState s' !! nsn = Some (MkLocalMain (new_local ip vni m) pde) ∧
      nsnToPostCreateExecReport s' !! nsn = None ∧ nsnToRemoteIfc s' !! nsn = None ∧
      locals (fabric s') = <[generateIfcName m := new_local ip vni m]> (locals (fabric s)) ∧
      remotes (fabric s') = remotes (fabric s)
    else
      errs = [] ∧ nsnToLocalMainState s' !! nsn = None ∧ nsnToPostCreateExecReport s' !! nsn = None ∧
      nsnToRemoteIfc s' !! nsn = Some (new_remote ip host vni m) ∧
      remotes (fabric s') = <[rkey (new_remote ip host vni m) := new_remote ip host vni m]> (remotes (fabric s)) ∧
      locals (fabric s') = locals (fabric s) }.

Lemma create_ifc_runs nsn ip host vni m pce pde s :
  ifc_inv s → no_ifc s nsn →
  runs (create_ifc hostIP allowedPrograms fmt_local fmt_remote nsn ip host vni m (generateIfcName m) pce pde)
    s (made nsn ip host vni m pce pde s).
Proof.
  intros Hi (Hl & Hp & Hr). unfold create_ifc. destruct (GoNet.Equal host hostIP) eqn:Eh.
  - fold (new_local ip vni m). pose proof (CreateLocalIfc_law (new_local ip vni m) (fabric s) (ii_fabric _ Hi)) as Hlaw.
    apply runs_bind. unfold call_fabric, runs at 1.
    destruct (fab_CreateLocalIfc (new_local ip vni m) (fabric s)) as [err f]. destruct Hlaw as (Hok & Hfr & He).
    set (s1 := MkState _ _ _ _ _ _ _ _ _ f _).
    assert (Hi1 : ifc_inv s1) by (destruct Hi as [H1 H2 H3 H4 H5]; by split).
    destruct err as [e|].
    + apply runs_ret. split; done.
    + apply runs_bind, setLocal_runs; [done|done|]. intros s2 Hi2 Hs2 Ho2 L1 L2 L3 Lf.
      apply runs_bind, LaunchCommand_runs; [done|]. intros s3 Hi3 Hs3 K1 K2 K3 Kf _. apply runs_ret. split.
      * done.
      * by eapply side_same_trans, Hs3.
      * intros k Hk. destruct (Ho2 k Hk) as (E1 & E2 & E3). rewrite K1, K2, K3. done.
      * done.
      * intros errs [= <-]. rewrite Eh. split; [done|]. rewrite K1, K2, K3, L1, L2, L3, Kf, Lf. done.
  - fold (new_remote ip host vni m).
    pose proof (CreateRemoteIfc_law (new_remote ip host vni m) (fabric s) (ii_fabric _ Hi)) as Hlaw.
    apply runs_bind. unfold call_fabric, runs at 1.
    destruct (fab_CreateRemoteIfc (new_remote ip host vni m) (fabric s)) as [err f]. destruct Hlaw as (Hok & Hfr & He).
    set (s1 := MkState _ _ _ _ _ _ _ _ _ f _).
    assert (Hi1 : ifc_inv s1) by (destruct Hi as [H1 H2 H3 H4 H5]; by split).
    destruct err as [e|].
    + apply runs_ret. split; done.
    + apply runs_bind, assignRemote_runs; [done|done|done|]. intros s2 Hi2 Hs2 Ho2 L1 L2 L3 Lf.
      apply runs_ret. split; [done|done|done|done|]. intros errs [= <-]. rewrite Eh. split; [done|].
      rewrite L1, L2, Lf. done.
Qed.

(** Attachment [nsn] has an interface for address [m] on [host]. *)
Definition has_ifc (nsn : NSN) (host : IP) (m : HardwareAddr) s : Prop :=
  if GoNet.Equal host hostIP then
    nsnToRemoteIfc s !! nsn = None ∧
    ∃ st, nsnToLocalMainState s !! nsn = Some st ∧ li_GuestMAC (lm_ifc st) = m
  else
    nsnToLocalMainState s !! nsn = None ∧
    ∃ ifc, nsnToRemoteIfc s !! nsn = Some ifc ∧ ri_GuestMAC ifc = m ∧ GoNet.Equal (ri_HostIP ifc) host = true.

Lemma has_ifc_dec nsn host m s : has_ifc nsn host m s ∨ ¬ has_ifc nsn host m s.
Proof.
  unfold has_ifc. destruct (GoNet.Equal host hostIP).
  - destruct (nsnToRemoteIfc s !! nsn); [right; by intros [? _]|].
    destruct (nsnToLocalMainState s !! nsn) as [st|]; [|right; by intros (_ & ? & ? & _)].
    destruct (decide (li_GuestMAC (lm_ifc st) = m)); [left; by eauto|right]. intros (_ & ? & [= <-] & ?). done.
  - destruct (nsnToLocalMainState s !! nsn); [right; by intros [? _]|].
    destruct (nsnToRemoteIfc s !! nsn) as [ifc|]; [|right; by intros (_ & ? & ? & _)].
    destruct (decide (ri_GuestMAC ifc = m)), (GoNet.Equal (ri_HostIP ifc) host) eqn:E; try (left; by eauto);
      right; intros (_ & ? & [= <-] & ? & ?); congruence.
Qed.

Lemma ifcNeedsUpdate_false h h' (m m' : HardwareAddr) :
  ifcNeedsUpdate h h' m m' = false ↔ GoNet.Equal h h' = true ∧ m = m'.
Proof.
  unfold ifcNeedsUpdate. rewrite orb_false_iff, !negb_false_iff, bool_decide_eq_true. done.
Qed.

Lemma Equal_sym x y : GoNet.Equal x y = GoNet.Equal y x.
Proof. apply eq_true_iff_eq. rewrite !Equal_norm. split; congruence. Qed.

(** The test of [createOrUpdateIfc]. *)
Definition needs_ifc (nsn : NSN) (host : IP) (m : HardwareAddr) s : bool :=
  match nsnToLocalMainState s !! nsn, nsnToRemoteIfc s !! nsn with None, None => true | _, _ => false end ||
  match nsnToLocalMainState s !! nsn with
  | Some st => ifcNeedsUpdate hostIP host (li_GuestMAC (lm_ifc st)) m | None => false end ||
  match nsnToRemoteIfc s !! nsn with
  | Some ifc => ifcNeedsUpdate (ri_HostIP ifc) host (ri_GuestMAC ifc) m | None => false end.

Lemma needs_ifc_spec nsn host m s : ifc_inv s → needs_ifc nsn host m s = false ↔ has_ifc nsn host m s.
Proof.
  intros Hi. unfold needs_ifc, has_ifc. destruct (nsnToLocalMainState s !! nsn) as [st|] eqn:El.
  - rewrite (ii_one _ Hi nsn) by by eexists. simpl. rewrite orb_false_r, ifcNeedsUpdate_false, (Equal_sym hostIP).
    destruct (GoNet.Equal host hostIP); naive_solver.
  - destruct (nsnToRemoteIfc s !! nsn) as [ifc|] eqn:Er; simpl.
    + rewrite ifcNeedsUpdate_false. pose proof (ii_away _ Hi nsn ifc Er) as Ha.
      destruct (GoNet.Equal host hostIP) eqn:Eh.
      * split; [|by intros [? _]]. intros [E _]. by rewrite (Equal_false_trans _ _ _ E Ha) in Eh.
      * naive_solver.
    + destruct (GoNet.Equal host hostIP); naive_solver.
Qed.

(** ** Reconciling *)

(** What [createOrUpdateIfc] returns for address [m]. *)
Definition ifc_result (nsn : NSN) (host : IP) (m : HardwareAddr) (pce : list string) s
    : string * string * list string * option ExecReport :=
  (MAC_String m, generateIfcName m,
   if GoNet.Equal host hostIP then cmd_errors "postCreateExec" pce else [],
   default None (nsnToPostCreateExecReport s !! nsn)).

(** Attachment [nsn] has the interface it is to have; it is left alone when it had
    it already, and else replaces the old one.  On an error the old interface could
    not be deleted, or the new one not be made. *)
Record reconciled (nsn : NSN) (ip host : IP) (vni : Z) (m : HardwareAddr) (pce pde : list string)
    s (r : error + (string * string * list string * option ExecReport)) s' : Prop := {
  rc_inv : ifc_inv s';
  rc_side : side_same s s';
  rc_only : only nsn s s';
  rc_same : has_ifc nsn host m s → s' = s;
  rc_ok x : r = inr x → has_ifc nsn host m s' ∧ x = ifc_result nsn host m pce s';
  rc_new x : r = inr x → ¬ has_ifc nsn host m s →
    ∃ s1, dropped nsn s None s1 ∧ made nsn ip host vni m pce pde s1 (inr x.1.2) s';
  rc_fail e : r = inl e → ¬ has_ifc nsn host m s ∧
    ((∃ e', dropped nsn s (Some e') s') ∨
     ∃ s1, dropped nsn s None s1 ∧ made nsn ip host vni m pce pde s1 (inl e) s') }.

Lemma ifc_result_local nsn host m pce s :
  GoNet.Equal host hostIP = true →
  ifc_result nsn host m pce s = (MAC_String m, generateIfcName m, cmd_errors "postCreateExec" pce,
    default None (nsnToPostCreateExecReport s !! nsn)).
Proof. unfold ifc_result. by intros ->. Qed.

Lemma no_report nsn s : ifc_inv s → nsnToLocalMainState s !! nsn = None →
  nsnToPostCreateExecReport s !! nsn = None.
Proof.
  intros Hi Hl. destruct (nsnToPostCreateExecReport s !! nsn) eqn:Ep; [|done].
  destruct (ii_report _ Hi nsn) as [? Hx]; [by eexists|]. congruence.
Qed.

Lemma keep_ifc_runs nsn ip host vni m pce pde s :
  ifc_inv s → has_ifc nsn host m s →
  runs (match (λ main, MkLocalState main (default None (nsnToPostCreateExecReport s !! nsn))) <$>
                nsnToLocalMainState s !! nsn with
        | Some old =>
            statusErrs ← LaunchCommand allowedPrograms nsn (lm_ifc (ls_main old)) pce "postCreateExec" false true;
            mret (inr (MAC_String m, generateIfcName m, statusErrs, ls_report old))
        | None => mret (inr (MAC_String m, generateIfcName m, [], None))
        end) s (reconciled nsn ip host vni m pce pde s).
Proof.
  intros Hi Hh.
  assert (Hrec : reconciled nsn ip host vni m pce pde s (inr (ifc_result nsn host m pce s)) s).
  { split; try done. intros x [= <-]. done. }
  unfold has_ifc in Hh. destruct (GoNet.Equal host hostIP) eqn:Eh.
  - destruct Hh as (_ & st & El & _). rewrite El. simpl.
    apply runs_bind, LaunchCommand_runs; [done|]. intros s' _ _ _ _ _ _ Hs. rewrite Hs by done.
    apply runs_ret. by rewrite ifc_result_local in Hrec.
  - destruct Hh as (El & _). rewrite El. simpl. apply runs_ret.
    unfold ifc_result in Hrec. by rewrite Eh, (no_report nsn s) in Hrec.
Qed.

Lemma replace_ifc_runs nsn ip host vni m pce pde s :
  ifc_inv s → ¬ has_ifc nsn host m s →
  runs (err ← delete_old_ifc allowedPrograms fmt_local fmt_remote nsn
          ((λ main, MkLocalState main (default None (nsnToPostCreateExecReport s !! nsn))) <$>
             nsnToLocalMainState s !! nsn)
          (nsnToRemoteIfc s !! nsn);
        match err with
        | Some e => mret (inl e)
        | None =>
            r ← create_ifc hostIP allowedPrograms fmt_local fmt_remote nsn ip host vni m (generateIfcName m) pce pde;
            match r with
            | inl e => mret (inl e)
            | inr statusErrs => mret (inr (MAC_String m, generateIfcName m, statusErrs, None))
            end
        end) s (reconciled nsn ip host vni m pce pde s).
Proof.
  intros Hi Hh. apply runs_bind. eapply runs_conseq; [by apply delete_old_ifc_runs|].
  intros err s1 Hd. destruct err as [e|].
  { apply runs_ret. split; try done; [apply Hd..|]. intros e' _. split; [done|]. left. by exists e. }
  apply runs_bind. eapply runs_conseq; [by apply create_ifc_runs; apply Hd|].
  intros r s2 Hm. assert (Hside : side_same s s2) by (eapply side_same_trans; [apply Hd|apply Hm]).
  assert (Honly : only nsn s s2) by (eapply only_trans; [apply Hd|apply Hm]).
  destruct r as [e|errs]; apply runs_ret.
  - split; try done; [apply Hm|]. intros e' [= <-]. split; [done|]. right. by exists s1.
  - pose proof (mk_ok _ _ _ _ _ _ _ _ _ _ Hm errs eq_refl) as Hok. split; try done.
    + apply Hm.
    + intros x [= <-]. unfold has_ifc, ifc_result. destruct (GoNet.Equal host hostIP) eqn:Eh.
      * destruct Hok as (-> & El & Ep & Er & _). rewrite El, Ep, Er. split; [|done]. split; [done|]. by eexists.
      * destruct Hok as (-> & El & Ep & Er & _). rewrite El, Ep, Er. split; [|done]. split; [done|].
        eexists. split; [done|]. split; [done|]. by apply Equal_norm.
    + intros x [= <-] _. by exists s1.
Qed.

Lemma createOrUpdateIfc_runs nsn ip host vni m pce pde s :
  ifc_inv s → generateMACAddr vni ip = Ok m →
  runs (createOrUpdateIfc hostIP allowedPrograms fmt_local fmt_remote ip host vni nsn pce pde) s
    (reconciled nsn ip host vni m pce pde s).
Proof.
  intros Hi Em. unfold createOrUpdateIfc. apply runs_bind. unfold runs at 1, lift. rewrite Em. simpl.
  unfold getLocalAttState, getRemoteIfc. apply runs_bind, runs_bind, runs_get.
  pose proof (needs_ifc_spec nsn host m s Hi) as Hn. unfold needs_ifc in Hn.
  pose proof (keep_ifc_runs nsn ip host vni m pce pde s Hi) as Hkeep.
  pose proof (replace_ifc_runs nsn ip host vni m pce pde s Hi) as Hrep.
  destruct (nsnToLocalMainState s !! nsn) as [st|] eqn:El; apply runs_ret, runs_bind, runs_gets; simpl in *.
  - destruct (ifcNeedsUpdate hostIP host _ m || _) eqn:En.
    + apply Hrep. intros Hh%Hn. done.
    + by apply Hkeep, Hn.
  - destruct (nsnToRemoteIfc s !! nsn) as [ifc|] eqn:Er; simpl in *.
    + destruct (ifcNeedsUpdate (ri_HostIP ifc) host _ m) eqn:En.
      * apply Hrep. intros Hh%Hn. done.
      * by apply Hkeep, Hn.
    + apply Hrep. intros Hh%Hn. done.
Qed.
End Ifcs.
End AgentIfcs.
