(* ===== verification/AgentCorrect.v ===== *)
(** * Correctness of the connection agent

    What processing an attachment achieves, for any fabric with [NetFabricLaws] and
    any API client, and the invariant that every run of the agent keeps. *)

From S2P Require Import Prelude GoStr GoNet ApiTypes SubnetStrategy KosApi Fabric AgentIds Agent AgentNets AgentIfcs.
Import GoNet Agent AgentNets AgentIfcs.

Module AgentCorrect.

Section Correct.
Context {F W : Type} `{NetFabric F, !NetFabricLaws F, KosClient W}.
Variable ns_of : Z → string.
Variables (localNodeName : string) (hostIP : IP) (allowedPrograms : gset string).
Variables (fmt_local : LocalNetIfc → string) (fmt_remote : RemoteNetIfc → string).
#[local] Abbreviation St := (@State F W).
Implicit Types s : St.

#[local] Abbreviation ifc_ok := (ifc_inv hostIP allowedPrograms).
#[local] Abbreviation processDeletedAtt := (processDeletedAtt (F := F) (W := W) allowedPrograms).
#[local] Abbreviation processExistingAtt :=
  (processExistingAtt (F := F) (W := W) localNodeName hostIP allowedPrograms fmt_local fmt_remote).

(** ** The invariant *)

Record agent_inv s : Prop := {
  ai_nets : nets_ok ns_of None s;
  ai_ifcs : ifc_ok s;
  ai_seen : seen_ok s }.

Lemma agent_inv_new f w : fab_ok f → agent_inv (NewConnectionAgent f w).
Proof.
  intros Hf. split; [apply vn_inv_new|by apply ifc_inv_new|apply map_Forall_empty].
Qed.

(** Networks changed, interfaces not; then interfaces changed, networks not. *)
Lemma agent_inv_nets s s' :
  ifc_ok s → seen_ok s → nets_ok ns_of None s' → ifcs_same s s' → quieter s s' → agent_inv s'.
Proof. intros Hi Hs Hn Hsame (Hq&_). split; [done|by eapply ifcs_same_inv|auto]. Qed.

Lemma agent_inv_ifcs s s' : agent_inv s → side_same s s' → ifc_ok s' → agent_inv s'.
Proof.
  intros [Hn _ Hs] (Hsame & Es & _) Hi. split; [by eapply nets_same_ok|done|].
  unfold seen_ok. by rewrite Es.
Qed.

(** ** Deleted attachments *)

(** Attachment [nsn] is in no network, and has lost its interface unless the fabric
    refused. *)
Record forgotten (nsn : NSN) s (err : option error) s' : Prop := {
  fg_inv : agent_inv s';
  fg_net : nsnToVNStateVNI s' !! nsn = None;
  fg_unlisted v vn : vniToVnState s' !! v = Some vn → nsn.2 ∈ members vn → ns_of v ≠ nsn.1;
  fg_only : only nsn s s';
  fg_none : err = None → no_ifc s' nsn;
  fg_kept : err ≠ None → nsnToLocalMainState s' = nsnToLocalMainState s ∧
    nsnToPostCreateExecReport s' = nsnToPostCreateExecReport s ∧ nsnToRemoteIfc s' = nsnToRemoteIfc s;
  fg_fabric : fabric_dropped nsn s s' err;
  fg_api : api s' = api s;
  fg_quieter : quieter s s' }.

Lemma drop_any_runs nsn s :
  ifc_ok s →
  runs (localState ← getLocalAttState nsn;
        match localState with
        | Some st =>
            let ifc := lm_ifc (ls_main st) in
            err ← DeleteLocalIfc ifc;
            match err with
            | Some e => mret (Some e)
            | None =>
                LaunchCommand allowedPrograms nsn ifc (lm_PostDeleteExec (ls_main st)) "postDelete" true false;;
                unsetLocalAttState nsn;;
                mret None
            end
        | None =>
            remoteIfc ← getRemoteIfc nsn;
            match remoteIfc with
            | Some ifc =>
                err ← DeleteRemoteIfc ifc;
                match err with
                | Some e => mret (Some e)
                | None => unsetRemoteIfc nsn;; mret None
                end
            | None => mret None
            end
        end) s (dropped hostIP allowedPrograms nsn s).
Proof.
  intros Hi. unfold getLocalAttState, getRemoteIfc. apply runs_bind, runs_bind, runs_get.
  destruct (nsnToLocalMainState s !! nsn) as [st|] eqn:El; apply runs_ret; simpl.
  - by apply (drop_local_runs hostIP allowedPrograms nsn st id).
  - apply runs_bind, runs_gets. destruct (nsnToRemoteIfc s !! nsn) as [ifc|] eqn:Er.
    + by apply (drop_remote_runs hostIP allowedPrograms nsn ifc id).
    + by apply runs_ret, drop_nothing.
Qed.

Lemma fabric_dropped_same nsn s s1 s' err :
  ifcs_same s s1 → fabric_dropped nsn s1 s' err → fabric_dropped nsn s s' err.
Proof.
  intros (E1 & _ & E3 & _ & E5 & _). unfold fabric_dropped. by rewrite E1, E3, E5.
Qed.

Lemma side_same_quieter s s' : side_same s s' → quieter s s'.
Proof. intros (_ & E1 & E2 & _). by apply quieter_same. Qed.

(** Dropping the interface of an attachment that has left its network. *)
Lemma forget_runs nsn s s1 err s' :
  ifc_ok s → seen_ok s → nets_ok ns_of None s1 → nsnToVNStateVNI s1 !! nsn = None → ifcs_same s s1 → quieter s s1 →
  dropped hostIP allowedPrograms nsn s1 err s' → forgotten nsn s err s'.
Proof.
  intros Hi Hs Hn Hv Hsame Hq Hd. pose proof (dr_side _ _ _ _ _ _ Hd) as Hside.
  assert (Hi1 : agent_inv s1) by (eapply agent_inv_nets; [exact Hi|done..]).
  destruct Hside as ((Ev & Evi & Ec) & Es & Eq & Ea) eqn:Eside.
  destruct Hsame as (E1&E2&E3&E4&E5&E6) eqn:Esame. split.
  - by eapply agent_inv_ifcs, dr_inv.
  - by rewrite Evi.
  - rewrite Ev. by eapply unlisted.
  - intros k Hk. destruct (dr_only _ _ _ _ _ _ Hd k Hk) as (-> & -> & ->). by rewrite E1, E2, E3.
  - apply (dr_none _ _ _ _ _ _ Hd).
  - rewrite <- E1, <- E2, <- E3. apply (dr_kept _ _ _ _ _ _ Hd).
  - eapply fabric_dropped_same, (dr_fabric _ _ _ _ _ _ Hd). done.
  - by rewrite Ea, E6.
  - eapply quieter_trans; [done|]. by apply side_same_quieter.
Qed.

(** Whichever network recorded [nsn] is left. *)
Definition left_any (nsn : NSN) s s' : Prop :=
  match nsnToVNStateVNI s !! nsn with
  | Some v => net_left v nsn.2 s s'
  | None => vniToVnState s' = vniToVnState s ∧ queue s' = queue s
  end.

Lemma dropped_left nsn s s1 err s' :
  left_any nsn s s1 → dropped hostIP allowedPrograms nsn s1 err s' → left_any nsn s s'.
Proof.
  intros Hl Hd. destruct (dr_side _ _ _ _ _ _ Hd) as ((Ev & _ & _) & Es & Eq & _).
  unfold left_any, net_left, seen in *. by rewrite Ev, Es, Eq.
Qed.

Lemma left_any_none nsn s s' v :
  left_any nsn s s' → vniToVnState s !! v = None → vniToVnState s' !! v = None.
Proof.
  unfold left_any. destruct (nsnToVNStateVNI s !! nsn) as [w|]; [by apply net_left_none|]. by intros [-> _].
Qed.

Lemma processDeletedAtt_runs nsn s :
  agent_inv s → runs (processDeletedAtt nsn) s (λ err s', forgotten nsn s err s' ∧ left_any nsn s s').
Proof.
  intros [Hn Hi Hs]. unfold Agent.processDeletedAtt, getVNStateVNI. apply runs_bind, runs_gets.
  destruct (nsnToVNStateVNI s !! nsn) as [v|] eqn:Ev; apply runs_bind.
  - eapply runs_conseq; [by eapply (leave_runs ns_of nsn v)|]. intros _ s1 (Hn1 & Hsame & Hq & Evi & Hl).
    eapply runs_conseq; [apply drop_any_runs; by eapply ifcs_same_inv|]. intros err s' Hd. split.
    + apply (forget_runs nsn s s1); try done. by rewrite Evi, lookup_delete_eq.
    + apply (dropped_left nsn s s1 err); [|done]. unfold left_any. by rewrite Ev.
  - apply runs_ret. eapply runs_conseq; [by apply drop_any_runs|]. intros err s' Hd. split.
    + apply (forget_runs nsn s s); try done. apply quieter_refl.
    + apply (dropped_left nsn s s err); [|done]. unfold left_any. by rewrite Ev.
Qed.

(** ** Existing attachments *)

(** What the informer caches deliver: an attachment in the namespace of its network,
    with a VNI in range and an IPv4 address. *)
Definition att_vni (att : NetworkAttachment) : Z := AddressVNI (na_Status att).
Definition att_ip (att : NetworkAttachment) : IP := ParseIP (StatusIPv4 (na_Status att)).
Definition att_local (att : NetworkAttachment) : bool := String.eqb (Node (na_Spec att)) localNodeName.
Definition att_host (att : NetworkAttachment) : IP :=
  if att_local att then hostIP else ParseIP (HostIP (na_Status att)).

Record att_ok (att : NetworkAttachment) : Prop := {
  ao_ns : Namespace (na_meta att) = ns_of (att_vni att);
  ao_vni : 0 ≤ att_vni att ≤ maxVNI;
  ao_ip : bytes4 (To4 (att_ip att)) }.

Definition in_net (loc : bool) (v : Z) (nsn : NSN) s : Prop :=
  nsnToVNStateVNI s !! nsn = Some v ∧
  ∃ vn, vniToVnState s !! v = Some vn ∧ nsn.2 ∈ (if loc then localAtts vn else remoteAtts vn).

(** The status of a local attachment is written exactly when it does not say what the
    agent holds, and then says so. *)
Definition published (att : NetworkAttachment) (m : HardwareAddr) s (err : option error) s' : Prop :=
  let '(mac, name, errs, pcer) :=
    ifc_result hostIP allowedPrograms (AttNSN att) hostIP m (PostCreateExec (na_Spec att)) s' in
  if status_current hostIP att mac name errs pcer then err = None ∧ api s' = api s
  else match att_Update (status_with hostIP att mac name errs pcer) (api s) with
       | (inr _, w) => err = None ∧ api s' = w
       | (inl e, w) => err = Some e ∧ api s' = w
       end.

(** Attachment [nsn] got a new interface in the place of the one it had. *)
Definition replaced (nsn : NSN) (ip host : IP) (v : Z) (m : HardwareAddr) (pde : list string) s s' : Prop :=
  let L := match nsnToLocalMainState s !! nsn with
           | Some st => delete (li_Name (lm_ifc st)) (locals (fabric s))
           | None => locals (fabric s) end in
  let R := match nsnToLocalMainState s !! nsn, nsnToRemoteIfc s !! nsn with
           | None, Some ifc => delete (rkey ifc) (remotes (fabric s))
           | _, _ => remotes (fabric s) end in
  if GoNet.Equal host hostIP
  then
    nsnToLocalMainState s' !! nsn = Some (MkLocalMain (new_local ip v m) pde) ∧
    nsnToRemoteIfc s' !! nsn = None ∧
    locals (fabric s') = <[generateIfcName m := new_local ip v m]> L ∧ remotes (fabric s') = R
  else
    nsnToLocalMainState s' !! nsn = None ∧
    nsnToRemoteIfc s' !! nsn = Some (new_remote ip host v m) ∧
    locals (fabric s') = L ∧
    remotes (fabric s') = <[rkey (new_remote ip host v m) := new_remote ip host v m]> R.

(** Nothing about interfaces has changed, the fabric included. *)
Definition ifcs_kept s s' : Prop :=
  nsnToLocalMainState s' = nsnToLocalMainState s ∧
  nsnToPostCreateExecReport s' = nsnToPostCreateExecReport s ∧
  nsnToRemoteIfc s' = nsnToRemoteIfc s ∧ launched s' = launched s ∧ fabric s' = fabric s.

(** The outcome for an attachment [att] that exists. *)
Inductive existing (att : NetworkAttachment) s (err : option error) s' : Prop :=
| ex_done m :
    (* in its network, with the interface it is to have *)
    generateMACAddr (att_vni att) (att_ip att) = Ok m →
    in_net (att_local att) (att_vni att) (AttNSN att) s' →
    has_ifc hostIP (AttNSN att) (att_host att) m s' →
    (has_ifc hostIP (AttNSN att) (att_host att) m s → ifcs_kept s s') →
    (¬ has_ifc hostIP (AttNSN att) (att_host att) m s →
       replaced (AttNSN att) (att_ip att) (att_host att) (att_vni att) m (PostDeleteExec (na_Spec att)) s s') →
    (if att_local att then published att m s err s' else err = None ∧ api s' = api s) →
    existing att s err s'
| ex_failed m e :
    (* in its network; the fabric failed, and the attachment has its old interface, or
       none *)
    generateMACAddr (att_vni att) (att_ip att) = Ok m →
    in_net (att_local att) (att_vni att) (AttNSN att) s' →
    ¬ has_ifc hostIP (AttNSN att) (att_host att) m s → err = Some e → api s' = api s →
    no_ifc s' (AttNSN att) ∨ fabric_dropped (AttNSN att) s s' (Some e) ∧
      nsnToLocalMainState s' = nsnToLocalMainState s ∧ nsnToRemoteIfc s' = nsnToRemoteIfc s →
    existing att s err s'
| ex_last :
    (* remote, was the last local attachment: the network is left and the attachment
       comes up again *)
    err = None → att_local att = false → vniToVnState s' !! att_vni att = None →
    nsnToVNStateVNI s' !! AttNSN att = None → ifcs_same s s' → QAdd (AttNSN att) ∈ queue s' →
    existing att s err s'
| ex_irrelevant :
    (* remote, and the network is not relevant: as if it were deleted *)
    att_local att = false → vniToVnState s' !! att_vni att = None →
    forgotten (AttNSN att) s err s' → existing att s err s'.

Lemma fabric_dropped_error nsn s s' e e' :
  fabric_dropped nsn s s' (Some e) → fabric_dropped nsn s s' (Some e').
Proof.
  unfold fabric_dropped. destruct (nsnToLocalMainState s !! nsn), (nsnToRemoteIfc s !! nsn); try done.
  by intros [? _].
Qed.

(** The fabric of an attachment whose interface was replaced. *)
Lemma made_replaced nsn ip host v m pce pde s s1 s2 errs :
  dropped hostIP allowedPrograms nsn s None s1 →
  made hostIP allowedPrograms nsn ip host v m pce pde s1 (inr errs) s2 → replaced nsn ip host v m pde s s2.
Proof.
  intros Hd Hm. pose proof (dr_fabric _ _ _ _ _ _ Hd) as Hf.
  pose proof (mk_ok _ _ _ _ _ _ _ _ _ _ _ _ Hm errs eq_refl) as Hok.
  unfold replaced, fabric_dropped in *.
  destruct (nsnToLocalMainState s !! nsn) as [st|], (nsnToRemoteIfc s !! nsn) as [ifc|], (GoNet.Equal host hostIP);
    destruct Hok as (_ & -> & _ & -> & -> & ->), Hf as [Hf1 Hf2]; by rewrite ?Hf1, ?Hf2.
Qed.

Lemma forgotten_same nsn s s1 err s' :
  ifcs_same s s1 → quieter s s1 → forgotten nsn s1 err s' → forgotten nsn s err s'.
Proof.
  intros Hsame Hq [H1 H2 H3 H4 H5 H6 H7 H8 H9]. pose proof Hsame as (E1&E2&E3&E4&E5&E6). split; try done.
  - intros k Hk. destruct (H4 k Hk) as (-> & -> & ->). by rewrite E1, E2, E3.
  - by rewrite <- E1, <- E2, <- E3.
  - by eapply fabric_dropped_same.
  - by rewrite H8.
  - by eapply quieter_trans.
Qed.

(** A reconciled interface makes an outcome, whatever happened to networks before. *)
Lemma reconciled_done att m s s1 s2 x :
  generateMACAddr (att_vni att) (att_ip att) = Ok m →
  ifcs_same s s1 →
  reconciled hostIP allowedPrograms (AttNSN att) (att_ip att) (att_host att) (att_vni att) m
    (PostCreateExec (na_Spec att)) (PostDeleteExec (na_Spec att)) s1 (inr x) s2 →
  has_ifc hostIP (AttNSN att) (att_host att) m s2 ∧
  (has_ifc hostIP (AttNSN att) (att_host att) m s → ifcs_kept s s2) ∧
  (¬ has_ifc hostIP (AttNSN att) (att_host att) m s →
     replaced (AttNSN att) (att_ip att) (att_host att) (att_vni att) m (PostDeleteExec (na_Spec att)) s s2) ∧ api s2 = api s ∧
  x = ifc_result hostIP allowedPrograms (AttNSN att) (att_host att) m (PostCreateExec (na_Spec att)) s2.
Proof.
  intros Em (E1&E2&E3&E4&E5&E6) Hr. destruct (rc_ok _ _ _ _ _ _ _ _ _ _ _ _ Hr x eq_refl) as [Hh Hx].
  assert (Hsame : has_ifc hostIP (AttNSN att) (att_host att) m s1 ↔ has_ifc hostIP (AttNSN att) (att_host att) m s).
  { unfold has_ifc. by rewrite E1, E3. }
  split; [done|]. split; [|split; [|split; [|done]]].
  - intros Hs%Hsame. apply (rc_same _ _ _ _ _ _ _ _ _ _ _ _ Hr) in Hs. by rewrite Hs.
  - intros Hs. destruct (rc_new _ _ _ _ _ _ _ _ _ _ _ _ Hr x eq_refl) as (s3 & Hd & Hm).
    { by rewrite Hsame. }
    pose proof (made_replaced _ _ _ _ _ _ _ _ _ _ _ Hd Hm) as Hrep.
    unfold replaced in *. by rewrite E1, E3, E5 in Hrep.
  - destruct (rc_side _ _ _ _ _ _ _ _ _ _ _ _ Hr) as (_&_&_&Ha). by rewrite Ha.
Qed.

Lemma in_net_same loc v nsn s s' : nets_same s s' → in_net loc v nsn s → in_net loc v nsn s'.
Proof. intros (E1 & E2 & _). unfold in_net. by rewrite E1, E2. Qed.

(** An operation that failed makes an outcome. *)
Lemma reconciled_failed att m s s1 s2 e :
  generateMACAddr (att_vni att) (att_ip att) = Ok m →
  ifcs_same s s1 → in_net (att_local att) (att_vni att) (AttNSN att) s1 →
  reconciled hostIP allowedPrograms (AttNSN att) (att_ip att) (att_host att) (att_vni att) m
    (PostCreateExec (na_Spec att)) (PostDeleteExec (na_Spec att)) s1 (inl e) s2 →
  existing att s (Some e) s2.
Proof.
  intros Em Hsame Hin Hr. pose proof (rc_side _ _ _ _ _ _ _ _ _ _ _ _ Hr) as (Hn & _ & _ & Ha).
  destruct (rc_fail _ _ _ _ _ _ _ _ _ _ _ _ Hr e eq_refl) as [Hh Hcase].
  pose proof Hsame as (E1&E2&E3&E4&E5&E6). eapply ex_failed; try done.
  - by eapply in_net_same.
  - unfold has_ifc in *. by rewrite <- E1, <- E3.
  - congruence.
  - destruct Hcase as [[e' Hd]|(s3 & _ & Hm)]; [right|left; by eapply mk_fail].
    destruct (dr_kept _ _ _ _ _ _ Hd) as (K1 & _ & K3); [done|].
    split; [|split; congruence].
    eapply fabric_dropped_same, fabric_dropped_error, dr_fabric; done.
Qed.

Lemma reconciled_only nsn ip host v m pce pde s s1 r s2 :
  ifcs_same s s1 → reconciled hostIP allowedPrograms nsn ip host v m pce pde s1 r s2 → only nsn s s2.
Proof.
  intros (E1&E2&E3&_) Hr k Hk. destruct (rc_only _ _ _ _ _ _ _ _ _ _ _ _ Hr k Hk) as (-> & -> & ->).
  by rewrite E1, E2, E3.
Qed.

(** The part of [processExistingAtt] for an attachment that is in its network. *)
Lemma reconcile_and_publish_runs att s s1 :
  att_ok att → agent_inv s1 → ifcs_same s s1 → quieter s s1 →
  in_net (att_local att) (att_vni att) (AttNSN att) s1 →
  runs (r ← createOrUpdateIfc hostIP allowedPrograms fmt_local fmt_remote (att_ip att) (att_host att)
              (att_vni att) (AttNSN att) (PostCreateExec (na_Spec att)) (PostDeleteExec (na_Spec att));
        match r with
        | inl e => mret (Some e)
        | inr (macAddrS, ifcName, statusErrs, pcer) =>
            if negb (att_local att) then mret None
            else if status_current hostIP att macAddrS ifcName statusErrs pcer then mret None
            else
              u ← setAttStatus hostIP att macAddrS ifcName statusErrs pcer;
              mret (match u with inl e => Some e | inr _ => None end)
        end) s1
    (λ err s', agent_inv s' ∧ only (AttNSN att) s s' ∧ quieter s s' ∧ existing att s err s').
Proof.
  intros [Hns Hv Hip] Hai Hsame Hq Hin.
  destruct (generateMACAddr_mac6 (att_vni att) (att_ip att) Hv Hip) as (m & Em & _).
  apply runs_bind. eapply runs_conseq; [by apply createOrUpdateIfc_runs; [apply Hai|exact Em]|].
  intros r s2 Hr. pose proof (rc_side _ _ _ _ _ _ _ _ _ _ _ _ Hr) as Hside.
  assert (Hai2 : agent_inv s2) by (eapply agent_inv_ifcs; [exact Hai|done|apply Hr]).
  assert (Honly : only (AttNSN att) s s2) by by eapply reconciled_only.
  assert (Hq2 : quieter s s2) by (eapply quieter_trans; [done|by apply side_same_quieter]).
  destruct r as [e|x].
  { apply runs_ret. split; [done|]. split; [done|]. split; [done|]. by eapply reconciled_failed. }
  destruct (reconciled_done att m s s1 s2 x Em Hsame Hr) as (Hh & Hkept & Hrep & Ha & ->).
  assert (Hin2 : in_net (att_local att) (att_vni att) (AttNSN att) s2) by (by eapply in_net_same; [apply Hside|]).
  unfold ifc_result. destruct (att_local att) eqn:Eloc; cbn [negb].
  2: { apply runs_ret. split; [done|]. split; [done|]. split; [done|].
       eapply ex_done; rewrite ?Eloc; try done. }
  assert (Eh : att_host att = hostIP) by (unfold att_host; by rewrite Eloc).
  rewrite Eh in *. destruct (status_current _ _ _ _ _ _) eqn:Ec.
  - apply runs_ret. split; [done|]. split; [done|]. split; [done|].
    eapply ex_done; rewrite ?Eh, ?Eloc; try done. unfold published, ifc_result. by rewrite Ec.
  - apply runs_bind. unfold setAttStatus, call_api, runs at 1. rewrite Ha.
    destruct (att_Update _ (api s)) as [u w] eqn:Eu. apply runs_ret.
    destruct Hai2 as [Hn2 Hi2 Hs2].
    split; [by split; [|by destruct Hi2; split|]|]. split; [done|]. split; [done|].
    eapply ex_done; rewrite ?Eh, ?Eloc; try done. unfold published, ifc_result. simpl. rewrite Ec, Eu.
    by destruct u.
Qed.

Lemma processExistingAtt_runs att s :
  att_ok att → agent_inv s →
  runs (processExistingAtt att) s (λ err s',
    agent_inv s' ∧ only (AttNSN att) s s' ∧ quieter s s' ∧ existing att s err s').
Proof.
  intros Hok [Hn Hi Hs]. unfold Agent.processExistingAtt.
  assert (Ek : AttNSN att = (ns_of (att_vni att), Name (na_meta att))) by (unfold AttNSN; by rewrite (ao_ns _ Hok)).
  apply runs_bind. rewrite Ek. eapply runs_conseq; [by apply updateVNState_runs|].
  intros r s1 (Hj & Hsame & Hq). rewrite <- Ek in *. fold (att_local att) in *.
  destruct Hj as [vn Hn1 Ev Evn Hin|vn Eloc Hn1 Ev Evn Hin Ens|Eloc Hn1 Ev Evn].
  - apply reconcile_and_publish_runs; try done.
    + by eapply agent_inv_nets.
    + split; [done|]. by exists vn.
  - apply runs_bind, (clearVNResources_runs ns_of); [done|]. intros s2 Hi2 Hn2 Ev2 Evi2 Hq2 Hqe Hu.
    assert (Hsame2 : ifcs_same s s2) by by eapply ifcs_same_trans.
    apply runs_ret. assert (Hq12 : quieter s s2) by by eapply quieter_trans.
    split; [by apply (agent_inv_nets s s2)|].
    split; [intros k _; destruct Hsame2 as (E1&E2&E3&_); by rewrite E1, E2, E3|].
    split; [done|]. apply ex_last; rewrite ?Ev2, ?Evi2; try done.
    rewrite Hqe. apply elem_of_app. right. apply list_elem_of_fmap. exists (AttNSN att).2.
    split; [|by apply elem_of_elements]. by rewrite Ens, Ek.
  - apply runs_bind, (removeSeenInVNI_runs ns_of). intros s2 Hi2 Hn2 Hq2 Hok2 Hs2.
    assert (Hsame2 : ifcs_same s s2) by by eapply ifcs_same_trans.
    assert (Hq12 : quieter s s2).
    { eapply quieter_trans; [done|]. split; [done|]. split; [intros k x Hk; by apply Hs2|].
      exists []. by rewrite app_nil_r. }
    eapply runs_conseq; [apply processDeletedAtt_runs|].
    { eapply agent_inv_nets; [done|done|by eapply nets_same_ok|done|done]. }
    intros err s' [Hf Hl]. pose proof (forgotten_same _ _ _ _ _ Hsame2 Hq12 Hf) as Hf'.
    split; [apply Hf|]. split; [apply Hf'|]. split; [apply Hf'|]. apply ex_irrelevant; try done.
    eapply left_any_none; [exact Hl|]. by rewrite (proj1 Hn2).
Qed.

(** ** Work items *)

(** What the informer caches give: an attachment of the name asked for, or an error
    that has a text. *)
Definition blank (e : error) : bool := str_forall (λ c, char_is c " ") (message e).

Record env_ok (E : AgentEnv) : Prop := {
  eo_local ns n att : localAttsLister_Get E ns n = inr att → AttNSN att = (ns, n) ∧ att_ok att;
  eo_remote id n att : remoteAttsLister_Get E id n = inr att → Name (na_meta att) = n ∧ att_ok att;
  eo_local_err ns n e : localAttsLister_Get E ns n = inl e → blank e = false;
  eo_remote_err id n e : remoteAttsLister_Get E id n = inl e → blank e = false }.

(** The lookup in the cache of the remote informer of the one network where the
    attachment was seen. *)
Definition remote_lookup (E : AgentEnv) (nsn : NSN) s : option (error + NetworkAttachment) :=
  match elements (default ∅ (nsnToVNIs s !! nsn)) with
  | [v] => (λ id, remoteAttsLister_Get E id nsn.2) <$> (remoteAttsInformer <$> vniToVnState s !! v)
  | _ => None
  end.

(** What two lookups say: a failed one, or an attachment found by both or by none,
    counts as a deletion. *)
Definition verdict (local : error + NetworkAttachment) (remote : option (error + NetworkAttachment))
    : option NetworkAttachment :=
  match local, remote with
  | inr att, (None | Some (inl _)) => if default false (lookup_failed <$> remote) then None else Some att
  | inl _, Some (inr att) => if lookup_failed local then None else Some att
  | _, _ => None
  end.

(** An attachment seen in several networks at once is left alone. *)
Definition looked_up (E : AgentEnv) (nsn : NSN) s : option NetworkAttachment * bool :=
  if (1 <? size (default ∅ (nsnToVNIs s !! nsn)))%nat then (None, false)
  else match verdict (localAttsLister_Get E nsn.1 nsn.2) (remote_lookup E nsn s) with
       | Some att => (Some att, false)
       | None => (None, true)
       end.

Definition has_text {A} (r : error + A) : Prop := ∀ e, r = inl e → blank e = false.

Lemma aggregate_some sep r1 r2 e :
  blank e = false → r1 = Some e ∨ r2 = Some e → ∃ t, aggregateErrors sep [r1; r2] = Some t.
Proof.
  unfold blank, aggregateErrors. intros Hb [-> | ->]; simpl; rewrite Hb; [by eexists|].
  destruct r1 as [e1|]; [|by eexists]. destruct (str_forall _ (message e1)); by eexists.
Qed.

Lemma combine_eq local remote s :
  has_text local → (∀ r, remote = Some r → has_text r) →
  combine_lookups local remote s =
    Ok (match verdict local remote with Some att => (Some att, false) | None => (None, true) end, s).
Proof.
  intros Hl Hr. unfold combine_lookups, verdict.
  destruct (_ || lookup_failed local) eqn:Ef.
  - assert (∃ t, aggregateErrors (nl +:+ String.String "009" "")
      [remote ≫= lookup_error; lookup_error local] = Some t) as [t ->].
    { apply orb_true_iff in Ef as [Ef|Ef].
      - destruct remote as [[e|]|]; [|done..]. apply (aggregate_some _ _ _ e); [|by left]. by eapply Hr.
      - destruct local as [e|]; [|done]. apply (aggregate_some _ _ _ e); [|by right]. by apply Hl. }
    destruct local as [el|al], remote as [[er|ar]|]; simpl in *; rewrite ?orb_false_r in Ef; try done;
      by rewrite ?Ef.
  - apply orb_false_iff in Ef as [Ef1 Ef2]. destruct local as [el|al], remote as [[er|ar]|]; simpl in *; try done;
      by rewrite ?Ef1, ?Ef2.
Qed.

Lemma getAttachment_eq E nsn s : env_ok E → getAttachment E nsn s = Ok (looked_up E nsn s, s).
Proof.
  intros HE. unfold getAttachment, looked_up, remote_lookup, getAttSeenInVNI, getRemoteAttListerForVNI.
  unfold gets, mbind, mret, M_bind, M_ret. simpl.
  set (vs := default ∅ (nsnToVNIs s !! nsn)). destruct (Nat.ltb_spec 1 (size vs)) as [Hgt|Hle]; [done|].
  assert (Hl : has_text (localAttsLister_Get E nsn.1 nsn.2)) by (intros e; by apply eo_local_err).
  change (size vs) with (length (elements vs)) in *.
  destruct (elements vs) as [|v [|]]; simpl in *; [by apply combine_eq| |lia].
  apply combine_eq; [done|]. intros r. destruct (vniToVnState s !! v) as [vn|]; [|done].
  intros [= <-] e. by apply eo_remote_err.
Qed.

(** What processing the item [nsn] does. *)
Definition item_outcome (E : AgentEnv) (nsn : NSN) s (err : option error) s' : Prop :=
  match looked_up E nsn s with
  | (Some att, _) => att_ok att ∧ only (AttNSN att) s s' ∧ existing att s err s'
  | (None, true) => forgotten nsn s err s' ∧ left_any nsn s s'
  | (None, false) => err = None ∧ s' = s
  end.

Lemma verdict_ok E nsn s att b : env_ok E → looked_up E nsn s = (Some att, b) → att_ok att.
Proof.
  intros HE. unfold looked_up, verdict, remote_lookup. destruct (1 <? _)%nat; [done|].
  destruct (localAttsLister_Get E nsn.1 nsn.2) as [el|al] eqn:El.
  - destruct (elements _) as [|v [|]]; [done| |done].
    destruct (vniToVnState s !! v) as [vn|]; simpl; [|done].
    destruct (remoteAttsLister_Get E _ nsn.2) as [er|ar] eqn:Er; [done|].
    destruct (negb (IsNotFound el)); [done|]. intros [= <- _]. by eapply (eo_remote _ HE).
  - intros Heq. assert (al = att) as ->; [|by eapply (eo_local _ HE)].
    destruct (elements _) as [|v [|]]; simpl in Heq; [by injection Heq| |by injection Heq].
    destruct (vniToVnState s !! v) as [vn|]; simpl in Heq; [|by injection Heq].
    destruct (remoteAttsLister_Get E _ nsn.2) as [er|ar]; simpl in Heq; [|done].
    destruct (negb (IsNotFound er)); [done|by injection Heq].
Qed.

#[local] Abbreviation processNetworkAttachment :=
  (processNetworkAttachment (F := F) (W := W) localNodeName hostIP allowedPrograms fmt_local fmt_remote).
#[local] Abbreviation processQueueItem :=
  (processQueueItem (F := F) (W := W) localNodeName hostIP allowedPrograms fmt_local fmt_remote).

Lemma processNetworkAttachment_runs E nsn s :
  env_ok E → agent_inv s →
  runs (processNetworkAttachment E nsn) s (λ err s',
    agent_inv s' ∧ quieter s s' ∧ item_outcome E nsn s err s').
Proof.
  intros HE Hi. unfold Agent.processNetworkAttachment. apply runs_bind.
  eapply runs_eq; [by apply getAttachment_eq|]. unfold item_outcome.
  destruct (looked_up E nsn s) as [[att|] b] eqn:El.
  - assert (Hok : att_ok att) by by eapply verdict_ok.
    eapply runs_conseq; [by apply processExistingAtt_runs|]. intros err s' (? & ? & ? & ?). done.
  - destruct b.
    + eapply runs_conseq; [by apply processDeletedAtt_runs|]. intros err s' [Hf Hl].
      split; [apply Hf|]. split; [apply Hf|done].
    + apply runs_ret. split; [done|]. split; [apply quieter_refl|done].
Qed.

(** Only calls on the queue. *)
Definition queued s (calls : list QueueCall) s' : Prop :=
  ifcs_same s s' ∧ nets_same s s' ∧ nsnToVNIs s' = nsnToVNIs s ∧ queue s' = queue s ++ calls.

Lemma queued_inv s calls s' : queued s calls s' → agent_inv s → agent_inv s'.
Proof.
  intros (Hs & Hn & Ev & _) [H1 H2 H3].
  split; [by eapply nets_same_ok|by eapply ifcs_same_inv|]. unfold seen_ok. by rewrite Ev.
Qed.

Lemma enqueue_runs c s (Q : unit → St → Prop) :
  (∀ s', queued s [c] s' → Q tt s') → runs (enqueue c) s Q.
Proof. intros HQ. unfold enqueue. apply runs_modify. by apply HQ. Qed.

Lemma processQueueItem_runs E nsn s :
  env_ok E → agent_inv s →
  runs (processQueueItem E nsn) s (λ _ s', agent_inv s' ∧ ∃ err s1, item_outcome E nsn s err s1 ∧
    queued s1 [match err with Some _ => QAddRateLimited nsn | None => QForget nsn end; QDone nsn] s').
Proof.
  intros HE Hi. unfold Agent.processQueueItem. apply runs_bind.
  eapply runs_conseq; [by apply processNetworkAttachment_runs|]. intros err s1 (Hi1 & _ & Ho).
  assert (Hq : ∀ c : QueueCall, runs (enqueue c;; enqueue (QDone nsn)) s1
    (λ _ s', queued s1 [c; QDone nsn] s')).
  { intros c. apply runs_bind, enqueue_runs. intros s2 (Hs2 & Hn2 & Ev2 & Eq2).
    apply enqueue_runs. intros s3 (Hs3 & Hn3 & Ev3 & Eq3).
    split; [by eapply ifcs_same_trans|]. split; [by eapply nets_same_trans|]. split; [congruence|].
    by rewrite Eq3, Eq2, <- app_assoc. }
  destruct err as [e|]; (eapply runs_conseq; [apply Hq|]); intros [] s' Hs';
    (split; [by eapply queued_inv|by eexists _, s1]).
Qed.

(** ** The agent as an event machine

    Notifications of the informers, work items, each with the informer caches of its
    moment, and launched commands that run to their end, in any order. *)
Inductive event :=
| LocalAdded (obj : notified NetworkAttachment)
| LocalUpdated (oldObj newObj : notified NetworkAttachment)
| LocalRemoved (obj : notified NetworkAttachment)
| RemoteAdded (obj : notified NetworkAttachment)
| RemoteUpdated (oldObj newObj : notified NetworkAttachment)
| RemoteRemoved (obj : notified NetworkAttachment)
| WorkItem (nsn : NSN) (E : AgentEnv)
| CommandRuns (k : nat) (exec : string → list string → run_result).

Definition handle (ev : event) : M St unit :=
  match ev with
  | LocalAdded obj => onLocalAttAdded obj
  | LocalUpdated oldObj newObj => onLocalAttUpdated oldObj newObj
  | LocalRemoved obj => onLocalAttRemoved obj
  | RemoteAdded obj => onRemoteAttAdded obj
  | RemoteUpdated oldObj newObj => onRemoteAttUpdated oldObj newObj
  | RemoteRemoved obj => onRemoteAttRemoved obj
  | WorkItem nsn E => processQueueItem E nsn
  | CommandRuns k exec =>
      ls ← gets launched;
      match ls !! k with Some l => RunCommand exec l | None => mret tt end
  end.

Fixpoint history (evs : list event) : M St unit :=
  match evs with [] => mret tt | ev :: evs => handle ev;; history evs end.

(** What informers deliver: objects, and tombstones for deletions only. *)
Definition is_object (obj : notified NetworkAttachment) : Prop := ∃ att, obj = Object att.
Definition is_deletion (obj : notified NetworkAttachment) : Prop :=
  is_object obj ∨ ∃ att, obj = DeletedFinalStateUnknown (Object att).

Definition event_ok (ev : event) : Prop :=
  match ev with
  | LocalAdded obj | RemoteAdded obj => is_object obj
  | LocalUpdated oldObj newObj | RemoteUpdated oldObj newObj => is_object oldObj ∧ is_object newObj
  | LocalRemoved obj | RemoteRemoved obj => is_deletion obj
  | WorkItem _ E => env_ok E
  | CommandRuns _ _ => True
  end.

Lemma lift_ok_runs {A} (r : res A) a s (Q : A → St → Prop) : r = Ok a → Q a s → runs (lift r) s Q.
Proof. intros -> HQ. done. Qed.

Lemma enqueue_inv c s : agent_inv s → runs (enqueue c) s (λ _ s', agent_inv s').
Proof. intros Hi. apply enqueue_runs. intros s' Hq. by eapply queued_inv. Qed.

Lemma addVNI_inv nsn v s : agent_inv s → runs (addVNI nsn v) s (λ _ s', agent_inv s').
Proof.
  intros [H1 H2 H3]. unfold addVNI, set_seen. apply runs_modify. split; [done|by destruct H2; split|].
  unfold seen_ok. simpl. apply map_Forall_insert_2; [set_solver|done].
Qed.

Lemma removeSeen_inv nsn v s : agent_inv s → runs (removeSeenInVNI nsn v) s (λ _ s', agent_inv s').
Proof.
  intros [H1 H2 H3]. apply (removeSeenInVNI_runs ns_of). intros s' Hi Hn _ Hok _.
  split; [by eapply nets_same_ok|by eapply ifcs_same_inv|auto].
Qed.

Lemma object_runs obj s (Q : NetworkAttachment → St → Prop) :
  is_object obj → (∀ att, obj = Object att → Q att s) → runs (lift (assert_object obj)) s Q.
Proof. intros [att ->] HQ. by apply (lift_ok_runs _ att), HQ. Qed.

Lemma peel_runs obj s (Q : NetworkAttachment → St → Prop) :
  is_deletion obj → (∀ att, Q att s) → runs (lift (Peel obj)) s Q.
Proof. intros [[att ->]|[att ->]] HQ; by apply (lift_ok_runs _ att), HQ. Qed.

Lemma setExecReport_inv nsn r s : agent_inv s → runs (setExecReport nsn r) s (λ _ s', agent_inv s').
Proof.
  intros Hi. unfold setExecReport, set_reports. apply runs_bind, runs_gets.
  destruct (nsnToLocalMainState s !! nsn) as [st|] eqn:El; [|by apply runs_ret].
  apply runs_modify. destruct Hi as [H1 [I1 I2 I3 I4 I5] H3]. split; [done| |done]. split; simpl; try done.
  intros k [x [[<- _]|[_ Hk]]%lookup_insert_Some]; [by eexists|]. apply I1. by eexists.
Qed.

Lemma RunCommand_inv exec l s :
  l_cmd l ≠ [] → agent_inv s → runs (RunCommand exec l) s (λ _ s', agent_inv s').
Proof.
  intros Hc Hi. unfold RunCommand. destruct (l_cmd l) as [|cmd0 args]; [done|].
  destruct (l_saveReport l); simpl; [|by apply runs_ret].
  apply runs_bind. eapply runs_conseq; [by apply setExecReport_inv|]. intros [] s' Hi'. by apply enqueue_inv.
Qed.

Lemma handle_runs ev s : event_ok ev → agent_inv s → runs (handle ev) s (λ _ s', agent_inv s').
Proof.
  intros Hev Hi. destruct ev as [obj|oldObj obj|obj|obj|oldObj obj|obj|nsn E|k exec]; simpl in *.
  - apply runs_bind, object_runs; [done|]. intros. by apply enqueue_inv.
  - apply runs_bind, object_runs; [apply Hev|]. intros. apply runs_bind, object_runs; [apply Hev|].
    intros. by apply enqueue_inv.
  - apply runs_bind, peel_runs; [done|]. intros. by apply enqueue_inv.
  - apply runs_bind, object_runs; [done|]. intros. apply runs_bind.
    eapply runs_conseq; [by apply addVNI_inv|]. intros. by apply enqueue_inv.
  - apply runs_bind, object_runs; [apply Hev|]. intros. apply runs_bind, object_runs; [apply Hev|].
    intros. by apply enqueue_inv.
  - apply runs_bind, peel_runs; [done|]. intros. apply runs_bind.
    eapply runs_conseq; [by apply removeSeen_inv|]. intros. by apply enqueue_inv.
  - eapply runs_conseq; [by apply processQueueItem_runs|]. intros [] s' [? _]. done.
  - apply runs_bind, runs_gets. destruct (launched s !! k) as [l|] eqn:El; [|by apply runs_ret].
    apply RunCommand_inv; [|done].
    pose proof (ii_allowed _ _ _ (ai_ifcs _ Hi)) as Ha.
    eapply Forall_lookup_1 in Ha as (cmd0 & args & -> & _); [|exact El]. done.
Qed.

Lemma history_runs evs s : Forall event_ok evs → agent_inv s → runs (history evs) s (λ _ s', agent_inv s').
Proof.
  intros Hevs. revert s. induction Hevs as [|ev evs Hev _ IH]; intros s Hi; simpl; [by apply runs_ret|].
  apply runs_bind. eapply runs_conseq; [by apply handle_runs|]. intros [] s' Hi'. by apply IH.
Qed.

(** ** The specifications *)

(** C17: a work item.  An attachment that exists is put into its virtual network and
    given the interface it is to have, unless the fabric fails or, for a remote one,
    the network has no local attachment ([existing]); one that is gone leaves its
    network and loses its interface ([forgotten], [left_any]); nothing else is
    touched.  The item is then marked done, after one verdict: forgotten, or queued
    again with the rate limiter. *)
Theorem agent_item_spec E nsn s :
  env_ok E → agent_inv s →
  runs (processQueueItem E nsn) s (λ _ s', ∃ err s1, item_outcome E nsn s err s1 ∧
    queued s1 [match err with Some _ => QAddRateLimited nsn | None => QForget nsn end; QDone nsn] s').
Proof.
  intros HE Hi. eapply runs_conseq; [by apply processQueueItem_runs|]. by intros [] s' [_ Ho].
Qed.

(** A deleted attachment leaves its virtual network; a network that loses its last
    local attachment is dropped, its informer is closed, and its remote attachments
    come up again; the interface is deleted from the fabric and forgotten, its
    PostDeleteExec launched; if the fabric fails, the records stay for the retry. *)
Lemma deleted_attachment_spec nsn s :
  agent_inv s →
  runs (processDeletedAtt nsn) s (λ err s',
    nsnToVNStateVNI s' !! nsn = None ∧ left_any nsn s s' ∧
    (∀ id, stopChs s' !! id = Some true ↔ informer_of (vniToVnState s') id) ∧
    only nsn s s' ∧ fabric_dropped nsn s s' err ∧ api s' = api s ∧
    match err with
    | None => no_ifc s' nsn
    | Some _ => nsnToLocalMainState s' = nsnToLocalMainState s ∧ nsnToRemoteIfc s' = nsnToRemoteIfc s
    end).
Proof.
  intros Hi. eapply runs_conseq; [by apply processDeletedAtt_runs|].
  intros err s' [[Hi' H2 H3 H4 H5 H6 H7 H8 H9] Hl]. split; [done|]. split; [done|]. split.
  { intros id. rewrite (vi_open _ _ _ _ _ (ai_nets _ Hi')). naive_solver. }
  split; [done|]. split; [done|]. split; [done|]. destruct err as [e|]; [|by apply H5].
  by destruct H6 as (? & _ & ?).
Qed.

(** C16: an attachment seen in at most one network that both the local and the remote informer
    cache hold, or for which a lookup in either fails other than by NotFound, is not left alone, as the comment
    of getAttachment says, but processed as if it were deleted: without error it has no interface
    afterwards.  Assumed: lookups that answer with attachments under their names, each in the
    namespace of its VNI and with an IPv4 address, and with errors that have a text. *)
Theorem doubt_means_deletion E nsn s :
  env_ok E → agent_inv s → (size (default ∅ (nsnToVNIs s !! nsn)) ≤ 1)%nat →
  lookup_failed (localAttsLister_Get E nsn.1 nsn.2) = true ∨
  (∃ r, remote_lookup E nsn s = Some r ∧ lookup_failed r = true) ∨
  (∃ a1 a2, localAttsLister_Get E nsn.1 nsn.2 = inr a1 ∧ remote_lookup E nsn s = Some (inr a2)) →
  processNetworkAttachment E nsn s = processDeletedAtt nsn s ∧
  runs (processNetworkAttachment E nsn) s (λ err s', err = None → no_ifc s' nsn).
Proof.
  intros HE Hi Hs Hd.
  assert (El : looked_up E nsn s = (None, true)).
  { unfold looked_up. destruct (Nat.ltb_spec 1 (size (default ∅ (nsnToVNIs s !! nsn)))); [lia|].
    unfold verdict. destruct Hd as [Hf|[(r & -> & Hf)|(a1 & a2 & -> & ->)]]; [| |done].
    - destruct (localAttsLister_Get E nsn.1 nsn.2) as [e|]; [|done].
      destruct (remote_lookup E nsn s) as [[|]|]; by rewrite ?Hf.
    - destruct (localAttsLister_Get E nsn.1 nsn.2) as [e|]; destruct r as [e'|]; try done. simpl in *. by rewrite Hf. }
  assert (Eq : processNetworkAttachment E nsn s = processDeletedAtt nsn s).
  { unfold Agent.processNetworkAttachment. unfold mbind at 1, M_bind.
    rewrite getAttachment_eq by done. by rewrite El. }
  split; [done|]. unfold runs at 1. rewrite Eq.
  apply (runs_conseq _ _ _ _ (processDeletedAtt_runs nsn s Hi)). intros err s' [Hf _]. apply Hf.
Qed.

End Correct.
End AgentCorrect.
