(* ===== verification/AgentSettles.v ===== *)
(** * The connection agent comes to rest

    Processing an attachment that is as the agent wants it changes nothing, and one
    pass makes it so: the retry loop of the work queue ends.  And the report of a
    command reaches the status of its attachment. *)

From S2P Require Import Prelude GoStr GoNet ApiTypes SubnetStrategy KosApi Fabric AgentIds Agent AgentNets AgentIfcs AgentCorrect.
Import GoNet Agent AgentNets AgentIfcs AgentCorrect.

Module AgentSettles.

Section Settles.
Context {F W : Type} `{NetFabric F, !NetFabricLaws F, KosClient W}.
Variable ns_of : Z → string.
Variables (localNodeName : string) (hostIP : IP) (allowedPrograms : gset string).
Variables (fmt_local : LocalNetIfc → string) (fmt_remote : RemoteNetIfc → string).
#[local] Abbreviation St := (@State F W).
Implicit Types s : St.

#[local] Abbreviation agent_ok := (agent_inv ns_of hostIP allowedPrograms).
#[local] Abbreviation processExistingAtt :=
  (processExistingAtt (F := F) (W := W) localNodeName hostIP allowedPrograms fmt_local fmt_remote).
#[local] Abbreviation is_local := (att_local localNodeName).
#[local] Abbreviation host_of := (att_host localNodeName hostIP).
#[local] Abbreviation result := (ifc_result hostIP allowedPrograms).

(** ** Nothing to do *)

Lemma set_vns_noop v vn s : vniToVnState s !! v = Some vn → set_vns <[v := vn]> s = Ok (tt, s).
Proof. intros E. unfold set_vns, modify. rewrite insert_id by done. by destruct s. Qed.

Lemma set_vnis_noop k v s : nsnToVNStateVNI s !! k = Some v → setVNStateVNI k v s = Ok (tt, s).
Proof. intros E. unfold setVNStateVNI, set_vnis, modify. rewrite insert_id by done. by destruct s. Qed.

Lemma runs_noop {A B} (m : M St A) (f : A → M St B) s a r :
  m s = Ok (a, s) → f a s = r → (m ≫= f) s = r.
Proof. unfold mbind, M_bind. by intros ->. Qed.

Lemma join_vn_noop loc v n s :
  nets_ok ns_of None s → in_net loc v (ns_of v, n) s → join_vn (ns_of v, n) loc v s = Ok ((None, false), s).
Proof.
  intros Hok (Ek & vn & E & Hin). pose proof (vi_disj _ _ _ _ _ Hok v vn E) as Hd.
  unfold join_vn. eapply runs_noop; [done|]. cbn -[set_vns]. rewrite E. destruct vn as [id ns ls rs].
  simpl in Hin, Hd. destruct loc.
  - eapply runs_noop; [done|]. simpl.
    replace ({[n]} ∪ ls) with ls by set_solver. replace (rs ∖ {[n]}) with rs by set_solver.
    eapply runs_noop; [by apply set_vns_noop|done].
  - simpl. replace (ls ∖ {[n]}) with ls by set_solver. replace ({[n]} ∪ rs) with rs by set_solver.
    rewrite bool_decide_eq_false_2 by apply (vi_relevant _ _ _ _ _ Hok v _ E).
    eapply runs_noop; [by apply set_vns_noop|done].
Qed.

Lemma updateVNState_noop v n node s :
  nets_ok ns_of None s → in_net (String.eqb node localNodeName) v (ns_of v, n) s →
  updateVNState localNodeName v (ns_of v, n) node s = Ok ((None, false), s).
Proof.
  intros Hok Hin. pose proof Hin as (Ek & _). unfold updateVNState.
  eapply runs_noop; [done|]. cbv beta. rewrite Ek, Z.eqb_refl. eapply runs_noop; [done|].
  unfold updateVNStateForExistingAtt. eapply runs_noop; [by apply join_vn_noop|].
  eapply runs_noop; [by apply set_vnis_noop|done].
Qed.

Lemma createOrUpdateIfc_noop nsn ip host v m pce pde s :
  ifc_inv hostIP allowedPrograms s → generateMACAddr v ip = Ok m → has_ifc hostIP nsn host m s →
  createOrUpdateIfc hostIP allowedPrograms fmt_local fmt_remote ip host v nsn pce pde s =
    Ok (inr (result nsn host m pce s), s).
Proof.
  intros Hi Em Hh.
  destruct (runs_inv _ _ _ (createOrUpdateIfc_runs hostIP allowedPrograms fmt_local fmt_remote
    nsn ip host v m pce pde s Hi Em)) as (r & s' & -> & Hr).
  assert (s' = s) as -> by (by eapply rc_same). destruct r as [e|x].
  - by destruct (rc_fail _ _ _ _ _ _ _ _ _ _ _ _ Hr e eq_refl).
  - by destruct (rc_ok _ _ _ _ _ _ _ _ _ _ _ _ Hr x eq_refl) as [_ ->].
Qed.

(** The status of a local attachment says what the agent holds. *)
Definition says (att : NetworkAttachment) (m : HardwareAddr) s : bool :=
  let '(mac, name, errs, pcer) := result (AttNSN att) hostIP m (PostCreateExec (na_Spec att)) s in
  status_current hostIP att mac name errs pcer.

(** An attachment as the agent wants it. *)
Record at_rest (att : NetworkAttachment) (m : HardwareAddr) s : Prop := {
  ar_mac : generateMACAddr (att_vni att) (att_ip att) = Ok m;
  ar_net : in_net (is_local att) (att_vni att) (AttNSN att) s;
  ar_ifc : has_ifc hostIP (AttNSN att) (host_of att) m s;
  ar_says : is_local att = true → says att m s = true }.

(** [processExistingAtt] on an attachment in its network with its interface. *)
Lemma processExistingAtt_eq att m s :
  att_ok ns_of att → agent_ok s → generateMACAddr (att_vni att) (att_ip att) = Ok m →
  in_net (is_local att) (att_vni att) (AttNSN att) s → has_ifc hostIP (AttNSN att) (host_of att) m s →
  processExistingAtt att s =
    (if negb (is_local att) || says att m s then Ok (None, s)
     else (u ← setAttStatus hostIP att (MAC_String m) (generateIfcName m)
                 (cmd_errors allowedPrograms "postCreateExec" (PostCreateExec (na_Spec att)))
                 (default None (nsnToPostCreateExecReport s !! AttNSN att));
           mret (match u with inl e => Some e | inr _ => None end)) s).
Proof.
  intros Hok Hi Em Hn Hh. unfold Agent.processExistingAtt.
  assert (Ek : AttNSN att = (ns_of (att_vni att), Name (na_meta att))) by (unfold AttNSN; by rewrite (ao_ns _ _ Hok)).
  eapply runs_noop.
  { rewrite Ek in *. apply updateVNState_noop; [apply Hi|exact Hn]. }
  cbv beta iota. eapply runs_noop.
  { apply createOrUpdateIfc_noop; [apply Hi|exact Em|exact Hh]. }
  unfold says, ifc_result. fold (is_local att). destruct (is_local att) eqn:Eloc; [|done].
  assert (GoNet.Equal hostIP hostIP = true) as -> by by apply Equal_norm.
  cbv beta iota. cbn [negb orb]. by destruct (status_current _ _ _ _ _ _).
Qed.

Lemma processExistingAtt_noop att m s :
  att_ok ns_of att → agent_ok s → at_rest att m s → processExistingAtt att s = Ok (None, s).
Proof.
  intros Hok Hi [Em Hn Hh Hs]. rewrite (processExistingAtt_eq att m s) by done.
  destruct (is_local att); [|done]. by rewrite Hs.
Qed.
(** ** One pass makes it so *)

(** The attachment with the status that the agent writes. *)
Definition sent (att : NetworkAttachment) (m : HardwareAddr) s : NetworkAttachment :=
  status_with hostIP att (MAC_String m) (generateIfcName m)
    (cmd_errors allowedPrograms "postCreateExec" (PostCreateExec (na_Spec att)))
    (default None (nsnToPostCreateExecReport s !! AttNSN att)).

Lemma status_current_sent att mac name errs pcer :
  status_current hostIP (status_with hostIP att mac name errs pcer) mac name errs pcer = true.
Proof.
  unfold status_current, status_with. simpl. rewrite !String.eqb_refl.
  assert (Equiv pcer pcer = true) as -> by by apply Equiv_key.
  by assert (SliceOfString_Equal errs errs = true) as -> by by apply SliceOfString_Equal_eq.
Qed.

Lemma result_local nsn m pce s :
  result nsn hostIP m pce s =
    (MAC_String m, generateIfcName m, cmd_errors allowedPrograms "postCreateExec" pce,
     default None (nsnToPostCreateExecReport s !! nsn)).
Proof. apply ifc_result_local. by apply Equal_norm. Qed.

(** The parts of an attachment that the agent reads; that the server has cut the times of the
    report to seconds makes no difference to it. *)
Lemma says_updated att att2 m s : updated_as att att2 → says att2 m s = says att m s.
Proof.
  intros (En & _ & Es & Et). unfold says. rewrite En, Es.
  destruct (result _ _ _ _ _) as [[[mac name] errs] pcer]. unfold status_current. by rewrite Et, Equiv_stored_r.
Qed.

Lemma at_rest_updated att att2 m s :
  updated_as att att2 → att_ok ns_of att → at_rest att m s → att_ok ns_of att2 ∧ at_rest att2 m s.
Proof.
  intros Hu [O1 O2 O3] [R1 R2 R3 R4]. pose proof (says_updated att att2 m s Hu) as Hs. destruct Hu as (En & _ & Es & Et).
  assert (Ens : Namespace (na_meta att2) = Namespace (na_meta att)) by (unfold AttNSN in En; congruence).
  split; split; rewrite ?Hs; unfold att_host, att_local, att_vni, att_ip in *; rewrite ?En, ?Ens, ?Es, ?Et; done.
Qed.

Lemma sent_at_rest att m s :
  is_local att = true → generateMACAddr (att_vni att) (att_ip att) = Ok m →
  in_net (is_local att) (att_vni att) (AttNSN att) s → has_ifc hostIP (AttNSN att) (host_of att) m s →
  at_rest (sent att m s) m s.
Proof.
  intros Hl Em Hn Hh. split; try done.
  - unfold att_host, att_local in *. simpl. by rewrite Hl in *.
  - intros _. unfold says. rewrite result_local. apply status_current_sent.
Qed.

Lemma settles_runs att s :
  att_ok ns_of att → agent_ok s →
  runs (processExistingAtt att) s (λ err s', agent_ok s' ∧ (
    err = None → is_Some (vniToVnState s' !! att_vni att) →
    ∃ m att1, at_rest att1 m s' ∧ att_ok ns_of att1 ∧
      (att1 = att ∧ api s' = api s ∨
       att1 = sent att m s' ∧ is_local att = true ∧ ∃ att2, att_Update att1 (api s) = (inr att2, api s')))).
Proof.
  intros Hok Hi. eapply runs_conseq; [by apply (processExistingAtt_runs ns_of)|].
  intros err s' (Hi' & _ & _ & He). split; [done|]. intros -> [vn Hvn].
  destruct He as [m Em Hn Hh _ _ Hp|m e _ _ _ He|_ _ Hx _ _ _|_ Hx _]; [|congruence..].
  exists m. destruct (is_local att) eqn:Hl.
  2: { exists att. split; [split; try done; by rewrite Hl|]. split; [done|]. left. tauto. }
  unfold published in Hp. rewrite result_local in Hp. fold (says att m s') in Hp.
  destruct (status_current _ _ _ _ _ _) eqn:Es.
  - exists att. split; [|split; [done|by left; split; [|apply Hp]]]. split; try done; [by rewrite Hl|].
    intros _. unfold says. by rewrite result_local.
  - fold (sent att m s') in Hp. exists (sent att m s').
    split; [by apply sent_at_rest; rewrite ?Hl|]. split; [by destruct Hok; split|]. right.
    split; [done|]. split; [done|].
    destruct (att_Update (sent att m s') (api s)) as [[e|att2] w] eqn:Eu; destruct Hp as [? ->]; [done|]. by exists att2.
Qed.

(** C18: one pass over an attachment that succeeds leaves nothing to do: processing
    the attachment again, as it was or as the API server stores the status that the
    pass wrote, with times in whole seconds, changes nothing and calls nothing. *)
Theorem processing_settles att s :
  att_ok ns_of att → agent_ok s →
  runs (processExistingAtt att) s (λ err s',
    err = None → is_Some (vniToVnState s' !! att_vni att) →
    ∃ att1, (att1 = att ∧ api s' = api s ∨
             is_local att = true ∧ na_Spec att1 = na_Spec att ∧ AttNSN att1 = AttNSN att ∧
             ∃ att2, att_Update att1 (api s) = (inr att2, api s')) ∧
      ∀ att2, updated_as att1 att2 → processExistingAtt att2 s' = Ok (None, s')).
Proof.
  intros Hok Hi. eapply runs_conseq; [by apply settles_runs|]. intros err s' (Hi' & Hs) He Hv.
  destruct (Hs He Hv) as (m & att1 & Hr & Hok1 & Hcase). exists att1. split.
  - destruct Hcase as [?|(-> & ? & ?)]; [by left|by right].
  - intros att2 Hu. destruct (at_rest_updated att1 att2 m s' Hu Hok1 Hr). by eapply processExistingAtt_noop.
Qed.

(** ** The report of a command *)

(** Running the command of an attachment stores its report exactly when the
    attachment still has its local interface, and has the attachment looked at again. *)
Lemma RunCommand_runs exec l cmd0 args s :
  l_cmd l = cmd0 :: args → l_saveReport l = true → agent_ok s →
  runs (RunCommand exec l) s (λ _ s', agent_ok s' ∧ nets_same s s' ∧ api s' = api s ∧
    nsnToLocalMainState s' = nsnToLocalMainState s ∧ nsnToRemoteIfc s' = nsnToRemoteIfc s ∧
    nsnToPostCreateExecReport s' =
      match nsnToLocalMainState s !! l_nsn l with
      | Some _ => <[l_nsn l := Some (exec_report (exec cmd0 (expand (l_ifc l) <$> args)))]>
                    (nsnToPostCreateExecReport s)
      | None => nsnToPostCreateExecReport s
      end ∧
    queue s' = queue s ++ [QAdd (l_nsn l)]).
Proof.
  intros Hc Hsave Hi. assert (Hne : l_cmd l ≠ []) by by rewrite Hc.
  pose proof (RunCommand_inv ns_of hostIP allowedPrograms exec l s Hne Hi) as Hinv.
  unfold RunCommand, setExecReport, set_reports, enqueue in *. rewrite Hc, Hsave in *. cbn [negb] in *.
  set (r := exec_report _) in *. revert Hinv. unfold runs, gets, modify, mbind, M_bind. simpl.
  by destruct (nsnToLocalMainState s !! l_nsn l).
Qed.

(** C21: the report of a finished PostCreateExec reaches the API server: when the
    command of an attachment has run, the next pass over the attachment, whose
    status has no report yet, sends a status with the report of that run. *)
Theorem report_is_published exec l cmd0 args att m s :
  l_cmd l = cmd0 :: args → l_saveReport l = true → l_nsn l = AttNSN att →
  agent_ok s → att_ok ns_of att → is_local att = true →
  generateMACAddr (att_vni att) (att_ip att) = Ok m →
  in_net true (att_vni att) (AttNSN att) s → has_ifc hostIP (AttNSN att) hostIP m s →
  PostCreateExecReport (na_Status att) = None →
  runs (RunCommand exec l;; processExistingAtt att) s (λ err s',
    ∃ att1 u, att_Update att1 (api s) = (u, api s') ∧ (err = None ↔ ∃ att2, u = inr att2) ∧
      AttNSN att1 = AttNSN att ∧ na_Spec att1 = na_Spec att ∧
      PostCreateExecReport (na_Status att1) = Some (exec_report (exec cmd0 (expand (l_ifc l) <$> args))) ∧
      IfcName (na_Status att1) = generateIfcName m ∧ MACAddress (na_Status att1) = MAC_String m).
Proof.
  intros Hc Hsave Hnsn Hi Hok Hl Em Hn Hh Hno. apply runs_bind.
  eapply runs_conseq; [by eapply RunCommand_runs|].
  intros [] s1 (Hi1 & Hn1 & Ha1 & El & Er & Ep & _). set (r := exec_report _) in *.
  assert (El' : ∃ st, nsnToLocalMainState s !! AttNSN att = Some st).
  { unfold has_ifc in Hh. assert (E : GoNet.Equal hostIP hostIP = true) by by apply Equal_norm.
    rewrite E in Hh. destruct Hh as (_ & st & Est & _). by exists st. }
  destruct El' as [st Est]. rewrite Hnsn, Est in Ep.
  assert (Hh1 : has_ifc hostIP (AttNSN att) hostIP m s1) by (unfold has_ifc in *; by rewrite El, Er).
  pose proof (in_net_same _ _ _ _ _ Hn1 Hn) as Hin1.
  assert (Hho : host_of att = hostIP) by (unfold att_host; by rewrite Hl).
  assert (Hsays : says att m s1 = false).
  { unfold says, status_current. rewrite result_local, Ep, lookup_insert_eq, Hno. simpl.
    by rewrite andb_false_r. }
  unfold runs. rewrite (processExistingAtt_eq att m s1) by (rewrite ?Hho, ?Hl; done).
  rewrite Hl, Hsays, Ep, lookup_insert_eq. cbn [negb orb default id].
  unfold setAttStatus, call_api, mbind, M_bind. rewrite Ha1.
  set (att1 := status_with _ _ _ _ _ _). destruct (att_Update att1 (api s)) as [u w] eqn:Eu.
  cbn. exists att1, u. split; [done|]. split; [|done]. destruct u; naive_solver.
Qed.

End Settles.
End AgentSettles.
