(* ===== verification/AgentFabric.v ===== *)
(** * The interfaces on the node

    The interfaces that the fabric holds are those that the agent's records say, one
    for each attachment: kept by every pass that succeeds as long as no two
    attachments derive the same name, and set up when the agent starts. *)

From S2P Require Import Prelude GoStr GoNet ApiTypes SubnetStrategy KosApi Fabric AgentIds Agent AgentNets AgentIfcs AgentCorrect.
Import GoNet Agent AgentNets AgentIfcs AgentCorrect.

(** ** Records and the map they describe *)

Section Tied.
Context {I : Type} (key : I → string).
Implicit Types (recs : gmap NSN I) (fab : gmap string I) (rest : list I).

(** The map [fab] holds the recorded interfaces and those of [rest], all under
    different names. *)
Record tied_rest recs fab rest : Prop := {
  ti_fab n i : fab !! n = Some i ↔ key i = n ∧ ((∃ k, recs !! k = Some i) ∨ i ∈ rest);
  ti_inj k1 k2 i1 i2 : recs !! k1 = Some i1 → recs !! k2 = Some i2 → key i1 = key i2 → k1 = k2;
  ti_rest : NoDup (key <$> rest);
  ti_apart k i j : recs !! k = Some i → j ∈ rest → key i ≠ key j }.

Definition tied recs fab : Prop := tied_rest recs fab [].

Lemma tied_empty : tied ∅ ∅.
Proof.
  split.
  - intros n i. rewrite lookup_empty. split; [done|].
    intros [_ [[k Hk]|Hi]]; [by rewrite lookup_empty in Hk|by apply elem_of_nil in Hi].
  - intros k1 k2 i1 i2 E. by rewrite lookup_empty in E.
  - constructor.
  - intros k i j E. by rewrite lookup_empty in E.
Qed.

(** At the start nothing is recorded. *)
Lemma tied_start fab rest :
  map_Forall (λ n i, key i = n) fab → rest ≡ₚ (map_to_list fab).*2 → tied_rest ∅ fab rest.
Proof.
  intros Hk Hp.
  assert (Hin : ∀ i, i ∈ rest ↔ ∃ n, fab !! n = Some i).
  { intros i. rewrite Hp, list_elem_of_fmap. split.
    - intros ([n i'] & -> & Hx%elem_of_map_to_list). by exists n.
    - intros [n Hn]. exists (n, i). split; [done|]. by apply elem_of_map_to_list. }
  split.
  - intros n i. rewrite Hin. split.
    + intros E. split; [by apply Hk|]. right. by exists n.
    + intros [<- [[k E]|[n' E]]]; [by rewrite lookup_empty in E|]. by rewrite (Hk n' i E).
  - intros k1 k2 i1 i2 E. by rewrite lookup_empty in E.
  - rewrite Hp. replace (key <$> (map_to_list fab).*2) with (map_to_list fab).*1; [apply NoDup_fst_map_to_list|].
    rewrite <- list_fmap_compose. apply list_fmap_ext. intros x [n i] Hx. simpl. symmetry. apply Hk.
    apply elem_of_map_to_list. by eapply list_elem_of_lookup_2.
  - intros k i j E. by rewrite lookup_empty in E.
Qed.

(** The interface of [k] is deleted and its record with it. *)
Lemma tied_delete recs fab rest k i :
  tied_rest recs fab rest → recs !! k = Some i → tied_rest (delete k recs) (delete (key i) fab) rest.
Proof.
  intros [H1 H2 H3 H4] Ek. split; [| |done|].
  - intros n j. rewrite lookup_delete_Some, H1. split.
    + intros (Hne & <- & [[k' E]|Hj]); split; try done; [left|by right].
      exists k'. apply lookup_delete_Some. split; [|done]. intros <-. congruence.
    + intros [<- [[k' [Hne E]%lookup_delete_Some]|Hj]].
      * split; [|split; [done|left; by exists k']]. intros He. apply Hne. by eapply H2.
      * split; [by eapply H4|]. split; [done|by right].
  - intros k1 k2 i1 i2 [_ E1]%lookup_delete_Some [_ E2]%lookup_delete_Some. by eapply H2.
  - intros k' i' j [_ E]%lookup_delete_Some. by eapply H4.
Qed.

(** A new interface with a name of its own. *)
Lemma tied_insert recs fab k i :
  tied recs fab → recs !! k = None → (∀ k' i', recs !! k' = Some i' → key i' ≠ key i) →
  tied (<[k := i]> recs) (<[key i := i]> fab).
Proof.
  intros [H1 H2 _ _] Ek Hn. split; [| |constructor|by intros ??? _ ?%elem_of_nil].
  - intros n j. rewrite lookup_insert_Some, H1. split.
    + intros [[<- <-]|(Hne & <- & [[k' E]|Hj])]; [| |by apply elem_of_nil in Hj]; split; try done; left.
      * exists k. apply lookup_insert_eq.
      * exists k'. rewrite lookup_insert_ne; [done|]. intros <-. congruence.
    + intros [<- [[k' E]|Hj]]; [|by apply elem_of_nil in Hj].
      apply lookup_insert_Some in E as [[<- <-]|[Hne E]]; [by left|]. right.
      split; [|split; [done|left; by exists k']]. apply not_eq_sym. by eapply Hn.
  - intros k1 k2 i1 i2 [[<- <-]|[Hne1 E1]]%lookup_insert_Some [[<- <-]|[Hne2 E2]]%lookup_insert_Some Hk.
    + done.
    + by destruct (Hn _ _ E2).
    + by destruct (Hn _ _ E1).
    + by eapply H2.
Qed.

(** A found interface gets its record, and replaces the one of its owner. *)
Lemma tied_adopt recs fab i rest k :
  tied_rest recs fab (i :: rest) →
  tied_rest (<[k := i]> recs)
    (match recs !! k with Some old => delete (key old) fab | None => fab end) rest.
Proof.
  intros Ht. assert (Hnew : ∀ recs fab, tied_rest recs fab (i :: rest) → recs !! k = None →
    tied_rest (<[k := i]> recs) fab rest).
  { clear. intros recs fab [H1 H2 H3 H4] Ek. apply NoDup_cons in H3 as [Hni H3]. split; [| |done|].
    - intros n j. rewrite H1. split; intros [<- Hj]; (split; [done|]).
      + destruct Hj as [[k' E]|[-> |Hj]%elem_of_cons]; [| |by right]; left.
        * exists k'. rewrite lookup_insert_ne; [done|]. intros <-. congruence.
        * exists k. apply lookup_insert_eq.
      + destruct Hj as [[k' [[<- <-]|[Hne E]]%lookup_insert_Some]|Hj].
        * right. apply elem_of_cons. by left.
        * left. by exists k'.
        * right. apply elem_of_cons. by right.
    - intros k1 k2 i1 i2 [[<- <-]|[Hne1 E1]]%lookup_insert_Some [[<- <-]|[Hne2 E2]]%lookup_insert_Some Hk.
      + done.
      + destruct (H4 _ _ i E2); [apply elem_of_cons; by left|done].
      + destruct (H4 _ _ i E1); [apply elem_of_cons; by left|done].
      + by eapply H2.
    - intros k' i' j [[<- <-]|[Hne E]]%lookup_insert_Some Hj.
      + intros He. apply Hni. apply list_elem_of_fmap. by exists j.
      + eapply H4; [exact E|]. apply elem_of_cons. by right. }
  destruct (recs !! k) as [old|] eqn:Ek; [|by apply Hnew].
  rewrite <- insert_delete_eq. apply Hnew; [by apply tied_delete|apply lookup_delete_eq].
Qed.

(** Only the record of [k] changes; its old interface goes. *)
Definition without recs fab k : gmap string I :=
  match recs !! k with Some i => delete (key i) fab | None => fab end.

Lemma tied_drop recs recs' fab k :
  tied recs fab → (∀ k', k' ≠ k → recs' !! k' = recs !! k') → recs' !! k = None →
  tied recs' (without recs fab k).
Proof.
  intros Ht Ho Ek. assert (recs' = delete k recs) as ->.
  { apply map_eq. intros k'. destruct (decide (k' = k)) as [->|Hne].
    - by rewrite lookup_delete_eq.
    - rewrite lookup_delete_ne by done. by apply Ho. }
  unfold without. destruct (recs !! k) as [i|] eqn:E; [by apply tied_delete|]. by rewrite delete_id.
Qed.

Lemma tied_put recs recs' fab k i :
  tied recs fab → (∀ k', k' ≠ k → recs' !! k' = recs !! k') → recs' !! k = Some i →
  (∀ k' i', k' ≠ k → recs !! k' = Some i' → key i' ≠ key i) →
  tied recs' (<[key i := i]> (without recs fab k)).
Proof.
  intros Ht Ho Ek Ha. assert (recs' = <[k := i]> (delete k recs)) as ->.
  { apply map_eq. intros k'. rewrite insert_delete_eq. destruct (decide (k' = k)) as [->|Hne].
    - by rewrite lookup_insert_eq.
    - rewrite lookup_insert_ne by done. by apply Ho. }
  apply tied_insert.
  - apply (tied_drop recs (delete k recs)); [done| |apply lookup_delete_eq].
    intros k' Hne. by rewrite lookup_delete_ne.
  - apply lookup_delete_eq.
  - intros k' i' [Hne E]%lookup_delete_Some. by eapply Ha.
Qed.

(** An interface without an owner is deleted. *)
Lemma tied_orphan recs fab i rest :
  tied_rest recs fab (i :: rest) → tied_rest recs (delete (key i) fab) rest.
Proof.
  intros [H1 H2 H3 H4]. apply NoDup_cons in H3 as [Hni H3]. split; [|done..|].
  - intros n j. rewrite lookup_delete_Some, H1. split.
    + intros (Hne & <- & [?|[-> |?]%elem_of_cons]); split; auto; done.
    + intros [<- [[k E]|Hj]].
      * split; [apply not_eq_sym; eapply H4; [exact E|apply elem_of_cons; by left]|].
        split; [done|left; by exists k].
      * split; [|split; [done|right; apply elem_of_cons; by right]].
        intros He. apply Hni. rewrite He. apply list_elem_of_fmap. by exists j.
  - intros k i' j E Hj. eapply H4; [exact E|]. apply elem_of_cons. by right.
Qed.
End Tied.

Module AgentFabric.

Section InStep.
Context {F W : Type} `{NetFabric F, !NetFabricLaws F, KosClient W}.
Variable ns_of : Z → string.
Variables (localNodeName : string) (hostIP : IP) (allowedPrograms : gset string).
Variables (fmt_local : LocalNetIfc → string) (fmt_remote : RemoteNetIfc → string).
#[local] Abbreviation St := (@State F W).
Implicit Types s : St.

#[local] Abbreviation agent_ok := (agent_inv ns_of hostIP allowedPrograms).
#[local] Abbreviation processNetworkAttachment :=
  (processNetworkAttachment (F := F) (W := W) localNodeName hostIP allowedPrograms fmt_local fmt_remote).
#[local] Abbreviation host_of := (att_host localNodeName hostIP).

Definition local_recs s : gmap NSN LocalNetIfc := lm_ifc <$> nsnToLocalMainState s.

(** The fabric holds exactly the recorded interfaces, each for one attachment. *)
Definition in_step s : Prop :=
  tied li_Name (local_recs s) (locals (fabric s)) ∧ tied rkey (nsnToRemoteIfc s) (remotes (fabric s)).

(** No other attachment has an interface with the name of [ifc], or a remote one with
    the key of [rifc]. *)
Definition own_names (nsn : NSN) (name key : string) s : Prop :=
  (∀ k st, k ≠ nsn → nsnToLocalMainState s !! k = Some st → li_Name (lm_ifc st) ≠ name) ∧
  (∀ k ifc, k ≠ nsn → nsnToRemoteIfc s !! k = Some ifc → rkey ifc ≠ key).

Lemma recs_lookup s k : local_recs s !! k = lm_ifc <$> nsnToLocalMainState s !! k.
Proof. apply lookup_fmap. Qed.

Lemma only_recs nsn s s' :
  only nsn s s' →
  (∀ k, k ≠ nsn → local_recs s' !! k = local_recs s !! k) ∧
  (∀ k, k ≠ nsn → nsnToRemoteIfc s' !! k = nsnToRemoteIfc s !! k).
Proof.
  intros Ho. split; intros k Hk; destruct (Ho k Hk) as (E & _ & Er); [|done].
  by rewrite !recs_lookup, E.
Qed.

Lemma without_local nsn s fab :
  without li_Name (local_recs s) fab nsn =
    match nsnToLocalMainState s !! nsn with Some st => delete (li_Name (lm_ifc st)) fab | None => fab end.
Proof. unfold without. rewrite recs_lookup. by destruct (nsnToLocalMainState s !! nsn). Qed.

Lemma in_step_same s s' : ifcs_same s s' → in_step s → in_step s'.
Proof. unfold in_step, local_recs. by intros (-> & _ & -> & _ & -> & _). Qed.

Lemma in_step_dropped nsn s s' :
  agent_ok s → in_step s → only nsn s s' → no_ifc s' nsn → fabric_dropped nsn s s' None → in_step s'.
Proof.
  intros Hi [Hl Hr] Ho (El & _ & Er) Hf. destruct (only_recs _ _ _ Ho) as [Hol Hor].
  assert (En : local_recs s' !! nsn = None) by by rewrite recs_lookup, El.
  assert (Hl' := tied_drop li_Name _ (local_recs s') _ nsn Hl Hol En).
  assert (Hr' := tied_drop rkey _ (nsnToRemoteIfc s') _ nsn Hr Hor Er).
  rewrite without_local in Hl'. unfold without in Hr'. unfold fabric_dropped in Hf.
  destruct (nsnToLocalMainState s !! nsn) as [st|] eqn:Es.
  - rewrite (ii_one _ _ _ (ai_ifcs _ _ _ _ Hi) nsn) in Hr' by by eexists.
    destruct Hf as [Hf1 Hf2]. split; by rewrite ?Hf1, ?Hf2.
  - destruct (nsnToRemoteIfc s !! nsn) as [ifc|]; destruct Hf as [Hf1 Hf2]; split; by rewrite ?Hf1, ?Hf2.
Qed.

Lemma in_step_replaced nsn ip host v m pde s s' :
  agent_ok s → in_step s → only nsn s s' → replaced hostIP nsn ip host v m pde s s' →
  own_names nsn (generateIfcName m) (rkey (new_remote ip host v m)) s → in_step s'.
Proof.
  intros Hi [Hl Hr] Ho Hrep [Hn1 Hn2]. destruct (only_recs _ _ _ Ho) as [Hol Hor].
  assert (Ew : match nsnToLocalMainState s !! nsn, nsnToRemoteIfc s !! nsn with
    | None, Some ifc => delete (rkey ifc) (remotes (fabric s)) | _, _ => remotes (fabric s) end =
    without rkey (nsnToRemoteIfc s) (remotes (fabric s)) nsn).
  { unfold without. destruct (nsnToLocalMainState s !! nsn) eqn:Es; [|done].
    by rewrite (ii_one _ _ _ (ai_ifcs _ _ _ _ Hi) nsn) by by eexists. }
  unfold replaced in Hrep. rewrite Ew, <- without_local in Hrep. clear Ew.
  destruct (GoNet.Equal host hostIP); destruct Hrep as (El & Er & Fl & Fr); split; rewrite ?Fl, ?Fr.
  - apply (tied_put li_Name _ _ _ nsn (new_local ip v m) Hl Hol).
    + by rewrite recs_lookup, El.
    + intros k i Hk. rewrite recs_lookup. destruct (nsnToLocalMainState s !! k) eqn:E; [|done].
      intros [= <-]. by eapply Hn1.
  - by apply (tied_drop rkey _ _ _ nsn Hr Hor).
  - apply (tied_drop li_Name _ _ _ nsn Hl Hol). by rewrite recs_lookup, El.
  - apply (tied_put rkey _ _ _ nsn (new_remote ip host v m) Hr Hor Er). intros k i Hk E. by eapply Hn2.
Qed.

(** The names that an item needs are its own. *)
Definition item_names (E : AgentEnv) (nsn : NSN) s : Prop :=
  ∀ att m, (looked_up E nsn s).1 = Some att → generateMACAddr (att_vni att) (att_ip att) = Ok m →
    own_names (AttNSN att) (generateIfcName m)
      (rkey (new_remote (att_ip att) (host_of att) (att_vni att) m)) s.

(** C19: a pass that succeeds keeps the interfaces on the node in step with the
    agent's records: the fabric holds exactly the recorded interfaces, each for one
    attachment, provided that no other attachment holds the name that this one
    derives from its VNI and address. *)
Theorem interfaces_in_step E nsn s :
  env_ok ns_of E → agent_ok s → in_step s → item_names E nsn s →
  runs (processNetworkAttachment E nsn) s (λ err s', agent_ok s' ∧ (err = None → in_step s')).
Proof.
  intros HE Hi Hs Hn. eapply runs_conseq; [by apply (processNetworkAttachment_runs ns_of)|].
  intros err s' (Hi' & _ & Ho). split; [done|]. intros ->. unfold item_outcome in Ho.
  unfold item_names in Hn. destruct (looked_up E nsn s) as [[att|] b].
  - destruct Ho as (_ & Honly & He). destruct He as [m Em _ _ Hkeep Hrep _|m e _ _ _ He|_ _ _ _ Hsame _|_ _ Hf].
    + destruct (has_ifc_dec hostIP (AttNSN att) (host_of att) m s) as [Hh|Hh].
      * destruct (Hkeep Hh) as (E1&_&E3&_&E5). unfold in_step, local_recs in *. by rewrite E1, E3, E5.
      * eapply (in_step_replaced (AttNSN att) _ _ _ _ _ s); [done|done|done|by apply Hrep|by apply (Hn att m)].
    + done.
    + by eapply in_step_same.
    + apply (in_step_dropped (AttNSN att) s); [done|done|done|by apply Hf|apply Hf].
  - destruct b.
    + destruct Ho as [Hf _]. apply (in_step_dropped nsn s); [done|done|apply Hf|by apply Hf|apply Hf].
    + by destruct Ho as [_ ->].
Qed.
End InStep.
End AgentFabric.
