(* ===== verification/AgentStart.v ===== *)
(** * How the connection agent starts

    The interfaces that exist on the node when the agent starts are given to their
    attachments or deleted, local ones first. *)

From S2P Require Import Prelude GoStr GoNet ApiTypes SubnetStrategy KosApi Fabric AgentIds Agent AgentNets AgentIfcs AgentCorrect AgentFabric.
Import GoNet Agent AgentNets AgentIfcs AgentCorrect AgentFabric.

Module AgentStart.

Section Start.
Context {F W : Type} `{NetFabric F, !NetFabricLaws F, KosClient W}.
Variable ns_of : Z → string.
Variables (localNodeName : string) (hostIP : IP) (allowedPrograms : gset string).
#[local] Abbreviation St := (@State F W).
Implicit Types s : St.

#[local] Abbreviation agent_ok := (agent_inv ns_of hostIP allowedPrograms).
#[local] Abbreviation ifc_ok := (ifc_inv hostIP allowedPrograms).

(** ** Deleting until it works *)

(** Does one of the first [fuel] attempts to delete the interface succeed? *)
Fixpoint local_deletes (fuel : nat) (ifc : LocalNetIfc) (f : F) : bool :=
  match fuel with
  | O => false
  | S fuel => match fab_DeleteLocalIfc ifc f with (None, _) => true | (Some _, f') => local_deletes fuel ifc f' end
  end.
Fixpoint remote_deletes (fuel : nat) (ifc : RemoteNetIfc) (f : F) : bool :=
  match fuel with
  | O => false
  | S fuel => match fab_DeleteRemoteIfc ifc f with (None, _) => true | (Some _, f') => remote_deletes fuel ifc f' end
  end.

(** The deletion of an interface that exists succeeds in the end: the agent retries it without a limit. *)
Definition deletion_settles (fuel : nat) : Prop :=
  ∀ f, fab_ok f →
    (∀ n ifc, locals f !! n = Some ifc → local_deletes fuel ifc f = true) ∧
    (∀ n ifc, remotes f !! n = Some ifc → remote_deletes fuel ifc f = true).

(** The records of interfaces are as before. *)
Definition recs_same s s' : Prop :=
  nsnToLocalMainState s' = nsnToLocalMainState s ∧
  nsnToPostCreateExecReport s' = nsnToPostCreateExecReport s ∧ nsnToRemoteIfc s' = nsnToRemoteIfc s.

Lemma delete_same_but {A} n (m m' : gmap string A) : same_but n m m' → delete n m' = delete n m.
Proof.
  intros Hs. apply map_eq. intros k. destruct (decide (k = n)) as [->|Hne].
  - by rewrite !lookup_delete_eq.
  - rewrite !lookup_delete_ne by done. by apply Hs.
Qed.

Lemma delete_local_until_runs fuel ifc s (Q : unit → St → Prop) :
  local_deletes fuel ifc (fabric s) = true → ifc_ok s →
  (∀ s', ifc_ok s' → side_same s s' → recs_same s s' → remotes (fabric s') = remotes (fabric s) →
     locals (fabric s') = delete (li_Name ifc) (locals (fabric s)) → Q tt s') →
  runs (delete_local_until fuel ifc) s Q.
Proof.
  revert s Q. induction fuel as [|fuel IH]; intros s Q Hd Hi HQ; [done|]. simpl.
  apply runs_bind. unfold DeleteLocalIfc, call_fabric, runs at 1.
  pose proof (DeleteLocalIfc_law ifc (fabric s) (ii_fabric _ _ _ Hi)) as Hl. simpl in Hd.
  destruct (fab_DeleteLocalIfc ifc (fabric s)) as [err f]. destruct Hl as (Hok & Hr & He).
  set (s1 := MkState _ _ _ _ _ _ _ _ _ f _).
  assert (Hi1 : ifc_ok s1) by (destruct Hi as [H1 H2 H3 H4 H5]; by split).
  destruct err as [e|]; [|by apply runs_ret, HQ].
  apply IH; [done|done|]. intros s' Hi' Hs' (R1 & R2 & R3) Er El. apply HQ; [done|done|done| |].
  - by rewrite Er.
  - rewrite El. apply delete_same_but, He.
Qed.

Lemma delete_remote_until_runs fuel ifc s (Q : unit → St → Prop) :
  remote_deletes fuel ifc (fabric s) = true → ifc_ok s →
  (∀ s', ifc_ok s' → side_same s s' → recs_same s s' → locals (fabric s') = locals (fabric s) →
     remotes (fabric s') = delete (rkey ifc) (remotes (fabric s)) → Q tt s') →
  runs (delete_remote_until fuel ifc) s Q.
Proof.
  revert s Q. induction fuel as [|fuel IH]; intros s Q Hd Hi HQ; [done|]. simpl.
  apply runs_bind. unfold DeleteRemoteIfc, call_fabric, runs at 1.
  pose proof (DeleteRemoteIfc_law ifc (fabric s) (ii_fabric _ _ _ Hi)) as Hl. simpl in Hd.
  destruct (fab_DeleteRemoteIfc ifc (fabric s)) as [err f]. destruct Hl as (Hok & Hr & He).
  set (s1 := MkState _ _ _ _ _ _ _ _ _ f _).
  assert (Hi1 : ifc_ok s1) by (destruct Hi as [H1 H2 H3 H4 H5]; by split).
  destruct err as [e|]; [|by apply runs_ret, HQ].
  apply IH; [done|done|]. intros s' Hi' Hs' (R1 & R2 & R3) Er El. apply HQ; [done|done|done| |].
  - by rewrite Er.
  - rewrite El. apply delete_same_but, He.
Qed.

(** ** Local interfaces *)

Variables (E : AgentEnv) (fuel : nat).
Hypothesis settles : deletion_settles fuel.

(** The one attachment that the informer cache knows under the VNI and address of an
    interface. *)
Definition local_owner (ifc : LocalNetIfc) (nsn : NSN) : Prop :=
  ∃ owner, localByIndex E (localIfcVNIAndIP ifc) = inr [owner] ∧ AttNSN owner = nsn.

(** Every recorded local interface is the one of its owner. *)
Definition locals_owned s : Prop :=
  ∀ k st, nsnToLocalMainState s !! k = Some st → local_owner (lm_ifc st) k.

Lemma setLocal_start_runs nsn st s (Q : unit → St → Prop) :
  ifc_ok s → nsnToRemoteIfc s = ∅ →
  (∀ s', ifc_ok s' → side_same s s' → nsnToLocalMainState s' = <[nsn := st]> (nsnToLocalMainState s) →
     nsnToRemoteIfc s' = ∅ → fabric s' = fabric s → Q tt s') →
  runs (setLocalAttMainState nsn st) s Q.
Proof.
  intros [H1 H2 H3 H4 H5] Hr HQ. unfold setLocalAttMainState, set_locals. apply runs_modify. apply HQ; try done.
  split; simpl; try done.
  - intros k Hk. apply H1 in Hk. destruct (decide (k = nsn)) as [->|Hne].
    + rewrite lookup_insert_eq. by eexists.
    + by rewrite lookup_insert_ne.
  - intros k _. by rewrite Hr.
Qed.

Lemma setExecReport_runs nsn r s (Q : unit → St → Prop) :
  ifc_ok s →
  (∀ s', ifc_ok s' → side_same s s' → nsnToLocalMainState s' = nsnToLocalMainState s →
     nsnToRemoteIfc s' = nsnToRemoteIfc s → fabric s' = fabric s → Q tt s') →
  runs (setExecReport nsn r) s Q.
Proof.
  intros Hi HQ. unfold setExecReport, set_reports. apply runs_bind, runs_gets.
  destruct (nsnToLocalMainState s !! nsn) as [st|] eqn:El; [|by apply runs_ret, HQ].
  apply runs_modify. apply HQ; try done. destruct Hi as [H1 H2 H3 H4 H5]. split; simpl; try done.
  intros k [x [[<- _]|[_ Hk]]%lookup_insert_Some]; [by eexists|]. apply H1. by eexists.
Qed.

(** The state of the loop over the local interfaces. *)
Record local_sync s0 s (rest : list LocalNetIfc) : Prop := {
  ls_inv : ifc_ok s;
  ls_side : side_same s0 s;
  ls_remote : nsnToRemoteIfc s = ∅;
  ls_remotes : remotes (fabric s) = remotes (fabric s0);
  ls_owned : locals_owned s;
  ls_tied : tied_rest li_Name (local_recs s) (locals (fabric s)) rest }.

Lemma adopt_local_runs s0 s ifc rest owner :
  local_sync s0 s (ifc :: rest) → localByIndex E (localIfcVNIAndIP ifc) = inr [owner] →
  runs (oldLocalState ← getLocalAttState (AttNSN owner);
        setLocalAttMainState (AttNSN owner) (MkLocalMain ifc (PostDeleteExec (na_Spec owner)));;
        setExecReport (AttNSN owner) (PostCreateExecReport (na_Status owner));;
        match oldLocalState with
        | Some old => delete_local_until fuel (lm_ifc (ls_main old))
        | None => mret tt
        end) s (λ _ s', local_sync s0 s' rest).
Proof.
  intros [Hi Hs Hr Hrs Ho Ht] Hown. unfold getLocalAttState. apply runs_bind, runs_bind, runs_get.
  assert (Hex : ∀ i, lm_ifc <$> nsnToLocalMainState s !! AttNSN owner = Some i → locals (fabric s) !! li_Name i = Some i).
  { intros i Hi'. apply (ti_fab _ _ _ _ Ht). split; [done|]. left. exists (AttNSN owner). by rewrite recs_lookup. }
  apply (tied_adopt _ _ _ _ _ (AttNSN owner)) in Ht. rewrite recs_lookup in Ht.
  assert (Hstep : ∀ old : option LocalAttachmentState,
    (λ x, lm_ifc (ls_main x)) <$> old = lm_ifc <$> nsnToLocalMainState s !! AttNSN owner →
    runs (setLocalAttMainState (AttNSN owner) (MkLocalMain ifc (PostDeleteExec (na_Spec owner)));;
          setExecReport (AttNSN owner) (PostCreateExecReport (na_Status owner));;
          match old with
          | Some old => delete_local_until fuel (lm_ifc (ls_main old))
          | None => mret tt
          end) s (λ _ s', local_sync s0 s' rest)).
  { intros old Eold. rewrite <- Eold in Ht.
    apply runs_bind, setLocal_start_runs; [done|done|]. intros s1 Hi1 Hs1 E1 Er1 Ef1.
    apply runs_bind, setExecReport_runs; [done|]. intros s2 Hi2 Hs2 E2 Er2 Ef2.
    assert (Ho2 : locals_owned s2).
    { intros k st. rewrite E2, E1. intros [[<- <-]|[_ Hk]]%lookup_insert_Some; [by exists owner|by apply Ho]. }
    assert (Hl2 : local_recs s2 = <[AttNSN owner := ifc]> (local_recs s)).
    { unfold local_recs. rewrite E2, E1. by rewrite fmap_insert. }
    assert (Hs02 : side_same s0 s2) by by eapply side_same_trans, side_same_trans.
    assert (Hr2 : nsnToRemoteIfc s2 = ∅) by congruence. rewrite <- Hl2 in Ht.
    assert (Hf2 : fabric s2 = fabric s) by congruence.
    destruct old as [old|]; simpl in Ht.
    - apply delete_local_until_runs; [|done|].
      { apply (proj1 (settles _ (ii_fabric _ _ _ Hi2)) (li_Name (lm_ifc (ls_main old)))). rewrite Hf2. by apply Hex. }
      intros s3 Hi3 Hs3 (R1 & R2 & R3) Er3 El3.
      split; [done|by eapply side_same_trans|congruence|congruence| |].
      + unfold locals_owned. by rewrite R1.
      + unfold local_recs in *. by rewrite R1, El3, Hf2.
    - apply runs_ret. split; try done; by rewrite Hf2. }
  destruct (nsnToLocalMainState s !! AttNSN owner) as [st|] eqn:Est; apply runs_ret.
  - by apply (Hstep (Some (MkLocalState st (default None (nsnToPostCreateExecReport s !! AttNSN owner))))).
  - by apply (Hstep None).
Qed.

Lemma orphan_local_runs s0 s ifc rest :
  local_sync s0 s (ifc :: rest) →
  runs (delete_local_until fuel ifc) s (λ _ s', local_sync s0 s' rest).
Proof.
  intros [Hi Hs Hr Hrs Ho Ht].
  assert (Hex : locals (fabric s) !! li_Name ifc = Some ifc).
  { apply (ti_fab _ _ _ _ Ht). split; [done|]. right. apply elem_of_cons. by left. }
  apply delete_local_until_runs; [by apply (proj1 (settles _ (ii_fabric _ _ _ Hi)) (li_Name ifc))|done|]. intros s1 Hi1 Hs1 (R1 & R2 & R3) Er1 El1.
  split; [done|by eapply side_same_trans|congruence|congruence| |].
  - unfold locals_owned. by rewrite R1.
  - unfold local_recs. rewrite R1, El1. by apply tied_orphan.
Qed.

Lemma sync_local_ifcs_runs s0 rest s :
  local_sync s0 s rest →
  runs (sync_local_ifcs E fuel rest) s (λ err s', ∃ rest', local_sync s0 s' rest' ∧ (err = None → rest' = [])).
Proof.
  revert s. induction rest as [|ifc rest IH]; intros s Hs; simpl.
  { apply runs_ret. by exists []. }
  destruct (localByIndex E (localIfcVNIAndIP ifc)) as [e|owners] eqn:Eown.
  { apply runs_ret. by exists (ifc :: rest). }
  assert (Horphan : runs (delete_local_until fuel ifc;; sync_local_ifcs E fuel rest) s
    (λ err s', ∃ rest', local_sync s0 s' rest' ∧ (err = None → rest' = []))).
  { apply runs_bind. eapply runs_conseq; [by apply orphan_local_runs|]. intros [] s1 Hs1. by apply IH. }
  destruct owners as [|owner [|]]; [done| |done].
  pose proof (adopt_local_runs s0 s ifc rest owner Hs Eown) as Hadopt.
  revert Hadopt. unfold runs, mbind, M_bind. destruct (getLocalAttState _ _) as [[old s1]|]; [|done].
  destruct (setLocalAttMainState _ _ _) as [[[] s2]|]; [|done].
  destruct (setExecReport _ _ _) as [[[] s3]|]; [|done].
  destruct old as [old|]; [|by apply IH].
  destruct (delete_local_until _ _ _) as [[[] s4]|]; [|done]. by apply IH.
Qed.

Lemma syncPreExistingLocalIfcs_runs f w :
  fab_ok f →
  runs (syncPreExistingLocalIfcs E fuel) (NewConnectionAgent f w) (λ err s,
    ∃ rest, local_sync (NewConnectionAgent f w) s rest ∧ (err = None → rest = [])).
Proof.
  intros Hf. unfold syncPreExistingLocalIfcs. apply runs_bind. unfold call_fabric, runs at 1. simpl.
  pose proof (ListLocalIfcs_law f Hf) as Hl. destruct (fab_ListLocalIfcs f) as [r f'].
  destruct Hl as (Hok & Hl & Hr & Hp). set (s1 := MkState _ _ _ _ _ _ _ _ _ f' _).
  assert (Hstart : ∀ rest, rest ≡ₚ (map_to_list (locals f)).*2 → local_sync (NewConnectionAgent f w) s1 rest).
  { intros rest Hrest. split; try done.
    - apply (ifcs_same_inv _ _ (NewConnectionAgent f' w)); [done|by apply ifc_inv_new].
    - unfold local_recs. simpl. rewrite fmap_empty, Hl. apply tied_start; [|done].
      intros n i Hn. by apply (locals_named f n i). }
  destruct r as [e|ifcs].
  - apply runs_ret. exists (map_to_list (locals f)).*2. split; [by apply Hstart|done].
  - apply sync_local_ifcs_runs. by apply Hstart, Hp.
Qed.
(** ** The networks of the local attachments *)

Lemma join_frame v n s k v' :
  k ≠ (ns_of v, n) →
  runs (updateVNStateForExistingAtt (ns_of v, n) true v) s (λ _ s',
    nsnToVNStateVNI s' !! k = nsnToVNStateVNI s !! k ∧ (in_net true v' k s → in_net true v' k s')).
Proof.
  intros Hk. unfold updateVNStateForExistingAtt, join_vn, initVNState, setVNStateVNI, set_vns, set_vnis, set_stopChs.
  unfold runs, gets, modify, mbind, mret, M_bind, M_ret. simpl.
  destruct (vniToVnState s !! v) as [vn|] eqn:Ev; simpl; (split; [by rewrite lookup_insert_ne|]);
    intros (Ek & vn' & E' & Hin); (split; simpl; [by rewrite lookup_insert_ne|]);
    (destruct (decide (v' = v)) as [->|Hne]; [|exists vn'; by rewrite lookup_insert_ne]).
  - rewrite lookup_insert_eq. eexists. split; [done|]. simpl in *. rewrite Ev in E'. injection E' as <-. set_solver.
  - congruence.
Qed.

(** The informer cache lists existing attachments, each once. *)
Definition atts_listed (atts : list NetworkAttachment) : Prop :=
  Forall (att_ok ns_of) atts ∧ NoDup (AttNSN <$> atts).

Lemma start_remote_caches_runs atts s :
  atts_listed atts → nets_ok ns_of None s →
  (∀ att, att ∈ atts → nsnToVNStateVNI s !! AttNSN att = None) →
  runs (start_remote_caches atts) s (λ _ s', nets_ok ns_of None s' ∧ ifcs_same s s' ∧ quieter s s' ∧
    (∀ att, att ∈ atts → in_net true (att_vni att) (AttNSN att) s') ∧
    ∀ v k, k ∉ AttNSN <$> atts → in_net true v k s → in_net true v k s').
Proof.
  revert s. induction atts as [|att atts IH]; intros s [Hall Hnd] Hn Hnone; simpl.
  { apply runs_ret. split; [done|]. split; [done|]. split; [apply quieter_refl|]. split; [|done].
    by intros att ?%elem_of_nil. }
  apply Forall_cons in Hall as [Hok Hall]. rewrite fmap_cons in Hnd. apply NoDup_cons in Hnd as [Hni Hnd].
  assert (Ek : AttNSN att = (ns_of (att_vni att), Name (na_meta att))) by (unfold AttNSN; by rewrite (ao_ns _ _ Hok)).
  pose proof (join_local_runs ns_of (att_vni att) (Name (na_meta att)) s Hn) as Hj. rewrite <- Ek in Hj.
  apply runs_bind. apply runs_inv in Hj as (r & s1 & E1 & Hj & Hs1 & Hq1); [|by rewrite Hnone by (apply elem_of_cons; by left)].
  assert (Hfr : ∀ k v', k ≠ AttNSN att → nsnToVNStateVNI s1 !! k = nsnToVNStateVNI s !! k ∧
    (in_net true v' k s → in_net true v' k s1)).
  { intros k v' Hk. rewrite Ek in *. pose proof (join_frame _ _ s k v' Hk) as Hf.
    unfold runs in Hf. by rewrite E1 in Hf. }
  eapply runs_eq; [exact E1|].
  assert (Hin1 : nets_ok ns_of None s1 ∧ in_net true (att_vni att) (AttNSN att) s1).
  { inversion Hj as [vn Hn1 Ev Evn Hin| |]; [|done..]. split; [done|]. split; [done|]. by exists vn. }
  destruct Hin1 as [Hn1 Hin1].
  eapply runs_conseq; [apply IH; [done|done|]|].
  { intros b Hb. assert (Hne : AttNSN b ≠ AttNSN att).
    { intros He. apply Hni. rewrite <- He. apply list_elem_of_fmap. by exists b. }
    rewrite (proj1 (Hfr _ 0 Hne)). apply Hnone, elem_of_cons. by right. }
  intros [] s' (Hn' & Hs' & Hq' & Hin' & Hkeep). split; [done|]. split; [by eapply ifcs_same_trans|].
  split; [by eapply quieter_trans|]. split.
  - intros b [->|Hb]%elem_of_cons; [by apply Hkeep|by apply Hin'].
  - intros v k Hk Hv. apply not_elem_of_cons in Hk as [Hk1 Hk2].
    apply Hkeep; [done|]. by apply Hfr.
Qed.

(** ** Remote interfaces *)

Lemma assign_start_runs nsn ifc s (Q : unit → St → Prop) :
  ifc_ok s → nsnToLocalMainState s !! nsn = None → GoNet.Equal (ri_HostIP ifc) hostIP = false →
  (∀ s', ifc_ok s' → side_same s s' → nsnToLocalMainState s' = nsnToLocalMainState s →
     nsnToRemoteIfc s' = <[nsn := ifc]> (nsnToRemoteIfc s) → fabric s' = fabric s → Q tt s') →
  runs (assignRemoteIfc nsn ifc) s Q.
Proof.
  intros [H1 H2 H3 H4 H5] Hl Ha HQ. unfold assignRemoteIfc, set_remotes. apply runs_modify. apply HQ; try done.
  split; simpl; try done.
  - intros k Hk. rewrite lookup_insert_ne; [by apply H2|]. intros <-. destruct Hk. congruence.
  - intros k i [[<- <-]|[_ Hk]]%lookup_insert_Some; [done|by eapply H3].
Qed.

(** The one attachment that the informer of its VNI knows under the address of a remote interface. *)
Definition remote_owner s (ifc : RemoteNetIfc) (nsn : NSN) : Prop :=
  ∃ vn owner, vniToVnState s !! ri_VNI ifc = Some vn ∧
    remoteByIndex E (remoteAttsInformer vn) (remoteIfcVNIAndIP ifc) = inr [owner] ∧ AttNSN owner = nsn.

(** Every recorded remote interface is the one of its owner. *)
Definition remotes_owned s : Prop :=
  ∀ k ifc, nsnToRemoteIfc s !! k = Some ifc → remote_owner s ifc k.

Lemma remote_owner_same s s' ifc k : side_same s s' → remote_owner s ifc k → remote_owner s' ifc k.
Proof.
  intros [(Ev & _) _] (vn & owner & Hv & Ho). exists vn, owner. by rewrite Ev.
Qed.

(** The state of the loop over the remote interfaces. *)
Record remote_sync s0 s (rest : list RemoteNetIfc) : Prop := {
  rs_inv : ifc_ok s;
  rs_side : side_same s0 s;
  rs_local : nsnToLocalMainState s = nsnToLocalMainState s0;
  rs_locals : locals (fabric s) = locals (fabric s0);
  rs_owned : remotes_owned s;
  rs_away : Forall (λ ifc, GoNet.Equal (ri_HostIP ifc) hostIP = false) rest;
  rs_tied : tied_rest rkey (nsnToRemoteIfc s) (remotes (fabric s)) rest }.

(** No attachment that a remote informer knows is taken for a local one. *)
Definition owners_apart : Prop :=
  ∀ id ifc owner lifc, remoteByIndex E id (remoteIfcVNIAndIP ifc) = inr [owner] →
    ¬ local_owner lifc (AttNSN owner).

Lemma adopt_remote_runs s0 s ifc rest owner :
  remote_sync s0 s (ifc :: rest) → nsnToLocalMainState s !! AttNSN owner = None →
  remote_owner s ifc (AttNSN owner) →
  runs (oldRemoteIfc ← getRemoteIfc (AttNSN owner);
        assignRemoteIfc (AttNSN owner) ifc;;
        match oldRemoteIfc with
        | Some old => delete_remote_until fuel old
        | None =>
            oldLocalState ← getLocalAttState (AttNSN owner);
            match oldLocalState with
            | Some old => delete_local_until fuel (lm_ifc (ls_main old))
            | None => mret tt
            end
        end) s (λ _ s', remote_sync s0 s' rest).
Proof.
  intros [Hi Hs Hl Hls Ho Ha Ht] Hnone Hown. apply Forall_cons in Ha as [Ha1 Ha].
  assert (Hex : ∀ i, nsnToRemoteIfc s !! AttNSN owner = Some i → remotes (fabric s) !! rkey i = Some i).
  { intros i Hi'. apply (ti_fab _ _ _ _ Ht). split; [done|]. left. by exists (AttNSN owner). }
  apply (tied_adopt _ _ _ _ _ (AttNSN owner)) in Ht.
  unfold getRemoteIfc. apply runs_bind, runs_gets. apply runs_bind, assign_start_runs; [done..|].
  intros s1 Hi1 Hs1 El1 Er1 Ef1. rewrite <- Er1 in Ht.
  assert (Hs01 : side_same s0 s1) by by eapply side_same_trans.
  assert (Ho1 : remotes_owned s1).
  { intros k i. rewrite Er1. intros [[<- <-]|[_ Hk]]%lookup_insert_Some; apply (remote_owner_same _ _ _ _ Hs1); [done|].
    by apply Ho. }
  destruct (nsnToRemoteIfc s !! AttNSN owner) as [old|].
  - apply delete_remote_until_runs; [|done|].
    { apply (proj2 (settles _ (ii_fabric _ _ _ Hi1)) (rkey old)). rewrite Ef1. by apply Hex. }
    intros s2 Hi2 Hs2 (R1 & _ & R3) El2 Er2.
    split; [done|by eapply side_same_trans|congruence|congruence| |done|by rewrite R3, Er2, Ef1].
    intros k i. rewrite R3. intros Hk. apply (remote_owner_same _ _ _ _ Hs2). by apply Ho1.
  - unfold getLocalAttState. apply runs_bind, runs_bind, runs_get. rewrite El1, Hnone. apply runs_ret, runs_ret.
    split; [done|done|congruence|congruence|done|done|]. by rewrite Ef1.
Qed.

Lemma orphan_remote_runs s0 s ifc rest :
  remote_sync s0 s (ifc :: rest) →
  runs (delete_remote_until fuel ifc) s (λ _ s', remote_sync s0 s' rest).
Proof.
  intros [Hi Hs Hl Hls Ho Ha Ht]. apply Forall_cons in Ha as [_ Ha].
  assert (Hex : remotes (fabric s) !! rkey ifc = Some ifc).
  { apply (ti_fab _ _ _ _ Ht). split; [done|]. right. apply elem_of_cons. by left. }
  apply delete_remote_until_runs; [by apply (proj2 (settles _ (ii_fabric _ _ _ Hi)) (rkey ifc))|done|].
  intros s1 Hi1 Hs1 (R1 & R2 & R3) El1 Er1.
  split; [done|by eapply side_same_trans|congruence|congruence| |done|].
  { intros k i. rewrite R3. intros Hk. apply (remote_owner_same _ _ _ _ Hs1). by apply Ho. }
  rewrite R3, Er1. by apply tied_orphan.
Qed.

Lemma remote_owners_runs ifc s (Q : error + list NetworkAttachment → St → Prop) :
  (∀ e, Q (inl e) s) → Q (inr []) s →
  (∀ vn l, vniToVnState s !! ri_VNI ifc = Some vn →
     remoteByIndex E (remoteAttsInformer vn) (remoteIfcVNIAndIP ifc) = inr l → Q (inr l) s) →
  runs (remote_owners E ifc) s Q.
Proof.
  intros H1 H2 H3. unfold remote_owners. apply runs_bind, runs_gets, runs_ret.
  destruct (vniToVnState s !! ri_VNI ifc) as [vn|] eqn:Ev; [|done]. destruct (negb _); [done|].
  destruct (remoteByIndex E (remoteAttsInformer vn) (remoteIfcVNIAndIP ifc)) eqn:E1; [done|]. by eapply H3.
Qed.

Lemma sync_remote_ifcs_runs s0 rest s :
  owners_apart → locals_owned s0 → remote_sync s0 s rest →
  runs (sync_remote_ifcs E fuel rest) s (λ err s', ∃ rest', remote_sync s0 s' rest' ∧ (err = None → rest' = [])).
Proof.
  intros Hap Hown. revert s. induction rest as [|ifc rest IH]; intros s Hs; simpl.
  { apply runs_ret. by exists []. }
  assert (Horphan : runs (delete_remote_until fuel ifc;; sync_remote_ifcs E fuel rest) s
    (λ err s', ∃ rest', remote_sync s0 s' rest' ∧ (err = None → rest' = []))).
  { apply runs_bind. eapply runs_conseq; [by apply orphan_remote_runs|]. intros [] s1 Hs1. by apply IH. }
  apply runs_bind, remote_owners_runs; [intros e; apply runs_ret; by exists (ifc :: rest)|exact Horphan|].
  intros vn l Ev El. destruct l as [|owner [|]]; [done| |done].
  assert (Hnone : nsnToLocalMainState s !! AttNSN owner = None).
  { rewrite (rs_local _ _ _ Hs). destruct (nsnToLocalMainState s0 !! AttNSN owner) as [st|] eqn:Est; [|done].
    by destruct (Hap (remoteAttsInformer vn) ifc owner (lm_ifc st) El (Hown _ _ Est)). }
  pose proof (adopt_remote_runs s0 s ifc rest owner Hs Hnone (ex_intro _ vn (ex_intro _ owner (conj Ev (conj El eq_refl))))) as Hadopt.
  revert Hadopt. unfold runs, mbind, M_bind. destruct (getRemoteIfc _ _) as [[old s1]|]; [|done].
  destruct (assignRemoteIfc _ _ _) as [[[] s2]|]; [|done].
  destruct old as [old|].
  - destruct (delete_remote_until _ _ _) as [[[] s3]|]; [|done]. by apply IH.
  - destruct (getLocalAttState _ _) as [[[st|] s3]|]; [| |done].
    + destruct (delete_local_until _ _ _) as [[[] s4]|]; [|done]. by apply IH.
    + by apply IH.
Qed.

(** The node at the start. *)
Record node_ok (f : F) : Prop := {
  no_fab : fab_ok f;
  no_away : map_Forall (λ _ ifc, GoNet.Equal (ri_HostIP ifc) hostIP = false) (remotes f);
  no_apart : owners_apart;
  no_atts atts : localAttsLister_List E = inr atts → atts_listed atts }.

Lemma local_sync_inv f w s rest : local_sync (NewConnectionAgent f w) s rest → agent_ok s.
Proof.
  intros [Hi (Hn & Hse & _) _ _ _ _]. split; [|done|].
  - eapply nets_same_ok; [exact Hn|]. apply vn_inv_new.
  - unfold seen_ok. rewrite Hse. apply map_Forall_empty.
Qed.

(** The local attachments are in their networks. *)
Definition nets_started s : Prop :=
  ∀ atts att, localAttsLister_List E = inr atts → att ∈ atts → in_net true (att_vni att) (AttNSN att) s.

Lemma remote_sync_inv s0 s rest : agent_ok s0 → remote_sync s0 s rest → agent_ok s.
Proof. intros Hi Hr. by eapply agent_inv_ifcs, Hr; [|apply Hr]. Qed.

Lemma syncPreExistingRemoteIfcs_runs f w s :
  node_ok f → local_sync (NewConnectionAgent f w) s [] →
  runs (syncPreExistingRemoteIfcs E fuel) s (λ err s', agent_ok s' ∧
    (err = None → in_step s' ∧ nets_started s' ∧ locals_owned s' ∧ remotes_owned s')).
Proof.
  intros [Hf Haw Hap Hatts] Hls. pose proof (local_sync_inv f w s [] Hls) as Hai.
  unfold syncPreExistingRemoteIfcs. destruct (localAttsLister_List E) as [e|atts] eqn:El.
  { apply runs_ret. split; [done|]. intros [=]. }
  pose proof (ls_side _ _ _ Hls) as (Hsn & _). destruct Hsn as (_ & Evi & _).
  apply runs_bind. eapply runs_conseq; [apply start_remote_caches_runs; [by apply Hatts|apply Hai|]|].
  { intros att _. rewrite Evi. apply lookup_empty. }
  intros [] s1 (Hn1 & Hs1 & Hq1 & Hin1 & _). assert (Hai1 : agent_ok s1) by (by eapply agent_inv_nets; [apply Hai|apply Hai|..]).
  apply runs_bind. unfold call_fabric, runs at 1. pose proof (ListRemoteIfcs_law (fabric s1)) as Hl.
  destruct (fab_ListRemoteIfcs (fabric s1)) as [r f']. destruct Hl as (Hok & Hl & Hr & Hp); [apply Hai1|].
  set (s2 := MkState _ _ _ _ _ _ _ _ _ f' _).
  assert (Hai2 : agent_ok s2) by (destruct Hai1 as [? [I1 I2 I3 I4 I5] ?]; by split; [|split|]).
  destruct r as [e|ifcs]; [apply runs_ret; split; [done|]; intros [=]|].
  destruct Hs1 as (E1 & _ & E3 & _ & E5 & _).
  assert (Hown2 : locals_owned s2) by (unfold locals_owned; simpl; rewrite E1; apply Hls).
  assert (Hrem : remotes (fabric s1) = remotes f) by (rewrite E5; apply Hls).
  assert (Hstart : remote_sync s2 s2 ifcs).
  { split; [apply Hai2|done|done|done| | |].
    - intros k ifc. simpl. rewrite E3, (ls_remote _ _ _ Hls). by rewrite lookup_empty.
    - rewrite Hp by done. apply Forall_fmap, Forall_forall. intros [n ifc] Hx%elem_of_map_to_list.
      rewrite Hrem in Hx. by apply (Haw n).
    - simpl. rewrite E3, (ls_remote _ _ _ Hls), Hr. apply tied_start; [|by apply Hp].
      intros k ifc Hk. apply (remotes_keyed (fabric s1)); [apply Hai1|done]. }
  eapply runs_conseq; [by apply (sync_remote_ifcs_runs s2)|]. intros err s' (rest & Hrs & Herr).
  split; [by eapply remote_sync_inv|]. intros He. rewrite (Herr He) in Hrs. split; [split; [|apply Hrs]|split].
  - unfold local_recs. rewrite (rs_local _ _ _ Hrs), (rs_locals _ _ _ Hrs). simpl. rewrite E1, Hl, E5. apply Hls.
  - intros atts' att E' Hin. rewrite El in E'. injection E' as <-.
    eapply in_net_same; [apply Hrs|]. by apply Hin1.
  - split; [unfold locals_owned; by rewrite (rs_local _ _ _ Hrs)|apply Hrs].
Qed.

Lemma syncPreExistingIfcs_runs f w :
  node_ok f →
  runs (syncPreExistingIfcs E fuel) (NewConnectionAgent f w) (λ err s', agent_ok s' ∧
    (err = None → in_step s' ∧ nets_started s' ∧ locals_owned s' ∧ remotes_owned s')).
Proof.
  intros Hnode. unfold syncPreExistingIfcs. apply runs_bind.
  eapply runs_conseq; [apply syncPreExistingLocalIfcs_runs, Hnode|]. intros err s (rest & Hs & Herr).
  destruct err as [e|].
  - apply runs_ret. split; [by eapply local_sync_inv|]. intros [=].
  - rewrite (Herr eq_refl) in Hs. by eapply syncPreExistingRemoteIfcs_runs.
Qed.

(** C20: at the start the agent gives the interfaces on the node to the attachments
    that own them and deletes all others: after a start without error the fabric
    holds exactly the recorded interfaces, each recorded for one attachment; each is recorded for its one owner, the
    attachment that the informer (of the local attachments, or of the remote ones of its VNI) knows under its VNI and
    address; and every local attachment is in its network, which has an informer.  Assumed: the fabric is as
    its interface demands ([fab_ok]; for Open vSwitch also no flow without its pair), its remote
    interfaces are on other nodes, and deletions of existing interfaces succeed in the end; the
    informer lists the local attachments once and with their namespace; and none that a remote informer knows owns a
    local interface: for such an attachment the agent deletes the local
    interface and keeps its record (connectionagent.go:553, [AgentRuns.moved_attachment_keeps_record]). *)
Theorem start_leaves_no_orphans f w :
  node_ok f →
  runs (syncPreExistingIfcs E fuel) (NewConnectionAgent f w) (λ err s', err = None →
    in_step s' ∧
    (∀ nsn st, nsnToLocalMainState s' !! nsn = Some st → local_owner (lm_ifc st) nsn) ∧
    (∀ nsn ifc, nsnToRemoteIfc s' !! nsn = Some ifc → remote_owner s' ifc nsn) ∧
    ∀ atts att, localAttsLister_List E = inr atts → att ∈ atts →
      ∃ vn, vniToVnState s' !! att_vni att = Some vn ∧ (AttNSN att).2 ∈ localAtts vn ∧
        stopChs s' !! remoteAttsInformer vn = Some true).
Proof.
  intros Hnode. eapply runs_conseq; [by apply syncPreExistingIfcs_runs|].
  intros err s' [Hi Hs] He. destruct (Hs He) as (Hstep & Hnets & Hown & Hrown). split; [done|]. split; [done|].
  split; [done|].
  intros atts att El Hin. destruct (Hnets atts att El Hin) as (_ & vn & Ev & Hm). exists vn.
  split; [done|]. split; [done|]. apply (vi_open _ _ _ _ _ (ai_nets _ _ _ _ Hi)). left. by eexists _, vn.
Qed.

(** ** The whole life of the agent *)

Variables (fmt_local : LocalNetIfc → string) (fmt_remote : RemoteNetIfc → string).

(** C15: started on a proper node, the agent never panics: its start gives every interface to its owner or deletes it,
    and in whatever order notifications, work items and ends of commands follow, it handles
    all of them.  At every moment the open informers are exactly those of its
    virtual networks, one for each; a network it keeps has a local attachment, and
    the attachments it lists are recorded there; no attachment has two interfaces,
    or a report without an interface; and only allowed programs were launched.  A node is proper ([node_ok])
    when its fabric is as the interface of fabrics demands (an Open vSwitch bridge with half a
    pair of remote flows is not: listing it panics, [OvsCorrect.lone_flow_panics]), its remote interfaces
    are on other nodes, no attachment that a remote informer knows owns a local
    interface, and the informer lists the local attachments once, each in the namespace of its VNI and with an IPv4 address.
    Assumed besides: the deletion of an existing interface, which the start retries without a limit, succeeds within
    [fuel] attempts; notifications carry attachments (deletions also wrapped in a tombstone); and the
    caches of work items show attachments under their names, each in the namespace of its VNI and with an
    IPv4 address, and give errors with a text ([event_ok]). *)
Theorem agent_runs f w evs :
  node_ok f → Forall (event_ok ns_of) evs →
  runs (err ← syncPreExistingIfcs E fuel;
        match err with
        | Some _ => mret tt
        | None => history localNodeName hostIP allowedPrograms fmt_local fmt_remote evs
        end) (NewConnectionAgent f w) (λ _ s,
    (∀ id, stopChs s !! id = Some true ↔
       ∃ v vn, vniToVnState s !! v = Some vn ∧ remoteAttsInformer vn = id) ∧
    (∀ v vn, vniToVnState s !! v = Some vn → localAtts vn ≠ ∅ ∧
       ∀ n, n ∈ localAtts vn ∪ remoteAtts vn → nsnToVNStateVNI s !! (vn_namespace vn, n) = Some v) ∧
    (∀ v1 v2 vn1 vn2, vniToVnState s !! v1 = Some vn1 → vniToVnState s !! v2 = Some vn2 →
       remoteAttsInformer vn1 = remoteAttsInformer vn2 → v1 = v2) ∧
    (∀ nsn, is_Some (nsnToLocalMainState s !! nsn) → nsnToRemoteIfc s !! nsn = None) ∧
    (∀ nsn, is_Some (nsnToPostCreateExecReport s !! nsn) → is_Some (nsnToLocalMainState s !! nsn)) ∧
    ∀ l, l ∈ launched s → ∃ cmd0 args, l_cmd l = cmd0 :: args ∧ cmd0 ∈ allowedPrograms).
Proof.
  intros Hnode Hevs. eapply (runs_conseq _ _ (λ _ s, agent_ok s)).
  - apply runs_bind. eapply runs_conseq; [by apply syncPreExistingIfcs_runs|]. intros err s [Hi _].
    destruct err as [e|]; [by apply runs_ret|]. by apply history_runs.
  - intros _ s [[N1 N2 N3 N4 N5 N6 N7 N8] [I1 I2 I3 I4 I5] _]. split; [|split; [|split; [|split; [|split]]]].
    + intros id. rewrite N7. unfold informer_of. naive_solver.
    + intros v vn Ev. split; [by eapply N1|]. intros n Hm. rewrite (N2 v vn Ev). by eapply N4.
    + done.
    + done.
    + done.
    + intros l Hl. rewrite Forall_forall in I4. by apply I4.
Qed.
End Start.
End AgentStart.
