(* ===== verification/AgentRuns.v ===== *)
(** * Concrete runs of the connection agent

    The agent with the logger fabric and the plain store: the life of a local
    attachment, a run in which a late deletion takes away the interface of another
    attachment, and the general theorems at concrete inputs. *)

From S2P Require Import Prelude GoStr GoNet ApiTypes SubnetStrategy KosApi Fabric AgentIds Agent AgentNets.
From S2P Require Import AgentIfcs AgentCorrect AgentSettles AgentFabric AgentStart.
Import GoNet Agent AgentNets AgentIfcs AgentCorrect AgentSettles AgentFabric AgentStart.

Module AgentRuns.

Abbreviation St := (@State Logger.logger Store).

Definition ns_of (v : Z) : string := "ns".
Definition hostIP : IP := IPv4_16 10 1 0 1.
Definition allowed : gset string := {["/bin/echo"]}.
Definition fmt_local (ifc : LocalNetIfc) : string := li_Name ifc.
Definition fmt_remote (ifc : RemoteNetIfc) : string := IP_String (ri_GuestIP ifc).

Definition natt (name node host ip rv : string) : NetworkAttachment :=
  MkNA (MkMeta "ns" name name rv 0 [] ∅ false)
    (MkNASpec node "sn" ["/bin/echo"; "${ifname}"; "${ipv4}"] ["/bin/echo"; "bye"])
    (MkNAStatus (MkNAErrors [] []) "lock" 7 ip "" "" host None).

(** Informer caches with the given local and remote attachments. *)
Definition caches (locs rems : list NetworkAttachment) : AgentEnv :=
  MkEnv
    (λ ns n, match List.find (λ a, bool_decide (AttNSN a = (ns, n))) locs with
             | Some a => inr a | None => inl not_found end)
    (inr locs)
    (λ key, inr (List.filter (λ a, bool_decide (key ∈ attVNIAndIPIndexer a)) locs))
    (λ _ n, match List.find (λ a, bool_decide (Name (na_meta a) = n)) rems with
            | Some a => inr a | None => inl not_found end)
    (λ _, true)
    (λ _ key, inr (List.filter (λ a, bool_decide (key ∈ attVNIAndIPIndexer a)) rems)).

Definition run (evs : list event) : M St unit := history "node1" hostIP allowed fmt_local fmt_remote evs.
Definition process (att : NetworkAttachment) : M St (option error) :=
  processExistingAtt "node1" hostIP allowed fmt_local fmt_remote att.

Definition store_of (atts : list NetworkAttachment) : Store :=
  MkStore ∅ (list_to_map ((λ a, (AttNSN a, a)) <$> atts)) 10 ∅.
Definition fresh (atts : list NetworkAttachment) : St := NewConnectionAgent Logger.new (store_of atts).

Definition echo (cmd : string) (args : list string) : run_result :=
  MkRun RunOk 0 second (str_join " " args) "".

(** ** The life of a local attachment *)

Definition a0 : NetworkAttachment := natt "a" "node1" "" "10.0.0.2" "1".
Definition stored_att (s : St) (name : string) : NetworkAttachment :=
  default a0 (s_atts (api s) !! ("ns", name)).
Definition state_of (r : res (unit * St)) : St :=
  match r with Ok (_, s) => s | Panic _ => fresh [] end.

Definition born : St := state_of (run [LocalAdded (Object a0); WorkItem ("ns", "a") (caches [a0] [])] (fresh [a0])).
Definition a1 : NetworkAttachment := stored_att born "a".
Definition reported : St :=
  state_of (run [CommandRuns 0 echo; WorkItem ("ns", "a") (caches [a1] [])] born).
Definition a2 : NetworkAttachment := stored_att reported "a".
Definition gone : St :=
  state_of (run [LocalRemoved (DeletedFinalStateUnknown (Object a2)); WorkItem ("ns", "a") (caches [] [])] reported).

Example attachment_life :
  (map_to_list (Logger.localIfcs (fabric born))).*1 = ["kos060000020007"] ∧
  IfcName (na_Status a1) = "kos060000020007" ∧ HostIP (na_Status a1) = "10.1.0.1" ∧
  StdOut <$> PostCreateExecReport (na_Status a2) = Some "kos060000020007 10.0.0.2" ∧
  l_what <$> launched gone = ["postCreateExec"; "postDelete"] ∧
  stopChs reported = [true] ∧ stopChs gone = [false] ∧ Logger.localIfcs (fabric gone) = ∅.
Proof. repeat split; vm_compute; reflexivity. Qed.

(** ** A late deletion *)

(** Attachment b got the address that a had. *)
Definition b0 : NetworkAttachment := natt "b" "node1" "" "10.0.0.2" "1".

Definition b_created : St :=
  state_of (run [WorkItem ("ns", "a") (caches [a0] []); WorkItem ("ns", "b") (caches [b0] [])] (fresh [a0; b0])).
Definition b1 : NetworkAttachment := stored_att b_created "b".

(** When the deletion of an attachment is processed after its address went to
    another attachment of the node, the interface of the other one is deleted: the
    agent still records it, and finds nothing to do for that attachment. *)
Lemma late_deletion_takes_reused_interface :
  ∃ s st, run [WorkItem ("ns", "a") (caches [b1] [])] b_created = Ok (tt, s) ∧
    nsnToLocalMainState s !! ("ns", "b") = Some st ∧ IfcName (na_Status b1) = li_Name (lm_ifc st) ∧
    Logger.localIfcs (fabric s) = ∅ ∧ process b1 s = Ok (None, s).
Proof. eexists _, _. split; [vm_compute; reflexivity|]. repeat split; vm_compute; reflexivity. Qed.

(** ** The general theorems at these inputs *)

Lemma natt_ok name node host rv : att_ok ns_of (natt name node host "10.0.0.2" rv).
Proof.
  split; [done|unfold att_vni, maxVNI; simpl; lia|]. split; [reflexivity|].
  repeat (apply Forall_cons_2; [vm_compute; split; [discriminate|reflexivity]|]). apply Forall_nil_2.
Qed.

Lemma caches_ok locs rems :
  Forall (att_ok ns_of) locs → Forall (att_ok ns_of) rems → env_ok ns_of (caches locs rems).
Proof.
  intros Hl Hr. rewrite Forall_forall in Hl, Hr. split.
  - intros ns n att. simpl. destruct (List.find _ _) as [b|] eqn:E; [|done]. intros [= ->].
    apply List.find_some in E as [Hin Hn]. apply bool_decide_eq_true in Hn. split; [done|].
    by apply Hl, list_elem_of_In.
  - intros id n att. simpl. destruct (List.find _ _) as [b|] eqn:E; [|done]. intros [= ->].
    apply List.find_some in E as [Hin Hn]. apply bool_decide_eq_true in Hn. split; [done|].
    by apply Hr, list_elem_of_In.
  - intros ns n e. simpl. destruct (List.find _ _); [done|]. by intros [= <-].
  - intros id n e. simpl. destruct (List.find _ _); [done|]. by intros [= <-].
Qed.

Lemma env_a_ok : env_ok ns_of (caches [a0] []).
Proof. apply caches_ok; [|done]. apply Forall_singleton, natt_ok. Qed.

Abbreviation agent_ok := (agent_inv (F := Logger.logger) (W := Store) ns_of hostIP allowed).

Lemma fresh_ok atts : agent_ok (fresh atts).
Proof. apply agent_inv_new, Logger.new_ok. Qed.

Lemma run_ok evs s : Forall (event_ok ns_of) evs → agent_ok s → runs (run evs) s (λ _ s', agent_ok s').
Proof. intros He Hi. by apply history_runs. Qed.

Lemma born_ok : agent_ok born.
Proof.
  assert (Hr : runs (run [LocalAdded (Object a0); WorkItem ("ns", "a") (caches [a0] [])]) (fresh [a0])
    (λ _ s', agent_ok s')).
  { apply run_ok; [|apply fresh_ok]. apply Forall_cons_2; [by exists a0|]. apply Forall_singleton, env_a_ok. }
  apply runs_inv in Hr as ([] & s & E & Hs). unfold born. by rewrite E.
Qed.

Lemma agent_item_witness :
  runs (processQueueItem "node1" hostIP allowed fmt_local fmt_remote (caches [a0] []) ("ns", "a")) (fresh [a0])
    (λ _ s', queue s' = [QForget ("ns", "a"); QDone ("ns", "a")] ∧
       ∃ err s1, item_outcome ns_of "node1" hostIP allowed (caches [a0] []) ("ns", "a") (fresh [a0]) err s1).
Proof.
  assert (Hq : runs (processQueueItem "node1" hostIP allowed fmt_local fmt_remote (caches [a0] []) ("ns", "a"))
    (fresh [a0]) (λ _ s', queue s' = [QForget ("ns", "a"); QDone ("ns", "a")])) by (vm_compute; reflexivity).
  refine (runs_conseq _ _ _ _ (runs_and _ _ _ _ Hq (agent_item_spec ns_of "node1" hostIP allowed fmt_local
    fmt_remote (caches [a0] []) ("ns", "a") (fresh [a0]) env_a_ok (fresh_ok [a0]))) _).
  intros u s' (E & err & s1 & Ho & _). split; [exact E|]. by exists err, s1.
Defined.

Lemma deleted_attachment_witness :
  runs (processDeletedAtt allowed ("ns", "a")) born (λ err s',
    err = None ∧ no_ifc s' ("ns", "a") ∧ vniToVnState s' = ∅ ∧
    ∀ id, stopChs s' !! id = Some true ↔ informer_of (vniToVnState s') id).
Proof.
  assert (Hc : runs (processDeletedAtt allowed ("ns", "a")) born (λ err s', err = None ∧ vniToVnState s' = ∅))
    by (vm_compute; split; reflexivity).
  refine (runs_conseq _ _ _ _ (runs_and _ _ _ _ Hc
    (deleted_attachment_spec ns_of hostIP allowed ("ns", "a") born born_ok)) _).
  intros err s' ((E1 & E2) & _ & _ & Hopen & _ & _ & _ & He). rewrite E1 in He. done.
Defined.

Lemma doubt_means_deletion_witness :
  runs (processNetworkAttachment "node1" hostIP allowed fmt_local fmt_remote
          (MkEnv (λ _ _, inl (Errorf "timeout")) (inr []) (λ _, inr []) (λ _ _, inl not_found) (λ _, true)
             (λ _ _, inr [])) ("ns", "a")) born (λ err s', err = None → no_ifc s' ("ns", "a")).
Proof.
  apply (doubt_means_deletion ns_of "node1" hostIP allowed fmt_local fmt_remote).
  - split; [done|done|by intros ? ? ? [= <-]|by intros ? ? ? [= <-]].
  - apply born_ok.
  - vm_compute. lia.
  - left. reflexivity.
Defined.

Lemma processing_settles_witness :
  runs (process a0) (fresh [a0]) (λ err s',
    err = None → is_Some (vniToVnState s' !! att_vni a0) →
    ∃ att1, (att1 = a0 ∧ api s' = api (fresh [a0]) ∨
             att_local "node1" a0 = true ∧ na_Spec att1 = na_Spec a0 ∧ AttNSN att1 = AttNSN a0 ∧
             ∃ att2, att_Update att1 (api (fresh [a0])) = (inr att2, api s')) ∧
      ∀ att2, updated_as att1 att2 → process att2 s' = Ok (None, s')).
Proof.
  apply (processing_settles ns_of "node1" hostIP allowed fmt_local fmt_remote a0 (fresh [a0])).
  - apply natt_ok.
  - apply fresh_ok.
Defined.

Lemma in_step_fresh atts : in_step (fresh atts).
Proof.
  split; [|apply tied_empty]. unfold local_recs. simpl. rewrite fmap_empty. apply tied_empty.
Qed.

Lemma interfaces_in_step_witness :
  runs (processNetworkAttachment "node1" hostIP allowed fmt_local fmt_remote (caches [a0] []) ("ns", "a")) (fresh [a0])
    (λ err s', agent_ok s' ∧ (err = None → in_step s')).
Proof.
  apply (interfaces_in_step ns_of "node1" hostIP allowed fmt_local fmt_remote (caches [a0] []) ("ns", "a") (fresh [a0])).
  - apply env_a_ok.
  - apply fresh_ok.
  - apply in_step_fresh.
  - intros att m _ _. split; intros k x _ Hk; [exact (λ _, lookup_empty_Some k x Hk)|exact (λ _, lookup_empty_Some k x Hk)].
Defined.

Lemma logger_settles : deletion_settles (F := Logger.logger) 1.
Proof. done. Qed.

(** A node with an interface of attachment a and an orphan. *)
Definition node_ifcs : Logger.logger :=
  Logger.MkLogger
    {["kos060000020007" := MkLocalIfc "kos060000020007" 7 [6; 0; 0; 2; 0; 7] (IPv4_16 10 0 0 2);
      "kos060000030007" := MkLocalIfc "kos060000030007" 7 [6; 0; 0; 3; 0; 7] (IPv4_16 10 0 0 3)]} ∅.

Lemma node_ifcs_ok : node_ok ns_of hostIP (caches [a0] []) node_ifcs.
Proof.
  split.
  - split; [|apply map_Forall_empty]. apply map_Forall_insert_2; [done|]. by apply map_Forall_singleton.
  - apply map_Forall_empty.
  - intros id ifc owner lifc [=].
  - intros atts [= <-]. split; [apply Forall_singleton, natt_ok|]. apply NoDup_singleton.
Qed.

(** An attachment that moved: the local informer still shows it, the remote one already.  Its local interface is deleted
    for the remote one, but the record of the local interface stays. *)
Definition a0_moved : NetworkAttachment := natt "a" "node2" "1.2.3.4" "10.0.0.5" "2".
Definition node_moved : Logger.logger :=
  Logger.MkLogger
    {["kos060000020007" := MkLocalIfc "kos060000020007" 7 [6; 0; 0; 2; 0; 7] (IPv4_16 10 0 0 2)]}
    {["k" := MkRemoteIfc 7 [6; 0; 0; 5; 0; 7] (IPv4_16 10 0 0 5) (IPv4_16 1 2 3 4)]}.

Lemma moved_attachment_keeps_record :
  ∃ s, syncPreExistingIfcs (caches [a0] [a0_moved]) 1 (NewConnectionAgent node_moved (store_of [a0])) = Ok (None, s) ∧
    is_Some (nsnToLocalMainState s !! ("ns", "a")) ∧ is_Some (nsnToRemoteIfc s !! ("ns", "a")) ∧ locals (fabric s) = ∅.
Proof.
  eexists. split; [vm_compute; reflexivity|]. split; [by eexists; vm_compute|]. split; [by eexists; vm_compute|].
  vm_compute. reflexivity.
Qed.

Lemma start_leaves_no_orphans_witness :
  runs (syncPreExistingIfcs (caches [a0] []) 1) (NewConnectionAgent node_ifcs (store_of [a0])) (λ err s',
    err = None ∧ (map_to_list (Logger.localIfcs (fabric s'))).*1 = ["kos060000020007"] ∧ in_step s').
Proof.
  assert (Hc : runs (syncPreExistingIfcs (caches [a0] []) 1) (NewConnectionAgent node_ifcs (store_of [a0]))
    (λ err s', err = None ∧ (map_to_list (Logger.localIfcs (fabric s'))).*1 = ["kos060000020007"]))
    by (vm_compute; split; reflexivity).
  refine (runs_conseq _ _ _ _ (runs_and _ _ _ _ Hc (start_leaves_no_orphans ns_of hostIP allowed (caches [a0] []) 1
    logger_settles node_ifcs (store_of [a0]) node_ifcs_ok)) _).
  intros err s' ((E1 & E2) & Hs). split; [exact E1|]. split; [exact E2|]. by apply Hs.
Defined.

Lemma agent_runs_witness :
  runs (err ← syncPreExistingIfcs (caches [a0] []) 1;
        match err with
        | Some _ => mret tt
        | None => history "node1" hostIP allowed fmt_local fmt_remote
                    [LocalAdded (Object a0); WorkItem ("ns", "a") (caches [a0] []); CommandRuns 0 echo]
        end) (NewConnectionAgent node_ifcs (store_of [a0])) (λ _ s, ∀ nsn,
    is_Some (nsnToLocalMainState s !! nsn) → nsnToRemoteIfc s !! nsn = None).
Proof.
  refine (runs_conseq _ _ _ _ (agent_runs ns_of "node1" hostIP allowed (caches [a0] []) 1 logger_settles fmt_local
    fmt_remote node_ifcs (store_of [a0]) _ node_ifcs_ok _) _).
  - apply Forall_cons_2; [by exists a0|]. apply Forall_cons_2; [apply env_a_ok|]. by apply Forall_singleton.
  - intros u s (_ & _ & _ & Hone & _). exact Hone.
Defined.

(** The command that was launched for attachment a. *)
Definition a_launch : Launch :=
  MkLaunch ("ns", "a") (MkLocalIfc "kos060000020007" 7 [6; 0; 0; 2; 0; 7] (IPv4_16 10 0 0 2))
    ["/bin/echo"; "${ifname}"; "${ipv4}"] "postCreateExec" true.

Lemma report_is_published_witness :
  runs (RunCommand echo a_launch;; process a1) born (λ err s',
    err = None ∧ ∃ att1 u, att_Update att1 (api born) = (u, api s') ∧
      StdOut <$> PostCreateExecReport (na_Status att1) = Some "kos060000020007 10.0.0.2").
Proof.
  assert (Hc : runs (RunCommand echo a_launch;; process a1) born (λ err s', err = None)) by (vm_compute; reflexivity).
  refine (runs_conseq _ _ _ _ (runs_and _ _ _ _ Hc (report_is_published ns_of "node1" hostIP allowed fmt_local
    fmt_remote echo a_launch "/bin/echo" ["${ifname}"; "${ipv4}"] a1 [6; 0; 0; 2; 0; 7] born _ _ _ born_ok _ _ _ _ _ _)) _).
  - reflexivity.
  - reflexivity.
  - reflexivity.
  - split; [vm_compute; reflexivity|vm_compute; split; discriminate|].
    split; [vm_compute; reflexivity|]. vm_compute. repeat constructor; discriminate.
  - vm_compute. reflexivity.
  - vm_compute. reflexivity.
  - split; [vm_compute; reflexivity|]. eexists. split; [vm_compute; reflexivity|]. apply (bool_decide_unpack _). vm_compute. exact I.
  - unfold has_ifc. simpl. split; [vm_compute; reflexivity|]. eexists. split; [vm_compute; reflexivity|reflexivity].
  - vm_compute. reflexivity.
  - intros err s' (E & att1 & u & Eu & _ & _ & _ & Ep & _). split; [exact E|]. exists att1, u. split; [exact Eu|].
    rewrite Ep. vm_compute. reflexivity.
Defined.

End AgentRuns.
