(* ===== verification/AddressAgents.v ===== *)
(** * The connection agents and the addresses

    Whatever an agent does, it changes the API server by steps of
    [Addresses.system_step] only: it writes the status of attachments, and leaves
    their addresses as they are.  With [AddressSteps], the two controllers together
    refine the abstract system. *)

From S2P Require Import Prelude GoStr GoNet ApiTypes SubnetStrategy IpLock KosApi.
From S2P Require Import Fabric AgentIds Agent AgentNets AgentIfcs AgentCorrect AgentRuns.
From S2P Require Import Addresses AddressSteps AddressRuns IpamRuns.
Import GoNet Agent AgentNets AgentIfcs AgentCorrect Addresses.

Module AddressAgents.

Section Agents.
Context {F W : Type} `{NetFabric F, !NetFabricLaws F}.
Context `{KosClient W, !KosLaws W, !KosShared W}.
Variables (localNodeName : string) (hostIP : IP) (allowedPrograms : gset string).
Variables (fmt_local : LocalNetIfc → string) (fmt_remote : RemoteNetIfc → string).
#[local] Abbreviation St := (@State F W).
Implicit Types (s : St) (σ : Shared).

(** ** Computations that do not call the API server *)

Definition offline {A} (m : M St A) : Prop := ∀ s, ends m s (λ _ s', api s' = api s).

Lemma offline_ret {A} (a : A) : offline (mret a).
Proof. by intros s. Qed.

Lemma offline_bind {A B} (m : M St A) (f : A → M St B) :
  offline m → (∀ a, offline (f a)) → offline (m ≫= f).
Proof.
  intros Hm Hf s. apply ends_bind. eapply ends_conseq; [apply Hm|]. intros a s1 E. rewrite <- E. apply Hf.
Qed.

Lemma offline_get : offline get.
Proof. by intros s. Qed.
Lemma offline_gets {A} (f : St → A) : offline (gets f).
Proof. by intros s. Qed.
Lemma offline_panic {A} msg : offline (panic msg : M St A).
Proof. by intros s. Qed.
Lemma offline_lift {A} (r : res A) : offline (lift r).
Proof. intros s. unfold ends, lift. by destruct r. Qed.
Lemma offline_modify f : (∀ s, api (f s) = api s) → offline (modify f).
Proof. intros E s. apply E. Qed.
Lemma offline_fabric {A} (g : F → A * F) : offline (call_fabric g).
Proof. intros s. unfold ends, call_fabric. by destruct (g (fabric s)). Qed.

Create HintDb offline.
#[local] Hint Resolve offline_ret offline_get offline_gets offline_panic offline_lift offline_modify
  offline_fabric : offline.

Ltac offline_step :=
  match goal with
  | |- offline (_ ≫= _) => apply offline_bind; [|intros ?]
  | |- offline (modify _) => by apply offline_modify
  | |- offline (match ?x with _ => _ end) => destruct x
  | |- offline _ => by eauto with offline
  end.
Ltac offline_auto := repeat offline_step.

Lemma offline_enqueue c : offline (enqueue c).
Proof. by apply offline_modify. Qed.
Lemma offline_launch l : offline (launch l).
Proof. by apply offline_modify. Qed.
Lemma offline_addVNI nsn v : offline (addVNI nsn v).
Proof. by apply offline_modify. Qed.
Lemma offline_removeSeen nsn v : offline (removeSeenInVNI nsn v).
Proof. by apply offline_modify. Qed.
Lemma offline_unset_local nsn : offline (unsetLocalAttState nsn).
Proof. unfold unsetLocalAttState, set_locals, set_reports. offline_auto. Qed.
Lemma offline_report nsn r : offline (setExecReport nsn r).
Proof. unfold setExecReport, set_reports. offline_auto. Qed.
Lemma offline_local nsn : offline (getLocalAttState nsn).
Proof. unfold getLocalAttState. offline_auto. Qed.
#[local] Hint Resolve offline_enqueue offline_launch offline_addVNI offline_removeSeen
  offline_unset_local offline_report offline_local : offline.

Lemma offline_LaunchCommand nsn ifc cmd what doit rep :
  offline (LaunchCommand allowedPrograms nsn ifc cmd what doit rep).
Proof. unfold LaunchCommand. offline_auto. Qed.

Lemma offline_requeue ns v names : offline (requeue_remotes ns v names).
Proof. induction names; simpl; offline_auto. Qed.
#[local] Hint Resolve offline_LaunchCommand offline_requeue : offline.

Lemma offline_clear vn n v : offline (clearVNResources vn n v).
Proof. unfold clearVNResources, close_stopCh, set_stopChs. offline_auto. Qed.
#[local] Hint Resolve offline_clear : offline.

Lemma offline_departure n v : offline (updateVNStateAfterAttDeparture n v).
Proof. unfold updateVNStateAfterAttDeparture, removeAttFromVNState, set_vns. offline_auto. Qed.
#[local] Hint Resolve offline_departure : offline.

Lemma offline_updateVNState v nsn node : offline (updateVNState localNodeName v nsn node).
Proof.
  unfold updateVNState, updateVNStateForExistingAtt, join_vn, initVNState, getVNStateVNI, unsetVNStateVNI,
    setVNStateVNI, set_vns, set_vnis, set_stopChs. offline_auto.
Qed.

Lemma offline_deleted nsn : offline (processDeletedAtt allowedPrograms nsn).
Proof.
  unfold processDeletedAtt, getVNStateVNI, unsetVNStateVNI, set_vnis, DeleteLocalIfc, DeleteRemoteIfc,
    getRemoteIfc, unsetRemoteIfc, set_remotes. offline_auto.
Qed.

Lemma offline_ifc gip hip v nsn pc pd :
  offline (createOrUpdateIfc hostIP allowedPrograms fmt_local fmt_remote gip hip v nsn pc pd).
Proof.
  unfold createOrUpdateIfc, delete_old_ifc, create_ifc, DeleteLocalIfc, DeleteRemoteIfc, getRemoteIfc,
    unsetRemoteIfc, assignRemoteIfc, setLocalAttMainState, set_remotes, set_locals. offline_auto.
Qed.
#[local] Hint Resolve offline_updateVNState offline_deleted offline_ifc : offline.

Lemma offline_lookup E nsn : offline (getAttachment E nsn).
Proof. unfold getAttachment, combine_lookups, getAttSeenInVNI, getRemoteAttListerForVNI. offline_auto. Qed.

Lemma ends_offline {A} (m : M St A) s (Q : A → St → Prop) :
  offline m → (∀ a s', api s' = api s → Q a s') → ends m s Q.
Proof. intros Hm HQ. eapply ends_conseq; [apply Hm|apply HQ]. Qed.

(** ** What the caches show *)

Variable home : Z → string.
Hypothesis others_system : ∀ w w', others w w' → rtc (system_step home) (view w) (view w').

(** An object that an informer shows, however old: if its version is the one that is
    stored, it is what is stored. *)
Definition genuine σ (a : NetworkAttachment) : Prop :=
  version a ∈ sh_versions σ ∧
  ∀ a', sh_atts σ !! AttNSN a = Some a' → version a' = version a → a' = a.

(** Such an object stays one. *)
Lemma genuine_put σ a k a' : version a' ∉ sh_versions σ → genuine σ a → genuine (put_att k a' σ) a.
Proof.
  intros Hn [Hv Hs]. split; simpl; [set_solver|]. intros a2 [[_ <-]|[_ Ha2]]%lookup_insert_Some E; [|by apply Hs].
  by rewrite E in Hn.
Qed.

Lemma genuine_step σ σ' a : system_step home σ σ' → genuine σ a → genuine σ' a.
Proof.
  intros [k ?? [σ1 l|σ1 n l|σ1 a0 a' ? ? Hn]|?? [σ1 k a' ? ? Hn|σ1 k|σ1 k a0 a' ? ? Hn|σ1 l|σ1 key l]] Hg;
    try (by apply genuine_put); try done.
  destruct Hg as [Hv Hs]. split; [done|]. simpl. intros a2 [_ Ha2]%lookup_delete_Some. by apply Hs.
Qed.

Lemma genuine_steps σ σ' a : rtc (system_step home) σ σ' → genuine σ a → genuine σ' a.
Proof. induction 1; intros Hg; [done|eauto using genuine_step]. Qed.

Definition shows_genuine (E : AgentEnv) σ : Prop :=
  (∀ ns n a, localAttsLister_Get E ns n = inr a → genuine σ a) ∧
  (∀ id n a, remoteAttsLister_Get E id n = inr a → genuine σ a).

Lemma getAttachment_shown E nsn s :
  shows_genuine E (view (api s)) →
  ends (getAttachment E nsn) s (λ r s', api s' = api s ∧ ∀ a, r.1 = Some a → genuine (view (api s)) a).
Proof.
  intros [Hl Hr].
  assert (Hc : ∀ rem s1, api s1 = api s → (∀ a, rem = Some (inr a) → genuine (view (api s)) a) →
    ends (combine_lookups (localAttsLister_Get E nsn.1 nsn.2) rem) s1
      (λ r s', api s' = api s ∧ ∀ a, r.1 = Some a → genuine (view (api s)) a)).
  { intros rem s1 E1 Hrem. unfold combine_lookups. destruct (_ || _).
    { destruct (aggregateErrors _ _); [|done]. by apply ends_ret. }
    destruct (localAttsLister_Get E nsn.1 nsn.2) as [e|al] eqn:El, rem as [[|ar]|]; apply ends_ret;
      (split; [done|]); intros a Ea; simplify_eq/=; eauto. }
  unfold getAttachment. apply ends_bind, ends_offline; [by unfold getAttSeenInVNI; apply offline_bind; intros; [apply offline_gets|apply offline_ret]|].
  intros [vni n] s1 E1. destruct (1 <? n)%nat; [by apply ends_ret|].
  destruct (n =? 1)%nat; [|by apply ends_bind, ends_ret, Hc].
  apply ends_bind, ends_bind, ends_offline; [apply offline_gets|]. intros lister s2 E2.
  apply ends_ret, Hc; [by rewrite E2|]. intros a. destruct lister as [id|]; [|done]. simpl.
  intros [= Ea]. by eapply Hr.
Qed.

(** ** Writing a status *)

Lemma setAttStatus_steps att mac n errs r s :
  genuine (view (api s)) att →
  ends (setAttStatus hostIP att mac n errs r) s (λ _ s',
    rtc (system_step home) (view (api s)) (view (api s'))).
Proof.
  intros Hg. unfold ends, setAttStatus, call_api. set (sent := status_with hostIP att mac n errs r).
  destruct (update_step sent (api s)) as (w0 & Ho & Hu). apply others_system in Ho.
  destruct (att_Update sent (api s)) as [[e|att2] w1]; simpl; [by rewrite Hu|].
  destruct Hu as (old & Hold & Ev & (_ & Eu & _ & Est) & Hn & ->).
  apply (genuine_steps _ _ _ Ho) in Hg as [_ Hg]. assert (old = att) as -> by by apply Hg.
  etrans; [done|]. apply rtc_once, ss_outside, (os_change _ _ _ att); [done| |done].
  unfold same_address. by rewrite Eu, Est.
Qed.

Lemma processExistingAtt_steps att s :
  genuine (view (api s)) att →
  ends (processExistingAtt localNodeName hostIP allowedPrograms fmt_local fmt_remote att) s (λ _ s',
    rtc (system_step home) (view (api s)) (view (api s'))).
Proof.
  intros Hg. unfold processExistingAtt. apply ends_bind, ends_offline; [apply offline_updateVNState|].
  intros [vn none] s1 E1. rewrite <- E1 in *. clear s E1. destruct vn as [vn|].
  { apply ends_bind, ends_offline; [apply offline_clear|]. intros _ s2 E2. apply ends_ret. by rewrite E2. }
  destruct none.
  { apply ends_bind, ends_offline; [apply offline_removeSeen|]. intros _ s2 E2. rewrite <- E2 in *.
    eapply ends_offline; [apply offline_deleted|]. intros _ s3 E3. by rewrite E3. }
  apply ends_bind, ends_offline; [apply offline_ifc|]. intros r s2 E2. rewrite <- E2 in *. clear s1 E2.
  destruct r as [e|[[[mac n] errs] pcer]]; [by apply ends_ret|].
  destruct (negb _); [by apply ends_ret|]. destruct (status_current _ _ _ _ _ _); [by apply ends_ret|].
  apply ends_bind. eapply ends_conseq; [by apply setAttStatus_steps|]. intros u s3 Hr. by apply ends_ret.
Qed.

Lemma item_steps E nsn s :
  shows_genuine E (view (api s)) →
  ends (processQueueItem localNodeName hostIP allowedPrograms fmt_local fmt_remote E nsn) s (λ _ s',
    rtc (system_step home) (view (api s)) (view (api s'))).
Proof.
  intros HE. unfold processQueueItem. apply ends_bind. eapply ends_conseq.
  { unfold processNetworkAttachment. apply ends_bind. eapply ends_conseq; [by apply getAttachment_shown|].
    intros [att gone] s1 [E1 Hg]. cbn [fst] in Hg. rewrite <- E1 in *.
    instantiate (1 := λ _ s', rtc (system_step home) (view (api s)) (view (api s'))). simpl. rewrite <- E1.
    destruct att as [att|]; [by apply processExistingAtt_steps, Hg|].
    destruct gone; [|by apply ends_ret]. eapply ends_offline; [apply offline_deleted|].
    intros _ s2 E2. by rewrite E2. }
  intros err s1 Hr. simpl in Hr. eapply ends_offline; [|intros _ s2 E2; by rewrite E2].
  apply offline_bind; [|intros _; apply offline_enqueue]. destruct err; apply offline_enqueue.
Qed.

Lemma handle_steps ev s :
  (∀ nsn E, ev = WorkItem nsn E → shows_genuine E (view (api s))) →
  ends (handle localNodeName hostIP allowedPrograms fmt_local fmt_remote ev) s (λ _ s',
    rtc (system_step home) (view (api s)) (view (api s'))).
Proof.
  intros Hev. destruct ev as [| | | | | |nsn E|]; [..|by apply item_steps, (Hev nsn)|];
    (eapply ends_offline; [|intros _ s' E; by rewrite E]); simpl;
    unfold onLocalAttAdded, onLocalAttUpdated, onLocalAttRemoved, onRemoteAttAdded, onRemoteAttUpdated,
      onRemoteAttRemoved, RunCommand;
    repeat first [apply offline_report | apply offline_bind; [|intros ?] | apply offline_lift | apply offline_enqueue
      | apply offline_addVNI | apply offline_removeSeen | apply offline_gets | apply offline_ret | apply offline_panic
      | match goal with |- offline (match ?x with _ => _ end) => destruct x end].
Qed.

End Agents.

Section Refine.
Context {F W : Type} `{NetFabric F, !NetFabricLaws F}.
Context `{KosClient W, !KosLaws W, !KosShared W}.
Variables (ns_of : Z → string) (localNodeName : string) (hostIP : IP) (allowedPrograms : gset string).
Variables (fmt_local : LocalNetIfc → string) (fmt_remote : RemoteNetIfc → string).
Variable home : Z → string.
Implicit Types s : @State F W.

(** C23: whatever happens to an agent (notifications, work items, commands that end), and
    however old the objects that its caches show, it goes on without panic, and changes
    the API server by steps of the abstract address system only: while it is at work, too,
    no two attachments have one address. *)
Theorem agent_refines ev s :
  (∀ w w', others w w' → rtc (system_step home) (view w) (view w')) →
  event_ok ns_of ev → agent_inv ns_of hostIP allowedPrograms s → inv home (view (api s)) →
  (∀ nsn E, ev = WorkItem nsn E → shows_genuine E (view (api s))) →
  runs (handle localNodeName hostIP allowedPrograms fmt_local fmt_remote ev) s (λ _ s',
    agent_inv ns_of hostIP allowedPrograms s' ∧
    rtc (system_step home) (view (api s)) (view (api s')) ∧
    inv home (view (api s')) ∧ distinct_addresses (view (api s'))).
Proof.
  intros Ho Hev Hi Hinv HE.
  assert (Hr := handle_runs ns_of localNodeName hostIP allowedPrograms fmt_local fmt_remote ev s Hev Hi).
  assert (Hst := runs_ends _ _ _ _ Hr (handle_steps localNodeName hostIP allowedPrograms fmt_local fmt_remote
    home Ho ev s HE)).
  refine (runs_conseq _ _ _ _ (runs_and _ _ _ _ Hr Hst) _).
  intros _ s' [Hi' Hs]. pose proof (system_inv _ _ _ Hs Hinv) as Hinv'.
  split; [done|]. split; [done|]. split; [done|]. by eapply inv_distinct.
Qed.

End Refine.

(** ** An agent at work *)

Import AddressRuns.

(** The attachment of [AgentRuns], with the lock behind its address. *)
Definition a_lock : IPLock := IpamRuns.lock_of "ns" "v1-7-10-0-0-2" "a" "lock" "a".
Definition a_world : Shared :=
  MkShared {[("ns", "v1-7-10-0-0-2") := a_lock]} {[("ns", "a") := AgentRuns.a0]}
    {["lock" := (("ns", "v1-7-10-0-0-2"), ("a", "a"))]} {["1"]}.

Lemma a_lock_names : names 7 167772162 "v1-7-10-0-0-2".
Proof. split; [unfold maxVNI; lia|]. split; [unfold is_u32; lia|reflexivity]. Qed.

Lemma a_world_inv : inv AgentRuns.ns_of a_world.
Proof.
  split; simpl.
  - by intros key ipl [<- <-]%lookup_singleton_Some.
  - intros u key o [<- [= <- <-]]%lookup_singleton_Some. exists 7, 167772162. split; [apply a_lock_names|done].
  - intros k a [<- <-]%lookup_singleton_Some. by apply elem_of_singleton.
  - intros k a [<- <-]%lookup_singleton_Some _. exists "v1-7-10-0-0-2", a_lock. split; [done|].
    exists 167772162. split; [apply a_lock_names|]. by repeat split.
Qed.

Lemma a0_genuine : genuine a_world AgentRuns.a0.
Proof.
  split.
  - apply (bool_decide_unpack _). vm_compute. exact I.
  - intros a2 Ha2 _. simpl in Ha2. by apply lookup_singleton_Some in Ha2 as [_ <-].
Qed.

Definition an_agent : @State Logger.logger Shared := NewConnectionAgent Logger.new a_world.

Lemma agent_refines_witness :
  runs (handle "node1" AgentRuns.hostIP AgentRuns.allowed AgentRuns.fmt_local AgentRuns.fmt_remote
      (WorkItem ("ns", "a") (AgentRuns.caches [AgentRuns.a0] []))) an_agent
    (λ _ s', rtc (system_step AgentRuns.ns_of) a_world (api s') ∧ distinct_addresses (api s')).
Proof.
  refine (runs_conseq _ _ _ _ (@agent_refines Logger.logger Shared _ _ AddressRuns.server_client
    (AddressRuns.server_laws AgentRuns.ns_of ("ns", "a")) (AddressRuns.server_shared AgentRuns.ns_of ("ns", "a")) AgentRuns.ns_of
    "node1" AgentRuns.hostIP AgentRuns.allowed AgentRuns.fmt_local AgentRuns.fmt_remote AgentRuns.ns_of
    (WorkItem ("ns", "a") (AgentRuns.caches [AgentRuns.a0] [])) an_agent _ _ _ _ _) _).
  - intros w w'. apply elsewhere_system.
  - apply AgentRuns.env_a_ok.
  - apply agent_inv_new, Logger.new_ok.
  - apply a_world_inv.
  - intros nsn E [= <- <-]. split.
    + intros ns n a. simpl. case_bool_decide; [|done]. intros [= <-]. apply a0_genuine.
    + done.
  - intros u s' (_ & Hs & _ & Hd). by split.
Defined.

End AddressAgents.
