(* ===== verification/AddressSystem.v ===== *)
(** * The program at work on one API server

    The IPAM controller and the connection agents as they take turns on one API server: a turn
    is a run of a handler of [Ipam] or [Agent], in any local state, or a step of the users, operators
    and the garbage collector.  Along all turns no two attachments have one address.
    Here the steps of [Addresses] are not assumed of the program: each is proved of its
    code, in [AddressSteps] and [AddressAgents]. *)

From S2P Require Import Prelude GoStr GoNet ApiTypes SubnetStrategy IpLock KosApi UInt32Set SortedSet Fabric AgentIds.
From S2P Require Import Ipam IpamCorrect IpamCache KosListers IpamHistory Agent AgentNets AgentIfcs AgentCorrect AgentRuns.
From S2P Require Import Addresses AddressSteps IpamRuns AddressRuns AddressAgents.
Import Addresses AddressSteps AddressAgents.

Module AddressSystem.

Section System.
Context {S W F : Type} `{UInt32Set S, !UInt32SetChooser S, !SetLaws S, !ChooserLaws S}.
Context `{NetFabric F, !NetFabricLaws F, KosClient W}.
Variable new_set : S.
Hypothesis new_set_ok : set_ok new_set.
Hypothesis new_set_empty : ∀ x, ¬ set_mem new_set x.
Variable home : Z → string.

(** One server, as the worker of each attachment sees it, who shares it with everybody else, and as
    an agent sees it. *)
Context (laws : NSN → KosLaws W) (shared : ∀ k, @KosShared W _ (laws k)).
Context (agent_laws : KosLaws W) (agent_shared : @KosShared W _ agent_laws).
Variable content : W → Shared.
Hypothesis view_content : ∀ k w, @view W _ (laws k) (shared k) w = content w.
Hypothesis agent_view : ∀ w, @view W _ agent_laws agent_shared w = content w.
Hypothesis others_elsewhere : ∀ k w w',
  @others W _ (laws k) w w' → rtc (elsewhere home k) (content w) (content w').
Hypothesis others_system : ∀ w w',
  @others W _ agent_laws w w' → rtc (system_step home) (content w) (content w').
Hypothesis server_accepts : never_refused (W := W).

(** What the caches of a worker show: its attachment, the locks under its name and its subnet, up to date. *)
Definition shown_up_to_date (e : IpamHistory.Event (W := W)) (w : W) : Prop :=
  match e with
  | IpamHistory.WorkItem nsn r L =>
      IpamCorrect.listers_ok L ∧ sees home nsn.1 nsn.2 (shown L nsn.1 nsn.2) L (content w)
  | IpamHistory.Elsewhere _ => False
  | _ => True
  end.

(** One turn: the controller or an agent handles a notification or a work item, while others use the server
    between its calls; or the others alone take steps. *)
Inductive turn (w w' : W) : Prop :=
| turn_controller fuel e (s s' : @Ipam.State S W) :
    Ipam.world s = w → shown_up_to_date e w →
    IpamHistory.handle new_set fuel e s = Ok (tt, s') → Ipam.world s' = w' → turn w w'
| turn_agent localNodeName hostIP allowed fmt_local fmt_remote ev (s s' : @Agent.State F W) :
    Agent.api s = w → (∀ nsn E, ev = AgentCorrect.WorkItem nsn E → shows_genuine E (content w)) →
    AgentCorrect.handle localNodeName hostIP allowed fmt_local fmt_remote ev s = Ok (tt, s') →
    Agent.api s' = w' → turn w w'
| turn_others : rtc (outside_step home) (content w) (content w') → turn w w'.

Lemma enqueue_all_quiet l : quiet (S := S) (W := W) (Ipam.enqueue_all l).
Proof.
  induction l as [|k l IH]; simpl; [apply quiet_ret|]. apply quiet_bind; [|done]. by intros s.
Qed.

Lemma lock_notify_quiet ipl b : quiet (Ipam.OnLockNotify (W := W) new_set ipl b).
Proof.
  unfold Ipam.OnLockNotify. destruct (parseIPLockName _) as [[v x]|]; [|apply quiet_ret].
  apply quiet_bind; [|intros _; apply enqueue_all_quiet]. destruct b; [|apply quiet_ReleaseAddress].
  unfold Ipam.TakeAddress, Ipam.ensure_set. apply quiet_bind; [apply quiet_set_cache|intros _; apply quiet_on_set].
Qed.

(** What is not a work item does not call the server. *)
Lemma notification_quiet fuel e :
  match e with IpamHistory.WorkItem _ _ _ | IpamHistory.Elsewhere _ => True | _ => quiet (IpamHistory.handle (W := W) new_set fuel e) end.
Proof.
  destruct e; simpl; try done;
    unfold Ipam.OnSubnetCreate, Ipam.OnSubnetUpdate, Ipam.OnSubnetDelete, Ipam.OnSubnetNotify,
      Ipam.OnAttachmentCreate, Ipam.OnAttachmentUpdate, Ipam.OnAttachmentDelete, Ipam.OnLockCreate, Ipam.OnLockUpdate,
      Ipam.OnLockDelete;
    repeat first [apply lock_notify_quiet | apply enqueue_all_quiet | apply quiet_bind; [|intros ?] | apply quiet_lift
      | apply quiet_ret | by intros s | match goal with |- quiet (match ?x with _ => _ end) => destruct x end].
Qed.

Lemma controller_turn fuel e (s s' : @Ipam.State S W) :
  shown_up_to_date e (Ipam.world s) → inv home (content (Ipam.world s)) →
  IpamHistory.handle new_set fuel e s = Ok (tt, s') →
  rtc (system_step home) (content (Ipam.world s)) (content (Ipam.world s')).
Proof.
  intros Hup Hi E. pose proof (notification_quiet fuel e) as Hq.
  destruct e as [| | | | | | | | |nsn r L|]; try (by specialize (Hq s); unfold ends in Hq; rewrite E in Hq; rewrite Hq); [|done].
  destruct Hup as [HL Hsee].
  assert (He : ends (Ipam.processQueueItem new_set fuel r L nsn) s (λ _ s',
    rtc (system_step home) (content (Ipam.world s)) (content (Ipam.world s')))).
  { unfold Ipam.processQueueItem. apply ends_bind. eapply ends_conseq.
    - apply (@process_steps S W _ _ _ _ _ (laws nsn) (shared nsn) new_set new_set_ok new_set_empty home fuel r L nsn.1 nsn.2 s);
        rewrite ?view_content; try done.
      intros w w'. rewrite !view_content. destruct nsn. apply others_elsewhere.
    - intros err s1. cbn beta. rewrite !view_content. intros Hr. destruct err; apply ends_bind, ends_conseq with (λ _ s2, Ipam.world s2 = Ipam.world s1);
        try done; intros _ s2 E2; unfold ends, Ipam.enqueue, modify; simpl; by rewrite E2. }
  unfold ends in He. simpl in E. by rewrite E in He.
Qed.

Lemma turn_system w w' : turn w w' → inv home (content w) → rtc (system_step home) (content w) (content w').
Proof.
  intros [fuel e s s' <- Hup E <-|n h p fl fr ev s s' <- Hg E <-|Ho] Hi.
  - by eapply controller_turn.
  - pose proof (@handle_steps F W _ _ agent_laws agent_shared n h p fl fr home) as Hs.
    assert (He : ends (AgentCorrect.handle n h p fl fr ev) s (λ _ s',
      rtc (system_step home) (content (Agent.api s)) (content (Agent.api s')))).
    { eapply ends_conseq; [apply Hs|].
      - intros w w'. rewrite !agent_view. apply others_system.
      - intros nsn E'. rewrite agent_view. by apply Hg.
      - intros [] s1. by rewrite !agent_view. }
    unfold ends in He. by rewrite E in He.
  - revert Ho. apply (rtc_subrel (outside_step home) (system_step home)). intros ??. by apply ss_outside.
Qed.


End System.

(** ** Turns on a concrete server *)

Import IpamRuns AddressRuns.

(** The controller processes attachment foo, which then has an address. *)
Definition foo_item : IpamHistory.Event (W := Shared) :=
  IpamHistory.WorkItem ("nsA", "foo") rng0 (listers [foo] []).

Definition addressed : Shared :=
  match IpamHistory.handle new_set 1 foo_item (Ipam.MkState ∅ ∅ [] before) with
  | Ok (_, s') => Ipam.world s'
  | Panic _ => before
  end.

Abbreviation turn1 := (@turn _ Shared Logger.logger _ _ _ server_client new_set home1 (λ σ, σ)).

Lemma foo_turn : turn1 before addressed.
Proof.
  apply (turn_controller _ _ _ _ _ 1 foo_item (Ipam.MkState ∅ ∅ [] before)
    (match IpamHistory.handle new_set 1 foo_item (Ipam.MkState ∅ ∅ [] before) with
     | Ok (_, s') => s' | Panic _ => Ipam.MkState ∅ ∅ [] before end)).
  - done.
  - split; [apply listers_fine_foo|apply before_seen].
  - vm_compute. reflexivity.
  - vm_compute. reflexivity.
Qed.


End AddressSystem.
