(* ===== verification/AgentSelect.v ===== *)
(** * What the connection agent asks the API server for

    The field selectors with which the agent's informers list and watch attachments
    ([connectionagent.go]), and what the API server gives them: what a cache of the
    agent can hold. *)

From S2P Require Import Prelude GoStr GoNet ApiTypes FieldSelect Registry.
Import GoNet FieldSelect.

Module AgentSelect.

Definition attNode : string := "spec.node".
Definition attIPv4 : string := "status.ipv4".
Definition attHostIP : string := "status.hostIP".
Definition attVNI : string := "status.addressVNI".

Section Select.
Context `{FieldsLib}.

(** The fields of the agent that the selectors use. *)
Context (localNodeName : string) (hostIP : IP).

Definition localAttWithAnIPSelector : Selector :=
  AndSelectors [OneTermEqualSelector attNode localNodeName; OneTermNotEqualSelector attIPv4 ""].

Definition remoteAttInVNWithVirtualIPHostIPSelector (vni : Z) : Selector :=
  AndSelectors
    [OneTermNotEqualSelector attNode localNodeName; OneTermNotEqualSelector attHostIP (IP_String hostIP);
     OneTermNotEqualSelector attIPv4 ""; OneTermNotEqualSelector attHostIP "";
     OneTermEqualSelector attVNI (fmt_d vni)].

(** The field selector of a request; [optionsFieldSelector] is the one it has already. *)
Definition fromFieldsSelectorToTweakListOptionsFunc (customFieldSelector optionsFieldSelector : string) : string :=
  str_join "," ((if str_forall (λ c, char_is c " ") optionsFieldSelector then [] else [optionsFieldSelector]) ++
                [customFieldSelector]).

(** The requests of the two kinds of informers, which come without a selector. *)
Definition local_request : string :=
  fromFieldsSelectorToTweakListOptionsFunc (Selector_String localAttWithAnIPSelector) "".
Definition remote_request (vni : Z) : string :=
  fromFieldsSelectorToTweakListOptionsFunc (Selector_String (remoteAttInVNWithVirtualIPHostIPSelector vni)) "".

(** What the attachment must be to be served. *)
Definition is_local (a : NetworkAttachment) : Prop :=
  Node (na_Spec a) = localNodeName ∧ StatusIPv4 (na_Status a) ≠ "".
Definition is_remote (vni : Z) (a : NetworkAttachment) : Prop :=
  Node (na_Spec a) ≠ localNodeName ∧ StatusIPv4 (na_Status a) ≠ "" ∧ HostIP (na_Status a) ≠ "" ∧
  HostIP (na_Status a) ≠ IP_String hostIP ∧ AddressVNI (na_Status a) = vni.

#[export] Instance is_local_dec a : Decision (is_local a).
Proof. unfold is_local. apply _. Defined.
#[export] Instance is_remote_dec vni a : Decision (is_remote vni a).
Proof. unfold is_remote. apply _. Defined.

(** The answer of the API server for an attachment. *)
Definition served_attachment (request : string) (a : NetworkAttachment) : option bool :=
  served request convertNetworkAttachmentFields (attachment_SelectableFields a).
End Select.

(** ** The answers *)

Section Served.
Context `{FieldsLaws} (localNodeName : string) (hostIP : IP).

(** A term on one of the fields of an attachment. *)
Lemma term_matches (a : NetworkAttachment) (eq : bool) k v x :
  (k, x) ∈ field_of a →
  req_matches (attachment_SelectableFields a) (MkReq eq k v) = Bool.eqb eq (String.eqb x v).
Proof. intros Hk. unfold req_matches. cbn. by rewrite (proj1 (selectable_fields a k x Hk)). Qed.

Lemma node_term a eq v :
  req_matches (attachment_SelectableFields a) (MkReq eq attNode v) = Bool.eqb eq (String.eqb (Node (na_Spec a)) v).
Proof. apply term_matches. by apply (list_elem_of_lookup_2 _ 2). Qed.
Lemma ipv4_term a eq v :
  req_matches (attachment_SelectableFields a) (MkReq eq attIPv4 v) = Bool.eqb eq (String.eqb (StatusIPv4 (na_Status a)) v).
Proof. apply term_matches. by apply (list_elem_of_lookup_2 _ 4). Qed.
Lemma host_term a eq v :
  req_matches (attachment_SelectableFields a) (MkReq eq attHostIP v) = Bool.eqb eq (String.eqb (HostIP (na_Status a)) v).
Proof. apply term_matches. by apply (list_elem_of_lookup_2 _ 5). Qed.
Lemma vni_term a eq v :
  req_matches (attachment_SelectableFields a) (MkReq eq attVNI v) =
    Bool.eqb eq (String.eqb (FormatUint (AddressVNI (na_Status a)) 10) v).
Proof. apply term_matches. by apply (list_elem_of_lookup_2 _ 6). Qed.

Lemma served_terms s a (rs : list Requirement) :
  Requirements s = rs → rs ≠ [] → Forall (λ r, rq_field r ∈ [attNode; attIPv4; attHostIP; attVNI]) rs →
  served_attachment (Selector_String s) a = Some (forallb (req_matches (attachment_SelectableFields a)) rs).
Proof.
  intros <- Hne Hf. apply served_String; [done|]. eapply Forall_impl; [exact Hf|]. intros [eq k v] Hk. cbn in *.
  unfold convertNetworkAttachmentFields.
  repeat (apply elem_of_cons in Hk as [->|Hk]; [done|]). by apply elem_of_nil in Hk.
Qed.

Lemma vni_text a vni :
  is_u32 (AddressVNI (na_Status a)) → is_u32 vni →
  String.eqb (FormatUint (AddressVNI (na_Status a)) 10) (fmt_d vni) = bool_decide (AddressVNI (na_Status a) = vni).
Proof.
  unfold is_u32. intros Ha Hv. destruct (String.eqb_spec (FormatUint (AddressVNI (na_Status a)) 10) (fmt_d vni)) as [E|Hne].
  - rewrite bool_decide_eq_true_2; [done|]. by apply (FormatUint_inj 10); try lia.
  - rewrite bool_decide_eq_false_2; [done|]. by intros <-.
Qed.

(** C31: the API server gives the agent exactly the attachments it means to ask for: in the
    cache of local attachments those of its node that have an address, in the cache of a
    virtual network those of the network on other nodes with an address and another host;
    no attachment is for both. *)
Theorem caches_are_selected (a : NetworkAttachment) vni :
  is_u32 (AddressVNI (na_Status a)) → is_u32 vni →
  served_attachment (local_request localNodeName) a = Some (bool_decide (is_local localNodeName a)) ∧
  served_attachment (remote_request localNodeName hostIP vni) a = Some (bool_decide (is_remote localNodeName hostIP vni a)) ∧
  ¬ (is_local localNodeName a ∧ is_remote localNodeName hostIP vni a).
Proof.
  intros Ha Hv. unfold local_request, remote_request, fromFieldsSelectorToTweakListOptionsFunc. cbn [str_forall app str_join].
  split_and!; [| |unfold is_local, is_remote; naive_solver].
  - erewrite served_terms; [|by unfold localAttWithAnIPSelector; rewrite Requirements_and; cbn [fmap list_fmap concat];
      rewrite Requirements_equal, Requirements_not_equal|done|repeat constructor].
    f_equal. cbn [forallb app]. rewrite node_term, ipv4_term.
    unfold is_local. destruct (String.eqb_spec (Node (na_Spec a)) localNodeName), (String.eqb_spec (StatusIPv4 (na_Status a)) "");
      by case_bool_decide; naive_solver.
  - erewrite served_terms; [|by unfold remoteAttInVNWithVirtualIPHostIPSelector; rewrite Requirements_and; cbn [fmap list_fmap concat];
      rewrite Requirements_equal, !Requirements_not_equal|done|].
    + f_equal. cbn [forallb app]. rewrite node_term, !host_term, ipv4_term, vni_term, vni_text by done.
      unfold is_remote. destruct (String.eqb_spec (Node (na_Spec a)) localNodeName), (String.eqb_spec (StatusIPv4 (na_Status a)) ""),
        (String.eqb_spec (HostIP (na_Status a)) ""), (String.eqb_spec (HostIP (na_Status a)) (IP_String hostIP));
        by repeat case_bool_decide; naive_solver.
    + repeat constructor.
Qed.
End Served.

(** ** A remote attachment *)

#[local] Existing Instances Text.text_fields Text.text_laws.

Definition remote_att : NetworkAttachment :=
  MkNA (MkMeta "ns" "a" "" "" 0 [] ∅ false) (MkNASpec "node,2" "s" [] [])
    (MkNAStatus (MkNAErrors [] []) "" 7 "10.0.0.3" "" "" "192.168.0.2" None).

Example local_text :
  local_request "node,2" = "spec.node=node\,2,status.ipv4!=".
Proof. reflexivity. Qed.

Lemma caches_are_selected_witness :
  served_attachment (local_request "node,2") remote_att = Some true ∧
  served_attachment (remote_request "n1" [192; 168; 0; 1] 7) remote_att = Some true.
Proof.
  destruct (caches_are_selected "node,2" [192; 168; 0; 1] remote_att 7) as [E1 _]; [done|done|].
  destruct (caches_are_selected "n1" [192; 168; 0; 1] remote_att 7) as (_ & E2 & _); [done|done|].
  split; [exact E1|exact E2].
Defined.
End AgentSelect.
