(* ===== verification/AgentMain.v ===== *)
(** * The process of the connection agent

    [cmd/controllers/connectionagent/main.go], and how the agent of [Agent] gets its
    informers and workers ([connectionagent.go]).  Calls on the informer library are in the
    state ([Informers.State]); host name, configuration, clients, the answers of the API
    server and whether the caches sync are the environment's. *)

From S2P Require Import Prelude GoStr GoNet ApiTypes FieldSelect Registry Informers IpamMain Fabric Agent AgentSelect.
Import GoNet FieldSelect Informers.

Module AgentMain.

(** ** main.go *)

Record Flags := MkFlags {
  nodeName : string; hostIP : string; netFabricName : string; allowedPrograms : string;
  kubeconfigFilename : string; workers : Z; clientQPS : Z; clientBurst : Z }.

Definition defaults : Flags := MkFlags "" "" "" "" "" 2 100 200.

(** One try to find the service of the API servers. *)
Inductive Attempt := NoClientset (err : error) | NoService (err : error) | Service (ClusterIP : string).

Definition cluster_ip (a : Attempt) : option string :=
  match a with
  | Service ip => if String.eqb ip "" || String.eqb ip "None" then None else Some ip
  | _ => None
  end.

(** Durations are in nanoseconds. *)
Definition Second : Z := 10 ^ 9.
Definition Minute : Z := 60 * Second.

Definition next_pause (pause : Z) : Z :=
  let pause := 2 * pause in if Minute <? pause then Minute else pause.

(** The loop: the [n]th try and what follows; the address and the pauses made.  [None]: it
    is still trying when the fuel is used up. *)
Fixpoint find_service (fuel : nat) (attempts : nat → Attempt) (n : nat) (pause : Z) : option (string * list Z) :=
  match fuel with
  | O => None
  | S fuel =>
      match cluster_ip (attempts n) with
      | Some ip => Some (ip +:+ ":443", [])
      | None =>
          '(host, pauses) ← find_service fuel attempts (S n) (next_pause pause);
          Some (host, pause :: pauses)
      end
  end.

Section Main.
Context {F W C : Type}.

Record Env := MkEnv {
  Hostname : error + string;
  factoryRegistry : gmap string (error + F);
  BuildConfigFromFlags : string → error + IpamMain.Config C;
  attempts : nat → Attempt;
  NewForConfig : IpamMain.Config C → option error }.

(** What the agent is made from, when the process gets that far. *)
Record Started := MkStarted {
  localNodeName : string; agentHostIP : IP; clientCfg : IpamMain.Config C; netFabric : F;
  allowedProgramsSet : gset string; ca_workers : Z; pauses : list Z }.

Inductive Outcome := Exit (code : Z) | StillTrying | Starts (ca : Started).

Definition main (fuel : nat) (fl : Flags) (E : Env) : Outcome :=
  match (if String.eqb (nodeName fl) "" then Hostname E else inr (nodeName fl)) with
  | inl _ => Exit 2
  | inr node =>
      if String.eqb (hostIP fl) "" then Exit 3
      else
        match Factory.NewNetFabricForName (netFabricName fl) (factoryRegistry E) with
        | inl _ => Exit 4
        | inr fabric =>
            match BuildConfigFromFlags E (kubeconfigFilename fl) with
            | inl _ => Exit 5
            | inr c =>
                match find_service fuel (attempts E) 0 Second with
                | None => StillTrying
                | Some (host, ps) =>
                    let cc := IpamMain.MkConfig (IpamMain.cfg _ c) (clientQPS fl) (clientBurst fl) host true in
                    let programs := list_to_set (split_on "," (allowedPrograms fl)) in
                    match NewForConfig E cc with
                    | Some _ => Exit 6
                    | None => Starts (MkStarted node (ParseIP (hostIP fl)) cc fabric programs (workers fl) ps)
                    end
                end
            end
        end
  end.

(** [NewConnectionAgent] gives it its empty maps. *)
Definition new_agent (ca : Started) (w : W) : @Agent.State F W := Agent.NewConnectionAgent (netFabric ca) w.
End Main.
Arguments Started : clear implicits.
Arguments Outcome : clear implicits.

(** ** The informers of the agent *)

Section Wiring.
Context `{FieldsLib}.
Context (localNodeName : string) (hostIP : IP).

Definition resyncPeriod : Z := 0.
Definition attVNIAndIPIndexerName : string := "attachmentVNIAndIP".

Definition createAttsv1a1Informer (resync : Z) (namespace : string) (tweak : Tweak) : M State Accessor :=
  localAttsInformerFactory ← NewFilteredSharedInformerFactory resync namespace tweak;
  Network localAttsInformerFactory NetworkAttachments.

Definition v1a1AttsCustomInformerAndLister (resync : Z) (tweak : Tweak) : M State (nat * nat) :=
  attv1a1Informer ← createAttsv1a1Informer resync NamespaceAll tweak;
  i ← Informer_ attv1a1Informer;
  l ← Lister attv1a1Informer;
  mret (i, l).

(** The lister of one namespace. *)
Definition v1a1AttsCustomNamespaceInformerAndLister (resync : Z) (namespace : string) (tweak : Tweak)
    : M State (nat * (nat * string)) :=
  attv1a1Informer ← createAttsv1a1Informer resync namespace tweak;
  i ← Informer_ attv1a1Informer;
  l ← Lister attv1a1Informer;
  mret (i, (l, namespace)).

Definition initLocalAttsInformerAndLister : M State (nat * nat) :=
  '(i, l) ← v1a1AttsCustomInformerAndLister resyncPeriod
    (AgentSelect.fromFieldsSelectorToTweakListOptionsFunc
      (Selector_String (AgentSelect.localAttWithAnIPSelector localNodeName)));
  call (AddIndexers i [attVNIAndIPIndexerName]);;
  call (AddEventHandler i);;
  mret (i, l).

(** What [initVNState] does with informers; [Agent.initVNState] is the rest. *)
Definition initVNState (vni : Z) (namespace : string) : M State (nat * (nat * string)) :=
  '(i, l) ← v1a1AttsCustomNamespaceInformerAndLister resyncPeriod namespace
    (AgentSelect.fromFieldsSelectorToTweakListOptionsFunc
      (Selector_String (AgentSelect.remoteAttInVNWithVirtualIPHostIPSelector localNodeName hostIP vni)));
  call (AddIndexers i [attVNIAndIPIndexerName]);;
  call (AddEventHandler i);;
  call (GoRun i);;
  mret (i, l).

Fixpoint initVNStates (vns : list (Z * string)) : M State (list (nat * (nat * string))) :=
  match vns with
  | [] => mret []
  | (vni, ns) :: vns => x ← initVNState vni ns; xs ← initVNStates vns; mret (x :: xs)
  end.

Definition waitForLocalAttsCacheSync (i : nat) (synced : bool) : M State (option error) :=
  call (WaitForCacheSync [i]);;
  mret (if synced then None else Some (Errorf "caches failed to sync")).

(** [Run]: the virtual networks [before] are met while the interfaces on the node are
    synchronised, with the outcome [syncErr]; [later] ones while the workers are at work. *)
Definition Run (n : Z) (synced : bool) (before : list (Z * string)) (syncErr : option error)
    (later : list (Z * string)) : M State (option error * nat * list (nat * (nat * string))) :=
  '(i, _) ← initLocalAttsInformerAndLister;
  call (GoRun i);;
  err ← waitForLocalAttsCacheSync i synced;
  match err with
  | Some e => mret (Some e, i, [])
  | None =>
      remotes ← initVNStates before;
      match syncErr with
      | Some e => mret (Some e, i, remotes)
      | None =>
          IpamMain.launch_workers (Z.to_nat n);;
          remotes' ← initVNStates later;
          mret (None, i, remotes ++ remotes')
      end
  end.
End Wiring.

(** ** Stop channels *)

(** What happens to two channels: a value is received or the channel is closed. *)
Inductive ChanEvent := Receives (ch : bool) | Closes (ch : bool).

(** Is the aggregate closed?  The goroutine looks at one event only. *)
Definition aggregateTwoStopChannels (evs : list ChanEvent) : bool :=
  match evs with Closes _ :: _ => true | _ => false end.

(** Nobody sends on a stop channel, so the aggregate closes as soon as one of them does. *)
Lemma aggregate_closes evs :
  (∀ ch, Receives ch ∉ evs) → aggregateTwoStopChannels evs = true ↔ ∃ ch, Closes ch ∈ evs.
Proof.
  intros Hr. destruct evs as [|[ch|ch] evs]; simpl.
  - split; [done|]. by intros [ch ?%elem_of_nil].
  - exfalso. apply (Hr ch). by left.
  - split; [|done]. intros _. exists ch. by left.
Qed.

(** ** What the agent's informers cache *)

Section Informers.
Context `{FieldsLib} (localNodeName : string) (hostIP : IP).

(** An informer of a factory of its own: one informer, read by its lister. *)
Lemma own_informer_runs resync ns tweak s (Q : nat * (nat * string) → State → Prop) :
  (∀ fs, Q (length (made s), (length (made s), ns))
    (MkState (made s ++ [MkInformer NetworkAttachments ns tweak resync]) fs (calls s))) →
  runs (v1a1AttsCustomNamespaceInformerAndLister resync ns tweak) s Q.
Proof.
  intros HQ. unfold v1a1AttsCustomNamespaceInformerAndLister, createAttsv1a1Informer,
    NewFilteredSharedInformerFactory, NewSharedInformerFactoryWithOptions.
  set (x := MkFactory ns tweak resync ∅ ∅ ∅). change (foldl _ _ _) with x.
  repeat mstep. unfold Network. mstep.
  apply (factory_runs _ x); [by apply lookup_app_length|]. repeat mstep. unfold Informer_ at 1, InformerFor. mstep.
  apply (factory_runs _ x); [by apply lookup_app_length|].
  change (informers x) with (∅ : gmap Kind nat). rewrite lookup_empty. mstep. unfold make. repeat mstep.
  unfold set_factory. repeat mstep. set (x' := MkFactory _ _ _ _ _ _). unfold Lister, Informer_, InformerFor. repeat mstep.
  apply (factory_runs _ x').
  { apply list_lookup_insert_eq. rewrite length_app. simpl. lia. }
  simpl. rewrite lookup_insert_eq. repeat mstep. apply HQ.
Qed.

(** The calls with which an informer is set up and run. *)
Definition set_up (i : nat) : list Call := [AddIndexers i [attVNIAndIPIndexerName]; AddEventHandler i; GoRun i].

Lemma initVNState_runs vni ns s (Q : nat * (nat * string) → State → Prop) :
  (∀ fs i, i = length (made s) → Q (i, (i, ns))
    (MkState (made s ++ [MkInformer NetworkAttachments ns
       (AgentSelect.fromFieldsSelectorToTweakListOptionsFunc
         (Selector_String (AgentSelect.remoteAttInVNWithVirtualIPHostIPSelector localNodeName hostIP vni)))
       resyncPeriod]) fs (calls s ++ set_up i))) →
  runs (initVNState localNodeName hostIP vni ns) s Q.
Proof.
  intros HQ. unfold initVNState. mstep. apply own_informer_runs. intros fs. unfold call. repeat mstep.
  rewrite <- !app_assoc. by apply HQ.
Qed.

(** An informer for attachments that is run as it must be. *)
Definition serves (s : State) (i : nat) (ns req : string) : Prop :=
  (∃ inf, made s !! i = Some inf ∧ inf_kind inf = NetworkAttachments ∧ inf_namespace inf = ns ∧ request inf = req) ∧
  wired i (calls s) = true ∧ AddIndexers i [attVNIAndIPIndexerName] ∈ calls s ∧ AddEventHandler i ∈ calls s.

(** The calls so far are about informers that have been made. *)
Definition about_made (s : State) : Prop :=
  ∀ i, (length (made s) ≤ i)%nat → forallb (untouched i) (calls s) = true.

(** What comes later leaves it so. *)
Definition extends (s s' : State) : Prop :=
  (∃ l, made s' = made s ++ l) ∧
  ∃ cs, calls s' = calls s ++ cs ∧ ∀ i, (i < length (made s))%nat → forallb (untouched i) cs = true.

Lemma extends_refl s : extends s s.
Proof. split; exists []; by rewrite app_nil_r. Qed.

Lemma extends_trans s1 s2 s3 : extends s1 s2 → extends s2 s3 → extends s1 s3.
Proof.
  intros [[l1 E1] (c1 & F1 & H1)] [[l2 E2] (c2 & F2 & H2)]. split; [exists (l1 ++ l2); by rewrite E2, E1, app_assoc|].
  exists (c1 ++ c2). split; [by rewrite F2, F1, app_assoc|]. intros i Hi.
  rewrite forallb_app, H1 by done. apply H2. rewrite E1, length_app. lia.
Qed.

Lemma serves_extends s s' i ns req : extends s s' → serves s i ns req → serves s' i ns req.
Proof.
  intros [[l E] (cs & F & H1)] ((inf & Hi & Hinf) & Hw & Ha & Hh).
  assert (Hlt := lookup_lt_Some _ _ _ Hi). split; [|rewrite F; split_and!].
  - exists inf. split; [|done]. rewrite E. by apply lookup_app_l_Some.
  - apply wired_snoc; [done|by apply H1].
  - by apply elem_of_app; left.
  - by apply elem_of_app; left.
Qed.

Lemma untouched_set_up i j : i ≠ j → forallb (untouched i) (set_up j) = true.
Proof. intros Hne. simpl. by rewrite (proj2 (Nat.eqb_neq j i)). Qed.

Lemma initVNStates_runs vns s :
  about_made s →
  runs (initVNStates localNodeName hostIP vns) s (λ xs s',
    extends s s' ∧ about_made s' ∧
    Forall2 (λ vn x, x.2 = (x.1, vn.2) ∧
      serves s' x.1 vn.2 (AgentSelect.remote_request localNodeName hostIP vn.1)) vns xs ∧
    xs.*1 = seq (length (made s)) (length vns) ∧ length (made s') = (length (made s) + length vns)%nat ∧
    filter (GoWorker =.) (calls s') = filter (GoWorker =.) (calls s)).
Proof.
  revert s. induction vns as [|[vni ns] vns IH]; intros s Hm; simpl.
  { mstep. split_and!; [apply extends_refl|done|constructor|done|lia|done]. }
  mstep. apply initVNState_runs. intros fs i Ei. set (s1 := MkState _ _ _).
  assert (Hx : extends s s1).
  { split; [by eexists|]. exists (set_up i). split; [done|]. intros j Hj. apply untouched_set_up. lia. }
  assert (Hm1 : about_made s1).
  { intros j. simpl. rewrite length_app. simpl. intros Hj. rewrite forallb_app, Hm by lia. apply untouched_set_up. lia. }
  mstep. eapply runs_conseq; [by apply IH|]. intros xs s' (Hx' & Hm' & Hall & Ei' & El & Ew). mstep.
  assert (E1 : length (made s1) = S (length (made s))) by (simpl; rewrite length_app; simpl; lia).
  split_and!; [by eapply extends_trans|done| | |lia|].
  - constructor; [|done]. split; [done|]. apply (serves_extends s1); [done|]. simpl. split.
    + eexists. split; [rewrite Ei; apply lookup_app_length|done].
    + split; [|set_solver]. apply wired_fresh; [by apply Hm; rewrite Ei|]. simpl. by rewrite Nat.eqb_refl.
  - change (i :: xs.*1 = length (made s) :: seq (S (length (made s))) (length vns)). by rewrite Ei', E1, Ei.
  - rewrite Ew. simpl. by rewrite filter_app, app_nil_r.
Qed.

Lemma extends_calls s cs fs :
  (∀ i, forallb (untouched i) cs = true) → extends s (MkState (made s) fs (calls s ++ cs)).
Proof. intros Hu. split; [exists []; by rewrite app_nil_r|]. exists cs. split; [done|]. intros i _. apply Hu. Qed.

Lemma about_made_calls s cs fs :
  (∀ i, forallb (untouched i) cs = true) → about_made s → about_made (MkState (made s) fs (calls s ++ cs)).
Proof. intros Hu Hm i Hi. simpl in *. rewrite forallb_app, Hm by done. apply Hu. Qed.

Lemma serves_all s s' vns (xs : list (nat * (nat * string))) :
  extends s s' →
  Forall2 (λ vn x, x.2 = (x.1, vn.2) ∧
    serves s x.1 vn.2 (AgentSelect.remote_request localNodeName hostIP vn.1)) vns xs →
  Forall2 (λ vn x, x.2 = (x.1, vn.2) ∧
    serves s' x.1 vn.2 (AgentSelect.remote_request localNodeName hostIP vn.1)) vns xs.
Proof. intros He Hall. eapply Forall2_impl; [exact Hall|]. intros vn x [E Hs]. split; [done|by eapply serves_extends]. Qed.

(** The local informer. *)
Definition local_state : State :=
  MkState [MkInformer NetworkAttachments NamespaceAll
      (AgentSelect.fromFieldsSelectorToTweakListOptionsFunc
        (Selector_String (AgentSelect.localAttWithAnIPSelector localNodeName))) resyncPeriod]
    [] (set_up 0 ++ [WaitForCacheSync [0%nat]]).

Lemma local_runs (Q : nat * nat → State → Prop) :
  (∀ fs, Q (0, 0)%nat (MkState (made local_state) fs [AddIndexers 0 [attVNIAndIPIndexerName]; AddEventHandler 0])) →
  runs (initLocalAttsInformerAndLister localNodeName) init Q.
Proof. intros HQ. eapply runs_eq; [reflexivity|]. apply HQ. Qed.

Lemma extends_made s s' : extends s s' → (length (made s) ≤ length (made s'))%nat.
Proof. intros [[l E] _]. rewrite E, length_app. lia. Qed.

(** The agent's informers.  The one for local attachments caches those of all namespaces
    that the local selector selects, the one for a virtual network those of its namespace that
    the selector of the network selects; each is an informer of its own, gets its index and its
    handler before it runs, and is run once, whatever virtual networks the agent meets, and
    when; workers start only when the local cache has synced and the interfaces on the node
    have been synchronised. *)
Lemma agent_informers n synced before syncErr later :
  runs (Run localNodeName hostIP n synced before syncErr later) init (λ r s, let '(err, i, remotes) := r in
    serves s i NamespaceAll (AgentSelect.local_request localNodeName) ∧
    Forall2 (λ vn x, x.2 = (x.1, vn.2) ∧
        serves s x.1 vn.2 (AgentSelect.remote_request localNodeName hostIP vn.1))
      (if synced then before ++ (match syncErr with Some _ => [] | None => later end) else []) remotes ∧
    NoDup (i :: remotes.*1) ∧
    waits_for [i] (calls s) = true ∧
    IpamMain.workers_of (calls s) = (if synced && bool_decide (syncErr = None) then Z.to_nat n else 0)%nat ∧
    (err = None ↔ synced = true ∧ syncErr = None)).
Proof.
  unfold Run. mstep. apply local_runs. intros fs. mstep. unfold call at 1. mstep.
  unfold waitForLocalAttsCacheSync, call. repeat (mstep; try mstep).
  change (MkState _ _ _) with (MkState (made local_state) fs (calls local_state)).
  set (s0 := MkState (made local_state) fs (calls local_state)).
  assert (H0 : serves s0 0 NamespaceAll (AgentSelect.local_request localNodeName)).
  { split; [by eexists|]. split_and!; [done|set_solver..]. }
  assert (Hm0 : about_made s0) by (intros [|i]; simpl; [lia|done]).
  destruct synced; mstep.
  2: { split_and!; [done|constructor|apply NoDup_singleton|done|done|naive_solver]. }
  eapply runs_conseq; [by apply initVNStates_runs|]. intros xs s1 (Hx1 & Hm1 & Hall1 & Ei1 & El1 & Ew1).
  assert (Hwait : ∀ s, extends s0 s → waits_for [0%nat] (calls s) = true).
  { intros s [_ (cs & -> & _)]. done. }
  destruct syncErr as [e|].
  { mstep. rewrite app_nil_r, Ei1. split_and!; [by eapply serves_extends|done|apply (NoDup_seq 0 (S _))|by apply Hwait| |naive_solver].
    unfold IpamMain.workers_of. by rewrite Ew1. }
  mstep. apply IpamMain.launch_workers_runs. set (s2 := MkState _ _ _).
  assert (Hx2 : extends s1 s2) by (apply extends_calls; intros; apply IpamMain.untouched_workers).
  assert (Hm2 : about_made s2) by (apply about_made_calls; [intros; apply IpamMain.untouched_workers|done]).
  mstep. eapply runs_conseq; [by apply initVNStates_runs|]. intros xs' s3 (Hx3 & Hm3 & Hall3 & Ei3 & El3 & Ew3). mstep.
  split_and!.
  - eapply serves_extends; [|exact H0]. by eapply extends_trans, extends_trans.
  - apply Forall2_app; [|done]. eapply serves_all; [|exact Hall1]. by eapply extends_trans.
  - rewrite fmap_app, Ei1, Ei3. change (made s2) with (made s1). rewrite El1.
    change (NoDup (seq 0 1 ++ seq 1 (length before) ++ seq (1 + length before) (length later))).
    rewrite <- !seq_app. apply NoDup_seq.
  - apply Hwait. by eapply extends_trans, extends_trans.
  - unfold IpamMain.workers_of. rewrite Ew3. simpl. rewrite filter_app, length_app, Ew1.
    apply IpamMain.workers_of_workers.
  - naive_solver.
Qed.
End Informers.

(** ** The start of the process *)

(** The pause after the [i]th try. *)
Definition pause_at (i : nat) : Z := Z.min (2 ^ Z.of_nat i * Second) Minute.

Lemma next_pause_at i : next_pause (pause_at i) = pause_at (S i).
Proof.
  unfold next_pause, pause_at, Minute. rewrite Nat2Z.inj_succ, Z.pow_succ_r by lia.
  assert (0 < 2 ^ Z.of_nat i) by (apply Z.pow_pos_nonneg; lia). unfold Second.
  destruct (Z.ltb_spec (60 * 10 ^ 9) (2 * Z.min (2 ^ Z.of_nat i * 10 ^ 9) (60 * 10 ^ 9))); lia.
Qed.

Lemma find_service_first attempts k n fuel ip :
  cluster_ip (attempts (n + k)%nat) = Some ip → (∀ j, (j < k)%nat → cluster_ip (attempts (n + j)%nat) = None) →
  (k < fuel)%nat → find_service fuel attempts n (pause_at n) = Some (ip +:+ ":443", pause_at <$> seq n k).
Proof.
  revert n fuel. induction k as [|k IH]; intros n [|fuel] Hip Hnone Hf; [lia| |lia|]; simpl.
  - rewrite Nat.add_0_r in Hip. by rewrite Hip.
  - pose proof (Hnone 0%nat) as H0. rewrite Nat.add_0_r in H0. rewrite H0 by lia.
    rewrite next_pause_at, (IH (S n) fuel); [done|by rewrite Nat.add_succ_comm|..|lia].
    intros j Hj. rewrite Nat.add_succ_comm. apply Hnone. lia.
Qed.

(** An IPv4 address survives being published. *)
Lemma published_ip s : To4 (ParseIP s) ≠ [] → ParseIP (IP_String (ParseIP s)) = ParseIP s.
Proof.
  intros H4. assert (Hb : ParseIP s ≠ []) by (intros E0; by rewrite E0 in H4). apply ParseIP_bytes in Hb.
  destruct Hb as [Hl Hb]. unfold To4 in H4. rewrite Hl in H4. simpl in H4. case_bool_decide as Hp; [|done].
  rewrite <- (take_drop 12 (ParseIP s)), Hp. apply ParseIP_String. split; [rewrite length_drop; lia|by apply Forall_drop].
Qed.

Section Process.
Context {F C : Type}.

(** When the API server shows a service with an address at the [n]th try and not before,
    the process gets past its loop, after pauses that double from a second up to a minute; it
    exits with 2, 3, 4, 5 or 6 if it has no node name, no host address, an unknown fabric, no
    configuration or no client, and else starts an agent with the name of the flag or the
    host, that fabric and the programs between the commas.  An IPv4 address of the flag is
    the one that other agents read in what this agent publishes; a malformed address is
    accepted, and then what it publishes is not an address. *)
Lemma agent_process fuel (fl : Flags) (E : @Env F C) n ip :
  cluster_ip (attempts E n) = Some ip → (∀ j, (j < n)%nat → cluster_ip (attempts E j) = None) → (n < fuel)%nat →
  match main fuel fl E with
  | Exit code =>
      (code = 2 ∧ nodeName fl = "" ∧ ∃ e, Hostname E = inl e) ∨
      (code = 3 ∧ hostIP fl = "") ∨
      (code = 4 ∧ ∃ e, Factory.NewNetFabricForName (netFabricName fl) (factoryRegistry E) = inl e) ∨
      (code = 5 ∧ ∃ e, BuildConfigFromFlags E (kubeconfigFilename fl) = inl e) ∨
      (code = 6 ∧ ∃ cc e, IpamMain.Host cc = ip +:+ ":443" ∧ NewForConfig E cc = Some e)
  | StillTrying => False
  | Starts ca =>
      (if String.eqb (nodeName fl) "" then Hostname E = inr (localNodeName ca) else localNodeName ca = nodeName fl) ∧
      Factory.NewNetFabricForName (netFabricName fl) (factoryRegistry E) = inr (netFabric ca) ∧
      IpamMain.Host (clientCfg ca) = ip +:+ ":443" ∧
      pauses ca = pause_at <$> seq 0 n ∧ Forall (λ p, Second ≤ p ≤ Minute) (pauses ca) ∧
      (∀ p, p ∈ allowedProgramsSet ca ↔ p ∈ split_on "," (allowedPrograms fl)) ∧
      ∀ att mac ifc errs r,
        let published := HostIP (na_Status (Agent.status_with (agentHostIP ca) att mac ifc errs r)) in
        (To4 (agentHostIP ca) ≠ [] → ParseIP published = ParseIP (hostIP fl)) ∧
        (ParseIP (hostIP fl) = [] → published = "<nil>" ∧ ParseIP published = [])
  end.
Proof.
  intros Hip Hnone Hf. unfold main.
  destruct (if String.eqb (nodeName fl) "" then _ else _) as [e|node] eqn:En.
  { left. destruct (String.eqb_spec (nodeName fl) ""); naive_solver. }
  destruct (String.eqb_spec (hostIP fl) "") as [Eh|Hh]; [by right; left|].
  destruct (Factory.NewNetFabricForName (netFabricName fl) (factoryRegistry E)) as [e|fab] eqn:Ef.
  { do 2 right. left. eauto. }
  destruct (BuildConfigFromFlags E (kubeconfigFilename fl)) as [e|c] eqn:Eb; [do 3 right; left; eauto|].
  pose proof (find_service_first (attempts E) n 0 fuel ip Hip Hnone Hf) as Hs.
  change (pause_at 0) with Second in Hs. rewrite Hs.
  set (cc := IpamMain.MkConfig _ _ _ _ _). destruct (NewForConfig E cc) as [e|] eqn:Ec.
  { do 4 right. split; [done|]. by exists cc, e. }
  cbn. split_and!; [|done..| | |].
  - destruct (String.eqb (nodeName fl) ""); [done|congruence].
  - apply Forall_fmap, Forall_forall. intros i _. unfold pause_at, compose, Minute, Second.
    assert (1 ≤ 2 ^ Z.of_nat i) by (pose proof (Z.pow_pos_nonneg 2 (Z.of_nat i)); lia). lia.
  - intros p. apply elem_of_list_to_set.
  - intros _ _ _ _ _. split; [apply published_ip|]. by intros ->.
Qed.
End Process.

(** A host without the name of its node, which finds the service at the third try. *)
Definition flags1 : Flags := MkFlags "" "192.168.0.017" "logger" "/bin/a,/bin/b" "" 2 100 200.
Definition env1 : @Env unit unit :=
  MkEnv (inr "n1") {["logger" := inr tt]} (λ _, inr (IpamMain.MkConfig tt 0 0 "" false))
    (λ n, match n with 0%nat => NoService (Errorf "not found") | 1%nat => Service "None" | _ => Service "10.0.0.9" end)
    (λ _, None).

Lemma agent_process_witness :
  cluster_ip (attempts env1 2) = Some "10.0.0.9" ∧
  match main 3 flags1 env1 with
  | Starts ca => pauses ca = [Second; 2 * Second] ∧ localNodeName ca = "n1"
  | _ => False
  end.
Proof.
  split; [reflexivity|].
  pose proof (agent_process 3 flags1 env1 2 "10.0.0.9" eq_refl
    ltac:(intros [|[|j]] Hj; [reflexivity|reflexivity|lia]) ltac:(lia)) as H.
  destruct (main 3 flags1 env1) as [c| |ca] eqn:E; [vm_compute in E; discriminate|done|].
  destruct H as (Hn & _ & _ & Hp & _). split; [by rewrite Hp|]. simpl in Hn. congruence.
Defined.
End AgentMain.
