(* ===== verification/Ovs.v ===== *)
(** * The Open vSwitch fabric: [pkg/networkfabric/ovs]

    [ovs.go].  The fabric runs [ovs-vsctl] and [ovs-ofctl]: what a command does is a
    parameter, the class [OvsTool]; the model has the arguments and the input of each
    command and reads its output as the source does, with Go's regular expressions.
    [OvsFabric] has the fields of [ovsFabric]; the regular expressions are the
    constants of the source.  Log lines and the delay before a clean up are left out,
    but not the indexing in the arguments of log lines. *)

From S2P Require Import Prelude GoStr GoNet ApiTypes GoRegexp Fabric.
Import GoNet.

(** A run of a command: arguments and standard input, to the combined output and the
    text of the error, if any. *)
Class OvsTool (O : Type) := ovs_run : list string → string → O → (string * option string) * O.

Module Ovs.

(** ** Constants *)

Definition is_upper_hex (c : ascii) : bool :=
  let n := N_of_ascii c in ((65 <=? n) && (n <=? 70))%N.
Definition is_lower_hex (c : ascii) : bool :=
  let n := N_of_ascii c in ((97 <=? n) && (n <=? 102))%N.
Definition is_hex_digit (c : ascii) : bool := is_dec_digit c || is_lower_hex c || is_upper_hex c.

(** The character class [[a-b]]. *)
Definition between (a b c : ascii) : bool :=
  ((N_of_ascii a <=? N_of_ascii c) && (N_of_ascii c <=? N_of_ascii b))%N.

Definition decNbr : regexp := RSpan is_dec_digit.
Definition inPort : regexp := RSeq (RLit "in_port=") decNbr.
Definition output : regexp := RSeq (RLit "output:") decNbr.
Definition hexNbr : regexp :=
  RSeq (RLit "0") (RSeq (RClass (λ c, char_is c "x" || char_is c "X")) (RSpan is_hex_digit)).
Definition tunID : regexp := RSeq (RLit "tun_id=") hexNbr.
Definition load : regexp := RSeq (RLit "load:") hexNbr.
Definition cookie : regexp := RSeq (RLit "cookie=") hexNbr.

Definition octet : regexp :=
  RAlt (RSeq (RLit "25") (RClass (between "0" "5")))
    (RAlt (RSeq (RLit "2") (RSeq (RClass (between "0" "4")) (RClass is_dec_digit)))
       (RSeq (ROpt (RClass (between "0" "1"))) (RSeq (RClass is_dec_digit) (ROpt (RClass is_dec_digit))))).
Definition ipv4 : regexp := RSeq (RRep 3 (RSeq octet (RLit "."))) octet.
Definition arpTPA : regexp := RSeq (RLit "arp_tpa=") ipv4.

Definition hex_pair : regexp := RSeq (RClass is_hex_digit) (RClass is_hex_digit).
Definition mac : regexp :=
  RSeq (RRep 5 (RSeq hex_pair (RClass (λ c, char_is c ":" || char_is c "-")))) hex_pair.

Definition hexPrefixChars : string := "0xX".
Definition remoteFlowsFingerprint : string := "NXM_NX_TUN_IPV4_DST".
Definition arpFlowsFingerprint : string := "arp".

(** The [%#x] verb. *)
Definition fmt_hashx (n : Z) : string := "0x" +:+ fmt_x n.

(** The [%d] verb on an address, which is a slice of bytes. *)
Definition fmt_d_bytes (ip : IP) : string := "[" +:+ str_join " " (fmt_d <$> ip) +:+ "]".

Section Ovs.
Context {O : Type} `{OvsTool O}.

Record OvsFabric := MkOvs {
  bridge : string; vtep : string; vtepOFport : Z;
  lockedVNIIPPairs : gset (Z * Z);
  ovs : O }.

Definition set_locked (g : gset (Z * Z) → gset (Z * Z)) : M OvsFabric unit := modify (λ f,
  MkOvs (bridge f) (vtep f) (vtepOFport f) (g (lockedVNIIPPairs f)) (ovs f)).

(** [CombinedOutput] of a command. *)
Definition run_cmd (argv : list string) (stdin : string) : M OvsFabric (string * option string) := λ f,
  let '(r, o) := ovs_run argv stdin (ovs f) in
  Ok (r, MkOvs (bridge f) (vtep f) (vtepOFport f) (lockedVNIIPPairs f) o).

Definition lift {A} (r : res A) : M OvsFabric A := λ f, a ← r; Ok (a, f).

(** ** Commands *)

Definition newCreateBridgeCmd (f : OvsFabric) : list string :=
  ["ovs-vsctl"; "--may-exist"; "add-br"; bridge f; "--"; "set"; "bridge"; bridge f;
   "protocols=OpenFlow10,OpenFlow11,OpenFlow12,OpenFlow13,OpenFlow14,OpenFlow15"].
Definition newAddVTEPCmd (f : OvsFabric) : list string :=
  ["ovs-vsctl"; "--may-exist"; "add-port"; bridge f; vtep f; "--"; "set"; "interface"; vtep f;
   "type=vxlan"; "option:key=flow"; "option:remote_ip=flow"].
Definition newGetIfcOFportCmd (ifc : string) : list string := ["ovs-vsctl"; "get"; "interface"; ifc; "ofport"].
Definition newCreateIfcCmd (f : OvsFabric) (ifc : string) (m : HardwareAddr) : list string :=
  ["ovs-vsctl"; "add-port"; bridge f; ifc; "--"; "set"; "interface"; ifc; "type=internal";
   "mac=" +:+ Replace (MAC_String m) ":" "\:"].
Definition newDeleteBridgePortCmd (f : OvsFabric) (ifc : string) : list string :=
  ["ovs-vsctl"; "del-port"; bridge f; ifc].
Definition newAddFlowsCmd (f : OvsFabric) (flows : list string) : list string * string :=
  (["ovs-ofctl"; "--bundle"; "add-flows"; bridge f; "-"], str_join nl flows +:+ nl).
Definition newDelFlowsCmd (f : OvsFabric) (flows : list string) : list string * string :=
  (["ovs-ofctl"; "--bundle"; "del-flows"; bridge f; "-"], str_join nl flows +:+ nl).
Definition newGetFlowsCmd (f : OvsFabric) : list string := ["ovs-ofctl"; "dump-flows"; bridge f].
Definition newListOFportsAndIfcNamesCmd : list string :=
  ["ovs-vsctl"; "-f"; "table"; "--no-heading"; "--"; "--columns=ofport,name"; "list"; "Interface"].

(** ** Errors *)

Definition newAddFlowsErr (flows bridge : string) (msgs : list string) : error :=
  Errorf ("transaction to add OpenFlow flows " +:+ flows +:+ " to bridge " +:+ bridge +:+
    " failed: " +:+ str_join " " msgs).
Definition newDelFlowsErr (flows bridge : string) (msgs : list string) : error :=
  Errorf ("transaction to delete OpenFlow flows " +:+ flows +:+ " to bridge " +:+ bridge +:+
    " failed: " +:+ str_join " " msgs).

(** ** Locked pairs of VNI and address *)

Definition vniAndIP (vni : Z) (ip : IP) : res (Z * Z) := u ← MakeUint32FromIPv4 ip; Ok (vni, u).

Definition lockVNIIPPair (vni : Z) (ip : IP) : M OvsFabric (option error) :=
  vniIP ← lift (vniAndIP vni ip);
  locked ← gets lockedVNIIPPairs;
  if bool_decide (vniIP ∈ locked) then
    mret (Some (Errorf ("there's already an interface in VNI " +:+ fmt_hashx vni +:+ " with IP " +:+ fmt_d_bytes ip)))
  else set_locked (λ l, {[vniIP]} ∪ l);; mret None.

Definition unlockVNIIPPair (vni : Z) (ip : IP) : M OvsFabric unit :=
  vniIP ← lift (vniAndIP vni ip); set_locked (λ l, l ∖ {[vniIP]}).

(** ** Bridge and devices *)

Definition createBridge : M OvsFabric (option error) :=
  f ← get;
  '(out, err) ← run_cmd (newCreateBridgeCmd f) "";
  mret ((λ e, Errorf ("failed to create bridge " +:+ bridge f +:+ ": " +:+ e +:+ ": " +:+ out)) <$> err).

Definition addVTEP : M OvsFabric (option error) :=
  f ← get;
  '(out, err) ← run_cmd (newAddVTEPCmd f) "";
  mret ((λ e, Errorf ("failed to add VTEP port and interface to bridge " +:+ bridge f +:+ ": " +:+ e +:+
                      ": " +:+ out)) <$> err).

Definition parseOFport (ofPort : string) : Z := u16 (parsed_value (ParseUint ofPort 10 16)).

Definition getIfcOFport (ifc : string) : M OvsFabric (error + Z) :=
  f ← get;
  '(outBytes, err) ← run_cmd (newGetIfcOFportCmd ifc) "";
  let out := TrimRight outBytes nl in
  mret match err with
       | Some e => inl (Errorf ("failed to retrieve OpenFlow port of interface " +:+ ifc +:+ " in bridge " +:+
                        bridge f +:+ ": " +:+ e +:+ ": " +:+ out))
       | None => inr (parseOFport out)
       end.

Definition createIfc (ifc : string) (m : HardwareAddr) : M OvsFabric (option error) :=
  f ← get;
  '(out, err) ← run_cmd (newCreateIfcCmd f ifc m) "";
  mret ((λ e, Errorf ("failed to create local ifc " +:+ ifc +:+ " with MAC " +:+ MAC_String m +:+
                      " and plug it into bridge " +:+ bridge f +:+ ": " +:+ e +:+ ": " +:+ out)) <$> err).

Definition deleteIfc (ifc : string) : M OvsFabric (option error) :=
  f ← get;
  '(out, err) ← run_cmd (newDeleteBridgePortCmd f ifc) "";
  mret ((λ e, Errorf ("failed to delete local ifc " +:+ ifc +:+ " attached to bridge " +:+ bridge f +:+
                      ": " +:+ e +:+ ": " +:+ out)) <$> err).

(** ** Flows *)

Definition add_flows (flows : list string) : M OvsFabric (option error) :=
  f ← get;
  let '(argv, stdin) := newAddFlowsCmd f flows in
  '(out, err) ← run_cmd argv stdin;
  mret ((λ e, newAddFlowsErr (str_join " " flows) (bridge f) [e; out]) <$> err).

(** [shown] is the text of the flows in the error. *)
Definition del_flows (shown : string) (flows : list string) : M OvsFabric (option error) :=
  f ← get;
  let '(argv, stdin) := newDelFlowsCmd f flows in
  '(out, err) ← run_cmd argv stdin;
  mret ((λ e, newDelFlowsErr shown (bridge f) [e; out]) <$> err).

Definition defaultResubmitToT1Flow : string := "table=0,priority=1,actions=resubmit(,1)".
Definition defaultDropFlow : string := "table=1,priority=1,actions=drop".

Definition addDefaultFlows : M OvsFabric (option error) :=
  add_flows [defaultResubmitToT1Flow; defaultDropFlow].

(** The flows of a local interface, and what selects them for deletion. *)
Definition local_flows (ofPort tunID : Z) (dlDst : HardwareAddr) (tpa : IP) : list string :=
  ["table=0,in_port=" +:+ fmt_d ofPort +:+ ",actions=set_field:" +:+ fmt_hashx tunID +:+ "->tun_id,resubmit(,1)";
   "table=1,tun_id=" +:+ fmt_hashx tunID +:+ ",dl_dst=" +:+ MAC_String dlDst +:+ ",actions=output:" +:+ fmt_d ofPort;
   "table=1,tun_id=" +:+ fmt_hashx tunID +:+ ",arp,arp_tpa=" +:+ IP_String tpa +:+ ",actions=output:" +:+ fmt_d ofPort].

Definition local_matches (ofPort tunID : Z) (dlDst : HardwareAddr) (tpa : IP) : list string :=
  ["in_port=" +:+ fmt_d ofPort;
   "tun_id=" +:+ fmt_hashx tunID +:+ ",dl_dst=" +:+ MAC_String dlDst;
   "tun_id=" +:+ fmt_hashx tunID +:+ ",arp,arp_tpa=" +:+ IP_String tpa].

Definition addLocalIfcFlows (ofPort tunID : Z) (dlDst : HardwareAddr) (tpa : IP) : M OvsFabric (option error) :=
  add_flows (local_flows ofPort tunID dlDst tpa).

Definition deleteLocalIfcFlows (ofPort tunID : Z) (dlDst : HardwareAddr) (tpa : IP) : M OvsFabric (option error) :=
  let flows := local_matches ofPort tunID dlDst tpa in
  del_flows (TrimRight (str_join " " flows) " ") flows.

(** The cookie of the flows of a remote interface; the error of [Uvarint] is ignored. *)
Definition remote_cookie (dlDst : HardwareAddr) : Z := Uvarint dlDst.

(** The flows of a remote interface. *)
Definition remote_flows (vtepOFport tunID : Z) (dlDst : HardwareAddr) (tunDst tpa : IP) : list string :=
  let cookie := remote_cookie dlDst in
  ["table=1,cookie=" +:+ fmt_d cookie +:+ ",tun_id=" +:+ fmt_hashx tunID +:+ ",dl_dst=" +:+ MAC_String dlDst +:+
     ",actions=set_field:" +:+ IP_String tunDst +:+ "->tun_dst,output:" +:+ fmt_d vtepOFport;
   "table=1,cookie=" +:+ fmt_d cookie +:+ ",tun_id=" +:+ fmt_hashx tunID +:+ ",arp,arp_tpa=" +:+ IP_String tpa +:+
     ",actions=set_field:" +:+ IP_String tunDst +:+ "->tun_dst,output:" +:+ fmt_d vtepOFport].

Definition remote_matches (tunID : Z) (dlDst : HardwareAddr) (tpa : IP) : list string :=
  ["table=1,tun_id=" +:+ fmt_hashx tunID +:+ ",dl_dst=" +:+ MAC_String dlDst;
   "table=1,tun_id=" +:+ fmt_hashx tunID +:+ ",arp,arp_tpa=" +:+ IP_String tpa].

Definition addRemoteIfcFlows (tunID : Z) (dlDst : HardwareAddr) (tunDst tpa : IP) : M OvsFabric (option error) :=
  f ← get; add_flows (remote_flows (vtepOFport f) tunID dlDst tunDst tpa).

Definition deleteRemoteIfcFlows (tunID : Z) (dlDst : HardwareAddr) (tpa : IP) : M OvsFabric (option error) :=
  let flows := remote_matches tunID dlDst tpa in del_flows (str_join " " flows) flows.

(** ** The operations of the fabric *)

Definition Name : string := "ovs".

(** [CreateLocalIfc] after the device is there. *)
Definition plug_local (ifc : LocalNetIfc) : M OvsFabric (option error) :=
  r ← getIfcOFport (li_Name ifc);
  match r with
  | inl e => mret (Some e)
  | inr ofPort => addLocalIfcFlows ofPort (li_VNI ifc) (li_GuestMAC ifc) (li_GuestIP ifc)
  end.

Definition CreateLocalIfc (ifc : LocalNetIfc) : M OvsFabric (option error) :=
  err ← lockVNIIPPair (li_VNI ifc) (li_GuestIP ifc);
  match err with
  | Some e =>
      mret (Some (Errorf ("failed to lock IP " +:+ IP_String (li_GuestIP ifc) +:+ " in VNI " +:+
                          fmt_hashx (li_VNI ifc) +:+ ": " +:+ message e)))
  | None =>
      err ← createIfc (li_Name ifc) (li_GuestMAC ifc);
      match err with
      | Some e => unlockVNIIPPair (li_VNI ifc) (li_GuestIP ifc);; mret (Some e)
      | None =>
          err ← plug_local ifc;
          match err with
          | Some e =>
              (* the clean up; its error is only logged *)
              deleteIfc (li_Name ifc);;
              unlockVNIIPPair (li_VNI ifc) (li_GuestIP ifc);;
              mret (Some e)
          | None => mret None
          end
      end
  end.

Definition DeleteLocalIfc (ifc : LocalNetIfc) : M OvsFabric (option error) :=
  r ← getIfcOFport (li_Name ifc);
  match r with
  | inl e => mret (Some e)
  | inr ofPort =>
      err ← deleteLocalIfcFlows ofPort (li_VNI ifc) (li_GuestMAC ifc) (li_GuestIP ifc);
      match err with
      | Some e => mret (Some e)
      | None =>
          err ← deleteIfc (li_Name ifc);
          match err with
          | Some e => mret (Some e)
          | None => unlockVNIIPPair (li_VNI ifc) (li_GuestIP ifc);; mret None
          end
      end
  end.

Definition CreateRemoteIfc (ifc : RemoteNetIfc) : M OvsFabric (option error) :=
  err ← lockVNIIPPair (ri_VNI ifc) (ri_GuestIP ifc);
  match err with
  | Some e =>
      mret (Some (Errorf ("failed to lock IP " +:+ IP_String (ri_GuestIP ifc) +:+ " in VNI " +:+
                          fmt_hashx (ri_VNI ifc) +:+ ": " +:+ message e)))
  | None =>
      err ← addRemoteIfcFlows (ri_VNI ifc) (ri_GuestMAC ifc) (ri_HostIP ifc) (ri_GuestIP ifc);
      match err with
      | Some e => unlockVNIIPPair (ri_VNI ifc) (ri_GuestIP ifc);; mret (Some e)
      | None => mret None
      end
  end.

Definition DeleteRemoteIfc (ifc : RemoteNetIfc) : M OvsFabric (option error) :=
  err ← deleteRemoteIfcFlows (ri_VNI ifc) (ri_GuestMAC ifc) (ri_GuestIP ifc);
  match err with
  | Some e => mret (Some e)
  | None => unlockVNIIPPair (ri_VNI ifc) (ri_GuestIP ifc);; mret None
  end.

(** ** Reading flows *)

Definition isLocal (flow : string) : bool :=
  str_contains flow "in_port" || str_contains flow "actions=output:".
Definition isRemote (flow : string) : bool := str_contains flow remoteFlowsFingerprint.
Definition isARP (flow : string) : bool := str_contains flow arpFlowsFingerprint.
Definition isTunneling (flow : string) : bool := str_contains flow "in_port".

Definition onlyUsefulLocalFlowsFunc (flows : list string) : list string :=
  List.filter (λ aFlow, isLocal aFlow && negb (isTunneling aFlow)) flows.
Definition onlyRemoteFlowsFunc (flows : list string) : list string := List.filter isRemote flows.

Definition parseGetFlowsOutput (output : string) : list string := split_on "010" output.

Definition getFlows : M OvsFabric (error + list string) :=
  f ← get;
  '(out, err) ← run_cmd (newGetFlowsCmd f) "";
  let outStr := TrimRight out nl in
  mret match err with
       | Some e => inl (Errorf ("failed to list flows for bridge " +:+ bridge f +:+ ": " +:+ e +:+ ": " +:+ outStr))
       | None => inr (parseGetFlowsOutput outStr)
       end.

Definition getUsefulLocalFlows : M OvsFabric (error + list string) :=
  r ← getFlows; mret match r with inl e => inl e | inr flows => inr (onlyUsefulLocalFlowsFunc flows) end.
Definition getRemoteFlows : M OvsFabric (error + list string) :=
  r ← getFlows; mret match r with inl e => inl e | inr flows => inr (onlyRemoteFlowsFunc flows) end.

Definition arpOrDlTrafficFlowOFport (flow : string) : string := FindString decNbr (FindString output flow).
Definition usefulLocalFlowOFport (flow : string) : Z := parseOFport (arpOrDlTrafficFlowOFport flow).

Definition hexStrToIPv4 (hexStr : string) : IP :=
  let i := u32 (parsed_value (ParseUint (TrimLeft hexStr hexPrefixChars) 16 32)) in
  IPv4_16 (u8 (Z.shiftr i 24)) (u8 (Z.shiftr i 16)) (u8 (Z.shiftr i 8)) (u8 i).

Definition extractVNI (flow : string) : Z :=
  u32 (parsed_value (ParseUint (TrimLeft (FindString hexNbr (FindString tunID flow)) hexPrefixChars) 16 32)).
Definition extractHostIP (flow : string) : IP := hexStrToIPv4 (FindString hexNbr (FindString load flow)).
Definition extractGuestIP (flow : string) : IP := ParseIP (FindString ipv4 (FindString arpTPA flow)).
Definition extractGuestMAC (flow : string) : HardwareAddr := default [] (ParseMAC (FindString mac flow)).
Definition extractCookie (flow : string) : string := FindString hexNbr (FindString cookie flow).

(** The flows of each key; a new key has none. *)
Definition group {K} `{Countable K} (key : string → K) (flows : list string) : gmap K (list string) :=
  foldl (λ m aFlow, <[key aFlow := default [] (m !! key aFlow) ++ [aFlow]]> m) ∅ flows.

Definition ofPortToLocalFlowsPairs (flows : list string) : gmap Z (list string) :=
  group usefulLocalFlowOFport flows.

(** The order of a Go map is arbitrary: that of [map_to_list] stands for it. *)
Definition pairRemoteFlowsPerIfc (flows : list string) : list (list string) :=
  (map_to_list (group extractCookie flows)).*2.

(** The guest address is that of the last ARP flow, the MAC address that of the last
    other one. *)
Definition parseLocalFlowPair (flowsPair : list string) : res LocalNetIfc :=
  match flowsPair with
  | [] => Panic "index out of range"
  | first :: _ =>
      Ok (foldl (λ ifc aFlow,
            if isARP aFlow then MkLocalIfc (li_Name ifc) (li_VNI ifc) (li_GuestMAC ifc) (extractGuestIP aFlow)
            else MkLocalIfc (li_Name ifc) (li_VNI ifc) (extractGuestMAC aFlow) (li_GuestIP ifc))
          (MkLocalIfc "" (extractVNI first) [] []) flowsPair)
  end.

Definition parseRemoteFlowPair (flowsPair : list string) : res RemoteNetIfc :=
  match flowsPair with
  | [] => Panic "index out of range"
  | first :: _ =>
      Ok (foldl (λ ifc aFlow,
            if isARP aFlow then MkRemoteIfc (ri_VNI ifc) (ri_GuestMAC ifc) (extractGuestIP aFlow) (ri_HostIP ifc)
            else MkRemoteIfc (ri_VNI ifc) (extractGuestMAC aFlow) (ri_GuestIP ifc) (ri_HostIP ifc))
          (MkRemoteIfc (extractVNI first) [] [] (extractHostIP first)) flowsPair)
  end.

(** The log line of the loops reads the second flow of each pair. *)
Definition log_pair (aPair : list string) : res unit :=
  match aPair with _ :: _ :: _ => Ok tt | _ => Panic "index out of range" end.

Fixpoint parse_pairs {A} (parse : list string → res A) (pairs : list (list string)) : res (list A) :=
  match pairs with
  | [] => Ok []
  | aPair :: pairs => log_pair aPair;; ifc ← parse aPair; ifcs ← parse_pairs parse pairs; Ok (ifc :: ifcs)
  end.

Definition parseLocalFlowsPairs (ofPortToPair : gmap Z (list string)) : res (gmap Z LocalNetIfc) :=
  let l := map_to_list ofPortToPair in
  ifcs ← parse_pairs parseLocalFlowPair l.*2;
  Ok (list_to_map (zip l.*1 ifcs)).

Definition parseRemoteFlowsPairs (flowsPairs : list (list string)) : res (list RemoteNetIfc) :=
  parse_pairs parseRemoteFlowPair flowsPairs.

(** ** Reading ports *)

Definition parseOFportAndIfcName (f : OvsFabric) (ofPortAndNameJoined : string) (m : gmap Z string)
    : res (gmap Z string) :=
  match Fields ofPortAndNameJoined with
  | port :: nm :: _ =>
      let nm := Trim nm (String.String "034" "") in
      if negb (String.eqb nm (vtep f)) && negb (String.eqb nm (bridge f))
      then Ok (<[parseOFport port := nm]> m) else Ok m
  | _ => Panic "index out of range"
  end.

Fixpoint parse_ports (f : OvsFabric) (ls : list string) (m : gmap Z string) : res (gmap Z string) :=
  match ls with
  | [] => Ok m
  | l :: ls => m ← parseOFportAndIfcName f l m; parse_ports f ls m
  end.

Definition parseOFportsAndIfcNames (f : OvsFabric) (raw : string) : res (gmap Z string) :=
  parse_ports f (split_on "010" raw) ∅.

Definition getOFportsToLocalIfcNames : M OvsFabric (error + gmap Z string) :=
  '(out, err) ← run_cmd newListOFportsAndIfcNamesCmd "";
  let outStr := TrimRight out nl in
  match err with
  | Some e => mret (inl (Errorf ("failed to list local ifcs names and ofPorts: " +:+ e +:+ ": " +:+ outStr)))
  | None => f ← get; m ← lift (parseOFportsAndIfcNames f outStr); mret (inr m)
  end.

(** ** Listing *)

Fixpoint name_ifcs (ofPortToIfc : gmap Z LocalNetIfc) (ports : list (Z * string))
    : list LocalNetIfc * list string :=
  match ports with
  | [] => ([], [])
  | (ofPort, nm) :: ports =>
      let '(complete, incomplete) := name_ifcs ofPortToIfc ports in
      match ofPortToIfc !! ofPort with
      | None => (complete, nm :: incomplete)
      | Some ifc => (MkLocalIfc nm (li_VNI ifc) (li_GuestMAC ifc) (li_GuestIP ifc) :: complete, incomplete)
      end
  end.

Definition nameIfcs (ofPortToIfcName : gmap Z string) (ofPortToIfc : gmap Z LocalNetIfc)
    : list LocalNetIfc * list string :=
  name_ifcs ofPortToIfc (map_to_list ofPortToIfcName).

(** The errors are only logged. *)
Fixpoint deleteIncompleteIfcs (ifcs : list string) : M OvsFabric unit :=
  match ifcs with [] => mret tt | anIfc :: ifcs => deleteIfc anIfc;; deleteIncompleteIfcs ifcs end.

(** The pairs of listed interfaces are locked, whether they are already or not. *)
Fixpoint lock_all (pairs : list (Z * IP)) : M OvsFabric unit :=
  match pairs with [] => mret tt | (vni, ip) :: pairs => lockVNIIPPair vni ip;; lock_all pairs end.

Definition ListLocalIfcs : M OvsFabric (error + list LocalNetIfc) :=
  ports ← getOFportsToLocalIfcNames;
  match ports with
  | inl e => mret (inl e)
  | inr ofPortToIfcName =>
      flows ← getUsefulLocalFlows;
      match flows with
      | inl e => mret (inl e)
      | inr localFlows =>
          ofPortToNamelessIfc ← lift (parseLocalFlowsPairs (ofPortToLocalFlowsPairs localFlows));
          let '(completeIfcs, incompleteIfcs) := nameIfcs ofPortToIfcName ofPortToNamelessIfc in
          deleteIncompleteIfcs incompleteIfcs;;
          lock_all ((λ ifc, (li_VNI ifc, li_GuestIP ifc)) <$> completeIfcs);;
          mret (inr completeIfcs)
      end
  end.

Definition ListRemoteIfcs : M OvsFabric (error + list RemoteNetIfc) :=
  flows ← getRemoteFlows;
  match flows with
  | inl e => mret (inl e)
  | inr flows =>
      ifcs ← lift (parseRemoteFlowsPairs (pairRemoteFlowsPerIfc flows));
      lock_all ((λ ifc, (ri_VNI ifc, ri_GuestIP ifc)) <$> ifcs);;
      mret (inr ifcs)
  end.

(** ** Making the fabric *)

Definition initBridge (name : string) : M OvsFabric (option error) :=
  modify (λ f, MkOvs name "vtep" (vtepOFport f) (lockedVNIIPPairs f) (ovs f));;
  err ← createBridge;
  match err with
  | Some e => mret (Some e)
  | None =>
      err ← addVTEP;
      match err with
      | Some e => mret (Some e)
      | None =>
          f ← get;
          r ← getIfcOFport (vtep f);
          match r with
          | inl e => mret (Some e)
          | inr port =>
              modify (λ f, MkOvs (bridge f) (vtep f) port (lockedVNIIPPairs f) (ovs f));;
              addDefaultFlows
          end
      end
  end.

Definition newFactory (bridge : string) (o : O) : res ((error + unit) * OvsFabric) :=
  '(err, f) ← initBridge bridge (MkOvs "" "" 0 ∅ o);
  Ok (match err with
      | Some e => inl (Errorf ("failed to create OvS network fabric: " +:+ message e))
      | None => inr tt
      end, f).

End Ovs.
End Ovs.
