(* ===== verification/OvsOps.v ===== *)
(** * What the operations of the Open vSwitch fabric do

    Creating and deleting interfaces, whatever the tool answers: the pairs of VNI and
    address that are locked are those of the interfaces that exist, and an interface
    that cannot be made whole is taken down. *)

From S2P Require Import Prelude GoStr GoNet ApiTypes GoRegexp Fabric Ovs.
Import GoNet Ovs.

Module OvsOps.
Section Ops.
Context {O : Type} `{OvsTool O}.
Implicit Types (f : @OvsFabric O) (o : O).

Definition set_ovs f o : OvsFabric := MkOvs (bridge f) (vtep f) (vtepOFport f) (lockedVNIIPPairs f) o.
Definition set_locks f l : OvsFabric := MkOvs (bridge f) (vtep f) (vtepOFport f) l (ovs f).

(** The number of an address, when it has one. *)
Definition ip_number (ip : IP) : Z := match MakeUint32FromIPv4 ip with Ok u => u | Panic _ => 0 end.

Definition has_number (ip : IP) : Prop := ∃ u, MakeUint32FromIPv4 ip = Ok u.

(** A command: the tool afterwards, and whether it failed. *)
Definition after (c : list string * string) o : O := (ovs_run c.1 c.2 o).2.
Definition fails (c : list string * string) o : Prop := is_Some (ovs_run c.1 c.2 o).1.2.

Definition create_cmd f (ifc : LocalNetIfc) := (newCreateIfcCmd f (li_Name ifc) (li_GuestMAC ifc), "").
Definition port_cmd (ifc : LocalNetIfc) := (newGetIfcOFportCmd (li_Name ifc), "").
Definition delete_cmd f (ifc : LocalNetIfc) := (newDeleteBridgePortCmd f (li_Name ifc), "").
(** The port that the tool reports for the device. *)
Definition port_of (ifc : LocalNetIfc) o : Z := parseOFport (TrimRight (ovs_run (port_cmd ifc).1 "" o).1.1 nl).
Definition add_local_cmd f (ifc : LocalNetIfc) (port : Z) :=
  newAddFlowsCmd f (local_flows port (li_VNI ifc) (li_GuestMAC ifc) (li_GuestIP ifc)).
Definition del_local_cmd f (ifc : LocalNetIfc) (port : Z) :=
  newDelFlowsCmd f (local_matches port (li_VNI ifc) (li_GuestMAC ifc) (li_GuestIP ifc)).
Definition add_remote_cmd f (ifc : RemoteNetIfc) :=
  newAddFlowsCmd f (remote_flows (vtepOFport f) (ri_VNI ifc) (ri_GuestMAC ifc) (ri_HostIP ifc) (ri_GuestIP ifc)).
Definition del_remote_cmd f (ifc : RemoteNetIfc) :=
  newDelFlowsCmd f (remote_matches (ri_VNI ifc) (ri_GuestMAC ifc) (ri_GuestIP ifc)).

(** ** Rules *)

Lemma runs_cmd argv stdin f (Q : string * option string → OvsFabric → Prop) :
  (let '(r, o) := ovs_run argv stdin (ovs f) in Q r (set_ovs f o)) → runs (run_cmd argv stdin) f Q.
Proof. unfold runs, run_cmd. by destruct (ovs_run argv stdin (ovs f)). Qed.

(** An operation that is one command and fails when the command does. *)
Definition is_command (m : M OvsFabric (option error)) f (c : list string * string) : Prop :=
  runs m f (λ err f', f' = set_ovs f (after c (ovs f)) ∧ (is_Some err ↔ fails c (ovs f))).

Lemma command_intro f argv stdin (mk : string → string → error) :
  is_command ('(out, err) ← run_cmd argv stdin; mret ((λ e, mk e out) <$> err)) f (argv, stdin).
Proof.
  unfold is_command, after, fails. cbn [fst snd]. apply runs_bind, runs_cmd.
  destruct (ovs_run argv stdin (ovs f)) as [[out err] o]. apply runs_ret. cbn [fst snd]. split; [done|].
  destruct err; cbn; split; intros [? [=]]; by eexists.
Qed.

Lemma createIfc_command ifc f : is_command (createIfc (li_Name ifc) (li_GuestMAC ifc)) f (create_cmd f ifc).
Proof. unfold createIfc, is_command. mstep. mstep. apply command_intro. Qed.
Lemma deleteIfc_command ifc f : is_command (deleteIfc (li_Name ifc)) f (delete_cmd f ifc).
Proof. unfold deleteIfc, is_command. mstep. mstep. apply command_intro. Qed.
Lemma add_flows_command flows f : is_command (add_flows flows) f (newAddFlowsCmd f flows).
Proof. unfold add_flows, is_command. mstep. mstep. apply command_intro. Qed.
Lemma del_flows_command shown flows f : is_command (del_flows shown flows) f (newDelFlowsCmd f flows).
Proof. unfold del_flows, is_command. mstep. mstep. apply command_intro. Qed.
Lemma addLocal_command ifc port f :
  is_command (addLocalIfcFlows port (li_VNI ifc) (li_GuestMAC ifc) (li_GuestIP ifc)) f (add_local_cmd f ifc port).
Proof. apply add_flows_command. Qed.

Lemma getIfcOFport_runs ifc f :
  runs (getIfcOFport (li_Name ifc)) f (λ r f', f' = set_ovs f (after (port_cmd ifc) (ovs f)) ∧
    match r with
    | inl _ => fails (port_cmd ifc) (ovs f)
    | inr port => ¬ fails (port_cmd ifc) (ovs f) ∧ port = port_of ifc (ovs f)
    end).
Proof.
  unfold getIfcOFport, after, fails, port_of, port_cmd. cbn [fst snd]. mstep. mstep. apply runs_bind, runs_cmd.
  destruct (ovs_run (newGetIfcOFportCmd (li_Name ifc)) "" (ovs f)) as [[out err] o]. apply runs_ret. cbn [fst snd].
  destruct err; [by eauto|]. split_and!; [done|by intros [? [=]]|done].
Qed.

Lemma lock_runs vni ip f (Q : option error → OvsFabric → Prop) :
  has_number ip →
  (∀ e, (vni, ip_number ip) ∈ lockedVNIIPPairs f → Q (Some e) f) →
  ((vni, ip_number ip) ∉ lockedVNIIPPairs f →
   Q None (set_locks f ({[(vni, ip_number ip)]} ∪ lockedVNIIPPairs f))) →
  runs (lockVNIIPPair vni ip) f Q.
Proof.
  unfold ip_number, lockVNIIPPair, vniAndIP, runs, lift, gets, set_locked, modify, mbind, M_bind, mret, M_ret, res_bind.
  intros [u ->] HL HN.
  destruct (decide ((vni, u) ∈ lockedVNIIPPairs f)); [rewrite bool_decide_eq_true_2 by done; by apply HL|].
  rewrite bool_decide_eq_false_2 by done. by apply HN.
Qed.

Lemma unlock_runs vni ip f (Q : unit → OvsFabric → Prop) :
  has_number ip →
  Q tt (set_locks f (lockedVNIIPPairs f ∖ {[(vni, ip_number ip)]})) → runs (unlockVNIIPPair vni ip) f Q.
Proof.
  unfold ip_number, unlockVNIIPPair, vniAndIP, runs, lift, set_locked, modify, mbind, M_bind, res_bind.
  by intros [u ->].
Qed.

(** ** Creating and deleting *)

(** The port of the device and the flows for it cannot be had: the command that failed, and
    the tool after it. *)
Definition plug_fails (ifc : LocalNetIfc) f o o' : Prop :=
  let o1 := after (port_cmd ifc) o in
  let add := add_local_cmd f ifc (port_of ifc o) in
  (fails (port_cmd ifc) o ∧ o' = o1) ∨ (¬ fails (port_cmd ifc) o ∧ fails add o1 ∧ o' = after add o1).

Lemma plug_local_runs ifc f :
  runs (plug_local ifc) f (λ err f',
    let o1 := after (port_cmd ifc) (ovs f) in
    let add := add_local_cmd f ifc (port_of ifc (ovs f)) in
    match err with
    | None => f' = set_ovs f (after add o1) ∧ ¬ fails (port_cmd ifc) (ovs f) ∧ ¬ fails add o1
    | Some _ => ∃ o, f' = set_ovs f o ∧ plug_fails ifc f (ovs f) o
    end).
Proof.
  unfold plug_local, plug_fails. apply runs_bind. eapply runs_conseq; [apply getIfcOFport_runs|].
  intros [e|port] f' [-> Hr]; [apply runs_ret; eexists; split; [done|by left]|]. destruct Hr as [Hf ->].
  eapply runs_conseq; [apply addLocal_command|]. cbn beta. intros err f'' [-> He].
  destruct err as [e|]; [eexists; split; [done|right; split; [done|]; split; [by apply He|done]]|].
  split_and!; [done|done|]. intros Hfail. by destruct (proj2 He Hfail) as [? [=]].
Qed.

Lemma unlock_added (k : Z * Z) (l : gset (Z * Z)) : k ∉ l → ({[k]} ∪ l) ∖ {[k]} = l.
Proof. set_solver. Qed.

Lemma unlock_other (k k' : Z * Z) (l : gset (Z * Z)) : k ≠ k' → {[k]} ∪ (l ∖ {[k']}) = ({[k]} ∪ l) ∖ {[k']}.
Proof. set_solver. Qed.

(** After [CreateLocalIfc], on every path.  Without error the three commands have run and the pair is locked.
    With an error the pair is as it was: it was locked already, and nothing was done; or the
    device could not be made; or its port or flows could not, and then the last
    command was to delete the device, whatever that command answered. *)
Definition create_local_post (ifc : LocalNetIfc) f (err : option error) f' : Prop :=
  let key := (li_VNI ifc, ip_number (li_GuestIP ifc)) in
  let o1 := after (create_cmd f ifc) (ovs f) in
  let o2 := after (port_cmd ifc) o1 in
  let add := add_local_cmd f ifc (port_of ifc o1) in
  match err with
  | None => key ∉ lockedVNIIPPairs f ∧
            ¬ fails (create_cmd f ifc) (ovs f) ∧ ¬ fails (port_cmd ifc) o1 ∧ ¬ fails add o2 ∧
            f' = set_locks (set_ovs f (after add o2)) ({[key]} ∪ lockedVNIIPPairs f)
  | Some _ =>
      (key ∈ lockedVNIIPPairs f ∧ f' = f) ∨
      (key ∉ lockedVNIIPPairs f ∧ fails (create_cmd f ifc) (ovs f) ∧ f' = set_ovs f o1) ∨
      (key ∉ lockedVNIIPPairs f ∧ ¬ fails (create_cmd f ifc) (ovs f) ∧
       ∃ o, plug_fails ifc f o1 o ∧ f' = set_ovs f (after (delete_cmd f ifc) o))
  end.

Lemma create_local_runs ifc f :
  has_number (li_GuestIP ifc) → runs (CreateLocalIfc ifc) f (create_local_post ifc f).
Proof.
  intros Hn. unfold create_local_post, CreateLocalIfc. apply runs_bind, lock_runs; [done| |].
  { intros e Hk. apply runs_ret. auto. }
  intros Hk. apply runs_bind. eapply runs_conseq; [apply createIfc_command|].
  intros err f1 [-> He]. destruct err as [e|].
  { apply runs_bind, unlock_runs; [done|]. apply runs_ret. cbn [lockedVNIIPPairs set_locks set_ovs].
    rewrite unlock_added by done. right. left. split; [done|]. split; [by apply He|by destruct f]. }
  assert (Hc : ¬ fails (create_cmd f ifc) (ovs f)) by (intros Hf; by destruct (proj2 He Hf) as [? [=]]).
  apply runs_bind. eapply runs_conseq; [apply plug_local_runs|]. intros [e|] f2.
  - intros (o & -> & Hp). apply runs_bind. eapply runs_conseq; [apply deleteIfc_command|].
    intros err2 f3 [-> _]. apply runs_bind, unlock_runs; [done|]. apply runs_ret.
    cbn [lockedVNIIPPairs set_locks set_ovs]. rewrite unlock_added by done.
    right. right. split; [done|]. split; [done|]. exists o. split; [exact Hp|by destruct f].
  - intros (-> & Hp & Ha). apply runs_ret. by split_and!.
Qed.

Lemma create_local_locks ifc f e f' :
  create_local_post ifc f (Some e) f' → lockedVNIIPPairs f' = lockedVNIIPPairs f.
Proof. unfold create_local_post. by intros [[_ ->]|[(_ & _ & ->)|(_ & _ & o & _ & ->)]]. Qed.

(** After [DeleteLocalIfc]: the flows and the device are deleted and the pair is free,
    or some command failed and the pair is still locked. *)
Definition delete_local_post (ifc : LocalNetIfc) f (err : option error) f' : Prop :=
  let key := (li_VNI ifc, ip_number (li_GuestIP ifc)) in
  let o1 := after (port_cmd ifc) (ovs f) in
  let del := del_local_cmd f ifc (port_of ifc (ovs f)) in
  let o2 := after del o1 in
  (is_Some err ↔ fails (port_cmd ifc) (ovs f) ∨ fails del o1 ∨ fails (delete_cmd f ifc) o2) ∧
  match err with
  | None => f' = set_locks (set_ovs f (after (delete_cmd f ifc) o2)) (lockedVNIIPPairs f ∖ {[key]})
  | Some _ => f' = set_ovs f o1 ∧ fails (port_cmd ifc) (ovs f) ∨
              f' = set_ovs f o2 ∧ fails del o1 ∨
              f' = set_ovs f (after (delete_cmd f ifc) o2) ∧ fails (delete_cmd f ifc) o2
  end.

Lemma delete_local_runs ifc f :
  has_number (li_GuestIP ifc) → runs (DeleteLocalIfc ifc) f (delete_local_post ifc f).
Proof.
  intros Hn. unfold delete_local_post, DeleteLocalIfc. apply runs_bind. eapply runs_conseq; [apply getIfcOFport_runs|].
  intros [e|port] f1 [-> Hr]; [apply runs_ret; split; [split; eauto|by left]|]. destruct Hr as [Hf ->].
  apply runs_bind. eapply runs_conseq; [apply del_flows_command|]. intros err f2 [-> He]. cbn [ovs set_ovs] in *.
  change (newDelFlowsCmd (set_ovs f _) _) with (del_local_cmd f ifc (port_of ifc (ovs f))) in *.
  destruct err as [e|].
  { assert (Hd : fails (del_local_cmd f ifc (port_of ifc (ovs f))) (after (port_cmd ifc) (ovs f))) by by apply He.
    apply runs_ret. split; [|by right; left]. split; [|eauto]. intros _. by right; left. }
  assert (Hd : ¬ fails (del_local_cmd f ifc (port_of ifc (ovs f))) (after (port_cmd ifc) (ovs f)))
    by (intros Hx; by destruct (proj2 He Hx) as [? [=]]).
  apply runs_bind. eapply runs_conseq; [apply deleteIfc_command|]. intros err f3 [-> He3]. cbn [ovs set_ovs] in *.
  destruct err as [e|].
  { assert (Hx : is_Some (Some e)) by done. apply He3 in Hx. apply runs_ret.
    split; [|by right; right]. split; [|eauto]. intros _. by right; right. }
  apply runs_bind, unlock_runs; [done|]. apply runs_ret. split; [|done].
  split; [by intros [? [=]]|]. intros [?|[?|Hx]]; [done|done|]. by destruct (proj2 He3 Hx) as [? [=]].
Qed.

Lemma create_remote_runs ifc f :
  has_number (ri_GuestIP ifc) →
  runs (CreateRemoteIfc ifc) f (λ err f',
    let key := (ri_VNI ifc, ip_number (ri_GuestIP ifc)) in
    match err with
    | None => key ∉ lockedVNIIPPairs f ∧ ¬ fails (add_remote_cmd f ifc) (ovs f) ∧
              f' = set_locks (set_ovs f (after (add_remote_cmd f ifc) (ovs f))) ({[key]} ∪ lockedVNIIPPairs f)
    | Some _ => lockedVNIIPPairs f' = lockedVNIIPPairs f ∧
                (f' = f ∧ key ∈ lockedVNIIPPairs f ∨
                 f' = set_ovs f (after (add_remote_cmd f ifc) (ovs f)) ∧ fails (add_remote_cmd f ifc) (ovs f))
    end).
Proof.
  intros Hn. unfold CreateRemoteIfc. apply runs_bind, lock_runs; [done| |].
  { intros e Hk. apply runs_ret. auto. }
  intros Hk. apply runs_bind. unfold addRemoteIfcFlows. mstep. mstep.
  eapply runs_conseq; [apply add_flows_command|]. intros err f1 [-> He]. cbn [ovs set_locks] in *.
  change (newAddFlowsCmd (set_locks f _) _) with (add_remote_cmd f ifc) in *. destruct err as [e|].
  - apply runs_bind, unlock_runs; [done|]. apply runs_ret. cbn [lockedVNIIPPairs set_locks set_ovs].
    rewrite unlock_added by done. split; [done|]. right. split; [by destruct f|]. by apply He.
  - apply runs_ret. split_and!; [done| |done]. intros Hx. by destruct (proj2 He Hx) as [? [=]].
Qed.

Lemma delete_remote_runs ifc f :
  has_number (ri_GuestIP ifc) →
  runs (DeleteRemoteIfc ifc) f (λ err f',
    (is_Some err ↔ fails (del_remote_cmd f ifc) (ovs f)) ∧
    f' = set_locks (set_ovs f (after (del_remote_cmd f ifc) (ovs f)))
           match err with
           | None => lockedVNIIPPairs f ∖ {[(ri_VNI ifc, ip_number (ri_GuestIP ifc))]}
           | Some _ => lockedVNIIPPairs f
           end).
Proof.
  intros Hn. unfold DeleteRemoteIfc. apply runs_bind. unfold deleteRemoteIfcFlows.
  eapply runs_conseq; [apply del_flows_command|]. intros err f1 [-> He].
  change (newDelFlowsCmd f _) with (del_remote_cmd f ifc) in *. destruct err as [e|].
  - apply runs_ret. split; [done|by destruct f].
  - apply runs_bind, unlock_runs; [done|]. by apply runs_ret.
Qed.

(** ** Sequences of operations *)

Inductive Ifc := Local (ifc : LocalNetIfc) | Remote (ifc : RemoteNetIfc).

#[export] Instance Ifc_eq_dec : EqDecision Ifc.
Proof. solve_decision. Defined.

Definition ifc_IP (n : Ifc) : IP := match n with Local i => li_GuestIP i | Remote i => ri_GuestIP i end.
(** The pair that the fabric locks for an interface. *)
Definition ifc_pair (n : Ifc) : Z * Z :=
  (match n with Local i => li_VNI i | Remote i => ri_VNI i end, ip_number (ifc_IP n)).
Definition create_ifc (n : Ifc) : M OvsFabric (option error) :=
  match n with Local i => CreateLocalIfc i | Remote i => CreateRemoteIfc i end.
Definition delete_ifc (n : Ifc) : M OvsFabric (option error) :=
  match n with Local i => DeleteLocalIfc i | Remote i => DeleteRemoteIfc i end.

(** A client creates interfaces and deletes those it has: the fabric with the
    interfaces that were created and not deleted. *)
Inductive step : OvsFabric * list Ifc → OvsFabric * list Ifc → Prop :=
| step_create n f held err f' :
    has_number (ifc_IP n) → create_ifc n f = Ok (err, f') →
    step (f, held) (f', match err with None => n :: held | Some _ => held end)
| step_delete n f held err f' :
    n ∈ held → delete_ifc n f = Ok (err, f') →
    step (f, held) (f', match err with None => filter (.≠ n) held | Some _ => held end).

(** The pairs of the interfaces are distinct and they are those that are locked. *)
Definition pairs_ok (c : OvsFabric * list Ifc) : Prop :=
  NoDup (ifc_pair <$> c.2) ∧ Forall (λ n, has_number (ifc_IP n)) c.2 ∧
  lockedVNIIPPairs (c.1 : @OvsFabric O) = list_to_set (ifc_pair <$> c.2).

Lemma create_pairs n f :
  has_number (ifc_IP n) →
  runs (create_ifc n) f (λ err f', match err with
    | None => ifc_pair n ∉ lockedVNIIPPairs f ∧ lockedVNIIPPairs f' = {[ifc_pair n]} ∪ lockedVNIIPPairs f
    | Some _ => lockedVNIIPPairs f' = lockedVNIIPPairs f end).
Proof.
  destruct n as [i|i]; intros Hn; cbn [create_ifc].
  - eapply runs_conseq; [by apply create_local_runs|].
    intros [e|] f'; [apply create_local_locks|]. cbn zeta. by intros (? & _ & _ & _ & ->).
  - eapply runs_conseq; [by apply create_remote_runs|].
    intros [e|] f'; cbn zeta; [by intros [? _]|]. by intros (? & _ & ->).
Qed.

Lemma delete_pairs n f :
  has_number (ifc_IP n) →
  runs (delete_ifc n) f (λ err f', lockedVNIIPPairs f' =
    match err with None => lockedVNIIPPairs f ∖ {[ifc_pair n]} | Some _ => lockedVNIIPPairs f end).
Proof.
  destruct n as [i|i]; intros Hn; cbn [delete_ifc].
  - eapply runs_conseq; [by apply delete_local_runs|]. unfold delete_local_post.
    intros [e|] f'; cbn zeta; [by intros [_ [[-> _]|[[-> _]|[-> _]]]]|by intros [_ ->]].
  - eapply runs_conseq; [by apply delete_remote_runs|].
    intros [e|] f'; cbn zeta; by intros [_ ->].
Qed.

Lemma drop_pair n held :
  n ∈ held → NoDup (ifc_pair <$> held) →
  NoDup (ifc_pair <$> filter (.≠ n) held) ∧
  (list_to_set (ifc_pair <$> filter (.≠ n) held) : gset (Z * Z)) = list_to_set (ifc_pair <$> held) ∖ {[ifc_pair n]}.
Proof.
  intros Hn Hnd. induction held as [|m held IH]; [by apply elem_of_nil in Hn|].
  rewrite fmap_cons in Hnd. apply NoDup_cons in Hnd as [Hm Hnd].
  destruct (decide (m = n)) as [->|Hmn].
  - rewrite filter_cons_False, list_filter_all by (naive_solver || (apply Forall_forall; intros x Hx ->; by apply Hm, list_elem_of_fmap_2)).
    split; [done|]. rewrite fmap_cons. cbn. assert (Hs : ifc_pair n ∉ (list_to_set (ifc_pair <$> held) : gset (Z * Z))) by by rewrite elem_of_list_to_set.
    symmetry. by apply unlock_added.
  - apply elem_of_cons in Hn as [->|Hn]; [done|]. rewrite filter_cons_True by done. rewrite !fmap_cons.
    destruct (IH Hn Hnd) as [IH1 IH2]. split.
    + apply NoDup_cons. split; [|done]. intros (x & E & [_ Hx]%list_elem_of_filter)%list_elem_of_fmap.
      apply Hm. rewrite E. by apply list_elem_of_fmap_2.
    + cbn. rewrite IH2. apply unlock_other. intros E. apply Hm. rewrite E. by apply list_elem_of_fmap_2.
Qed.

Lemma step_pairs c c' : step c c' → pairs_ok c → pairs_ok c'.
Proof.
  intros [n f held err f' Hn E|n f held err f' Hn E] (Hnd & Hf & Hl); unfold pairs_ok in *; cbn [fst snd] in *.
  - pose proof (create_pairs n f Hn) as Hr. unfold runs in Hr. rewrite E in Hr. destruct err as [e|].
    { by rewrite Hr. }
    destruct Hr as [Hk ->]. rewrite Hl in *. rewrite fmap_cons. split_and!; [|by constructor|done].
    apply NoDup_cons. split; [|done]. by rewrite elem_of_list_to_set in Hk.
  - rewrite Forall_forall in Hf. pose proof (delete_pairs n f (Hf n Hn)) as Hr. unfold runs in Hr. rewrite E in Hr.
    rewrite Hr. destruct err as [e|]; [split_and!; try done; by apply Forall_forall|].
    destruct (drop_pair n held Hn Hnd) as [H1 H2]. rewrite Hl, H2. split_and!; [done| |done].
    apply Forall_forall. intros x [_ Hx]%list_elem_of_filter. by apply Hf.
Qed.

(** C25: whatever the commands answer, a client of the fabric that creates interfaces and
    deletes those it has never gets two interfaces, local or remote, of one VNI and
    address: what is locked is exactly what exists, and neither operation panics. *)
Theorem one_interface_per_address c c' :
  lockedVNIIPPairs c.1 = ∅ → c.2 = [] → rtc step c c' →
  NoDup (ifc_pair <$> c'.2) ∧ lockedVNIIPPairs c'.1 = list_to_set (ifc_pair <$> c'.2) ∧
  (∀ n, has_number (ifc_IP n) →
     runs (create_ifc n) c'.1 (λ err _, err = None → ifc_pair n ∉ ifc_pair <$> c'.2)) ∧
  (∀ n, n ∈ c'.2 → runs (delete_ifc n) c'.1 (λ _ _, True)).
Proof.
  intros Hl Hh Hr. assert (Hok : pairs_ok c).
  { unfold pairs_ok. rewrite Hl, Hh. by split_and!; [constructor|constructor|]. }
  assert (Hok' : pairs_ok c') by (clear Hl Hh; induction Hr; [done|]; by eauto using step_pairs).
  destruct Hok' as (Hnd & Hf & Hlk). split_and!; [done|done| |].
  - intros n Hn. eapply runs_conseq; [by apply create_pairs|]. intros err f' Hp ->. destruct Hp as [Hp _].
    by rewrite Hlk, elem_of_list_to_set in Hp.
  - intros n Hn. rewrite Forall_forall in Hf. eapply runs_conseq; [by apply delete_pairs, Hf|done].
Qed.

(** C27: creating a local interface succeeds exactly when its address was free and its three commands (the
    device, its port, its flows) succeed, and then the address is locked.  On an error the locks are as before and
    nothing was run if the address was in use; if the port or the flows cannot be had, the last
    command is the one that deletes the device again: when that fails too, which is only
    logged, the device stays although its address is free.  Deleting a local interface fails exactly when
    one of its commands does, a device that is not there included, then stops there and
    keeps the address locked. *)
Theorem local_operations ifc f :
  has_number (li_GuestIP ifc) →
  runs (CreateLocalIfc ifc) f (create_local_post ifc f) ∧ runs (DeleteLocalIfc ifc) f (delete_local_post ifc f).
Proof. intros Hn. split; [by apply create_local_runs|by apply delete_local_runs]. Qed.
End Ops.
End OvsOps.
