(* ===== verification/OvsParse.v ===== *)
(** * Reading back the flows of the Open vSwitch fabric

    [ovs-ofctl dump-flows] prints a flow as its cookie, its statistics, what it matches
    and its actions.  Whatever the statistics are, the fabric reads from a flow what it
    was made of. *)

From S2P Require Import Prelude GoStr GoNet ApiTypes SubnetStrategy GoRegexp Fabric AgentIds Ovs.
Import GoNet Ovs.

Module OvsParse.

(** ** The parts of a flow *)

Lemma colon_class_pair b s :
  is_u8 b → rests (RSeq hex_pair (RClass (λ c, char_is c ":" || char_is c "-"))) (hex2 b +:+ ":" +:+ s) = [s].
Proof. revert b. apply byte_cases. repeat constructor. Qed.

Lemma hex_pair_rests b s : is_u8 b → rests hex_pair (hex2 b +:+ s) = [s].
Proof. revert b. apply byte_cases. repeat constructor. Qed.

Lemma octet_dot n s : is_u8 n → leaves (RSeq octet (RLit ".")) (fmt_d n +:+ "." +:+ s) s.
Proof.
  revert n. apply byte_cases.
  repeat (apply Forall_cons_2; [destruct s; vm_compute; eexists; reflexivity|]). apply Forall_nil_2.
Qed.

(** What may follow an address. *)
Definition ends_ip (u : string) : Prop := u = "" ∨ ∃ s, u = String " " s.

Lemma octet_end n u : is_u8 n → ends_ip u → leaves octet (fmt_d n +:+ u) u.
Proof.
  intros Hn [->|[s ->]]; revert n Hn; apply byte_cases;
    repeat (apply Forall_cons_2; [vm_compute; eexists; reflexivity|]); apply Forall_nil_2.
Qed.

Lemma ipv4_leaves p u : bytes4 p → ends_ip u → leaves ipv4 (dotted p +:+ u) u.
Proof.
  intros (a & b & c & d & -> & Ha & Hb & Hc & Hd)%bytes4_inv Hu. unfold ipv4, RRep.
  assert (E : dotted [a; b; c; d] +:+ u =
    fmt_d a +:+ "." +:+ fmt_d b +:+ "." +:+ fmt_d c +:+ "." +:+ fmt_d d +:+ u).
  { unfold dotted. cbn [fmap list_fmap str_join]. by rewrite !str_app_assoc. }
  rewrite E. eapply leaves_seq; [|by apply octet_end].
  repeat (eapply leaves_seq; [by apply octet_dot|]). apply (leaves_lit "").
Qed.

Lemma fmt_x_hex v : 0 ≤ v → str_forall is_hex_digit (fmt_x v) = true.
Proof. intros Hv. apply FormatUint_forall; [lia|done|]. by repeat constructor. Qed.

(** Where a number is looked for behind a label. *)
Lemma find_hex lit v pre u :
  skips "0" lit = true → 0 ≤ v → passes lit pre (lit +:+ "0x" +:+ fmt_x v +:+ u) → stops is_hex_digit u = true →
  FindString hexNbr (FindString (RSeq (RLit lit) hexNbr) (pre +:+ lit +:+ "0x" +:+ fmt_x v +:+ u)) =
  "0x" +:+ fmt_x v.
Proof.
  intros Hl Hv Hp Hu. rewrite find_pass by done.
  assert (Hh : ∀ w, stops is_hex_digit w = true → leaves hexNbr ("0x" +:+ fmt_x v +:+ w) w).
  { intros w Hw. apply (leaves_seq _ _ _ ("x" +:+ fmt_x v +:+ w)); [by eexists|].
    eapply leaves_seq; [by eexists|]. apply leaves_span; [by apply fmt_go_nonempty|by apply fmt_x_hex|done]. }
  assert (E : FindString (RSeq (RLit lit) hexNbr) (lit +:+ "0x" +:+ fmt_x v +:+ u) = lit +:+ "0x" +:+ fmt_x v).
  { replace (lit +:+ "0x" +:+ fmt_x v +:+ u) with ((lit +:+ "0x" +:+ fmt_x v) +:+ u) by by rewrite !str_app_assoc.
    apply find_leaves_here. rewrite !str_app_assoc. eapply leaves_seq; [apply leaves_lit|by apply Hh]. }
  rewrite E. unfold hexNbr. rewrite find_pass by by apply pass_lit. fold hexNbr.
  apply find_whole. rewrite str_app_assoc. by apply Hh.
Qed.

Lemma find_dec n pre :
  0 ≤ n → passes "output:" pre ("output:" +:+ fmt_d n) →
  FindString decNbr (FindString output (pre +:+ "output:" +:+ fmt_d n)) = fmt_d n.
Proof.
  intros Hn Hp. unfold output. rewrite find_pass by done.
  assert (Hd : leaves decNbr (fmt_d n +:+ "") "").
  { apply leaves_span; [by apply fmt_d_nonempty|by apply fmt_d_digits|done]. }
  assert (E : FindString (RSeq (RLit "output:") decNbr) ("output:" +:+ fmt_d n) = "output:" +:+ fmt_d n).
  { apply find_whole. rewrite str_app_assoc. eapply leaves_seq; [apply leaves_lit|exact Hd]. }
  rewrite E, find_skip by by apply span_dead. by apply find_whole.
Qed.

Lemma find_ip p pre u :
  bytes4 p → ends_ip u → passes "arp_tpa=" pre ("arp_tpa=" +:+ dotted p +:+ u) →
  FindString ipv4 (FindString arpTPA (pre +:+ "arp_tpa=" +:+ dotted p +:+ u)) = dotted p.
Proof.
  intros Hp Hu Hpre. unfold arpTPA. rewrite find_pass by done.
  assert (E : FindString (RSeq (RLit "arp_tpa=") ipv4) (("arp_tpa=" +:+ dotted p) +:+ u) = "arp_tpa=" +:+ dotted p).
  { apply find_leaves_here. rewrite str_app_assoc. eapply leaves_seq; [apply leaves_lit|by apply ipv4_leaves]. }
  rewrite str_app_assoc in E. rewrite E.
  change (FindString ipv4 ("arp_tpa=" +:+ dotted p)) with (FindString ipv4 (dotted p)).
  apply find_whole, ipv4_leaves; [done|by left].
Qed.

(** The value of a hexadecimal number, whatever leading zeros are cut. *)
Lemma trim_value s :
  str_forall (λ c, is_dec_digit c || is_lower_hex c) s = true →
  parsed_value (ParseUint (TrimLeft s hexPrefixChars) 16 32) = parsed_value (ParseUint s 16 32).
Proof.
  induction s as [|c s IH]; [done|]. cbn [str_forall TrimLeft]. intros [Hc Hs]%andb_true_iff.
  destruct (in_cutset c hexPrefixChars) eqn:Ec; [|done]. rewrite IH by done.
  assert (c = "0"%char) as ->.
  { unfold in_cutset, hexPrefixChars, char_is in Ec. rewrite !orb_true_iff, !bool_decide_eq_true in Ec.
    destruct Ec as [->|[->|[->|[=]]]]; done. }
  unfold ParseUint at 2. rewrite (parse_pad 16 _ 1 s) by lia. by destruct s.
Qed.

Lemma hex_value v :
  is_u32 v → u32 (parsed_value (ParseUint (TrimLeft ("0x" +:+ fmt_x v) hexPrefixChars) 16 32)) = v.
Proof.
  unfold is_u32. intros Hv. change (TrimLeft ("0x" +:+ fmt_x v) hexPrefixChars) with (TrimLeft (fmt_x v) hexPrefixChars).
  rewrite trim_value.
  - unfold fmt_x. rewrite ParseUint_FormatUint by lia. by apply u32_small.
  - apply FormatUint_forall; [lia|lia|]. by repeat constructor.
Qed.

(** *** MAC addresses *)

Lemma mac_leaves m u : mac6 m → leaves mac (MAC_String m +:+ u) u.
Proof.
  intros [Hl Hm]. do 6 (destruct m as [|? m]; [done|]). destruct m; [|done]. clear Hl.
  repeat match type of Hm with Forall _ (_ :: _) => apply Forall_cons in Hm as [? Hm] end.
  unfold MAC_String, mac, RRep. cbn [fmap list_fmap str_join]. rewrite !str_app_assoc.
  eapply leaves_seq; [|exists []; by apply hex_pair_rests].
  repeat (eapply leaves_seq; [exists []; by apply colon_class_pair|]). apply (leaves_lit "").
Qed.

(** No address starts in a text without a separator that ends like the label of the address. *)
Lemma mac_dead pre s :
  lacks ":" pre = true → lacks "-" pre = true → dead mac (pre +:+ "=") s.
Proof.
  intros Hc Hd p q E Hq. unfold mac, RRep.
  assert (Hsep : str_forall (λ c, negb (char_is c ":" || char_is c "-")) q = true).
  { assert (Ha : str_forall (λ c, negb (char_is c ":" || char_is c "-")) (pre +:+ "=") = true).
    { rewrite str_forall_app. apply andb_true_iff. split; [|done]. clear E. unfold lacks in *.
      induction pre as [|c pre IH]; [done|]. simpl in *. apply andb_true_iff in Hc as [Hc ?], Hd as [Hd ?].
      rewrite negb_orb, Hc, Hd. by apply IH. }
    rewrite E, str_forall_app in Ha. by apply andb_true_iff in Ha as [_ Ha]. }
  assert (Hlast : ∃ r, q = r +:+ "=").
  { apply str_app_split in E as [(e & -> & E)|(e & -> & E)]; [|by exists e].
    destruct e as [|c e]; [by exists ""|]. injection E as _ E. by destruct e, q. }
  destruct Hlast as [r ->].
  do 2 apply seq_none. destruct r as [|c [|d [|e r]]]; simpl in *.
  - done.
  - by destruct (is_hex_digit c).
  - destruct (is_hex_digit c); [|done]. simpl. by destruct (is_hex_digit d).
  - apply andb_true_iff in Hsep as [_ [_ [Hsep _]%andb_true_iff]%andb_true_iff].
    destruct (is_hex_digit c); [|done]. simpl. destruct (is_hex_digit d); [|done]. simpl.
    apply negb_true_iff in Hsep. by rewrite Hsep.
Qed.

Lemma xtoi2_pair b s : is_u8 b → xtoi2 (hex2 b +:+ String ":" s) ":" = Some b.
Proof. revert b. apply byte_cases. repeat constructor. Qed.

Lemma xtoi2_last b : is_u8 b → xtoi2 (hex2 b) ":" = Some b.
Proof. revert b. apply byte_cases. repeat constructor. Qed.

Lemma ParseMAC_String m : mac6 m → ParseMAC (MAC_String m) = Some m.
Proof.
  intros [Hl Hm]. do 6 (destruct m as [|? m]; [done|]). destruct m; [|done]. clear Hl.
  repeat match type of Hm with Forall _ (_ :: _) => apply Forall_cons in Hm as [? Hm] end.
  unfold MAC_String. cbn [fmap list_fmap str_join].
  assert (Hpm : ∀ n b t, is_u8 b → parse_mac (S n) ":" (hex2 b +:+ ":" +:+ t) = rest ← parse_mac n ":" t; Some (b :: rest)).
  { intros n b t Hb. cbn [parse_mac]. change (":" +:+ t) with (String ":" t). rewrite xtoi2_pair by done. by destruct t. }
  match goal with |- ParseMAC ?s = _ => change (ParseMAC s) with (parse_mac 6 ":" s) end.
  rewrite !Hpm by done. cbn [parse_mac]. by rewrite xtoi2_last.
Qed.

Lemma find_mac m pre u :
  mac6 m → lacks ":" pre = true → lacks "-" pre = true →
  ParseMAC (FindString mac (pre +:+ "=" +:+ MAC_String m +:+ u)) = Some m.
Proof.
  intros Hm Hc Hd. rewrite <- (str_app_assoc pre).
  rewrite find_leaves; [by apply ParseMAC_String|by apply mac_dead|by apply mac_leaves].
Qed.

(** ** The flows in a dump

    What [ovs-ofctl dump-flows] prints for the flows that the fabric adds: [c] is the
    cookie and [st] the text between it and the match. *)

Definition dl_line (c : Z) (st : string) (vni : Z) (m : HardwareAddr) (act : string) : string :=
  " cookie=0x" +:+ fmt_x c +:+ "," +:+ st +:+ " tun_id=0x" +:+ fmt_x vni +:+ ",dl_dst=" +:+ MAC_String m +:+
  " actions=" +:+ act.
Definition arp_line (c : Z) (st : string) (vni : Z) (p : list Z) (act : string) : string :=
  " cookie=0x" +:+ fmt_x c +:+ "," +:+ st +:+ " arp,tun_id=0x" +:+ fmt_x vni +:+ ",arp_tpa=" +:+ dotted p +:+
  " actions=" +:+ act.
Definition to_port (port : Z) : string := "output:" +:+ fmt_d port.
Definition to_host (hp : list Z) (vtep : Z) : string :=
  "load:0x" +:+ fmt_x (be hp) +:+ "->NXM_NX_TUN_IPV4_DST[],output:" +:+ fmt_d vtep.

(** The text has none of the words that the fabric looks for. *)
Definition marks : list string :=
  ["in_port"; "actions=output:"; "arp"; "NXM_NX_TUN_IPV4_DST"; "tun_id="; "cookie="; "load:"; "output:"; "arp_tpa="].
Definition quiet (st : string) : bool :=
  forallb (λ w, negb (str_contains st w)) marks && lacks ":" st && lacks "-" st && lacks "010" st.

Lemma quiet_marks st : quiet st = true → Forall (λ w, str_contains st w = false) marks.
Proof.
  unfold quiet. rewrite !andb_true_iff, forallb_forall. intros [[[H _] _] _].
  apply Forall_forall. intros w Hw. apply negb_true_iff, H, list_elem_of_In, Hw.
Qed.

(** The characters of numbers and addresses. *)
Definition addr_char (c : ascii) : bool :=
  is_dec_digit c || is_lower_hex c || char_is c ":" || char_is c ".".

Lemma fmt_addr base n : 2 ≤ base ≤ 16 → 0 ≤ n → str_forall addr_char (FormatUint n base) = true.
Proof.
  intros Hb Hn. apply FormatUint_forall; [lia|done|]. apply Forall_forall. intros d [Hd1 Hd2]%elem_of_seqZ.
  assert (Hall : Forall (λ d, addr_char (digit_char d) = true) (seqZ 0 16)) by by repeat constructor.
  rewrite Forall_forall in Hall. apply Hall, elem_of_seqZ. lia.
Qed.

Lemma join_addr sep l :
  str_forall addr_char sep = true → Forall (λ w, str_forall addr_char w = true) l →
  str_forall addr_char (str_join sep l) = true.
Proof.
  intros Hs. induction 1 as [|w l Hw Hl IH]; [done|]. destruct l as [|w' l]; [done|].
  change (str_join sep (w :: w' :: l)) with (w +:+ sep +:+ str_join sep (w' :: l)).
  by rewrite !str_forall_app, Hw, Hs, IH.
Qed.

Lemma mac_addr m : Forall is_u8 m → str_forall addr_char (MAC_String m) = true.
Proof.
  intros Hm. apply join_addr; [done|]. apply Forall_fmap. eapply Forall_impl; [exact Hm|].
  unfold compose. apply byte_cases. repeat constructor.
Qed.

Lemma dotted_addr p : Forall is_u8 p → str_forall addr_char (dotted p) = true.
Proof.
  intros Hp. apply join_addr; [done|]. apply Forall_fmap. eapply Forall_impl; [exact Hp|].
  unfold is_u8. intros n Hn. apply fmt_addr; lia.
Qed.

Lemma hex_lacks x n : is_hex_digit x = false → 0 ≤ n → lacks x (fmt_x n) = true.
Proof.
  intros Hx Hn. eapply str_forall_impl; [|by apply fmt_x_hex]. intros d Hd. unfold char_is.
  rewrite bool_decide_eq_false_2; [done|congruence].
Qed.

Section Lines.
Variables (c : Z) (st : string) (vni : Z) (m : HardwareAddr) (p hp : list Z) (port : Z).
Hypotheses (Hc : 0 ≤ c) (Hst : quiet st = true) (Hvni : is_u32 vni) (Hm : mac6 m)
  (Hp : bytes4 p) (Hhp : bytes4 hp) (Hport : 0 ≤ port < 65536).

Ltac addr :=
  first [ apply fmt_addr; [lia | first [apply Hc | apply Hvni | apply Hport | apply be_range, Hhp]]
        | apply mac_addr, Hm | apply dotted_addr, Hp ].
Ltac without :=
  first [ apply (class_lacks addr_char); [addr | reflexivity]
        | let H := fresh in pose proof (quiet_marks st Hst) as H; rewrite Forall_forall in H; apply H;
          apply (bool_decide_unpack _); vm_compute; exact I ].
Ltac pass := first [ apply pass_lit; reflexivity | apply pass_sep; [reflexivity | without] ].
Ltac merge :=
  try match goal with |- context [" actions=" +:+ "load:0x" +:+ ?X] =>
    change (" actions=" +:+ "load:0x" +:+ X) with (" actions=load:0x" +:+ X) end.
Ltac scan := merge; repeat (rewrite contains_pass by pass); first [reflexivity | without].
Ltac seek := repeat (rewrite find_pass by pass).

(** What a flow is. *)
Definition kind (l : string) : bool * bool * bool * bool := (isLocal l, isTunneling l, isRemote l, isARP l).

Lemma dl_local_kind : kind (dl_line c st vni m (to_port port)) = (true, false, false, false).
Proof.
  unfold kind, isLocal, isTunneling, isRemote, isARP, remoteFlowsFingerprint, arpFlowsFingerprint, dl_line, to_port.
  repeat f_equal; [apply orb_true_iff; right| | |]; scan.
Qed.

Lemma arp_local_kind : kind (arp_line c st vni p (to_port port)) = (true, false, false, true).
Proof.
  unfold kind, isLocal, isTunneling, isRemote, isARP, remoteFlowsFingerprint, arpFlowsFingerprint, arp_line, to_port.
  repeat f_equal; [apply orb_true_iff; right| | |]; scan.
Qed.

Lemma dl_remote_kind : kind (dl_line c st vni m (to_host hp port)) = (false, false, true, false).
Proof.
  unfold kind, isLocal, isTunneling, isRemote, isARP, remoteFlowsFingerprint, arpFlowsFingerprint, dl_line, to_host.
  repeat f_equal; [apply orb_false_iff; split| | |]; scan.
Qed.

Lemma arp_remote_kind : kind (arp_line c st vni p (to_host hp port)) = (false, false, true, true).
Proof.
  unfold kind, isLocal, isTunneling, isRemote, isARP, remoteFlowsFingerprint, arpFlowsFingerprint, arp_line, to_host.
  repeat f_equal; [apply orb_false_iff; split| | |]; scan.
Qed.

(** What the fabric reads from a flow. *)
Lemma dl_vni act : extractVNI (dl_line c st vni m act) = vni.
Proof.
  unfold extractVNI, tunID, dl_line. seek.
  match goal with |- context [" tun_id=0x" +:+ ?X] => change (" tun_id=0x" +:+ X) with (" " +:+ "tun_id=" +:+ "0x" +:+ X) end.
  rewrite find_hex; [by apply hex_value|done|apply Hvni|by apply pass_lit|done].
Qed.

Lemma arp_vni act : extractVNI (arp_line c st vni p act) = vni.
Proof.
  unfold extractVNI, tunID, arp_line. seek.
  match goal with |- context [" arp,tun_id=0x" +:+ ?X] => change (" arp,tun_id=0x" +:+ X) with (" arp," +:+ "tun_id=" +:+ "0x" +:+ X) end.
  rewrite find_hex; [by apply hex_value|done|apply Hvni|by apply pass_lit|done].
Qed.

Lemma dl_cookie act : extractCookie (dl_line c st vni m act) = "0x" +:+ fmt_x c.
Proof.
  unfold extractCookie, cookie, dl_line.
  match goal with |- context [" cookie=0x" +:+ ?X] => change (" cookie=0x" +:+ X) with (" " +:+ "cookie=" +:+ "0x" +:+ X) end.
  by rewrite find_hex; [|done|done|apply pass_lit|].
Qed.

Lemma arp_cookie act : extractCookie (arp_line c st vni p act) = "0x" +:+ fmt_x c.
Proof.
  unfold extractCookie, cookie, arp_line.
  match goal with |- context [" cookie=0x" +:+ ?X] => change (" cookie=0x" +:+ X) with (" " +:+ "cookie=" +:+ "0x" +:+ X) end.
  by rewrite find_hex; [|done|done|apply pass_lit|].
Qed.

Lemma arp_guest_ip act : extractGuestIP (arp_line c st vni p act) = v4InV6Prefix ++ p.
Proof.
  unfold extractGuestIP, arpTPA, arp_line. seek. fold arpTPA.
  match goal with |- context [",arp_tpa=" +:+ ?X] => change (",arp_tpa=" +:+ X) with ("," +:+ "arp_tpa=" +:+ X) end.
  rewrite find_ip; [|done|right; by eexists|by apply pass_lit].
  rewrite <- IP_String_v4 by apply Hp. by apply ParseIP_String.
Qed.

Lemma dl_guest_mac act : extractGuestMAC (dl_line c st vni m act) = m.
Proof.
  assert (Hl : ∀ x, x = ":"%char ∨ x = "-"%char →
    lacks x (" cookie=0x" +:+ fmt_x c +:+ "," +:+ st +:+ " tun_id=0x" +:+ fmt_x vni +:+ ",dl_dst") = true).
  { unfold quiet in Hst. apply andb_true_iff in Hst as [[[_ H1]%andb_true_iff H2]%andb_true_iff _].
    intros x Hx. unfold lacks. rewrite !str_forall_app, !andb_true_iff. fold (lacks x st).
    destruct Hx as [-> | ->]; split_and!;
      first [done | apply hex_lacks; [done|first [apply Hvni|apply Hc]]]. }
  unfold extractGuestMAC, dl_line.
  match goal with |- context [FindString mac ?l] =>
    replace l with ((" cookie=0x" +:+ fmt_x c +:+ "," +:+ st +:+ " tun_id=0x" +:+ fmt_x vni +:+ ",dl_dst") +:+
                    "=" +:+ MAC_String m +:+ " actions=" +:+ act) by by rewrite !str_app_assoc end.
  rewrite find_mac; [done|done|apply Hl; by left|apply Hl; by right].
Qed.

Lemma port_value : parseOFport (fmt_d port) = port.
Proof.
  unfold parseOFport, fmt_d. rewrite ParseUint_FormatUint by lia. simpl. unfold u16. apply Z.mod_small. lia.
Qed.

Lemma output_port pre :
  passes "output:" pre ("output:" +:+ fmt_d port) →
  usefulLocalFlowOFport (pre +:+ "output:" +:+ fmt_d port) = port.
Proof.
  intros Hpre. unfold usefulLocalFlowOFport, arpOrDlTrafficFlowOFport.
  rewrite find_dec by (done || lia). apply port_value.
Qed.

Lemma dl_port : usefulLocalFlowOFport (dl_line c st vni m (to_port port)) = port.
Proof.
  unfold usefulLocalFlowOFport, arpOrDlTrafficFlowOFport, dl_line, to_port, output. seek. fold output.
  apply (output_port ""). by apply pass_lit.
Qed.

Lemma arp_port : usefulLocalFlowOFport (arp_line c st vni p (to_port port)) = port.
Proof.
  unfold usefulLocalFlowOFport, arpOrDlTrafficFlowOFport, arp_line, to_port, output. seek. fold output.
  apply (output_port ""). by apply pass_lit.
Qed.

Lemma hexStrToIPv4_be : hexStrToIPv4 ("0x" +:+ fmt_x (be hp)) = v4InV6Prefix ++ hp.
Proof.
  unfold hexStrToIPv4. rewrite hex_value by by apply be_range.
  destruct (bytes4_inv hp Hhp) as (a & b & d & e & -> & Ha & Hb & Hd & He).
  unfold IPv4_16. f_equal. unfold be. cbn [foldl]. unfold is_u8 in *.
  rewrite !Z.shiftr_div_pow2 by lia. change (2 ^ 24) with 16777216. change (2 ^ 16) with 65536. change (2 ^ 8) with 256.
  repeat f_equal; u32_lia.
Qed.

Lemma host_label : FindString hexNbr (FindString load (to_host hp port)) = "0x" +:+ fmt_x (be hp).
Proof.
  unfold load, to_host. change ("load:0x" +:+ ?X) with ("" +:+ "load:" +:+ "0x" +:+ X).
  rewrite find_hex; [done|done|apply be_range, Hhp|by apply pass_lit|done].
Qed.

Lemma dl_host : extractHostIP (dl_line c st vni m (to_host hp port)) = v4InV6Prefix ++ hp.
Proof.
  unfold extractHostIP, load, dl_line. seek. fold load. rewrite host_label. apply hexStrToIPv4_be.
Qed.

Lemma arp_host : extractHostIP (arp_line c st vni p (to_host hp port)) = v4InV6Prefix ++ hp.
Proof.
  unfold extractHostIP, load, arp_line. seek. fold load. rewrite host_label. apply hexStrToIPv4_be.
Qed.
End Lines.
End OvsParse.
