(* ===== verification/OvsList.v ===== *)
(** * Listing the interfaces of the Open vSwitch fabric

    [ListLocalIfcs] and [ListRemoteIfcs] over the texts that the commands print for a
    bridge: the flows of its interfaces in any order and with any statistics, among
    any others. *)

From S2P Require Import Prelude GoStr GoNet ApiTypes SubnetStrategy GoRegexp Fabric AgentIds Ovs OvsParse.
Import GoNet Ovs OvsParse.

Module OvsList.

(** ** Grouping *)

Section Group.
Context {K A : Type} `{Countable K} (kf : string → K) (key : A → K) (lines : A → list string).

Lemma group_snoc flows l :
  group kf (flows ++ [l]) = <[kf l := default [] (group kf flows !! kf l) ++ [l]]> (group kf flows).
Proof. unfold group. by rewrite foldl_app. Qed.

Lemma group_lookup flows k :
  group kf flows !! k =
  match filter (λ l, kf l = k) flows with [] => None | ls => Some ls end.
Proof.
  induction flows as [|l flows IH] using rev_ind; [done|].
  rewrite group_snoc, filter_app, filter_cons, filter_nil. destruct (decide (kf l = k)) as [<-|Hk].
  - rewrite lookup_insert_eq. rewrite IH. by destruct (filter _ flows).
  - rewrite lookup_insert_ne, app_nil_r by done. done.
Qed.

Lemma filter_lines a items :
  NoDup (key <$> items) → a ∈ items → (∀ a l, a ∈ items → l ∈ lines a → kf l = key a) →
  filter (λ l, kf l = key a) (concat (lines <$> items)) = lines a.
Proof.
  intros Hnd Ha Hk.
  assert (Hnone : ∀ its, key a ∉ key <$> its → (∀ b l, b ∈ its → l ∈ lines b → kf l = key b) →
    filter (λ l, kf l = key a) (concat (lines <$> its)) = []).
  { induction its as [|b its IH]; intros Hn Hb; [done|]. rewrite fmap_cons in *. cbn [concat].
    apply not_elem_of_cons in Hn as [Hn1 Hn2].
    rewrite filter_app, IH, app_nil_r; [|done|intros; eapply Hb; [by right|done]].
    apply list_filter_none. apply Forall_forall. intros l Hl E. rewrite (Hb b l) in E; [done|left|done]. }
  induction items as [|b items IH]; [by apply elem_of_nil in Ha|].
  rewrite fmap_cons in *. apply NoDup_cons in Hnd as [Hn Hnd]. cbn [concat]. rewrite filter_app.
  apply elem_of_cons in Ha as [->|Ha].
  - rewrite Hnone, app_nil_r; [|done|intros; eapply Hk; [by right|done]].
    apply list_filter_all. apply Forall_forall. intros l Hl. eapply Hk; [left|done].
  - rewrite IH; [|done|done|intros; eapply Hk; [by right|done]].
    rewrite (list_filter_none _ (lines b)); [done|]. apply Forall_forall. intros l Hl E.
    rewrite (Hk b l) in E; [|left|done]. apply Hn. rewrite E. by apply list_elem_of_fmap_2.
Qed.

(** The groups of items with distinct keys are the lines of the items. *)
Lemma group_items items flows :
  NoDup (key <$> items) → (∀ a l, a ∈ items → l ∈ lines a → kf l = key a) → (∀ a, a ∈ items → lines a ≠ []) →
  flows ≡ₚ concat (lines <$> items) →
  ∃ (pick : A → list string) items',
    items' ≡ₚ items ∧ (∀ a, a ∈ items → pick a ≡ₚ lines a) ∧
    map_to_list (group kf flows) = (λ a, (key a, pick a)) <$> items'.
Proof.
  intros Hnd Hk Hne Hp. set (pick a := filter (λ l, kf l = key a) flows).
  assert (Hpick : ∀ a, a ∈ items → pick a ≡ₚ lines a).
  { intros a Ha. unfold pick. rewrite Hp. by rewrite filter_lines. }
  assert (E : group kf flows = list_to_map ((λ a, (key a, pick a)) <$> items)).
  { apply map_eq. intros k. rewrite group_lookup.
    destruct (decide (k ∈ key <$> items)) as [(a & -> & Ha)%list_elem_of_fmap|Hn].
    - symmetry. assert (Ep : pick a ≠ []).
      { intros Ep. specialize (Hpick a Ha). rewrite Ep in Hpick. by apply Permutation_nil, (Hne a Ha) in Hpick. }
      fold (pick a). transitivity (Some (pick a)); [|by destruct (pick a)].
      apply elem_of_list_to_map_1; [by rewrite <- list_fmap_compose|].
      by apply (list_elem_of_fmap_2 (λ a, (key a, pick a))).
    - rewrite list_filter_none.
      + symmetry. apply not_elem_of_list_to_map_1. by rewrite <- list_fmap_compose.
      + apply Forall_forall. intros l Hl <-. apply Hn. rewrite Hp in Hl.
        apply list_elem_of_In, in_concat in Hl as (ls & (a & -> & Ha)%list_elem_of_In%list_elem_of_fmap & Hl%list_elem_of_In).
        rewrite (Hk a l) by done. by apply list_elem_of_fmap_2. }
  assert (Hm : map_to_list (group kf flows) ≡ₚ (λ a, (key a, pick a)) <$> items).
  { rewrite E. apply map_to_list_to_map. by rewrite <- list_fmap_compose. }
  destruct (Permutation_map_inv _ _ Hm) as (items' & E' & Hp').
  by exists pick, items'.
Qed.
End Group.

(** The pairs that the loops read. *)
Definition reads {A} (parse : list string → res A) (pair : list string) (a : A) : Prop :=
  (∃ x y l, pair = x :: y :: l) ∧ parse pair = Ok a.

Lemma parse_pairs_spec {A} (parse : list string → res A) pairs ifcs :
  Forall2 (reads parse) pairs ifcs → parse_pairs parse pairs = Ok ifcs.
Proof.
  induction 1 as [|pair a pairs ifcs [(x & y & l & ->) Ha] Hp IH]; [done|].
  cbn [parse_pairs log_pair]. simpl in *. rewrite Ha. simpl. by rewrite IH.
Qed.

(** ** Lines of text *)

Lemma str_snoc w : w ≠ "" → ∃ u c, w = u +:+ String c "".
Proof.
  induction w as [|c w IH]; [done|]. intros _. destruct w as [|d w]; [by exists "", c|].
  destruct IH as (u & e & E); [done|]. rewrite E. by exists (String c u), e.
Qed.

Lemma TrimRight_last s c cut v :
  in_cutset c cut = false → TrimRight v cut = "" → TrimRight (s +:+ String c v) cut = s +:+ String c "".
Proof.
  intros Hc Hv. induction s as [|d s IH].
  - change ("" +:+ String c v) with (String c v). cbn [TrimRight]. by rewrite Hv, Hc.
  - change (String d s +:+ String c v) with (String d (s +:+ String c v)). cbn [TrimRight]. rewrite IH.
    by destruct s.
Qed.

(** A line of a printed text. *)
Definition line (w : string) : Prop := w ≠ "" ∧ lacks "010" w = true.

Lemma join_snoc sep D w : D ≠ [] → str_join sep (D ++ [w]) = str_join sep D +:+ sep +:+ w.
Proof.
  induction D as [|v D IH]; [done|]. intros _. destruct D as [|v' D]; [done|].
  change (str_join sep ((v :: v' :: D) ++ [w])) with (v +:+ sep +:+ str_join sep ((v' :: D) ++ [w])).
  rewrite IH by done. change (str_join sep (v :: v' :: D)) with (v +:+ sep +:+ str_join sep (v' :: D)).
  by rewrite !str_app_assoc.
Qed.

Lemma read_lines D :
  D ≠ [] → Forall line D → split_on "010" (TrimRight (str_join nl D +:+ nl) nl) = D.
Proof.
  intros Hne HD.
  assert (E : TrimRight (str_join nl D +:+ nl) nl = str_join nl D).
  { destruct (list_last_case D) as [->|(D' & w & ->)]; [done|].
    apply Forall_app in HD as [_ [[Hw Hl] _]%Forall_cons].
    destruct (str_snoc w Hw) as (u & c & ->).
    assert (Hc : in_cutset c nl = false).
    { unfold lacks in Hl. rewrite str_forall_app in Hl. apply andb_true_iff in Hl as [_ Hl].
      simpl in Hl. rewrite andb_true_r in Hl. unfold nl. simpl. rewrite orb_false_r. by apply negb_true_iff. }
    assert (Ej : ∃ v, str_join nl (D' ++ [u +:+ String c ""]) = v +:+ String c "").
    { destruct (decide (D' = [])) as [->|Hn]; [by exists u|]. rewrite join_snoc by done.
      exists (str_join nl D' +:+ nl +:+ u). by rewrite !str_app_assoc. }
    destruct Ej as [v ->]. rewrite str_app_assoc. by apply TrimRight_last. }
  rewrite E. apply split_on_join; [done|]. eapply Forall_impl; [exact HD|]. by intros w [_ ?].
Qed.

(** ** Ports and names *)

Definition is_quote (c : ascii) : bool := char_is c "034".
Definition quote : string := String "034" "".
(** A name as the agent and the operators choose it. *)
Definition plain (name : string) : bool :=
  negb (String.eqb name "") && str_forall (λ c, negb (is_space c || is_quote c || char_is c "010")) name.

Lemma fields_word w t s :
  str_forall (λ c, negb (is_space c)) t = true →
  fields_go w (t +:+ s) = fields_go (w +:+ t) s.
Proof.
  revert w. induction t as [|c t IH]; intros w Ht; [by rewrite str_app_nil_r|].
  cbn [str_forall] in Ht. apply andb_true_iff in Ht as [Hc%negb_true_iff Ht].
  change (String c t +:+ s) with (String c (t +:+ s)). cbn [fields_go]. rewrite Hc, IH by done.
  by rewrite str_app_assoc.
Qed.

Lemma fields_spaces sp s :
  str_forall is_space sp = true → fields_go "" (sp +:+ s) = fields_go "" s.
Proof.
  induction sp as [|c sp IH]; [done|]. cbn [str_forall]. intros [Hc Hs]%andb_true_iff.
  change (String c sp +:+ s) with (String c (sp +:+ s)). cbn [fields_go]. rewrite Hc. by apply IH.
Qed.

Lemma fields_two t sp u :
  t ≠ "" → str_forall (λ c, negb (is_space c)) t = true → sp ≠ "" → str_forall is_space sp = true →
  u ≠ "" → str_forall (λ c, negb (is_space c)) u = true → Fields (t +:+ sp +:+ u) = [t; u].
Proof.
  intros Ht Htc Hs Hsc Hu Huc. unfold Fields. rewrite fields_word by done. change ("" +:+ t) with t.
  destruct sp as [|c sp]; [done|]. cbn [str_forall] in Hsc. apply andb_true_iff in Hsc as [Hc Hsc].
  change (String c sp +:+ u) with (String c (sp +:+ u)). cbn [fields_go]. rewrite Hc.
  rewrite fields_spaces by done.
  assert (E : fields_go "" (u +:+ "") = [u]) by (rewrite fields_word by done; by destruct u).
  rewrite str_app_nil_r in E. rewrite E. by destruct t.
Qed.

Lemma TrimLeft_stop s cut : stops (λ c, in_cutset c cut) s = true → TrimLeft s cut = s.
Proof. destruct s as [|c s]; [done|]. simpl. by destruct (in_cutset c cut). Qed.

Lemma Trim_quotes name : plain name = true → Trim (quote +:+ name +:+ quote) quote = name.
Proof.
  unfold plain. intros [Hne Hf]%andb_true_iff.
  assert (Hq : ∀ c, negb (is_space c || is_quote c || char_is c "010") = true → in_cutset c quote = false).
  { intros c. unfold in_cutset, quote, is_quote. destruct (char_is c "034"); [|done]. by destruct (is_space c). }
  unfold Trim. change (quote +:+ ?x) with (String "034" x). cbn [TrimLeft].
  change (in_cutset "034" quote) with true. cbn iota.
  destruct (str_snoc name) as (u & c & ->); [by intros ->|].
  rewrite str_forall_app in Hf. apply andb_true_iff in Hf as [Hu Hc]. cbn [str_forall] in Hc.
  rewrite andb_true_r in Hc. rewrite TrimLeft_stop.
  - rewrite str_app_assoc. apply TrimRight_last; [by apply Hq|done].
  - destruct u as [|d u]; [by apply negb_true_iff, Hq|].
    cbn [str_forall] in Hu. apply andb_true_iff in Hu as [Hd _]. by apply negb_true_iff, Hq.
Qed.

(** One line of the list of interfaces: [sp] are the blanks between the columns. *)
Record PortEntry := MkPort { pe_port : Z; pe_blanks : string; pe_name : string }.

Definition port_line (e : PortEntry) : string :=
  fmt_d (pe_port e) +:+ (String " " (pe_blanks e)) +:+ quote +:+ pe_name e +:+ quote.
Definition port_ok (e : PortEntry) : Prop :=
  0 ≤ pe_port e < 65536 ∧ str_forall (λ c, char_is c " ") (pe_blanks e) = true ∧ plain (pe_name e) = true.
Definition port_pair (e : PortEntry) : Z * string := (pe_port e, pe_name e).

Lemma blanks_spaces s : str_forall (λ c, char_is c " ") s = true → str_forall is_space s = true.
Proof. apply str_forall_impl. unfold char_is. by intros c ->%bool_decide_eq_true. Qed.

Lemma digits_no_space n : 0 ≤ n → str_forall (λ c, negb (is_space c)) (fmt_d n) = true.
Proof.
  intros Hn. eapply str_forall_impl; [|by apply fmt_d_digits]. intros c. unfold is_dec_digit, is_space.
  generalize (N_of_ascii c). intros k. rewrite andb_true_iff, !Z.leb_le. intros Hk.
  rewrite negb_true_iff, orb_false_iff, andb_false_iff, !N.leb_gt, N.eqb_neq. lia.
Qed.

Section Ports.
Context {O : Type} `{OvsTool O}.
Implicit Type f : @OvsFabric O.

(** The port of the bridge itself or of its end of the tunnels. *)
Definition own f (e : PortEntry) : bool := String.eqb (pe_name e) (vtep f) || String.eqb (pe_name e) (bridge f).

Lemma parse_port_line f e m :
  port_ok e →
  parseOFportAndIfcName f (port_line e) m = Ok (if own f e then m else <[pe_port e := pe_name e]> m).
Proof.
  intros (Hp & Hb & Hn). unfold parseOFportAndIfcName, port_line. rewrite fields_two.
  - change (String "034" "") with quote. rewrite Trim_quotes, port_value by done.
    unfold own. rewrite <- negb_orb. by destruct (_ || _).
  - apply fmt_d_nonempty. lia.
  - apply digits_no_space. lia.
  - done.
  - cbn [str_forall]. by apply blanks_spaces.
  - done.
  - rewrite !str_forall_app. unfold plain in Hn. apply andb_true_iff in Hn as [_ Hn].
    apply andb_true_iff; split; [done|]. apply andb_true_iff; split; [|done].
    eapply str_forall_impl; [|exact Hn]. intros c. cbn beta. rewrite !negb_true_iff, !orb_false_iff. tauto.
Qed.

Lemma parse_port_lines f es m :
  Forall port_ok es → NoDup (pe_port <$> filter (λ e, own f e = false) es) →
  parse_ports f (port_line <$> es) m =
  Ok (list_to_map (port_pair <$> filter (λ e, own f e = false) es) ∪ m).
Proof.
  intros He. revert m. induction He as [|e es He Hes IH]; intros m Hnd.
  - cbn. by rewrite map_empty_union.
  - rewrite fmap_cons. cbn [parse_ports]. rewrite parse_port_line by done.
    destruct (own f e) eqn:E; [rewrite filter_cons_False in * by congruence; by apply IH|].
    rewrite filter_cons_True in * by done. rewrite fmap_cons in Hnd. apply NoDup_cons in Hnd as [Hn Hnd].
    etransitivity; [by apply (IH (<[pe_port e := pe_name e]> m))|]. f_equal. rewrite fmap_cons.
    change (list_to_map (port_pair e :: ?l)) with (<[pe_port e := pe_name e]> (list_to_map l : gmap Z string)).
    rewrite <- insert_union_l, insert_union_r; [done|].
    apply not_elem_of_list_to_map_1. by rewrite <- list_fmap_compose.
Qed.
End Ports.
End OvsList.
