(* ===== verification/OvsCorrect.v ===== *)
(** * What the Open vSwitch fabric lists

    For a bridge whose flows are those of some interfaces, and any others, the fabric
    lists these interfaces, locks their addresses and deletes the devices without
    flows.  Remote interfaces are told apart by the cookies of their flows. *)

From S2P Require Import Prelude GoStr GoNet ApiTypes SubnetStrategy GoRegexp Fabric AgentIds Ovs OvsParse OvsList.
Import GoNet Ovs OvsParse OvsList.

Module OvsCorrect.

(** ** Flows of interfaces *)

(** A local interface: its port, its parts, and what the dump prints before the match
    of each of its two flows. *)
Record LocalDump := MkLocalDump {
  ld_port : Z; ld_Name : string; ld_VNI : Z; ld_MAC : HardwareAddr; ld_IP : list Z;
  ld_cookies : Z * Z; ld_stats : string * string }.

Definition local_ifc (a : LocalDump) : LocalNetIfc :=
  MkLocalIfc (ld_Name a) (ld_VNI a) (ld_MAC a) (v4InV6Prefix ++ ld_IP a).
Definition local_lines (a : LocalDump) : list string :=
  [dl_line (ld_cookies a).1 (ld_stats a).1 (ld_VNI a) (ld_MAC a) (to_port (ld_port a));
   arp_line (ld_cookies a).2 (ld_stats a).2 (ld_VNI a) (ld_IP a) (to_port (ld_port a))].
Definition local_ok (a : LocalDump) : Prop :=
  0 ≤ ld_port a < 65536 ∧ is_u32 (ld_VNI a) ∧ mac6 (ld_MAC a) ∧ bytes4 (ld_IP a) ∧
  0 ≤ (ld_cookies a).1 ∧ 0 ≤ (ld_cookies a).2 ∧ quiet (ld_stats a).1 = true ∧ quiet (ld_stats a).2 = true.

(** A remote interface; [vtep] is the port of the tunnels. *)
Record RemoteDump := MkRemoteDump {
  rd_VNI : Z; rd_MAC : HardwareAddr; rd_IP : list Z; rd_Host : list Z; rd_stats : string * string }.

Definition remote_ifc (a : RemoteDump) : RemoteNetIfc :=
  MkRemoteIfc (rd_VNI a) (rd_MAC a) (v4InV6Prefix ++ rd_IP a) (v4InV6Prefix ++ rd_Host a).
Definition rd_cookie (a : RemoteDump) : Z := remote_cookie (rd_MAC a).
Definition remote_lines (vtep : Z) (a : RemoteDump) : list string :=
  [dl_line (rd_cookie a) (rd_stats a).1 (rd_VNI a) (rd_MAC a) (to_host (rd_Host a) vtep);
   arp_line (rd_cookie a) (rd_stats a).2 (rd_VNI a) (rd_IP a) (to_host (rd_Host a) vtep)].
Definition remote_ok (a : RemoteDump) : Prop :=
  is_u32 (rd_VNI a) ∧ mac6 (rd_MAC a) ∧ bytes4 (rd_IP a) ∧ bytes4 (rd_Host a) ∧
  quiet (rd_stats a).1 = true ∧ quiet (rd_stats a).2 = true.

(** The flows of a bridge with these interfaces, in any order, among any others. *)
Definition useless (l : string) : Prop :=
  isRemote l = false ∧ isLocal l && negb (isTunneling l) = false.
Definition dump_of (vtep : Z) (L : list LocalDump) (R : list RemoteDump) (D : list string) : Prop :=
  Forall local_ok L ∧ Forall remote_ok R ∧ 0 ≤ vtep < 65536 ∧ D ≠ [] ∧ Forall line D ∧
  ∃ rest, Forall useless rest ∧ D ≡ₚ concat (local_lines <$> L) ++ concat (remote_lines vtep <$> R) ++ rest.

(** The kind of a flow, of its parts. *)
Lemma kind_parts l b1 b2 b3 b4 :
  kind l = (b1, b2, b3, b4) → isLocal l = b1 ∧ isTunneling l = b2 ∧ isRemote l = b3 ∧ isARP l = b4.
Proof. unfold kind. by intros [= -> -> -> ->]. Qed.

Definition local_line (port : Z) (l : string) : Prop :=
  isRemote l = false ∧ isLocal l && negb (isTunneling l) = true ∧ usefulLocalFlowOFport l = port.

Lemma local_lines_read a : local_ok a → Forall (local_line (ld_port a)) (local_lines a).
Proof.
  intros (Hp & Hv & Hm & Hip & Hc1 & Hc2 & Hs1 & Hs2). unfold local_line. repeat apply Forall_cons_2; [| |done].
  - pose proof (dl_local_kind _ _ _ _ _ Hc1 Hs1 Hv Hm Hp) as (-> & -> & -> & _)%kind_parts. by rewrite dl_port.
  - pose proof (arp_local_kind _ _ _ _ _ Hc2 Hs2 Hv Hip Hp) as (-> & -> & -> & _)%kind_parts. by rewrite arp_port.
Qed.

Lemma local_pair a l :
  local_ok a → l ≡ₚ local_lines a →
  reads parseLocalFlowPair l (MkLocalIfc "" (ld_VNI a) (ld_MAC a) (v4InV6Prefix ++ ld_IP a)).
Proof.
  intros (Hp & Hv & Hm & Hip & Hc1 & Hc2 & Hs1 & Hs2) E.
  pose proof (dl_local_kind _ _ _ _ _ Hc1 Hs1 Hv Hm Hp) as (_ & _ & _ & Hd)%kind_parts.
  pose proof (arp_local_kind _ _ _ _ _ Hc2 Hs2 Hv Hip Hp) as (_ & _ & _ & Ha)%kind_parts.
  apply symmetry, Permutation_length_2_inv in E. unfold reads, parseLocalFlowPair.
  destruct E as [-> | ->]; (split; [by do 3 eexists|]); cbn [foldl]; rewrite Hd, Ha; cbn [li_Name li_VNI li_GuestMAC li_GuestIP];
    by rewrite ?dl_vni, ?arp_vni, dl_guest_mac, arp_guest_ip.
Qed.

Lemma lor_u64 x y : 0 ≤ x < 2 ^ 64 → 0 ≤ Z.lor x (u64 y) < 2 ^ 64.
Proof.
  intros Hx. assert (Hy : 0 ≤ u64 y < 2 ^ 64) by (unfold u64; apply Z.mod_pos_bound; lia).
  assert (Hn : 0 ≤ Z.lor x (u64 y)) by (apply Z.lor_nonneg; lia). split; [done|].
  destruct (decide (Z.lor x (u64 y) = 0)) as [->|Hz]; [lia|]. apply Z.log2_lt_pow2; [lia|].
  rewrite Z.log2_lor by lia. apply Z.max_lub_lt.
  - destruct (decide (x = 0)) as [->|]; [done|]. apply Z.log2_lt_pow2; lia.
  - destruct (decide (u64 y = 0)) as [->|]; [done|]. apply Z.log2_lt_pow2; lia.
Qed.

Lemma Uvarint_range buf : 0 ≤ Uvarint buf < 2 ^ 64.
Proof.
  enough (Hgo : ∀ i x sh, 0 ≤ x < 2 ^ 64 → 0 ≤ uvarint_go i x sh buf < 2 ^ 64) by (unfold Uvarint; apply Hgo; lia).
  induction buf as [|b buf IH]; intros i x sh Hx; [done|]. cbn [uvarint_go].
  repeat case_match; try lia; [|apply IH]; by apply lor_u64.
Qed.

Definition remote_line (c : Z) (l : string) : Prop :=
  isRemote l = true ∧ isLocal l = false ∧ extractCookie l = "0x" +:+ fmt_x c.

Lemma remote_lines_read vtep a :
  remote_ok a → 0 ≤ vtep < 65536 → Forall (remote_line (rd_cookie a)) (remote_lines vtep a).
Proof.
  intros (Hv & Hm & Hip & Hh & Hs1 & Hs2) Hp. pose proof (proj1 (Uvarint_range (rd_MAC a)) : 0 ≤ rd_cookie a) as Hc.
  unfold remote_line. repeat apply Forall_cons_2; [| |done].
  - pose proof (dl_remote_kind _ _ _ _ _ _ Hc Hs1 Hv Hm Hh Hp) as (-> & _ & -> & _)%kind_parts. by rewrite dl_cookie.
  - pose proof (arp_remote_kind _ _ _ _ _ _ Hc Hs2 Hv Hip Hh Hp) as (-> & _ & -> & _)%kind_parts. by rewrite arp_cookie.
Qed.

Lemma remote_pair vtep a l :
  remote_ok a → 0 ≤ vtep < 65536 → l ≡ₚ remote_lines vtep a → reads parseRemoteFlowPair l (remote_ifc a).
Proof.
  intros (Hv & Hm & Hip & Hh & Hs1 & Hs2) Hp E. pose proof (proj1 (Uvarint_range (rd_MAC a)) : 0 ≤ rd_cookie a) as Hc.
  pose proof (dl_remote_kind _ _ _ _ _ _ Hc Hs1 Hv Hm Hh Hp) as (_ & _ & _ & Hd)%kind_parts.
  pose proof (arp_remote_kind _ _ _ _ _ _ Hc Hs2 Hv Hip Hh Hp) as (_ & _ & _ & Ha)%kind_parts.
  apply symmetry, Permutation_length_2_inv in E. unfold reads, parseRemoteFlowPair.
  destruct E as [-> | ->]; (split; [by do 3 eexists|]); cbn [foldl]; rewrite Hd, Ha;
    cbn [ri_VNI ri_GuestMAC ri_GuestIP ri_HostIP];
    by rewrite ?dl_vni, ?arp_vni, ?dl_host, ?arp_host, dl_guest_mac, arp_guest_ip.
Qed.

(** The addresses in the flows of a remote interface. *)
Definition remote_address (a : RemoteDump) (l : string) : Prop :=
  extractVNI l = rd_VNI a ∧ (isARP l = true → extractGuestIP l = v4InV6Prefix ++ rd_IP a).

Lemma remote_addresses_read vtep a :
  remote_ok a → 0 ≤ vtep < 65536 →
  Forall (remote_address a) (remote_lines vtep a) ∧ Exists (λ l, isARP l = true) (remote_lines vtep a).
Proof.
  intros (Hv & Hm & Hip & Hh & Hs1 & Hs2) Hp. pose proof (proj1 (Uvarint_range (rd_MAC a)) : 0 ≤ rd_cookie a) as Hc.
  pose proof (dl_remote_kind _ _ _ _ _ _ Hc Hs1 Hv Hm Hh Hp) as (_ & _ & _ & Hd)%kind_parts.
  pose proof (arp_remote_kind _ _ _ _ _ _ Hc Hs2 Hv Hip Hh Hp) as (_ & _ & _ & Ha)%kind_parts.
  split; [|by right; left]. unfold remote_address. repeat apply Forall_cons_2; [| |done].
  - split; [by apply dl_vni|congruence].
  - split; [by apply arp_vni|]. intros _. by apply arp_guest_ip.
Qed.

(** ** Interfaces that share a cookie *)

Lemma group_same {K} `{Countable K} (kf : string → K) k flows :
  flows ≠ [] → Forall (λ l, kf l = k) flows → map_to_list (group kf flows) = [(k, flows)].
Proof.
  intros Hne Hf. assert (E : group kf flows = {[k := flows]}); [|by rewrite E, map_to_list_singleton].
  apply map_eq. intros k'. rewrite group_lookup. destruct (decide (k' = k)) as [->|Hn].
  - rewrite list_filter_all, lookup_singleton_eq by done. by destruct flows.
  - rewrite list_filter_none, lookup_singleton_ne; [done|congruence|].
    eapply Forall_impl; [exact Hf|]. cbn. congruence.
Qed.

(** The address of the last ARP flow is that of the interface that is parsed. *)
Lemma parsed_address (P : IP → Prop) flows ifc :
  Forall (λ l, isARP l = true → P (extractGuestIP l)) flows → Exists (λ l, isARP l = true) flows →
  let ifc' := foldl (λ ifc aFlow,
    if isARP aFlow then MkRemoteIfc (ri_VNI ifc) (ri_GuestMAC ifc) (extractGuestIP aFlow) (ri_HostIP ifc)
    else MkRemoteIfc (ri_VNI ifc) (extractGuestMAC aFlow) (ri_GuestIP ifc) (ri_HostIP ifc)) ifc flows in
  P (ri_GuestIP ifc') ∧ ri_VNI ifc' = ri_VNI ifc.
Proof.
  cbn zeta. induction flows as [|l flows IH] using rev_ind; [by intros _ ?%Exists_nil|].
  intros [Hf [Hl _]%Forall_cons]%Forall_app He. rewrite foldl_app. cbn [foldl].
  assert (Hv : ∀ ls, ri_VNI (foldl (λ ifc aFlow,
    if isARP aFlow then MkRemoteIfc (ri_VNI ifc) (ri_GuestMAC ifc) (extractGuestIP aFlow) (ri_HostIP ifc)
    else MkRemoteIfc (ri_VNI ifc) (extractGuestMAC aFlow) (ri_GuestIP ifc) (ri_HostIP ifc)) ifc ls) = ri_VNI ifc).
  { induction ls as [|x ls IHls] using rev_ind; [done|]. rewrite foldl_app. cbn [foldl]. by case_match. }
  destruct (isARP l) eqn:E; cbn [ri_GuestIP ri_VNI]; (split; [|by apply Hv]); [by apply Hl|].
  apply Exists_app in He as [He|He]; [by apply IH|]. apply Exists_cons in He as [He|He%Exists_nil]; [congruence|done].
Qed.

Lemma merged_pair v (P : IP → Prop) flows :
  (2 ≤ length flows)%nat → Forall (λ l, extractVNI l = v ∧ (isARP l = true → P (extractGuestIP l))) flows →
  Exists (λ l, isARP l = true) flows →
  ∃ ifc, reads parseRemoteFlowPair flows ifc ∧ ri_VNI ifc = v ∧ P (ri_GuestIP ifc).
Proof.
  intros Hlen Hf He. destruct flows as [|l1 [|l2 ls]]; cbn in Hlen; [lia|lia|].
  assert (Ev : extractVNI l1 = v) by by apply Forall_cons in Hf as [[? _] _].
  destruct (parsed_address P (l1 :: l2 :: ls) (MkRemoteIfc v [] [] (extractHostIP l1))) as [Hip Hv]; [|done|].
  { eapply Forall_impl; [exact Hf|]. by intros l [_ ?]. }
  eexists. split; [split; [by do 3 eexists|]|split; [exact Hv|exact Hip]]. cbn [parseRemoteFlowPair]. by rewrite Ev.
Qed.

(** The cookie of a generated MAC address is its first byte, when that is below 128. *)
Lemma generated_cookie v ip a b c d m :
  0 ≤ v < 1048576 → To4 ip = [a; b; c; d] → is_u8 a → generateMACAddr v ip = Ok m →
  Uvarint m = 8 * (v / 65536) + (if Z.testbit a 1 then 4 else 0) + 2.
Proof.
  intros Hv E Ha Hm. rewrite (generateMACAddr_eq v ip a b c d) in Hm; [|unfold maxVNI; lia|done|done].
  set (k := 8 * (v / 65536) + (if Z.testbit a 1 then 4 else 0) + 2) in *.
  assert (Hk : 0 ≤ k < 128).
  { assert (0 ≤ v / 65536 < 16) by (split; [apply Z.div_pos; lia|apply Z.div_lt_upper_bound; lia]).
    unfold k. destruct (Z.testbit a 1); lia. }
  assert (m = [k; b; c; d; v / 256 mod 256; v mod 256]) as -> by congruence.
  unfold Uvarint. cbn [uvarint_go]. rewrite (proj2 (Z.ltb_lt k 0x80)) by lia. cbn [Nat.ltb Nat.leb Nat.eqb andb orb].
  rewrite Z.shiftl_0_r, Z.lor_0_l. unfold u64. apply Z.mod_small. lia.
Qed.

(** ** The flows that are selected *)

Lemma filter_bool (P : string → bool) l : List.filter P l = filter (λ x, P x = true) l.
Proof.
  induction l as [|x l IH]; [done|]. rewrite filter_cons. cbn [List.filter]. rewrite IH.
  destruct (P x) eqn:E; [by rewrite decide_True|by rewrite decide_False].
Qed.

Lemma filter_concat_all {A} (P : string → bool) b (f : A → list string) l :
  Forall (λ a, Forall (λ x, P x = b) (f a)) l →
  filter (λ x, P x = true) (concat (f <$> l)) = if b then concat (f <$> l) else [].
Proof.
  intros H. assert (Hc : Forall (λ x, P x = b) (concat (f <$> l))) by by apply Forall_concat, Forall_fmap.
  destruct b; [by apply list_filter_all|]. apply list_filter_none. eapply Forall_impl; [exact Hc|]. congruence.
Qed.

Lemma local_useful a :
  local_ok a →
  Forall (λ l, isLocal l && negb (isTunneling l) = true) (local_lines a) ∧ Forall (λ l, isRemote l = false) (local_lines a).
Proof.
  intros Ha%local_lines_read. split; (eapply Forall_impl; [exact Ha|]); by intros l (? & ? & ?).
Qed.

Lemma remote_useful vtep a :
  remote_ok a → 0 ≤ vtep < 65536 →
  Forall (λ l, isLocal l && negb (isTunneling l) = false) (remote_lines vtep a) ∧
  Forall (λ l, isRemote l = true) (remote_lines vtep a).
Proof.
  intros Ha Hv. pose proof (remote_lines_read vtep a Ha Hv) as Hl.
  split; (eapply Forall_impl; [exact Hl|]); intros l (? & E & ?); [by rewrite E|done].
Qed.

Lemma select_dump vtep L R D :
  dump_of vtep L R D →
  onlyUsefulLocalFlowsFunc D ≡ₚ concat (local_lines <$> L) ∧ onlyRemoteFlowsFunc D ≡ₚ concat (remote_lines vtep <$> R).
Proof.
  intros (HL & HR & Hv & _ & _ & rest & Hrest & E). unfold onlyUsefulLocalFlowsFunc, onlyRemoteFlowsFunc.
  rewrite !filter_bool, E, !filter_app. split.
  - rewrite (filter_concat_all _ true local_lines), (filter_concat_all _ false (remote_lines vtep)).
    + rewrite list_filter_none; [by rewrite !app_nil_r|]. eapply Forall_impl; [exact Hrest|]. intros l [_ ->]. done.
    + eapply Forall_impl; [exact HR|]. intros a Ha. by apply remote_useful.
    + eapply Forall_impl; [exact HL|]. intros a Ha. by apply local_useful.
  - rewrite (filter_concat_all _ false local_lines), (filter_concat_all _ true (remote_lines vtep)).
    + rewrite (list_filter_none _ rest); [by rewrite app_nil_r|]. eapply Forall_impl; [exact Hrest|]. intros l [-> _]. done.
    + eapply Forall_impl; [exact HR|]. intros a Ha. by apply remote_useful.
    + eapply Forall_impl; [exact HL|]. intros a Ha. by apply local_useful.
Qed.

(** ** Names *)

Lemma name_ifcs_spec m ports :
  name_ifcs m ports =
  (omap (λ pn, (λ i, MkLocalIfc pn.2 (li_VNI i) (li_GuestMAC i) (li_GuestIP i)) <$> m !! pn.1) ports,
   omap (λ pn, match m !! pn.1 with None => Some pn.2 | Some _ => None end) ports).
Proof.
  induction ports as [|[p n] ports IH]; [done|]. cbn [name_ifcs]. rewrite IH. cbn. by destruct (m !! p).
Qed.

(** Devices with flows and devices without. *)
Lemma name_ifcs_split (m : gmap Z LocalNetIfc) ports (L : list LocalDump) orphans :
  ports ≡ₚ ((λ a, (ld_port a, ld_Name a)) <$> L) ++ orphans →
  (∀ a, a ∈ L → m !! ld_port a = Some (MkLocalIfc "" (ld_VNI a) (ld_MAC a) (v4InV6Prefix ++ ld_IP a))) →
  Forall (λ pn, m !! pn.1 = None) orphans →
  (name_ifcs m ports).1 ≡ₚ local_ifc <$> L ∧ (name_ifcs m ports).2 ≡ₚ orphans.*2.
Proof.
  intros Hp HL Ho. rewrite name_ifcs_spec. cbn [fst snd]. rewrite Hp, !omap_app.
  assert (E1 : omap (λ pn, (λ i, MkLocalIfc pn.2 (li_VNI i) (li_GuestMAC i) (li_GuestIP i)) <$> m !! pn.1)
                 ((λ a, (ld_port a, ld_Name a)) <$> L) = local_ifc <$> L).
  { clear Hp. induction L as [|a L IH]; [done|]. cbn. rewrite (HL a) by left. cbn. f_equal.
    apply IH. intros b Hb. apply HL. by right. }
  assert (E2 : omap (λ pn, match m !! pn.1 with None => Some pn.2 | Some _ => None end)
                 ((λ a, (ld_port a, ld_Name a)) <$> L) = ([] : list string)).
  { clear Hp E1. induction L as [|a L IH]; [done|]. cbn. rewrite (HL a) by left.
    apply IH. intros b Hb. apply HL. by right. }
  rewrite E1, E2. clear Hp E1 E2 HL. induction Ho as [|[q n] orphans Hn Ho IH]; [by rewrite app_nil_r|].
  cbn in *. rewrite Hn. cbn. destruct IH as [IH1 IH2]. split; [exact IH1|by constructor].
Qed.

(** ** Steps of the listings *)

Section Listing.
Context {O : Type} `{OvsTool O}.
Implicit Types (f : @OvsFabric O) (o : O).

Definition with_ovs f o : OvsFabric := MkOvs (bridge f) (vtep f) (vtepOFport f) (lockedVNIIPPairs f) o.
Definition with_locked f l : OvsFabric := MkOvs (bridge f) (vtep f) (vtepOFport f) l (ovs f).

(** The tool after the devices of these names are deleted. *)
Definition del_ports f (names : list string) o : O :=
  foldl (λ o n, (ovs_run (newDeleteBridgePortCmd f n) "" o).2) o names.

Lemma deleteIncompleteIfcs_eq names f :
  deleteIncompleteIfcs names f = Ok (tt, with_ovs f (del_ports f names (ovs f))).
Proof.
  revert f. induction names as [|n names IH]; intros f; [by destruct f|].
  cbn [deleteIncompleteIfcs]. unfold deleteIfc, run_cmd, mbind, M_bind, get, mret, M_ret.
  unfold del_ports. cbn [foldl]. destruct (ovs_run (newDeleteBridgePortCmd f n) "" (ovs f)) as [[out err] o'].
  cbn [snd]. rewrite IH. by destruct f.
Qed.

Lemma address_number p : bytes4 p → MakeUint32FromIPv4 (v4InV6Prefix ++ p) = Ok (be p).
Proof.
  intros (a & b & c & d & -> & Ha & Hb & Hc & Hd)%bytes4_inv.
  change (MakeUint32FromIPv4 (v4InV6Prefix ++ [a; b; c; d])) with (BigEndian_Uint32 [a; b; c; d]).
  by apply BigEndian_Uint32_be.
Qed.

Lemma lock_all_eq (l : list (Z * list Z)) f :
  Forall (λ x, bytes4 x.2) l →
  lock_all ((λ x, (x.1, v4InV6Prefix ++ x.2)) <$> l) f =
  Ok (tt, with_locked f (list_to_set ((λ x, (x.1, be x.2)) <$> l) ∪ lockedVNIIPPairs f)).
Proof.
  intros Hl. revert f. induction Hl as [|[v p] l Hp Hl IH]; intros f.
  { cbn. unfold with_locked. rewrite union_empty_l_L. by destruct f. }
  rewrite !fmap_cons. cbn [lock_all fst snd list_to_set]. cbn [snd] in Hp.
  unfold lockVNIIPPair, vniAndIP, lift, gets, set_locked, modify, mbind, M_bind, res_bind, mret, M_ret.
  rewrite address_number by done. cbn [lockedVNIIPPairs].
  destruct (decide ((v, be p) ∈ lockedVNIIPPairs f)) as [Hi|Hi].
  - rewrite bool_decide_eq_true_2 by done. rewrite IH. unfold with_locked. do 3 f_equal. set_solver.
  - rewrite bool_decide_eq_false_2 by done. rewrite IH. unfold with_locked. cbn. do 3 f_equal. set_solver.
Qed.

(** The text of these lines. *)
Definition text (D : list string) : string := str_join nl D +:+ nl.

Lemma getFlows_eq f D o o' :
  D ≠ [] → Forall line D → ovs_run (newGetFlowsCmd f) "" o = ((text D, None), o') →
  getFlows (with_ovs f o) = Ok (inr D, with_ovs f o').
Proof.
  intros Hne HD E. unfold getFlows, run_cmd, mbind, M_bind, get, mret, M_ret.
  change (newGetFlowsCmd (with_ovs f o)) with (newGetFlowsCmd f). change (ovs (with_ovs f o)) with o.
  rewrite E. unfold text. unfold parseGetFlowsOutput. by rewrite read_lines.
Qed.

Lemma port_line_line e : port_ok e → line (port_line e).
Proof.
  intros (Hp & Hb & Hn). unfold line, port_line. split.
  - pose proof (fmt_d_nonempty (pe_port e) ltac:(lia)) as Hf. by destruct (fmt_d (pe_port e)).
  - unfold lacks. rewrite !str_forall_app, !andb_true_iff. split_and!; try done.
    + apply (fmt_d_lacks "010"); [lia|done].
    + cbn [str_forall]. apply andb_true_iff. split; [done|]. eapply str_forall_impl; [|exact Hb].
      intros c Hc. unfold char_is in *. apply bool_decide_eq_true in Hc as ->. done.
    + unfold plain in Hn. apply andb_true_iff in Hn as [_ Hn]. eapply str_forall_impl; [|exact Hn].
      intros c. cbn beta. rewrite !negb_true_iff, !orb_false_iff. tauto.
Qed.

Lemma getOFports_eq f es o1 :
  es ≠ [] → Forall port_ok es → NoDup (pe_port <$> filter (λ e, own f e = false) es) →
  ovs_run newListOFportsAndIfcNamesCmd "" (ovs f) = ((text (port_line <$> es), None), o1) →
  getOFportsToLocalIfcNames f =
  Ok (inr (list_to_map (port_pair <$> filter (λ e, own f e = false) es)), with_ovs f o1).
Proof.
  intros Hne He Hnd E.
  unfold getOFportsToLocalIfcNames, parseOFportsAndIfcNames, run_cmd, mbind, M_bind, get, mret, M_ret, lift.
  rewrite E. unfold text. rewrite read_lines; [|by destruct es|].
  - change (MkOvs (bridge f) (vtep f) (vtepOFport f) (lockedVNIIPPairs f) o1) with (with_ovs f o1).
    rewrite parse_port_lines by done. by rewrite map_union_empty.
  - apply Forall_fmap. eapply Forall_impl; [exact He|]. apply port_line_line.
Qed.

Lemma parseLocal_eq L D vtep R :
  NoDup (ld_port <$> L) → dump_of vtep L R D →
  ∃ m, parseLocalFlowsPairs (ofPortToLocalFlowsPairs (onlyUsefulLocalFlowsFunc D)) = Ok m ∧
    (∀ a, a ∈ L → m !! ld_port a = Some (MkLocalIfc "" (ld_VNI a) (ld_MAC a) (v4InV6Prefix ++ ld_IP a))) ∧
    (∀ p, p ∉ ld_port <$> L → m !! p = None).
Proof.
  intros Hnd Hd. pose proof (select_dump _ _ _ _ Hd) as [Hsel _]. destruct Hd as (HL & _).
  rewrite Forall_forall in HL.
  destruct (group_items usefulLocalFlowOFport ld_port local_lines L (onlyUsefulLocalFlowsFunc D) Hnd) as (pick & L' & HL' & Hpick & E); [| |exact Hsel|].
  { intros a l Ha Hl. pose proof (local_lines_read a (HL a Ha)) as Hr. rewrite Forall_forall in Hr. by apply Hr. }
  { done. }
  unfold parseLocalFlowsPairs, ofPortToLocalFlowsPairs. rewrite E, <- !list_fmap_compose.
  set (nameless a := MkLocalIfc "" (ld_VNI a) (ld_MAC a) (v4InV6Prefix ++ ld_IP a)).
  rewrite (parse_pairs_spec _ _ (nameless <$> L')).
  - exists (list_to_map ((λ a, (ld_port a, nameless a)) <$> L')). split.
    + change (Ok (list_to_map (zip (ld_port <$> L') (nameless <$> L'))) =
              Ok (list_to_map ((λ a, (ld_port a, nameless a)) <$> L') : gmap Z LocalNetIfc)).
      do 2 f_equal. clear. induction L' as [|a L' IH]; [done|]. cbn. by f_equal.
    + assert (Hnd' : NoDup (((λ a, (ld_port a, nameless a)) <$> L').*1)) by (rewrite <- list_fmap_compose; by rewrite HL').
      split.
      * intros a Ha. apply elem_of_list_to_map_1; [done|]. apply (list_elem_of_fmap_2 (λ a, (ld_port a, nameless a))). by rewrite HL'.
      * intros p Hp. apply not_elem_of_list_to_map_1. rewrite <- list_fmap_compose. by rewrite HL'.
  - apply Forall2_fmap, Forall_Forall2_diag, Forall_forall. intros a Ha. rewrite HL' in Ha.
    apply local_pair; [by apply HL|by apply Hpick].
Qed.

Lemma parseRemote_eq L D vtep R :
  NoDup (rd_cookie <$> R) → dump_of vtep L R D →
  ∃ R', R' ≡ₚ R ∧ parseRemoteFlowsPairs (pairRemoteFlowsPerIfc (onlyRemoteFlowsFunc D)) = Ok (remote_ifc <$> R').
Proof.
  intros Hnd Hd. pose proof (select_dump _ _ _ _ Hd) as [_ Hsel]. destruct Hd as (_ & HR & Hv & _).
  rewrite Forall_forall in HR.
  destruct (group_items extractCookie (λ a, "0x" +:+ fmt_x (rd_cookie a)) (remote_lines vtep) R
    (onlyRemoteFlowsFunc D)) as (pick & R' & HR' & Hpick & E); [| | |exact Hsel|].
  { rewrite (list_fmap_compose rd_cookie (λ c, "0x" +:+ fmt_x c)).
    apply NoDup_fmap_2_strong; [|done]. intros c c' (a & -> & _)%list_elem_of_fmap (a' & -> & _)%list_elem_of_fmap [= E].
    apply (FormatUint_inj 16); [lia|apply Uvarint_range|apply Uvarint_range|done]. }
  { intros a l Ha Hl. pose proof (remote_lines_read vtep a (HR a Ha) Hv) as Hr. rewrite Forall_forall in Hr. by apply Hr. }
  { done. }
  exists R'. split; [done|]. unfold parseRemoteFlowsPairs, pairRemoteFlowsPerIfc. rewrite E, <- list_fmap_compose.
  apply parse_pairs_spec, Forall2_fmap, Forall_Forall2_diag, Forall_forall. intros a Ha. rewrite HR' in Ha.
  apply (remote_pair vtep); [by apply HR|done|by apply Hpick].
Qed.

(** C24: from the ports and the flows that the commands print, in any order, with any
    statistics and among any others, [ListLocalIfcs] reads back exactly the local
    interfaces whose flows are there; it locks their addresses and deletes the devices
    without flows. *)
Theorem list_local_ifcs f es orphans D L R o1 o2 :
  es ≠ [] → Forall port_ok es →
  port_pair <$> filter (λ e, own f e = false) es ≡ₚ ((λ a, (ld_port a, ld_Name a)) <$> L) ++ orphans →
  NoDup ((ld_port <$> L) ++ orphans.*1) →
  dump_of (vtepOFport f) L R D →
  ovs_run newListOFportsAndIfcNamesCmd "" (ovs f) = ((text (port_line <$> es), None), o1) →
  ovs_run (newGetFlowsCmd f) "" o1 = ((text D, None), o2) →
  ∃ l inc, l ≡ₚ local_ifc <$> L ∧ inc ≡ₚ orphans.*2 ∧
    ListLocalIfcs f = Ok (inr l, MkOvs (bridge f) (vtep f) (vtepOFport f)
      (list_to_set ((λ a, (ld_VNI a, be (ld_IP a))) <$> L) ∪ lockedVNIIPPairs f) (del_ports f inc o2)).
Proof.
  intros Hne He Hes Hnd Hd E1 E2.
  assert (Hports : (pe_port <$> filter (λ e, own f e = false) es) ≡ₚ (ld_port <$> L) ++ orphans.*1).
  { apply (fmap_Permutation fst) in Hes. rewrite fmap_app, <- !list_fmap_compose in Hes. exact Hes. }
  assert (Hnd1 : NoDup (pe_port <$> filter (λ e, own f e = false) es)) by by rewrite Hports.
  apply NoDup_app in Hnd as (HndL & Hdis & _).
  destruct (parseLocal_eq L D _ R HndL Hd) as (m & Em & HmL & Hmn).
  set (names := list_to_map (port_pair <$> filter (λ e, own f e = false) es) : gmap Z string).
  assert (Hnames : map_to_list names ≡ₚ ((λ a, (ld_port a, ld_Name a)) <$> L) ++ orphans).
  { unfold names. rewrite map_to_list_to_map; [done|]. by rewrite <- list_fmap_compose. }
  destruct (name_ifcs_split m _ L orphans Hnames HmL) as [Hc Hi].
  { apply Forall_forall. intros pn Hpn. apply Hmn. intros Hin. apply (Hdis _ Hin). by apply list_elem_of_fmap_2. }
  destruct (name_ifcs m (map_to_list names)) as [complete inc] eqn:En. cbn [fst snd] in Hc, Hi.
  destruct (Permutation_map_inv _ _ Hc) as (L' & -> & HL').
  exists (local_ifc <$> L'), inc. split_and!; [by rewrite HL'|done|].
  destruct Hd as (HL & _ & _ & HneD & HlD & _).
  unfold ListLocalIfcs, mbind, M_bind. rewrite (getOFports_eq f es o1) by done. fold names.
  unfold getUsefulLocalFlows, mbind, M_bind. rewrite (getFlows_eq f D o1 o2) by done.
  unfold mret, M_ret, lift, mbind, res_bind. rewrite Em. unfold nameIfcs. rewrite En.
  rewrite deleteIncompleteIfcs_eq. change (map local_ifc L') with (local_ifc <$> L').
  rewrite <- list_fmap_compose.
  change ((λ ifc, (li_VNI ifc, li_GuestIP ifc)) ∘ local_ifc) with
    ((λ x : Z * list Z, (x.1, v4InV6Prefix ++ x.2)) ∘ (λ a, (ld_VNI a, ld_IP a))).
  rewrite (list_fmap_compose (λ a, (ld_VNI a, ld_IP a))), lock_all_eq.
  - rewrite <- list_fmap_compose. unfold compose. cbn [fst snd]. unfold with_locked, with_ovs. cbn.
    do 3 f_equal. f_equal. apply list_to_set_perm_L. by rewrite HL'.
  - apply Forall_fmap. rewrite <- HL'. eapply Forall_impl; [exact HL|]. by intros a (_ & _ & _ & ? & _).
Qed.

(** C26: remote interfaces with distinct cookies are read back from their flows, in any
    order and among any others, and their addresses are locked. *)
Theorem list_remote_ifcs f D L R o2 :
  dump_of (vtepOFport f) L R D → NoDup (rd_cookie <$> R) →
  ovs_run (newGetFlowsCmd f) "" (ovs f) = ((text D, None), o2) →
  ∃ l, l ≡ₚ remote_ifc <$> R ∧
    ListRemoteIfcs f = Ok (inr l, MkOvs (bridge f) (vtep f) (vtepOFport f)
      (list_to_set ((λ a, (rd_VNI a, be (rd_IP a))) <$> R) ∪ lockedVNIIPPairs f) o2).
Proof.
  intros Hd Hnd E. destruct (parseRemote_eq L D _ R Hnd Hd) as (R' & HR' & Ep).
  destruct Hd as (_ & HR & _ & HneD & HlD & _).
  exists (remote_ifc <$> R'). split; [by rewrite HR'|].
  assert (Ef : getFlows f = Ok (inr D, with_ovs f o2)).
  { rewrite <- (getFlows_eq f D (ovs f) o2) by done. by destruct f. }
  unfold ListRemoteIfcs, getRemoteFlows, mbind, M_bind. rewrite Ef.
  unfold mret, M_ret, lift, mbind, res_bind. rewrite Ep. rewrite <- list_fmap_compose.
  change ((λ ifc, (ri_VNI ifc, ri_GuestIP ifc)) ∘ remote_ifc) with
    ((λ x : Z * list Z, (x.1, v4InV6Prefix ++ x.2)) ∘ (λ a, (rd_VNI a, rd_IP a))).
  rewrite (list_fmap_compose (λ a, (rd_VNI a, rd_IP a))), lock_all_eq.
  - rewrite <- list_fmap_compose. unfold compose. cbn [fst snd]. unfold with_locked, with_ovs. cbn.
    do 3 f_equal. f_equal. apply list_to_set_perm_L. by rewrite HR'.
  - apply Forall_fmap. rewrite HR'. eapply Forall_impl; [exact HR|]. by intros a (_ & _ & ? & _).
Qed.

(** The flows of remote interfaces whose MAC addresses are generated for one VNI. *)
Lemma same_cookie_flows vtep R v a flows :
  R ≠ [] → 0 ≤ v < 1048576 → 0 ≤ vtep < 65536 → Forall remote_ok R →
  Forall (λ r, rd_VNI r = v ∧ hd 0 (rd_IP r) = a ∧ generateMACAddr v (v4InV6Prefix ++ rd_IP r) = Ok (rd_MAC r)) R →
  flows ≡ₚ concat (remote_lines vtep <$> R) →
  (2 ≤ length flows)%nat ∧ (∃ k, Forall (λ l, extractCookie l = k) flows) ∧
  Forall (λ l, extractVNI l = v ∧ (isARP l = true → ∃ r, r ∈ R ∧ extractGuestIP l = v4InV6Prefix ++ rd_IP r)) flows ∧
  Exists (λ l, isARP l = true) flows.
Proof.
  intros Hne Hv Hp HR Hgen Hsel.
  assert (Hin : ∀ l, l ∈ flows → ∃ r, r ∈ R ∧ l ∈ remote_lines vtep r).
  { intros l Hl. rewrite Hsel in Hl.
    apply list_elem_of_In, in_concat in Hl as (ls & (r & -> & Hr)%list_elem_of_In%list_elem_of_fmap & Hl%list_elem_of_In).
    by exists r. }
  rewrite Forall_forall in HR. rewrite Forall_forall in Hgen. split_and!.
  - rewrite Hsel. destruct R as [|r R]; [done|]. rewrite fmap_cons. cbn. lia.
  - exists ("0x" +:+ fmt_x (8 * (v / 65536) + (if Z.testbit a 1 then 4 else 0) + 2)).
    apply Forall_forall. intros l (r & Hr & Hl)%Hin. destruct (Hgen r Hr) as (Hrv & Hra & Hrm).
    destruct (HR r Hr) as (_ & _ & Hb & _). destruct (bytes4_inv _ Hb) as (x0 & x1 & x2 & x3 & Eip & Hx & _).
    pose proof (remote_lines_read _ r (HR r Hr) Hp) as Hrl. rewrite Forall_forall in Hrl.
    destruct (Hrl l Hl) as (_ & _ & ->). do 2 f_equal. unfold rd_cookie, remote_cookie. rewrite Eip in *. cbn in Hra. subst x0.
    eapply generated_cookie; [done| |done|exact Hrm]. by apply To4_mapped.
  - apply Forall_forall. intros l (r & Hr & Hl)%Hin. destruct (Hgen r Hr) as (<- & _).
    destruct (remote_addresses_read _ r (HR r Hr) Hp) as [Ha _]. rewrite Forall_forall in Ha.
    destruct (Ha l Hl) as [Hl1 Hl2]. split; [done|]. intros Harp. exists r. auto.
  - destruct R as [|r R]; [done|]. destruct (remote_addresses_read _ r (HR r ltac:(left)) Hp) as [_ Hx].
    rewrite Hsel, fmap_cons. cbn [concat]. apply Exists_app. by left.
Qed.

(** C28: remote interfaces of one VNI below 2^20, with the MAC addresses of the agent and
    addresses that agree in the first byte, all have one cookie: however many there are,
    [ListRemoteIfcs] lists a single one. *)
Theorem remote_interfaces_merge f D L R o2 v a :
  dump_of (vtepOFport f) L R D → R ≠ [] → 0 ≤ v < 1048576 →
  Forall (λ r, rd_VNI r = v ∧ hd 0 (rd_IP r) = a ∧ generateMACAddr v (v4InV6Prefix ++ rd_IP r) = Ok (rd_MAC r)) R →
  ovs_run (newGetFlowsCmd f) "" (ovs f) = ((text D, None), o2) →
  ∃ ifc f', ListRemoteIfcs f = Ok (inr [ifc], f') ∧ ri_VNI ifc = v ∧
    ∃ r, r ∈ R ∧ ri_GuestIP ifc = v4InV6Prefix ++ rd_IP r.
Proof.
  intros Hd Hne Hv Hgen E. pose proof (select_dump _ _ _ _ Hd) as [_ Hsel].
  destruct Hd as (_ & HR & Hp & HneD & HlD & _).
  destruct (same_cookie_flows _ R v a _ Hne Hv Hp HR Hgen Hsel) as (Hlen & (k & Hk) & Hrd & Harp).
  assert (Hne' : onlyRemoteFlowsFunc D ≠ []) by (intros Ex; rewrite Ex in Hlen; cbn in Hlen; lia).
  assert (Eg : getFlows f = Ok (inr D, with_ovs f o2)).
  { rewrite <- (getFlows_eq f D (ovs f) o2) by done. by destruct f. }
  destruct (merged_pair v (λ ip, ∃ r, r ∈ R ∧ ip = v4InV6Prefix ++ rd_IP r) _ Hlen Hrd Harp)
    as (ifc & Hifc & Ev & (r & Hr & Eip)).
  exists ifc, (with_locked (with_ovs f o2) ({[(v, be (rd_IP r))]} ∪ ∅ ∪ lockedVNIIPPairs f)).
  split; [|split; [done|by exists r]].
  unfold ListRemoteIfcs, getRemoteFlows, mbind, M_bind. rewrite Eg.
  unfold mret, M_ret, lift, mbind, res_bind.
  unfold pairRemoteFlowsPerIfc. rewrite (group_same _ _ _ Hne' Hk). cbn [fmap list_fmap snd].
  unfold parseRemoteFlowsPairs. rewrite (parse_pairs_spec _ _ [ifc]) by (apply Forall2_cons_2; [done|apply Forall2_nil_2]).
  cbn [fmap list_fmap]. rewrite Ev, Eip.
  pose proof (lock_all_eq [(v, rd_IP r)] (with_ovs f o2)) as El. cbn [fmap list_fmap fst snd] in El.
  rewrite El; [done|]. apply Forall_singleton. cbn. rewrite Forall_forall in HR. by destruct (HR r Hr) as (_ & _ & ? & _).
Qed.

(** A bridge with a single remote flow makes the listing panic: the log line of the
    loop reads the second flow of the pair. *)
Lemma lone_flow_panics f D l o2 :
  D ≠ [] → Forall line D → onlyRemoteFlowsFunc D = [l] →
  ovs_run (newGetFlowsCmd f) "" (ovs f) = ((text D, None), o2) →
  ListRemoteIfcs f = Panic "index out of range".
Proof.
  intros Hne HD Hl E. assert (Eg : getFlows f = Ok (inr D, with_ovs f o2)).
  { rewrite <- (getFlows_eq f D (ovs f) o2) by done. by destruct f. }
  unfold ListRemoteIfcs, getRemoteFlows, mbind, M_bind. rewrite Eg.
  unfold mret, M_ret, lift, mbind, res_bind. rewrite Hl. unfold pairRemoteFlowsPerIfc.
  rewrite (group_same _ (extractCookie l) [l]); [done|done|by apply Forall_singleton].
Qed.
End Listing.
End OvsCorrect.
