(* ===== verification/OvsRuns.v ===== *)
(** * Runs of the Open vSwitch fabric

    The theorems at concrete inputs: a tool that answers from two texts, a bridge with
    two local interfaces, a device without flows and flows of others, and two remote
    interfaces of one subnet. *)

From S2P Require Import Prelude GoStr GoNet ApiTypes SubnetStrategy GoRegexp Fabric AgentIds Ovs OvsOps OvsParse OvsList OvsCorrect.
Import GoNet Ovs OvsOps OvsParse OvsList OvsCorrect.

Module OvsRuns.

(** ** A simulated tool *)

(** The output of the two listings and the other commands that were run, the latest
    first; commands on a device that does not exist fail. *)
Record SimOvs := MkSim { sim_ports : string; sim_flows : string; sim_log : list (list string * string) }.

Definition sim_run (argv : list string) (stdin : string) (o : SimOvs) : (string * option string) * SimOvs :=
  match argv with
  | "ovs-vsctl" :: "-f" :: _ => ((sim_ports o, None), o)
  | "ovs-ofctl" :: "dump-flows" :: _ => ((sim_flows o, None), o)
  | ["ovs-vsctl"; "get"; "interface"; nm; "ofport"] =>
      if str_contains (sim_ports o) nm then (("5" +:+ nl, None), o)
      else (("ovs-vsctl: no row " +:+ nm, Some "exit status 1"), o)
  | _ => (("", None), MkSim (sim_ports o) (sim_flows o) ((argv, stdin) :: sim_log o))
  end.

#[export] Instance sim_tool : OvsTool SimOvs := sim_run.

(** ** A bridge *)

Definition st (d : string) : string := " duration=" +:+ d +:+ "s, table=1, n_packets=12, n_bytes=876, idle_age=3,".

Definition mac_of (v : Z) (ip : IP) : HardwareAddr := match generateMACAddr v ip with Ok m => m | Panic _ => [] end.

Definition local1 : LocalDump := MkLocalDump 5 "kos0a0000020007" 7
  (mac_of 7 (IPv4_16 10 0 0 2)) [10; 0; 0; 2] (0, 0) (st "4.5", st "4.6").
Definition local2 : LocalDump := MkLocalDump 6 "kos0a0000030007" 7
  (mac_of 7 (IPv4_16 10 0 0 3)) [10; 0; 0; 3] (0, 0) (st "8.125", st "8").
Definition remote1 : RemoteDump := MkRemoteDump 7
  (mac_of 7 (IPv4_16 10 0 0 4)) [10; 0; 0; 4] [192; 168; 1; 11] (st "1.1", st "1.2").
Definition remote2 : RemoteDump := MkRemoteDump 7
  (mac_of 7 (IPv4_16 10 0 0 5)) [10; 0; 0; 5] [192; 168; 1; 12] (st "2.1", st "2.2").
(** An interface of a VNI in another block has another cookie. *)
Definition remote3 : RemoteDump := MkRemoteDump 70000
  (mac_of 70000 (IPv4_16 10 0 0 5)) [10; 0; 0; 5] [192; 168; 1; 12] (st "2.1", st "2.2").

Definition others : list string :=
  [" cookie=0x0, duration=9.0s, table=0, n_packets=1, n_bytes=9, priority=1 actions=resubmit(,1)";
   " cookie=0x0, duration=9.0s, table=0, n_packets=1, n_bytes=9, in_port=5 actions=load:0x7->NXM_NX_TUN_ID[],resubmit(,1)"].

Definition dump (R : list RemoteDump) : list string :=
  rev (concat (local_lines <$> [local1; local2]) ++ concat (remote_lines 1 <$> R) ++ others).

Definition ports : list PortEntry :=
  [MkPort 65534 "" "kos"; MkPort 6 "    " "kos0a0000030007"; MkPort 9 " " "tap9";
   MkPort 5 "    " "kos0a0000020007"; MkPort 1 "    " "vtep"].

Definition bridge_with (R : list RemoteDump) : @OvsFabric SimOvs :=
  MkOvs "kos" "vtep" 1 ∅ (MkSim (text (port_line <$> ports)) (text (dump R)) []).

Example mac_local1 : MAC_String (ld_MAC local1) = "06:00:00:02:00:07".
Proof. reflexivity. Qed.
Example line_local1 : local_lines local1 =
  [" cookie=0x0, duration=4.5s, table=1, n_packets=12, n_bytes=876, idle_age=3, tun_id=0x7,dl_dst=06:00:00:02:00:07 actions=output:5";
   " cookie=0x0, duration=4.6s, table=1, n_packets=12, n_bytes=876, idle_age=3, arp,tun_id=0x7,arp_tpa=10.0.0.2 actions=output:5"].
Proof. reflexivity. Qed.

(** What the fabric lists there. *)
Example list_local_run :
  (λ r, match r with Ok (inr l, f) => Some (l, sim_log (ovs f)) | _ => None end) (ListLocalIfcs (bridge_with [remote1; remote2])) =
  Some ([local_ifc local1; local_ifc local2], [(["ovs-vsctl"; "del-port"; "kos"; "tap9"], "")]).
Proof. vm_compute. reflexivity. Qed.
Example list_remote_run :
  (λ r, match r with Ok (inr l, _) => Some l | _ => None end) (ListRemoteIfcs (bridge_with [remote1; remote2])) =
  Some [MkRemoteIfc 7 (rd_MAC remote1) (IPv4_16 10 0 0 4) (IPv4_16 192 168 1 12)].
Proof. vm_compute. reflexivity. Qed.

(** ** The hypotheses hold there *)

Lemma mac_of_ok v ip : 0 ≤ v ≤ maxVNI → bytes4 (To4 ip) → mac6 (mac_of v ip).
Proof. intros Hv Hb. destruct (generateMACAddr_mac6 v ip Hv Hb) as (m & E & Hm & _). unfold mac_of. by rewrite E. Qed.

Lemma bytes4_intro a b c d : is_u8 a → is_u8 b → is_u8 c → is_u8 d → bytes4 [a; b; c; d].
Proof. intros. split; [done|]. repeat (apply Forall_cons_2; [assumption|]). apply Forall_nil_2. Qed.

Ltac bytes := apply bytes4_intro; unfold is_u8; lia.
Ltac dumped :=
  unfold local_ok, remote_ok; cbn; split_and!;
  first [ lia | unfold is_u32; lia | apply mac_of_ok; [unfold maxVNI; lia|bytes] | bytes | done | reflexivity ].

Lemma dump_lines R : forallb (λ w, negb (String.eqb w "") && lacks "010" w) (dump R) = true → Forall line (dump R).
Proof.
  rewrite forallb_forall, Forall_forall. intros Hl w Hw. specialize (Hl w). rewrite <- list_elem_of_In in Hl.
  apply Hl, andb_true_iff in Hw as [H1 H2]. split; [|done]. intros ->. done.
Qed.

Lemma dump_shape R :
  Forall remote_ok R → Forall line (dump R) → dump_of 1 [local1; local2] R (dump R).
Proof.
  intros HR Hl. assert (Hp : dump R ≡ₚ concat (local_lines <$> [local1; local2]) ++ concat (remote_lines 1 <$> R) ++ others)
    by (unfold dump; symmetry; apply Permutation_rev).
  split_and!; [|done|lia|lia| |done|].
  - apply Forall_cons_2; [dumped|]. apply Forall_cons_2; [dumped|]. apply Forall_nil_2.
  - intros E. rewrite E in Hp. apply Permutation_nil in Hp. done.
  - exists others. split; [|exact Hp]. repeat constructor.
Qed.

Lemma list_local_ifcs_witness :
  ∃ l inc, l ≡ₚ local_ifc <$> [local1; local2] ∧ inc ≡ₚ ["tap9"] ∧
    ListLocalIfcs (bridge_with [remote1]) = Ok (inr l, MkOvs "kos" "vtep" 1
      (list_to_set ((λ a, (ld_VNI a, be (ld_IP a))) <$> [local1; local2]) ∪ ∅)
      (del_ports (bridge_with [remote1]) inc (ovs (bridge_with [remote1])))).
Proof.
  apply (list_local_ifcs (bridge_with [remote1]) ports [(9, "tap9")] (dump [remote1]) [local1; local2] [remote1]
    (ovs (bridge_with [remote1])) (ovs (bridge_with [remote1]))).
  - done.
  - repeat (apply Forall_cons_2; [split_and!; [cbn; lia|cbn; lia|done|done]|]). apply Forall_nil_2.
  - cbn. symmetry. apply (Permutation_trans (perm_swap _ _ _)). constructor. apply perm_swap.
  - apply (bool_decide_unpack _). vm_compute. exact I.
  - apply dump_shape; [apply Forall_singleton; dumped|]. by apply dump_lines.
  - done.
  - done.
Defined.

Lemma list_remote_ifcs_witness :
  ∃ l, l ≡ₚ remote_ifc <$> [remote1; remote3] ∧
    ListRemoteIfcs (bridge_with [remote1; remote3]) = Ok (inr l, MkOvs "kos" "vtep" 1
      (list_to_set ((λ a, (rd_VNI a, be (rd_IP a))) <$> [remote1; remote3]) ∪ ∅) (ovs (bridge_with [remote1; remote3]))).
Proof.
  apply (list_remote_ifcs (bridge_with [remote1; remote3]) (dump [remote1; remote3]) [local1; local2] [remote1; remote3]).
  - apply dump_shape; [repeat (apply Forall_cons_2; [dumped|]); apply Forall_nil_2|]. by apply dump_lines.
  - apply (bool_decide_unpack _). vm_compute. exact I.
  - done.
Defined.

Lemma remote_interfaces_merge_witness :
  ∃ ifc f', ListRemoteIfcs (bridge_with [remote1; remote2]) = Ok (inr [ifc], f') ∧ ri_VNI ifc = 7 ∧
    ∃ r, r ∈ [remote1; remote2] ∧ ri_GuestIP ifc = v4InV6Prefix ++ rd_IP r.
Proof.
  apply (remote_interfaces_merge (bridge_with [remote1; remote2]) (dump [remote1; remote2]) [local1; local2]
    [remote1; remote2] (ovs (bridge_with [remote1; remote2])) 7 10).
  - apply dump_shape; [repeat (apply Forall_cons_2; [dumped|]); apply Forall_nil_2|]. by apply dump_lines.
  - done.
  - lia.
  - repeat (apply Forall_cons_2; [by split_and!|]). apply Forall_nil_2.
  - done.
Defined.

(** A device that does not exist: deleting it is an error, and the pair stays locked. *)
Definition ghost : LocalNetIfc := MkLocalIfc "kos0a0000080007" 7 (mac_of 7 (IPv4_16 10 0 0 8)) (IPv4_16 10 0 0 8).

Lemma local_operations_witness :
  runs (CreateLocalIfc ghost) (bridge_with []) (create_local_post ghost (bridge_with [])) ∧
  runs (DeleteLocalIfc ghost) (bridge_with []) (delete_local_post ghost (bridge_with [])).
Proof. apply (local_operations ghost (bridge_with [])). by exists (be [10; 0; 0; 8]). Defined.

Example delete_missing_run :
  match DeleteLocalIfc ghost (bridge_with []) with Ok (Some _, _) => True | _ => False end.
Proof. vm_compute. exact I. Qed.

Definition kept : LocalNetIfc := local_ifc local1.

Lemma one_interface_per_address_witness :
  ∃ f', rtc step (bridge_with [], []) (f', [Local kept]) ∧
  (NoDup (ifc_pair <$> [Local kept]) ∧ lockedVNIIPPairs f' = list_to_set (ifc_pair <$> [Local kept]) ∧
   (∀ n, has_number (ifc_IP n) →
      runs (create_ifc n) f' (λ err _, err = None → ifc_pair n ∉ ifc_pair <$> [Local kept])) ∧
   (∀ n, n ∈ [Local kept] → runs (delete_ifc n) f' (λ _ _, True))).
Proof.
  set (f' := match CreateLocalIfc kept (bridge_with []) with Ok (_, f') => f' | Panic _ => bridge_with [] end).
  assert (Hs : rtc step (bridge_with [], []) (f', [Local kept])).
  { apply rtc_once. apply (step_create (Local kept) (bridge_with []) [] None f').
    - by exists (be [10; 0; 0; 2]).
    - vm_compute. reflexivity. }
  exists f'. split; [exact Hs|]. apply (one_interface_per_address (bridge_with [], []) (f', [Local kept])).
  - done.
  - done.
  - exact Hs.
Defined.

(** A bridge where the ARP flow of a remote interface is missing. *)
Definition torn : @OvsFabric SimOvs :=
  MkOvs "kos" "vtep" 1 ∅ (MkSim (text (port_line <$> ports)) (text (take 1 (remote_lines 1 remote1))) []).

Lemma lone_flow_panics_witness : ListRemoteIfcs torn = Panic "index out of range".
Proof.
  apply (lone_flow_panics torn (take 1 (remote_lines 1 remote1)) (hd "" (remote_lines 1 remote1)) (ovs torn)).
  - done.
  - apply Forall_singleton. split; [done|reflexivity].
  - reflexivity.
  - done.
Defined.
End OvsRuns.
