(* ===== verification/Driver.v ===== *)
(** * The attachment throughput driver: [cmd/attachment-tput-driver/main.go]

    The driver creates and deletes network attachments from several threads and
    follows them through notifications.  [Driver] has its package variables; each
    slot holds one attachment at a time.  A method holds the mutexes that guard
    what it changes, so each is one step here.  The zero [time.Time] is 0; durations
    in nanoseconds stand for the seconds that the histograms get.  The answers of the
    API server, the clock, random numbers and what other threads do while a thread
    waits are arguments. *)

From S2P Require Import Prelude GoStr GoNet ApiTypes.
Import GoNet.

Module Driver.

(** ** Data *)

(** The flags that the modelled code reads, and the run's namespace. *)
Record Flags := MkFlags {
  runID : string; omitTest : bool; pingCount : Z; pendingWait : Z; stopOnPingFail : bool; stopOnBreak : bool;
  waitAfterCreate : Z; onlyNode : string }.

Record trackingHistogram := MkHist { samples : list Z; maxX : Z; maxNS : string; maxName : string }.

Record NodeData := MkNodeData { ipToName : gmap string string }.

Record ConnectivityDomain := MkCD {
  cd_VNI : Z; numWaiters : Z; startOfFirstWait : Time; latestIndex : Z; pendingIndices : gset Z }.

Record Slot := MkSlot {
  nextIndex : Z; currentAttachmentName : string; currentNodeName : string;
  preCreateTime : Time; postCreateTime : Time; addressedTime : Time; readyTime : Time;
  fullTest : bool; testES : Z; testedTime : Time; brokenTime : Time; natt : option NetworkAttachment }.

(** [VirtNet]; its slots and maps are reached through it only. *)
Record VirtNet := MkVirtNet {
  ID : Z; size : Z; addr0I : Z; addrFI : Z; prefixLen : Z; subnets : list Subnet;
  theCD : option ConnectivityDomain; slots : list Slot; createdCount : Z;
  addrs : gmap string (gset string); nodeMap : gmap string NodeData }.

Record VirtNetAttachment := MkVNA { vnIndex : Z; slotIndex : Z }.
#[global] Instance VirtNetAttachment_eq_dec : EqDecision VirtNetAttachment.
Proof. solve_decision. Defined.

(** The package variables; [idToVirtNet] and [subnetToVirtNet] point into [virtNets]. *)
Record Driver := MkDriver {
  virtNets : list VirtNet; idToVirtNet : gmap Z Z; subnetToVirtNet : gmap string Z;
  initializedSubnets : gset string; num_subnets : Z;
  multiOwnerWarnings : Z; stoppers : Z; readyCount : Z; nnsCount : Z; xtraDelayI : Z;
  hists : gmap string trackingHistogram; counts : gmap string Z }.

(** ** Access *)

Definition nth_z {A} (l : list A) (i : Z) : option A := if i <? 0 then None else l !! Z.to_nat i.

Definition set_nets (g : list VirtNet → list VirtNet) (d : Driver) : Driver :=
  MkDriver (g (virtNets d)) (idToVirtNet d) (subnetToVirtNet d) (initializedSubnets d) (num_subnets d)
    (multiOwnerWarnings d) (stoppers d) (readyCount d) (nnsCount d) (xtraDelayI d) (hists d) (counts d).
Definition set_counters (w s r k : Z) (d : Driver) : Driver :=
  MkDriver (virtNets d) (idToVirtNet d) (subnetToVirtNet d) (initializedSubnets d) (num_subnets d)
    (u32 (multiOwnerWarnings d + w)) (u32 (stoppers d + s)) (u32 (readyCount d + r)) (u32 (nnsCount d + k))
    (xtraDelayI d) (hists d) (counts d).
Definition set_xtra (x : Z) (d : Driver) : Driver :=
  MkDriver (virtNets d) (idToVirtNet d) (subnetToVirtNet d) (initializedSubnets d) (num_subnets d)
    (multiOwnerWarnings d) (stoppers d) (readyCount d) (nnsCount d) x (hists d) (counts d).
Definition set_initialized (g : gset string → gset string) (d : Driver) : Driver :=
  MkDriver (virtNets d) (idToVirtNet d) (subnetToVirtNet d) (g (initializedSubnets d)) (num_subnets d)
    (multiOwnerWarnings d) (stoppers d) (readyCount d) (nnsCount d) (xtraDelayI d) (hists d) (counts d).
Definition set_metrics (h : gmap string trackingHistogram → gmap string trackingHistogram)
    (c : gmap string Z → gmap string Z) (d : Driver) : Driver :=
  MkDriver (virtNets d) (idToVirtNet d) (subnetToVirtNet d) (initializedSubnets d) (num_subnets d)
    (multiOwnerWarnings d) (stoppers d) (readyCount d) (nnsCount d) (xtraDelayI d) (h (hists d)) (c (counts d)).

Definition index_panic {A} : M Driver A := panic "index out of range".

Definition get_net (vi : Z) : M Driver VirtNet :=
  d ← get; match nth_z (virtNets d) vi with Some vn => mret vn | None => index_panic end.
Definition upd_net (vi : Z) (g : VirtNet → VirtNet) : M Driver unit :=
  modify (set_nets (alter g (Z.to_nat vi))).

Definition set_slots (g : list Slot → list Slot) (vn : VirtNet) : VirtNet :=
  MkVirtNet (ID vn) (size vn) (addr0I vn) (addrFI vn) (prefixLen vn) (subnets vn) (theCD vn) (g (slots vn))
    (createdCount vn) (addrs vn) (nodeMap vn).
Definition set_cd (g : ConnectivityDomain → ConnectivityDomain) (vn : VirtNet) : VirtNet :=
  MkVirtNet (ID vn) (size vn) (addr0I vn) (addrFI vn) (prefixLen vn) (subnets vn) (g <$> theCD vn) (slots vn)
    (createdCount vn) (addrs vn) (nodeMap vn).
Definition set_created (c : Z) (vn : VirtNet) : VirtNet :=
  MkVirtNet (ID vn) (size vn) (addr0I vn) (addrFI vn) (prefixLen vn) (subnets vn) (theCD vn) (slots vn)
    c (addrs vn) (nodeMap vn).
Definition set_addrs (a : gmap string (gset string)) (vn : VirtNet) : VirtNet :=
  MkVirtNet (ID vn) (size vn) (addr0I vn) (addrFI vn) (prefixLen vn) (subnets vn) (theCD vn) (slots vn)
    (createdCount vn) a (nodeMap vn).
Definition set_nodes (m : gmap string NodeData) (vn : VirtNet) : VirtNet :=
  MkVirtNet (ID vn) (size vn) (addr0I vn) (addrFI vn) (prefixLen vn) (subnets vn) (theCD vn) (slots vn)
    (createdCount vn) (addrs vn) m.

Definition get_slot (vi si : Z) : M Driver Slot :=
  vn ← get_net vi; match nth_z (slots vn) si with Some s => mret s | None => index_panic end.
Definition put_slot (vi si : Z) (s : Slot) : M Driver unit := upd_net vi (set_slots <[Z.to_nat si := s]>).

(** ** Metrics *)

Definition ObserveAt (hist : string) (x : Z) (ns name : string) : M Driver unit :=
  modify (set_metrics (λ hs,
    let th := default (MkHist [] 0 "" "") (hs !! hist) in
    let seen := x :: samples th in
    <[hist := if maxX th <? x then MkHist seen x ns name else MkHist seen (maxX th) (maxNS th) (maxName th)]> hs) id).
Definition Inc (counter : string) : M Driver unit :=
  modify (set_metrics id (λ cs, <[counter := default 0 (cs !! counter) + 1]> cs)).

(** ** Connectivity domains

    The methods do nothing on a nil domain; waking the waiters changes nothing. *)

Definition NoteTested (slotIndex : Z) (cd : ConnectivityDomain) : ConnectivityDomain :=
  MkCD (cd_VNI cd) (numWaiters cd) (startOfFirstWait cd) slotIndex (pendingIndices cd ∖ {[slotIndex]}).
Definition NotePending (slotIndex : Z) (cd : ConnectivityDomain) : ConnectivityDomain :=
  MkCD (cd_VNI cd) (numWaiters cd) (startOfFirstWait cd) (latestIndex cd) ({[slotIndex]} ∪ pendingIndices cd).
Definition NoteNoTest (slotIndex : Z) (cd : ConnectivityDomain) : ConnectivityDomain :=
  MkCD (cd_VNI cd) (numWaiters cd) (startOfFirstWait cd)
    (if latestIndex cd =? slotIndex then -1 else latestIndex cd) (pendingIndices cd ∖ {[slotIndex]}).

Definition get_cd (vi : Z) : M Driver ConnectivityDomain :=
  vn ← get_net vi; match theCD vn with Some cd => mret cd | None => panic "nil pointer" end.
Definition no_ready (cd : ConnectivityDomain) : bool :=
  (latestIndex cd =? -1) && bool_decide (pendingIndices cd ≠ ∅).

(** The wait for a ready slot: the clock before each wait, and what others do meanwhile. *)
Fixpoint wait_ready (vi : Z) (tLimit : Time) (waits : list (Time * M Driver unit)) : M Driver unit :=
  cd ← get_cd vi;
  if no_ready cd then
    match waits with
    | [] => panic "still waiting"
    | (now, others) :: waits => if tLimit <=? now then mret tt else others;; wait_ready vi tLimit waits
    end
  else mret tt.

Definition set_waiters (k : Z) (start : Time) (cd : ConnectivityDomain) : ConnectivityDomain :=
  MkCD (cd_VNI cd) k start (latestIndex cd) (pendingIndices cd).

Record WaitEnv := MkWaitEnv {
  w_start : Time; w_before : Time; w_after : Time; w_end : Time; w_waits : list (Time * M Driver unit) }.

Section Driver.
Context (F : Flags).

Definition GetReadyAttachment (vi : Z) (w : WaitEnv) : M Driver (option NetworkAttachment * Z * Z) :=
  cd ← get_cd vi;
  delays ←
    (if no_ready cd then
       upd_net vi (set_cd (λ cd, set_waiters (numWaiters cd + 1)
         (if numWaiters cd + 1 =? 1 then w_start w else startOfFirstWait cd) cd));;
       wait_ready vi (w_before w + pendingWait F) (w_waits w);;
       upd_net vi (set_cd (λ cd, set_waiters (numWaiters cd - 1) (startOfFirstWait cd) cd));;
       cd ← get_cd vi;
       if numWaiters cd =? 0 then
         x ← gets xtraDelayI;
         let total := x + (w_end w - startOfFirstWait cd) in
         modify (set_xtra total);; mret (w_after w - w_before w, total)
       else mret (w_after w - w_before w, 0)
     else mret (0, 0));
  cd ← get_cd vi;
  if latestIndex cd =? -1 then mret (None, delays.1, delays.2)
  else s ← get_slot vi (latestIndex cd); mret (natt s, delays.1, delays.2).

(** ** Slots *)

Definition setCurrentName (vi si : Z) (name node : string) : M Driver unit :=
  slot ← get_slot vi si;
  upd_net vi (set_cd (if String.eqb name "" then NoteNoTest si else NotePending si));;
  put_slot vi si (MkSlot (nextIndex slot) name node 0 0 0 0 (fullTest slot) (-5) 0 0 None).

Definition setNetAtt (vi si : Z) (pre post : Time) (na : NetworkAttachment) (full : bool) : M Driver unit :=
  slot ← get_slot vi si;
  put_slot vi si (MkSlot (nextIndex slot) (currentAttachmentName slot) (currentNodeName slot) pre post
    (addressedTime slot) (readyTime slot) full (testES slot) (testedTime slot) (brokenTime slot) (Some na)).

(** The address of a name moves in the sets of the owners of each address. *)
Definition ipAddressChangedInNS (vi : Z) (oldIPv4 newIPv4 name : string) : M Driver unit :=
  vn ← get_net vi;
  let m := if String.eqb oldIPv4 "" then addrs vn else
    match addrs vn !! oldIPv4 with
    | None => addrs vn
    | Some oldSet =>
        let oldSet := oldSet ∖ {[name]} in
        if bool_decide (oldSet = ∅) then delete oldIPv4 (addrs vn) else <[oldIPv4 := oldSet]> (addrs vn)
    end in
  if String.eqb newIPv4 "" then upd_net vi (set_addrs m)
  else
    let newSet := {[name]} ∪ default ∅ (m !! newIPv4) in
    upd_net vi (set_addrs (<[newIPv4 := newSet]> m));;
    if (1 <? base.size newSet)%nat then modify (set_counters 1 0 0 0) else mret tt.

Definition ipAddressChangedAtNode (vi : Z) (node oldIPv4 newIPv4 name : string) : M Driver unit :=
  vn ← get_net vi;
  let m := match nodeMap vn !! node with Some nd => ipToName nd | None => ∅ end in
  let m := if String.eqb oldIPv4 "" then m
           else if String.eqb (default "" (m !! oldIPv4)) name then delete oldIPv4 m else m in
  let m := if String.eqb newIPv4 "" then m else <[newIPv4 := name]> m in
  upd_net vi (set_nodes (<[node := MkNodeData m]> (nodeMap vn))).

Definition ipAddressChanged (vi : Z) (node oldIPv4 newIPv4 name : string) : M Driver unit :=
  ipAddressChangedAtNode vi node oldIPv4 newIPv4 name;;
  ipAddressChangedInNS vi oldIPv4 newIPv4 name.

Definition attIPv4 (a : option NetworkAttachment) : string :=
  match a with Some a => StatusIPv4 (na_Status a) | None => "" end.

(** The check whose outcome is only logged; it reads the last four bytes of the address. *)
Definition check_range (ipv4 : string) : M Driver unit :=
  if String.eqb ipv4 "" then mret tt
  else match ParseIP ipv4 with
       | [] => mret tt
       | addr => match MakeUint32FromIPv4 addr with Ok _ => mret tt | Panic e => panic e end
       end.

(** The effects of [observeState] on the times and the domain when the attachment is
    ready, or else broken. *)
Definition observe_ready (now : Time) (vi si : Z) (slot : Slot) (st : NetworkAttachmentStatus) : M Driver Slot :=
  ready ←
    (if readyTime slot =? 0 then
       (if waitAfterCreate F =? 0 then mret tt else modify (set_counters 0 0 1 0));; mret now
     else mret (readyTime slot));
  let slot := MkSlot (nextIndex slot) (currentAttachmentName slot) (currentNodeName slot) (preCreateTime slot)
    (postCreateTime slot) (addressedTime slot) ready (fullTest slot) (testES slot) (testedTime slot)
    (brokenTime slot) (natt slot) in
  match PostCreateExecReport st with
  | Some cr =>
      if testedTime slot =? 0 then
        (if ExitStatus cr =? 0 then upd_net vi (set_cd (NoteTested si))
         else upd_net vi (set_cd (NoteNoTest si));;
              if stopOnPingFail F then modify (set_counters 0 1 0 0) else mret tt);;
        mret (MkSlot (nextIndex slot) (currentAttachmentName slot) (currentNodeName slot) (preCreateTime slot)
          (postCreateTime slot) (addressedTime slot) (readyTime slot) (fullTest slot) (ExitStatus cr) now
          (brokenTime slot) (natt slot))
      else mret slot
  | None => mret slot
  end.

Definition observe_broken (now : Time) (vi si : Z) (slot : Slot) : M Driver Slot :=
  if brokenTime slot =? 0 then
    upd_net vi (set_cd (NoteNoTest si));;
    (if stopOnBreak F then modify (set_counters 0 1 0 0) else mret tt);;
    mret (MkSlot (nextIndex slot) (currentAttachmentName slot) (currentNodeName slot) (preCreateTime slot)
      (postCreateTime slot) (addressedTime slot) (readyTime slot) (fullTest slot) (testES slot)
      (testedTime slot) now (natt slot))
  else mret slot.

Definition with_natt (slot : Slot) (addressed : Time) (a : option NetworkAttachment) : Slot :=
  MkSlot (nextIndex slot) (currentAttachmentName slot) (currentNodeName slot) (preCreateTime slot)
    (postCreateTime slot) addressed (readyTime slot) (fullTest slot) (testES slot) (testedTime slot)
    (brokenTime slot) a.

Definition observeState (now : Time) (vi si : Z) (na : NetworkAttachment) : M Driver unit :=
  slot ← get_slot vi si;
  if negb (String.eqb (Name (na_meta na)) (currentAttachmentName slot)) ||
     negb (String.eqb (Namespace (na_meta na)) (runID F))
  then mret tt
  else
    let st := na_Status na in
    let oldIPv4 := attIPv4 (natt slot) in
    (if String.eqb oldIPv4 (StatusIPv4 st) then mret tt
     else check_range (StatusIPv4 st);;
          ipAddressChanged vi (currentNodeName slot) oldIPv4 (StatusIPv4 st) (currentAttachmentName slot));;
    let addressed :=
      if negb (String.eqb (StatusIPv4 st) "") && (addressedTime slot =? 0) then now else addressedTime slot in
    let slot := with_natt slot addressed (natt slot) in
    slot ←
      (if negb (String.eqb (IfcName st) "") then observe_ready now vi si slot st
       else if bool_decide (IPAM (Errors st) ≠ [] ∨ Host (Errors st) ≠ []) then observe_broken now vi si slot
       else mret slot);
    put_slot vi si (with_natt slot (addressedTime slot) (Some na)).

(** The observations that [close] makes of an attachment. *)
Definition observe_times (slot : Slot) (nsName name : string) : M Driver unit :=
  (if readyTime slot =? 0 then mret tt
   else ObserveAt "attachment_create_to_ready_latency_seconds" (readyTime slot - preCreateTime slot) nsName name);;
  (if brokenTime slot =? 0 then mret tt
   else ObserveAt "attachment_create_to_broken_latency_seconds" (brokenTime slot - preCreateTime slot) nsName name);;
  (if testedTime slot =? 0 then mret tt
   else ObserveAt "attachment_create_to_tested_latency_seconds" (testedTime slot - preCreateTime slot) nsName name;;
        ObserveAt "attachment_ready_to_tested_latency_seconds" (testedTime slot - readyTime slot) nsName name;;
        Inc ("test_count," +:+ (if testES slot <? 0 then "-" +:+ fmt_d (- testES slot) else fmt_d (testES slot)) +:+
             "," +:+ (if fullTest slot then "true" else "false"))).

Definition close (vi si : Z) (VNI : Z) (nsName : string) : M Driver (option NetworkAttachment) :=
  slot ← get_slot vi si;
  let closed := MkSlot (nextIndex slot) "" "" 0 (postCreateTime slot) (addressedTime slot) (readyTime slot)
    (fullTest slot) (testES slot) (testedTime slot) (brokenTime slot) None in
  (if preCreateTime slot =? 0 then mret tt
   else
     match natt slot with
     | None => panic "nil pointer"
     | Some na =>
         d ← get;
         (if addressedTime slot =? 0 then mret tt
          else ObserveAt "attachment_create_to_addressed_latency_seconds"
                 (addressedTime slot - preCreateTime slot) nsName (Name (na_meta na)));;
         (if String.eqb (StatusIPv4 (na_Status na)) "" then mret tt
          else match idToVirtNet d !! VNI with
               | None => panic "nil pointer"
               | Some vj => ipAddressChanged vj (currentNodeName slot) (StatusIPv4 (na_Status na)) ""
                              (currentAttachmentName slot)
               end);;
         observe_times slot nsName (Name (na_meta na))
     end);;
  put_slot vi si closed;;
  mret (natt slot).

(** ** Notifications *)

Definition Subnet_OnAdd (subnet : Subnet) : M Driver unit :=
  d ← get;
  match idToVirtNet d !! VNI (sn_Spec subnet) with
  | None => mret tt
  | Some _ => modify (set_initialized (λ s, {[Name (sn_meta subnet)]} ∪ s))
  end.
Definition Subnet_OnUpdate (old new : Subnet) : M Driver unit := Subnet_OnAdd new.
Definition Subnet_OnDelete (subnet : Subnet) : M Driver unit := mret tt.

(** The condition that [waitForInitializedSubnets] waits for. *)
Definition subnets_initialized (d : Driver) : bool :=
  negb (Z.of_nat (base.size (initializedSubnets d)) <? num_subnets d).

(** [strconv.Atoi], on 64 bits. *)
Definition Atoi (s : string) : option Z :=
  let number t limit := match ParseUint t 10 64 with PVal n => if n <=? limit then Some n else None | _ => None end in
  match s with
  | String "-" t => n ← number t (2 ^ 63); Some (- n)
  | String "+" t => number t (2 ^ 63 - 1)
  | _ => number s (2 ^ 63 - 1)
  end.

Definition slotKey : string := "slot".

(** An attachment comes with its annotations. *)
Definition Attachment_OnAdd (now : Time) (na : NetworkAttachment) (annotations : option (gmap string string))
    : M Driver unit :=
  match annotations with
  | None => mret tt
  | Some notes =>
      d ← get;
      match subnetToVirtNet d !! SubnetOf (na_Spec na) with
      | None => mret tt
      | Some vi =>
          match Atoi (default "" (notes !! slotKey)) with
          | None => mret tt
          | Some si => get_slot vi si;; observeState now vi si na
          end
      end
  end.
Definition Attachment_OnUpdate (now : Time) (old new : NetworkAttachment) (annotations : option (gmap string string))
    : M Driver unit := Attachment_OnAdd now new annotations.
(** The object is asserted to be an attachment, which a tombstone is not. *)
Definition Attachment_OnDelete (obj : notified NetworkAttachment) : M Driver unit :=
  match assert_object obj with Ok _ => mret tt | Panic msg => panic msg end.

(** ** Dividing the work *)

Fixpoint select_from {A} (k thd num_threads : Z) (frum : list A) (len : nat) : res (list A) :=
  match len with
  | O => Ok []
  | S len =>
      match nth_z frum (thd + k * num_threads) with
      | None => Panic "index out of range"
      | Some x => ans ← select_from (k + 1) thd num_threads frum len; Ok (x :: ans)
      end
  end.

Definition selectWork {A} (thd num_threads : Z) (frum : list A) : res (list A) :=
  if num_threads =? 0 then Panic "division by zero"
  else
    let len := Z.quot (Z.of_nat (length frum) + num_threads - 1 - thd) num_threads in
    if len <? 0 then Panic "makeslice: len out of range" else select_from 0 thd num_threads frum (Z.to_nat len).

(** [rem] elements at the front of [x] are left; [Intn k rem] is the number that
    [rand.Intn(rem)] gives the [k]th time.  The argument is changed, the caller drops it. *)
Fixpoint shuffle_go {A} (Intn : nat → nat → nat) (k : nat) (x : list A) (rem : nat) : list A :=
  match rem with
  | O => []
  | S O => match x with a :: _ => [a] | [] => [] end
  | S rem' =>
      let j := Intn k rem in
      match x !! j with
      | None => []
      | Some a => a :: shuffle_go Intn (S k) (match x !! rem' with Some b => <[j := b]> x | None => x end) rem'
      end
  end.
Definition shuffle {A} (Intn : nat → nat → nat) (x : list A) : list A :=
  if (length x <? 2)%nat then x else shuffle_go Intn 0 x (length x).

(** Every slot of every network. *)
Definition all_slots (nets : list VirtNet) : list VirtNetAttachment :=
  concat (imap (λ i vn, (λ j, MkVNA (Z.of_nat i) j) <$> seqZ 0 (size vn)) nets).

(** The number of attachments that thread [thd] of [threads] makes. *)
Definition numHere (num_attachments threads thd : Z) : Z := (num_attachments + threads - 1 - thd) / threads.

(** ** A thread *)

(** [withRetries]; [attempt k] is the [k]th call of [thunk], [stopped k] whether [stopCh]
    is closed before the wait after it ends.  The waits are returned too. *)
Fixpoint withRetries (fuel k : nat) (attempt : nat → M Driver bool) (stopped : nat → bool) (wait maxWait : Z)
    : M Driver (bool * list Z) :=
  match fuel with
  | O => panic "out of attempts"
  | S fuel =>
      done ← attempt k;
      if (done : bool) then mret (true, [])
      else if stopped k then mret (false, [wait])
      else
        r ← withRetries fuel (S k) attempt stopped (if maxWait <? 2 * wait then maxWait else 2 * wait) maxWait;
        mret (r.1, wait :: r.2)
  end.

Record Thread := MkThread { iCreate : Z; iDelete : Z; createAllowed : bool }.

(** What a thread is given. *)
Record Job := MkJob {
  work : list VirtNetAttachment; nodes : list string; nattDigits : nat; num : Z; thd : Z; stride : Z;
  roundRobin : bool; justCreate : bool }.

(** What happens around one round of the loop: what others do before it and while the
    server creates the attachment, whether [stopCh] is closed, the node that
    [rand.Intn] picks, the clock, and the answers of the server. *)
Record Round := MkRound {
  r_before : M Driver unit; r_during : M Driver unit; r_stopCh : bool; r_node : Z; r_wait : WaitEnv;
  r_ti0 : Time; r_ti0S : string; r_tif : Time;
  r_answer : NetworkAttachment → gmap string string → error + NetworkAttachment;
  r_deletes : nat → Time * Time * option error; r_stopped : nat → bool; r_attempts : nat }.

Definition driverLabels : gmap string string := {["app" := "attachment-tput-driver"; "runid" := runID F]}.

(** The name of an attachment: the VNI and an index, in digits of fixed width. *)
Definition objname (digits : nat) (VNI index : Z) : string := fmt_06x VNI +:+ "-" +:+ pad0 digits (fmt_d index).

(** [GetReadyAttachment] and the commands that test an attachment and take it down. *)
Definition exec_lists (vi : Z) (vn : VirtNet) (w : WaitEnv) : M Driver (bool * list string * list string) :=
  if omitTest F then mret (false, [], [])
  else
    r ← GetReadyAttachment vi w;
    modify (set_counters 0 0 0 1);;
    nnsi ← gets nnsCount;
    let netns := runID F +:+ "-" +:+ fmt_d nnsi in
    let test := "/usr/local/kos/bin/TestByPing ${ifname} " +:+ netns +:+ " ${ipv4}/" +:+ fmt_d (prefixLen vn) in
    let takedown := split_on " " ("/usr/local/kos/bin/RemoveNetNS " +:+ netns) in
    mret match r.1.1 with
         | Some peer =>
             (true, split_on " " (test +:+ " " +:+ StatusIPv4 (na_Status peer) +:+ " " +:+ fmt_d (pingCount F) +:+
                                  " " +:+ Name (na_meta peer)), takedown)
         | None => (false, split_on " " test, takedown)
         end.

Definition pick_subnet (vi : Z) (vn : VirtNet) : M Driver Subnet :=
  if (1 <? length (subnets vn))%nat then
    let c := u32 (createdCount vn + 1) in
    upd_net vi (set_created c);;
    match nth_z (subnets vn) (c mod Z.of_nat (length (subnets vn))) with
    | Some s => mret s | None => index_panic end
  else match subnets vn with s :: _ => mret s | [] => index_panic end.

Definition pick_node (job : Job) (iCreate rand : Z) : M Driver string :=
  if negb (String.eqb (onlyNode F) "") then mret (onlyNode F)
  else
    let len := Z.of_nat (length (nodes job)) in
    if len =? 0 then panic "division by zero"
    else match nth_z (nodes job) (if roundRobin job then u64 (thd job + u64 (stride job * iCreate)) mod len else rand) with
         | Some nd => mret nd | None => index_panic end.

Definition CreateTimestampAnnotationKey : string := "precise/createTimestamp".

(** The creation of an attachment in a slot; its name is returned. *)
Definition create_in (job : Job) (th : Thread) (r : Round) (vi si : Z) : M Driver string :=
  vn ← get_net vi;
  slot ← get_slot vi si;
  subnet ← pick_subnet vi vn;
  let name := objname (nattDigits job) (ID vn) (nextIndex slot) in
  node ← pick_node job (iCreate th) (r_node r);
  '(full, postCreateExec, postDeleteExec) ← exec_lists vi vn (r_wait r);
  setCurrentName vi si name node;;
  let obj := MkNA (MkMeta (runID F) name "" "" 0 [] driverLabels false)
    (MkNASpec node (Name (sn_meta subnet)) postCreateExec postDeleteExec)
    (MkNAStatus (MkNAErrors [] []) "" 0 "" "" "" "" None) in
  let notes := {[slotKey := fmt_d si; CreateTimestampAnnotationKey := r_ti0S r]} in
  r_during r;;
  ObserveAt "attachment_create_latency_seconds" (r_tif r - r_ti0 r) (runID F) name;;
  match r_answer r obj notes with
  | inl _ => setCurrentName vi si "" "";; Inc "failed_creates"
  | inr retObj => setNetAtt vi si (r_ti0 r) (r_tif r) retObj full;; Inc "successful_creates"
  end;;
  mret name.

Definition tryDelete (na : NetworkAttachment) (r : Round) (k : nat) : M Driver bool :=
  let '(ti0, tif, err) := r_deletes r k in
  ObserveAt "attachment_delete_latency_seconds" (tif - ti0) (runID F) (Name (na_meta na));;
  match err with
  | Some e => if IsNotFound e then Inc "successful_deletes";; mret true else Inc "failed_deletes";; mret false
  | None => Inc "successful_deletes";; mret true
  end.

Definition millisecond : Z := 1000000.

(** The deletion of the attachment in a slot, which gets its next index. *)
Definition delete_in (r : Round) (vi si : Z) : M Driver unit :=
  vn ← get_net vi;
  na ← close vi si (ID vn) (runID F);
  (match na with
   | Some na => withRetries (r_attempts r) 0 (tryDelete na r) (r_stopped r) (100 * millisecond) (5 * second);; mret tt
   | None => mret tt
   end);;
  vn ← get_net vi;
  slot ← get_slot vi si;
  put_slot vi si (MkSlot (u32 (nextIndex slot + u32 (size vn))) (currentAttachmentName slot) (currentNodeName slot)
    (preCreateTime slot) (postCreateTime slot) (addressedTime slot) (readyTime slot) (fullTest slot) (testES slot)
    (testedTime slot) (brokenTime slot) (natt slot)).

(** The slot of the work item for an operation of the given number. *)
Definition work_item (job : Job) (i : Z) : M Driver VirtNetAttachment :=
  let workLen := Z.of_nat (length (work job)) in
  if workLen =? 0 then panic "division by zero"
  else match nth_z (work job) (i mod workLen) with Some w => mret w | None => index_panic end.

(** One round of the loop; [None] when it is left.  The name of the attachment that it
    creates, if any, is returned. *)
Definition round (job : Job) (th : Thread) (r : Round) : M Driver (option (Thread * list string)) :=
  r_before r;;
  stop ← gets stoppers;
  if 0 <? stop then mret None
  else
    let allowed := createAllowed th && negb (r_stopCh r) in
    if allowed && (iCreate th <? u64 (iDelete th + Z.of_nat (length (work job)))) && (iCreate th <? num job) then
      w ← work_item job (iCreate th);
      name ← create_in job th r (vnIndex w) (slotIndex w);
      mret (Some (MkThread (u64 (iCreate th + 1)) (iDelete th) allowed, [name]))
    else if justCreate job then mret None
    else
      w ← work_item job (iDelete th);
      delete_in r (vnIndex w) (slotIndex w);;
      mret (Some (MkThread (iCreate th) (u64 (iDelete th + 1)) allowed, [])).

(** [RunThread], but for the pace of its operations: the thread at its end, and the
    names of the attachments that it created. *)
Fixpoint RunThread (job : Job) (th : Thread) (rounds : list Round) : M Driver (Thread * list string) :=
  if iDelete th <? num job then
    match rounds with
    | [] => panic "out of rounds"
    | r :: rounds =>
        next ← round job th r;
        match next with
        | None => mret (th, [])
        | Some (th', names) => r ← RunThread job th' rounds; mret (r.1, names ++ r.2)
        end
    end
  else mret (th, []).

(** ** Making the networks *)

(** [suffixBits] is the number of host bits for a number of slots, [sizes] the number
    of slots of each network, which [main] computes in floating point; [created] is the
    answer of the server, [None] an error, after which the process ends. *)
Section Nets.
Context (singleNetwork : bool) (suffixBits : Z → Z) (created : Subnet → option Subnet).

Definition net_subnet (VNI addr bits : Z) (suffix : string) : Subnet :=
  MkSubnet (MkMeta "" (fmt_06x VNI +:+ suffix) "" "" 0 [] driverLabels false)
    (MkSubnetSpec (IP_String (MakeIPv4FromUint32 addr) +:+ "/" +:+ fmt_d (32 - bits)) VNI) [].

Definition create_subnet (s : Subnet) (status : string) : res Subnet :=
  match created s with Some s => Ok s | None => Panic ("exit status " +:+ status) end.

Definition fresh_slot (j : Z) : Slot := MkSlot (u32 (j + 1)) "" "" 0 0 0 0 false 0 0 0 None.

(** One network from address [addr01I] on. *)
Definition make_net (VNI addr01I nsz : Z) : res VirtNet :=
  let nsz2 := if singleNetwork then 0 else nsz / 2 in
  let nsz1 := if singleNetwork then nsz else nsz - nsz / 2 in
  let bits := suffixBits nsz1 in
  let ssz := u32 (Z.shiftl 1 bits) in
  let addrF1I := u32 (addr01I + ssz - 1) in
  net1 ← create_subnet (net_subnet VNI addr01I bits "-a") "26";
  nets ←
    (if 0 <? nsz2 then
       net2 ← create_subnet (net_subnet VNI (u32 (addrF1I + 1)) bits "-b") "27"; Ok [net1; net2]
     else Ok [net1]);
  Ok (MkVirtNet VNI nsz addr01I (if 0 <? nsz2 then u32 (addrF1I + ssz) else addrF1I) (32 - bits) nets
        (Some (MkCD VNI 0 0 (-1) ∅)) (fresh_slot <$> seqZ 0 nsz) 0 ∅ ∅).

Fixpoint make_nets (i vni0 addr01I : Z) (sizes : list Z) : res (list VirtNet) :=
  match sizes with
  | [] => Ok []
  | nsz :: sizes =>
      vn ← make_net (Z.land (u32 (vni0 + i)) 0x1FFFFF) addr01I nsz;
      nets ← make_nets (i + 1) vni0 (u32 (addrFI vn + 1)) sizes;
      Ok (vn :: nets)
  end.

(** The package variables once the networks are made: a later network replaces an
    earlier one of its VNI, a later subnet one of its name. *)
Definition index_nets {K} `{Countable K} (keys : VirtNet → list K) (nets : list VirtNet) : gmap K Z :=
  foldl (λ m ivn, foldl (λ m k, <[k := ivn.1]> m) m (keys ivn.2)) ∅ (imap (λ i vn, (Z.of_nat i, vn)) nets).

Definition start (vni0 addr01I : Z) (sizes : list Z) : res Driver :=
  nets ← make_nets 0 vni0 addr01I sizes;
  Ok (MkDriver nets (index_nets (λ vn, [ID vn]) nets) (index_nets (λ vn, Name ∘ sn_meta <$> subnets vn) nets) ∅
        (Z.of_nat (length (concat (subnets <$> nets)))) 0 0 0 0 0 ∅ ∅).
End Nets.

(** ** The end *)

Fixpoint close_slots (vi : Z) (VNI : Z) (indices : list Z) : M Driver unit :=
  match indices with
  | [] => mret tt
  | si :: indices => close vi si VNI (runID F);; close_slots vi VNI indices
  end.

(** Every slot of every network is closed. *)
Fixpoint close_nets (vi : Z) (nets : list VirtNet) : M Driver unit :=
  match nets with
  | [] => mret tt
  | vn :: nets => close_slots vi (ID vn) (seqZ 0 (Z.of_nat (length (slots vn))));; close_nets (vi + 1) nets
  end.
Definition close_all : M Driver unit := nets ← gets virtNets; close_nets 0 nets.
End Driver.
End Driver.
