(* ===== verification/DriverWork.v ===== *)
(** * Dividing the work of the throughput driver

    Shuffling permutes the slots, the threads get disjoint parts that cover them, and
    their shares of the attachments add up.  The names of attachments are distinct. *)

From S2P Require Import Prelude GoStr GoNet ApiTypes SubnetStrategy IpLock Driver.
Import Driver.

Module DriverWork.

(** ** Shuffling *)

Lemma insert_swap {A} (l : list A) j a b : l !! j = Some a → a :: <[j := b]> l ≡ₚ b :: l.
Proof.
  intros Hj. rewrite <- (take_drop_middle l j a Hj) at 2. rewrite insert_take_drop by by eapply lookup_lt_Some.
  rewrite <- Permutation_middle, <- Permutation_middle. apply perm_swap.
Qed.

Lemma shuffle_go_perm {A} (Intn : nat → nat → nat) k (x : list A) rem :
  (∀ k m, (0 < m)%nat → (Intn k m < m)%nat) → (rem ≤ length x)%nat → shuffle_go Intn k x rem ≡ₚ take rem x.
Proof.
  intros HI. revert k x. induction rem as [|rem IH]; intros k x Hl; [done|].
  destruct rem as [|rem]; [by destruct x|].
  change (shuffle_go Intn k x (S (S rem))) with
    (match x !! Intn k (S (S rem)) with
     | None => []
     | Some a => a :: shuffle_go Intn (S k)
                   (match x !! S rem with Some b => <[Intn k (S (S rem)) := b]> x | None => x end) (S rem)
     end).
  set (j := Intn k (S (S rem))). assert (Hj : (j < S (S rem))%nat) by (apply HI; lia).
  destruct (lookup_lt_is_Some_2 x j) as [a Ha]; [lia|]. destruct (lookup_lt_is_Some_2 x (S rem)) as [b Hb]; [lia|].
  rewrite Ha, Hb, IH by (rewrite length_insert; lia). rewrite (take_S_r x (S rem) b) by done.
  destruct (decide (j = S rem)) as [Ej|Hne].
  - rewrite Ej in *. rewrite take_insert_ge by lia. replace b with a by congruence.
    rewrite Permutation_app_comm. done.
  - rewrite take_insert_lt by lia. rewrite insert_swap by (rewrite lookup_take_lt by lia; exact Ha).
    rewrite Permutation_app_comm. done.
Qed.

Lemma shuffle_perm {A} (Intn : nat → nat → nat) (x : list A) :
  (∀ k m, (0 < m)%nat → (Intn k m < m)%nat) → shuffle Intn x ≡ₚ x.
Proof.
  intros HI. unfold shuffle. destruct (_ <? _)%nat; [done|]. rewrite shuffle_go_perm by (done || lia).
  by rewrite firstn_all.
Qed.

(** ** Shares *)

(** The positions that a thread takes. *)
Definition share (T L t : Z) : list Z := (λ k, t + k * T) <$> seqZ 0 ((L + T - 1 - t) / T).

Lemma elem_of_share T L t x :
  0 < T → x ∈ share T L t ↔ ∃ k, x = t + k * T ∧ 0 ≤ k ∧ x < L.
Proof.
  intros HT. unfold share. rewrite list_elem_of_fmap. split.
  - intros (k & -> & [Hk1 Hk2]%elem_of_seqZ). exists k. split_and!; [done|lia|].
    pose proof (Z.mul_div_le (L + T - 1 - t) T HT). nia.
  - intros (k & -> & Hk & Hx). exists k. split; [done|]. apply elem_of_seqZ. split; [lia|].
    pose proof (Z.div_le_lower_bound (L + T - 1 - t) T (k + 1) HT). nia.
Qed.

Lemma shares_cover T L : 0 < T → seqZ 0 T ≫= share T L ≡ₚ seqZ 0 L.
Proof.
  intros HT. apply NoDup_Permutation; [|apply NoDup_seqZ|].
  - apply NoDup_bind; [| |apply NoDup_seqZ].
    + intros t t' x [Ht1 Ht2]%elem_of_seqZ [Ht1' Ht2']%elem_of_seqZ.
      rewrite !elem_of_share by done. intros (k & -> & Hk & _) (k' & E & Hk' & _).
      assert (k = k') by nia. nia.
    + intros t _. apply NoDup_fmap_2_strong; [|apply NoDup_seqZ]. intros k k' _ _ E. nia.
  - intros x. rewrite list_elem_of_bind, elem_of_seqZ. split.
    + intros (t & (k & -> & Hk & Hx)%elem_of_share & [Ht1 Ht2]%elem_of_seqZ); [|done]. nia.
    + intros [Hx1 Hx2]. exists (x mod T). pose proof (Z.mod_pos_bound x T HT) as Hm.
      rewrite elem_of_share, elem_of_seqZ by done. split; [|lia]. exists (x / T).
      pose proof (Z.div_mod x T ltac:(lia)). split_and!; [lia|by apply Z.div_pos; lia|lia].
Qed.

Lemma sum_lengths {A B} (f : A → list B) (l : list A) :
  Z.of_nat (length (l ≫= f)) = foldr Z.add 0 ((λ a, Z.of_nat (length (f a))) <$> l).
Proof. induction l as [|a l IH]; [done|]. rewrite bind_cons, length_app, fmap_cons. cbn [foldr]. lia. Qed.

Lemma shares_sum T N : 0 < T → 0 ≤ N → foldr Z.add 0 (numHere N T <$> seqZ 0 T) = N.
Proof.
  intros HT HN. pose proof (sum_lengths (share T N) (seqZ 0 T)) as E.
  rewrite shares_cover, length_seqZ, Z2Nat.id in E by done. rewrite E at 2. f_equal.
  apply list_fmap_ext. intros i t Ht. unfold share, numHere. rewrite length_fmap, length_seqZ.
  apply lookup_seqZ in Ht as [-> Ht]. rewrite Z2Nat.id; [done|]. apply Z.div_pos; lia.
Qed.

(** ** What a thread selects *)

Definition pick {A} (l : list A) (i : Z) : list A := match nth_z l i with Some x => [x] | None => [] end.

Lemma nth_z_lookup {A} (l : list A) i : 0 ≤ i → nth_z l i = l !! Z.to_nat i.
Proof. intros Hi. unfold nth_z. by rewrite (proj2 (Z.ltb_ge i 0)). Qed.

Lemma nth_z_is_Some {A} (l : list A) i : is_Some (nth_z l i) ↔ 0 ≤ i < Z.of_nat (length l).
Proof.
  unfold nth_z. destruct (Z.ltb_spec i 0); [split; [by intros [? [=]]|lia]|]. rewrite lookup_lt_is_Some. lia.
Qed.

Lemma pick_all {A} (l : list A) : seqZ 0 (Z.of_nat (length l)) ≫= pick l = l.
Proof.
  enough (Ht : ∀ n, (n ≤ length l)%nat → seqZ 0 (Z.of_nat n) ≫= pick l = take n l) by by rewrite Ht, firstn_all.
  induction n as [|n IH]; intros Hn; [done|]. destruct (lookup_lt_is_Some_2 l n) as [x Hx]; [lia|].
  rewrite seqZ_S, bind_app, bind_singleton, IH, (take_S_r l n x) by (done || lia). unfold pick.
  rewrite nth_z_lookup by lia. replace (Z.to_nat (0 + Z.of_nat n)) with n by lia. by rewrite Hx.
Qed.

Lemma select_from_pick {A} (frum : list A) T t len k :
  0 ≤ t → 0 ≤ k → 0 < T → t + (k + Z.of_nat len - 1) * T < Z.of_nat (length frum) →
  select_from k t T frum len = Ok (((λ k, t + k * T) <$> seqZ k (Z.of_nat len)) ≫= pick frum).
Proof.
  intros Ht Hk HT. revert k Hk. induction len as [|len IH]; intros k Hk Hlen; [done|].
  rewrite seqZ_cons by lia. rewrite fmap_cons, bind_cons. cbn [select_from].
  destruct (proj2 (nth_z_is_Some frum (t + k * T))) as [x Hx]; [nia|]. unfold pick at 1. rewrite Hx.
  replace (Z.pred (Z.of_nat (S len))) with (Z.of_nat len) by lia.
  replace (Z.succ k) with (k + 1) by lia.
  rewrite (IH (k + 1)) by lia. done.
Qed.

Lemma selectWork_pick {A} (frum : list A) T t :
  0 ≤ t < T → selectWork t T frum = Ok (share T (Z.of_nat (length frum)) t ≫= pick frum).
Proof.
  intros Ht. unfold selectWork. rewrite (proj2 (Z.eqb_neq T 0)) by lia.
  rewrite Z.quot_div_nonneg by lia.
  set (L := Z.of_nat (length frum)). assert (Hq : 0 ≤ (L + T - 1 - t) / T) by (apply Z.div_pos; lia).
  rewrite (proj2 (Z.ltb_ge _ 0) Hq). rewrite select_from_pick; try lia.
  - by rewrite Z2Nat.id by done.
  - rewrite Z2Nat.id by done. pose proof (Z.mul_div_le (L + T - 1 - t) T ltac:(lia)). nia.
Qed.

Lemma shares_nonempty {A} (frum : list A) T t :
  0 ≤ t < T → T ≤ Z.of_nat (length frum) → share T (Z.of_nat (length frum)) t ≫= pick frum ≠ [].
Proof.
  intros Ht HT E. assert (Hs : t ∈ share T (Z.of_nat (length frum)) t).
  { apply elem_of_share; [lia|]. exists 0. lia. }
  destruct (proj2 (nth_z_is_Some frum t)) as [x Hx]; [lia|].
  assert (Hin : x ∈ share T (Z.of_nat (length frum)) t ≫= pick frum); [|rewrite E in Hin; by apply elem_of_nil in Hin].
  apply list_elem_of_bind. exists t. split; [|done]. unfold pick. rewrite Hx. by left.
Qed.

Lemma all_slots_elem nets w :
  w ∈ all_slots nets ↔ ∃ vn, nth_z nets (vnIndex w) = Some vn ∧ 0 ≤ slotIndex w < size vn.
Proof.
  unfold all_slots. rewrite list_elem_of_In, in_concat. split.
  - intros (l & Hl & Hw). rewrite <- list_elem_of_In in Hl. rewrite <- list_elem_of_In in Hw.
    apply elem_of_lookup_imap in Hl as (i & vn & -> & Hi). apply list_elem_of_fmap in Hw as (j & -> & Hj%elem_of_seqZ).
    exists vn. cbn. rewrite nth_z_lookup, Nat2Z.id by lia. split; [done|lia].
  - intros (vn & Hi & Hj). destruct w as [i j]. cbn in *. assert (Hi0 : 0 ≤ i) by (apply (nth_z_is_Some nets); by eexists).
    rewrite nth_z_lookup in Hi by done. exists ((λ j, MkVNA (Z.of_nat (Z.to_nat i)) j) <$> seqZ 0 (size vn)).
    rewrite <- !list_elem_of_In. split; [apply elem_of_lookup_imap; by exists (Z.to_nat i), vn|].
    rewrite Z2Nat.id by done. apply list_elem_of_fmap. exists j. split; [done|]. apply elem_of_seqZ. lia.
Qed.

Lemma all_slots_nodup nets : NoDup (all_slots nets).
Proof.
  unfold all_slots. change (imap ?f nets) with (imap (f ∘ (Nat.add 0)) nets). generalize 0%nat as base.
  induction nets as [|vn nets IH]; intros base; [constructor|]. cbn [imap concat].
  apply NoDup_app. split_and!.
  - apply NoDup_fmap_2; [|apply NoDup_seqZ]. by intros j j' [= ->].
  - intros w (j & -> & _)%list_elem_of_fmap (l & Hl & Hw)%list_elem_of_In%in_concat.
    rewrite <- list_elem_of_In in Hl. rewrite <- list_elem_of_In in Hw.
    apply elem_of_lookup_imap in Hl as (i & vn' & -> & _). apply list_elem_of_fmap in Hw as (j' & [=] & _). lia.
  - rewrite (imap_ext _ ((λ i vn, (λ j, MkVNA (Z.of_nat i) j) <$> seqZ 0 (size vn)) ∘ Nat.add (S base))); [apply IH|].
    intros i vn' _. cbn. do 2 f_equal. lia.
Qed.

(** ** Names *)

Lemma pad_inj base w n m :
  2 ≤ base ≤ 36 → 0 ≤ n < 2 ^ 64 → 0 ≤ m < 2 ^ 64 →
  pad0 w (FormatUint n base) = pad0 w (FormatUint m base) → n = m.
Proof.
  intros Hb Hn Hm E.
  assert (H : ∀ k, 0 ≤ k < 2 ^ 64 → parse_go base (2 ^ 64) 0 (pad0 w (FormatUint k base)) = PVal k).
  { intros k Hk. unfold pad0. rewrite parse_pad by lia. unfold FormatUint. rewrite parse_fmt_go; [done|lia| |lia].
    split; [lia|]. apply pow64_bound; lia. }
  assert (PVal n = PVal m) as [=]; [|done]. rewrite <- (H n), <- (H m) by done. by rewrite E.
Qed.

Lemma lacks_pad c w s : char_is "0" c = false → lacks c s = true → lacks c (pad0 w s) = true.
Proof.
  intros Hc Hs. unfold pad0. induction (w - String.length s)%nat as [|k IH]; [done|].
  unfold lacks in *. cbn [repeat_char str_forall]. by rewrite Hc.
Qed.

Lemma objname_inj digits v i v' i' :
  is_u32 v → is_u32 v' → is_u32 i → is_u32 i' → objname digits v i = objname digits v' i' → v = v' ∧ i = i'.
Proof.
  unfold is_u32, objname, fmt_06x. intros Hv Hv' Hi Hi' E.
  assert (Hl : ∀ n, 0 ≤ n → lacks "-" (pad0 6 (fmt_x n)) = true).
  { intros n Hn. apply lacks_pad; [done|]. apply FormatUint_forall; [lia|done|]. by repeat constructor. }
  apply split_at in E as [E1 E2]; [|apply Hl; lia|apply Hl; lia].
  split; [apply (pad_inj 16 6); [lia..|exact E1]|apply (pad_inj 10 digits); [lia..|exact E2]].
Qed.

Lemma share_length {A} (frum : list A) T t :
  0 ≤ t < T →
  Z.of_nat (length (share T (Z.of_nat (length frum)) t ≫= pick frum)) = (Z.of_nat (length frum) + T - 1 - t) / T.
Proof.
  intros Ht. assert (Hq : 0 ≤ (Z.of_nat (length frum) + T - 1 - t) / T) by (apply Z.div_pos; lia).
  assert (Hone : ∀ l, Forall (λ i, 0 ≤ i < Z.of_nat (length frum)) l → length (l ≫= pick frum) = length l).
  { induction 1 as [|i l Hi _ IH]; [done|]. rewrite bind_cons, length_app, IH. unfold pick.
    apply nth_z_is_Some in Hi as [x ->]. done. }
  rewrite Hone.
  - unfold share. rewrite length_fmap, length_seqZ. lia.
  - apply Forall_forall. intros x (k & -> & Hk & Hx)%elem_of_share; [|lia]. nia.
Qed.

(** ** Division *)

(** However the random numbers fall, the threads get slots of their own, at least one each,
    and together every slot of every network; their shares add up to the number of attachments
    that was asked for, and if there are no more of these than slots no thread has to use one
    twice. *)
Lemma work_is_divided (Intn1 Intn2 : nat → nat → nat) nets T N :
  (∀ k m, (0 < m)%nat → (Intn1 k m < m)%nat) → (∀ k m, (0 < m)%nat → (Intn2 k m < m)%nat) →
  0 < T ≤ Z.of_nat (length (all_slots nets)) → 0 ≤ N →
  let slots := shuffle Intn2 (shuffle Intn1 (all_slots nets)) in
  ∃ works, Forall2 (λ t w, selectWork t T slots = Ok w ∧ w ≠ [] ∧
        (N ≤ Z.of_nat (length (all_slots nets)) → numHere N T t ≤ Z.of_nat (length w))) (seqZ 0 T) works ∧
    concat works ≡ₚ all_slots nets ∧ NoDup (concat works) ∧
    foldr Z.add 0 (numHere N T <$> seqZ 0 T) = N.
Proof.
  intros HI1 HI2 HT HN slots.
  assert (Hp : slots ≡ₚ all_slots nets) by (unfold slots; rewrite !shuffle_perm by done; done).
  assert (Hl : length slots = length (all_slots nets)) by by rewrite Hp.
  exists ((λ t, share T (Z.of_nat (length slots)) t ≫= pick slots) <$> seqZ 0 T).
  assert (Hc : concat ((λ t, share T (Z.of_nat (length slots)) t ≫= pick slots) <$> seqZ 0 T) ≡ₚ all_slots nets).
  { transitivity ((seqZ 0 T ≫= share T (Z.of_nat (length slots))) ≫= pick slots).
    - generalize (seqZ 0 T). intros l. induction l as [|t l IH]; [done|]. rewrite fmap_cons, bind_cons, bind_app.
      cbn [concat]. by rewrite IH.
    - rewrite shares_cover, pick_all by lia. done. }
  split_and!.
  - apply Forall2_fmap_r, Forall_Forall2_diag, Forall_forall. intros t [Ht1 Ht2]%elem_of_seqZ. split.
    + apply selectWork_pick. lia.
    + split; [apply shares_nonempty; lia|]. intros HNl. rewrite share_length by lia.
      unfold numHere. rewrite Hl. apply Z.div_le_mono; lia.
  - exact Hc.
  - rewrite Hc. apply all_slots_nodup.
  - apply shares_sum; lia.
Qed.
End DriverWork.
