(* ===== verification/DriverRun.v ===== *)
(** * A thread of the throughput driver

    The data that the threads share stays well formed, and a thread that is not
    stopped makes and deletes its share of attachments, in the order of its slots, and
    ends. *)

From S2P Require Import Prelude GoStr GoNet ApiTypes SubnetStrategy Driver DriverWork.
Import GoNet Driver DriverWork.

Module DriverRun.

(** ** The shared data *)

Definition slot_ok (s : Slot) : Prop := preCreateTime s ≠ 0 → is_Some (natt s).

Definition cd_ok (vn : VirtNet) : Prop :=
  ∃ cd, theCD vn = Some cd ∧ (latestIndex cd = -1 ∨ 0 ≤ latestIndex cd < size vn).

Definition net_ok (vn : VirtNet) : Prop :=
  cd_ok vn ∧ subnets vn ≠ [] ∧ Z.of_nat (length (slots vn)) = size vn ∧ Forall slot_ok (slots vn).

(** Every network is well formed, and its VNI leads to some network. *)
Definition nets_ok (d : Driver) : Prop :=
  Forall net_ok (virtNets d) ∧
  Forall (λ vn, ∃ vj, idToVirtNet d !! ID vn = Some vj ∧ is_Some (nth_z (virtNets d) vj)) (virtNets d).

Definition net_key (vn : VirtNet) : Z * Z := (ID vn, size vn).

(** The index of the next attachment of a slot. *)
Definition index_of (d : Driver) (w : VirtNetAttachment) : option Z :=
  vn ← nth_z (virtNets d) (vnIndex w); nextIndex <$> nth_z (slots vn) (slotIndex w).

(** What stays the same once the networks are made. *)
Definition shape (d : Driver) : list (Z * Z) * gmap Z Z * gmap string Z :=
  (net_key <$> virtNets d, idToVirtNet d, subnetToVirtNet d).

(** The networks are the same, and so are the indices of the slots of [P]. *)
Definition frame (P : VirtNetAttachment → Prop) (d d' : Driver) : Prop :=
  shape d' = shape d ∧ ∀ w, P w → index_of d' w = index_of d w.

Lemma frame_refl P d : frame P d d.
Proof. by split_and!. Qed.

Lemma frame_trans P d1 d2 d3 : frame P d1 d2 → frame P d2 d3 → frame P d1 d3.
Proof.
  intros (E1 & E2) (E1' & E2'). split; [congruence|]. intros w Hw. by rewrite E2', E2.
Qed.

Lemma frame_mono (P Q : VirtNetAttachment → Prop) d d' : (∀ w, Q w → P w) → frame P d d' → frame Q d d'.
Proof. intros HPQ (E1 & E2). split; auto. Qed.

(** A slot that exists. *)
Definition has_slot (d : Driver) (vi si : Z) : Prop := ∃ vn, nth_z (virtNets d) vi = Some vn ∧ 0 ≤ si < size vn.

Lemma nth_z_fmap {A B} (f : A → B) l i : nth_z (f <$> l) i = f <$> nth_z l i.
Proof. unfold nth_z. destruct (i <? 0); [done|]. apply list_lookup_fmap. Qed.

Lemma nth_z_elem {A} (l : list A) i x : nth_z l i = Some x → x ∈ l.
Proof. unfold nth_z. destruct (i <? 0); [done|]. apply list_elem_of_lookup_2. Qed.

Lemma frame_key P d d' vi vn :
  frame P d d' → nth_z (virtNets d) vi = Some vn →
  ∃ vn', nth_z (virtNets d') vi = Some vn' ∧ net_key vn' = net_key vn.
Proof.
  intros ([= E _ _] & _) Hvn. assert (Ek : net_key <$> nth_z (virtNets d') vi = Some (net_key vn)).
  { rewrite <- nth_z_fmap, E, nth_z_fmap, Hvn. done. }
  destruct (nth_z (virtNets d') vi) as [vn'|]; [|done]. injection Ek as Ek Es. exists vn'. unfold net_key. by rewrite Ek, Es.
Qed.

Lemma frame_slot P d d' vi si : frame P d d' → has_slot d vi si → has_slot d' vi si.
Proof.
  intros Hf (vn & Hvn & Hsi). destruct (frame_key _ _ _ _ _ Hf Hvn) as (vn' & Hvn' & [= _ Es]).
  exists vn'. by rewrite Es.
Qed.

Lemma frame_net P d d' vi : frame P d d' → is_Some (nth_z (virtNets d) vi) → is_Some (nth_z (virtNets d') vi).
Proof. intros Hf [vn Hvn]. destruct (frame_key _ _ _ _ _ Hf Hvn) as (vn' & -> & _). by eexists. Qed.

Lemma has_slot_is_net d vi si : has_slot d vi si → is_Some (nth_z (virtNets d) vi).
Proof. intros (vn & ? & _). by eexists. Qed.

Lemma has_slot_net d vi si :
  nets_ok d → has_slot d vi si →
  ∃ vn s, nth_z (virtNets d) vi = Some vn ∧ net_ok vn ∧ nth_z (slots vn) si = Some s ∧ slot_ok s.
Proof.
  intros [Hn _] (vn & Hvn & Hsi). rewrite Forall_forall in Hn. pose proof (Hn vn (nth_z_elem _ _ _ Hvn)) as Hok.
  destruct Hok as (Hcd & Hsub & Hlen & Hs). destruct (proj2 (nth_z_is_Some (slots vn) si)) as [s Es]; [lia|].
  exists vn, s. split_and!; try done. rewrite Forall_forall in Hs. by eapply Hs, nth_z_elem.
Qed.

(** ** Steps that keep it *)

Definition keeps {A} (P : VirtNetAttachment → Prop) (m : M Driver A) (d : Driver) : Prop :=
  nets_ok d → runs m d (λ _ d', nets_ok d' ∧ frame P d d').

Lemma keeps_ret {A} P (a : A) d : keeps P (mret a) d.
Proof. intros Hd. apply runs_ret. split; [done|apply frame_refl]. Qed.

Lemma keeps_bind {A B} P (m : M Driver A) (f : A → M Driver B) d :
  keeps P m d → (∀ a d', nets_ok d' → frame P d d' → keeps P (f a) d') → keeps P (m ≫= f) d.
Proof.
  intros Hm Hf Hd. apply runs_bind. eapply runs_conseq; [by apply Hm|]. intros a d' [Hd' Hfr].
  eapply runs_conseq; [by apply Hf|]. intros b d'' [Hd'' Hfr']. split; [done|]. by eapply frame_trans.
Qed.

(** A step that only reads. *)
Lemma keeps_read {A B} P (m : M Driver A) (f : A → M Driver B) a d :
  m d = Ok (a, d) → keeps P (f a) d → keeps P (m ≫= f) d.
Proof. intros E Hf Hd. apply runs_bind. unfold runs. rewrite E. by apply Hf. Qed.

Lemma keeps_modify P (h : Driver → Driver) d :
  virtNets (h d) = virtNets d → idToVirtNet (h d) = idToVirtNet d → subnetToVirtNet (h d) = subnetToVirtNet d →
  keeps P (modify h) d.
Proof.
  intros E1 E2 E3 [Hd1 Hd2]. apply runs_modify. unfold nets_ok, frame, shape, index_of. rewrite !E1, !E2, !E3. by split_and!.
Qed.

(** A change of one network. *)
Definition harmless (P : VirtNetAttachment → Prop) (vi : Z) (g : VirtNet → VirtNet) (vn : VirtNet) : Prop :=
  net_ok (g vn) ∧ net_key (g vn) = net_key vn ∧
  ∀ si, P (MkVNA vi si) → nextIndex <$> nth_z (slots (g vn)) si = nextIndex <$> nth_z (slots vn) si.

Lemma nth_z_alter {A} (l : list A) g vi j :
  0 ≤ vi → nth_z (alter g (Z.to_nat vi) l) j = (if decide (j = vi) then g else id) <$> nth_z l j.
Proof.
  intros Hvi. unfold nth_z. destruct (Z.ltb_spec j 0) as [Hj|Hj]; [done|]. destruct (decide (j = vi)) as [->|Hne].
  - by rewrite list_lookup_alter_eq.
  - rewrite list_lookup_alter_ne by lia. by rewrite option_fmap_id.
Qed.

Lemma keeps_upd P vi g d vn :
  nth_z (virtNets d) vi = Some vn → (net_ok vn → harmless P vi g vn) → keeps P (upd_net vi g) d.
Proof.
  intros Hvn Hg [Hok Hid]. assert (Hvi : 0 ≤ vi) by (apply (nth_z_is_Some (virtNets d)); by eexists).
  assert (Hvn' : virtNets d !! Z.to_nat vi = Some vn) by by rewrite <- nth_z_lookup.
  destruct (Hg (proj1 (Forall_forall _ _) Hok vn (nth_z_elem _ _ _ Hvn))) as (Hok' & Hkey & Hidx).
  assert (Hkeys : net_key <$> alter g (Z.to_nat vi) (virtNets d) = net_key <$> virtNets d).
  { apply list_eq. intros i. rewrite !list_lookup_fmap. destruct (decide (i = Z.to_nat vi)) as [->|Hne].
    - rewrite list_lookup_alter_eq, Hvn'. cbn. by rewrite Hkey.
    - by rewrite list_lookup_alter_ne. }
  apply runs_modify. split; [split|split_and!]; cbn.
  - apply Forall_alter; [exact Hok|]. intros x Hx Hxok. rewrite Hvn' in Hx. injection Hx as <-. exact Hok'.
  - assert (Hs : ∀ vj, is_Some (nth_z (virtNets d) vj) → is_Some (nth_z (alter g (Z.to_nat vi) (virtNets d)) vj)).
    { intros vj. rewrite !nth_z_is_Some, length_alter. done. }
    apply Forall_forall. intros x Hx. rewrite Forall_forall in Hid.
    assert (Hkx : net_key x ∈ net_key <$> virtNets d) by (rewrite <- Hkeys; by apply list_elem_of_fmap_2).
    apply list_elem_of_fmap in Hkx as (y & [= Ek _] & Hy). destruct (Hid y Hy) as (vj & Ej & Hj).
    exists vj. rewrite Ek. split; [done|by apply Hs].
  - unfold shape. cbn. by rewrite Hkeys.
  - intros w Hw. unfold index_of. cbn. rewrite nth_z_alter by done. destruct (decide (vnIndex w = vi)) as [Ew|Hne].
    + rewrite Ew, Hvn. cbn. apply Hidx. by destruct w; cbn in *; subst.
    + by rewrite option_fmap_id.
Qed.

(** ** Operations *)

Lemma get_net_eq d vi vn : nth_z (virtNets d) vi = Some vn → get_net vi d = Ok (vn, d).
Proof. unfold get_net, mbind, M_bind, get. by intros ->. Qed.

Lemma get_slot_eq d vi si vn s :
  nth_z (virtNets d) vi = Some vn → nth_z (slots vn) si = Some s → get_slot vi si d = Ok (s, d).
Proof.
  intros E1 E2. unfold get_slot, mbind, M_bind. rewrite (get_net_eq d vi vn) by done. by rewrite E2.
Qed.

Section Keeps.
Context (P : VirtNetAttachment → Prop).

Lemma keeps_if {A} (b : bool) (m1 m2 : M Driver A) d : keeps P m1 d → keeps P m2 d → keeps P (if b then m1 else m2) d.
Proof. by destruct b. Qed.

Lemma keeps_ObserveAt h x ns nm d : keeps P (ObserveAt h x ns nm) d.
Proof. by apply keeps_modify. Qed.
Lemma keeps_Inc c d : keeps P (Inc c) d.
Proof. by apply keeps_modify. Qed.

Lemma harmless_cd vi g vn :
  (∀ cd, latestIndex cd = -1 ∨ 0 ≤ latestIndex cd < size vn →
         latestIndex (g cd) = -1 ∨ 0 ≤ latestIndex (g cd) < size vn) →
  net_ok vn → harmless P vi (set_cd g) vn.
Proof.
  intros Hg ((cd & Ecd & Hcd) & Hsub & Hlen & Hs). split_and!; try done.
  split_and!; try done. exists (g cd). cbn. rewrite Ecd. split; [done|by apply Hg].
Qed.

Lemma keeps_cd vi si g d :
  has_slot d vi si →
  (∀ cd sz, 0 ≤ si < sz → latestIndex cd = -1 ∨ 0 ≤ latestIndex cd < sz →
            latestIndex (g cd) = -1 ∨ 0 ≤ latestIndex (g cd) < sz) →
  keeps P (upd_net vi (set_cd g)) d.
Proof.
  intros (vn & Hvn & Hsi) Hg. eapply keeps_upd; [exact Hvn|]. intros Hok. apply harmless_cd; [|done]. intros cd. by apply Hg.
Qed.

Lemma keeps_NoteTested vi si d : has_slot d vi si → keeps P (upd_net vi (set_cd (NoteTested si))) d.
Proof. intros Hs. eapply keeps_cd; [exact Hs|]. intros cd sz Hsi _. by right. Qed.
Lemma keeps_NotePending vi si d : has_slot d vi si → keeps P (upd_net vi (set_cd (NotePending si))) d.
Proof. intros Hs. by eapply keeps_cd. Qed.
Lemma keeps_NoteNoTest vi si d : has_slot d vi si → keeps P (upd_net vi (set_cd (NoteNoTest si))) d.
Proof. intros Hs. eapply keeps_cd; [exact Hs|]. intros cd sz Hsi Hl. cbn. case_match; [by left|done]. Qed.

(** Another slot in its place with the same index. *)
Lemma keeps_put vi si vn s s' d :
  nth_z (virtNets d) vi = Some vn → nth_z (slots vn) si = Some s → nextIndex s' = nextIndex s → slot_ok s' →
  keeps P (put_slot vi si s') d.
Proof.
  intros Hvn Hs Hidx Hok'. eapply keeps_upd; [exact Hvn|]. intros (Hcd & Hsub & Hlen & Hss).
  assert (Hsi : 0 ≤ si) by (apply (nth_z_is_Some (slots vn)); by eexists).
  rewrite nth_z_lookup in Hs by done. split_and!; [split_and!; [done|done|cbn; by rewrite length_insert|]|done|].
  - cbn. by apply Forall_insert.
  - intros sj _. cbn. destruct (decide (0 ≤ sj)) as [Hsj|Hsj].
    + rewrite !nth_z_lookup by done. destruct (decide (sj = si)) as [->|Hne].
      * rewrite list_lookup_insert_eq, Hs by by eapply lookup_lt_Some. cbn. by rewrite Hidx.
      * by rewrite list_lookup_insert_ne by lia.
    + unfold nth_z. by rewrite (proj2 (Z.ltb_lt sj 0)) by lia.
Qed.

Lemma harmless_maps vi vn a m : net_ok vn → harmless P vi (set_addrs a) vn ∧ harmless P vi (set_nodes m) vn.
Proof. intros Hok. split; by split_and!. Qed.

Lemma keeps_ipAddressChanged vi node old new nm d :
  is_Some (nth_z (virtNets d) vi) → keeps P (ipAddressChanged vi node old new nm) d.
Proof.
  intros Hs. unfold ipAddressChanged. apply keeps_bind.
  - destruct Hs as [vn Hvn]. unfold ipAddressChangedAtNode.
    eapply keeps_read; [by apply get_net_eq|]. eapply keeps_upd; [exact Hvn|]. intros Hok. by apply (harmless_maps vi vn ∅).
  - intros [] d' Hd' Hfr. destruct (frame_net _ _ _ _ Hfr Hs) as [vn Hvn]. unfold ipAddressChangedInNS.
    eapply keeps_read; [by apply get_net_eq|]. cbn zeta.
    assert (Ha : ∀ a, keeps P (upd_net vi (set_addrs a)) d').
    { intros a. eapply keeps_upd; [exact Hvn|]. intros Hok. by apply (harmless_maps vi vn a ∅). }
    apply keeps_if; [apply Ha|]. apply keeps_bind; [apply Ha|]. intros [] d'' _ _.
    apply keeps_if; [by apply keeps_modify|apply keeps_ret].
Qed.

Lemma ParseIP_length s : ParseIP s = [] ∨ length (ParseIP s) = 16%nat.
Proof. destruct (decide (ParseIP s = [])) as [|[Hl _]%ParseIP_bytes]; [by left|by right]. Qed.

Lemma MakeUint32_total ip : (4 ≤ length ip)%nat → ∃ u, MakeUint32FromIPv4 ip = Ok u.
Proof.
  intros Hl. assert (Hb : ∀ l, (4 ≤ length l)%nat → ∃ u, BigEndian_Uint32 l = Ok u).
  { intros l H4. do 4 (destruct l as [|? l]; [cbn in H4; lia|]). by eexists. }
  unfold MakeUint32FromIPv4. destruct (_ <? _)%nat; apply Hb; [rewrite length_drop|]; lia.
Qed.

Lemma keeps_check_range ipv4 d : keeps P (check_range ipv4) d.
Proof.
  unfold check_range. apply keeps_if; [apply keeps_ret|]. destruct (ParseIP_length ipv4) as [->|Hl]; [apply keeps_ret|].
  destruct (MakeUint32_total (ParseIP ipv4)) as [u Hu]; [lia|].
  destruct (ParseIP ipv4); [apply keeps_ret|]. rewrite Hu. apply keeps_ret.
Qed.

(** The same with a property of the result. *)
Definition gives {A} (R : A → Prop) (m : M Driver A) (d : Driver) : Prop :=
  nets_ok d → runs m d (λ a d', R a ∧ nets_ok d' ∧ frame P d d').

Lemma keeps_bind_post {A B} (m : M Driver A) (f : A → M Driver B) d (R : A → Prop) :
  gives R m d → (∀ a d', R a → nets_ok d' → frame P d d' → keeps P (f a) d') → keeps P (m ≫= f) d.
Proof.
  intros Hm Hf Hd. apply runs_bind. eapply runs_conseq; [by apply Hm|]. intros a d' (HR & Hd' & Hfr).
  eapply runs_conseq; [by apply Hf|]. intros b d'' [Hd'' Hfr']. split; [done|]. by eapply frame_trans.
Qed.

Lemma gives_ret {A} (R : A → Prop) (a : A) d : R a → gives R (mret a) d.
Proof. intros Hs Hd. apply runs_ret. split_and!; [done|done|apply frame_refl]. Qed.

Lemma gives_bind {A B} (R : B → Prop) (m : M Driver A) (f : A → M Driver B) d :
  keeps P m d → (∀ a d', nets_ok d' → frame P d d' → gives R (f a) d') → gives R (m ≫= f) d.
Proof.
  intros Hm Hf Hd. apply runs_bind. eapply runs_conseq; [by apply Hm|]. intros a d' [Hd' Hfr].
  eapply runs_conseq; [by apply Hf|]. intros s' d'' (Hs & Hd'' & Hfr'). split_and!; [done|done|by eapply frame_trans].
Qed.

Lemma gives_read {A B} (R : B → Prop) (m : M Driver A) (f : A → M Driver B) a d :
  m d = Ok (a, d) → gives R (f a) d → gives R (m ≫= f) d.
Proof. intros E Hf Hd. apply runs_bind. unfold runs. rewrite E. by apply Hf. Qed.
End Keeps.

(** The parts of a slot that an observation of its state does not change. *)
Definition same_slot (s s' : Slot) : Prop :=
  nextIndex s' = nextIndex s ∧ preCreateTime s' = preCreateTime s ∧ natt s' = natt s.

(** *** Steps that keep every index *)

Definition any_slot (w : VirtNetAttachment) : Prop := True.

Lemma keeps_mono {A} P (m : M Driver A) d : keeps any_slot m d → keeps P m d.
Proof.
  intros Hm Hd. eapply runs_conseq; [by apply Hm|]. intros a d' [Hd' Hfr]. split; [done|].
  by apply (frame_mono any_slot).
Qed.

(** A slot is written that was read before. *)
Lemma keeps_write vi si vn s s' d d' :
  nth_z (virtNets d) vi = Some vn → nth_z (slots vn) si = Some s → frame any_slot d d' →
  nextIndex s' = nextIndex s → slot_ok s' → keeps any_slot (put_slot vi si s') d'.
Proof.
  intros Hvn Hs (_ & Hidx) Hi Hok Hd'. specialize (Hidx (MkVNA vi si) I). unfold index_of in Hidx. cbn in Hidx.
  rewrite Hvn in Hidx. cbn in Hidx. rewrite Hs in Hidx. cbn in Hidx.
  destruct (nth_z (virtNets d') vi) as [vn'|] eqn:Evn; [|done]. cbn in Hidx.
  destruct (nth_z (slots vn') si) as [s2|] eqn:Es2; [|done]. injection Hidx as Hidx.
  revert Hd'. eapply keeps_put; [exact Evn|exact Es2|congruence|exact Hok].
Qed.

Section Flags.
Context (F : Flags).
Abbreviation P := any_slot.

Lemma observe_ready_observes now vi si s st d : has_slot d vi si → gives P (same_slot s) (observe_ready F now vi si s st) d.
Proof.
  intros Hs. unfold observe_ready. apply gives_bind.
  { apply keeps_if; [|apply keeps_ret]. apply keeps_bind; [|intros; apply keeps_ret].
    apply keeps_if; [apply keeps_ret|by apply keeps_modify]. }
  intros ready d' Hd' Hfr. pose proof (frame_slot _ _ _ _ _ Hfr Hs) as Hs'.
  destruct (PostCreateExecReport st) as [cr|]; [|by apply gives_ret].
  destruct (testedTime _ =? 0); [|by apply gives_ret]. apply gives_bind; [|intros; by apply gives_ret].
  apply keeps_if; [by apply keeps_NoteTested|]. apply keeps_bind; [by apply keeps_NoteNoTest|].
  intros [] d'' _ _. apply keeps_if; [by apply keeps_modify|apply keeps_ret].
Qed.

Lemma observe_broken_observes now vi si s d : has_slot d vi si → gives P (same_slot s) (observe_broken F now vi si s) d.
Proof.
  intros Hs. unfold observe_broken. destruct (brokenTime s =? 0); [|by apply gives_ret].
  apply gives_bind; [by apply keeps_NoteNoTest|]. intros [] d' _ _.
  apply gives_bind; [apply keeps_if; [by apply keeps_modify|apply keeps_ret]|]. intros; by apply gives_ret.
Qed.

Lemma keeps_observeState now vi si na d : has_slot d vi si → keeps P (observeState F now vi si na) d.
Proof.
  intros Hs Hd. destruct (has_slot_net d vi si Hd Hs) as (vn & s & Hvn & _ & Es & Hsok). revert Hd.
  unfold observeState. eapply keeps_read; [by eapply get_slot_eq|].
  apply keeps_if; [apply keeps_ret|]. cbn zeta. apply keeps_bind.
  { apply keeps_if; [apply keeps_ret|]. apply keeps_bind; [apply keeps_check_range|].
    intros [] d' _ Hfr. eapply keeps_ipAddressChanged, frame_net; [exact Hfr|by eapply has_slot_is_net]. }
  intros [] d' Hd' Hfr. pose proof (frame_slot _ _ _ _ _ Hfr Hs) as Hs'.
  set (s1 := with_natt s _ (natt s)). apply (keeps_bind_post _ _ _ _ (same_slot s1)).
  { intros Hd2. destruct (negb (String.eqb (IfcName (na_Status na)) "")); [by apply observe_ready_observes|].
    destruct (bool_decide _); [by apply observe_broken_observes|by apply gives_ret]. }
  intros s2 d'' (Hidx & _ & _) Hd'' Hfr'. eapply keeps_write; [exact Hvn|exact Es|by eapply frame_trans|done|].
  intros _. by eexists.
Qed.

Lemma keeps_setCurrentName vi si nm nd d : has_slot d vi si → keeps P (setCurrentName vi si nm nd) d.
Proof.
  intros Hs Hd. destruct (has_slot_net d vi si Hd Hs) as (vn & s & Hvn & _ & Es & Hsok). revert Hd.
  unfold setCurrentName. eapply keeps_read; [by eapply get_slot_eq|]. apply keeps_bind.
  { destruct (String.eqb nm ""); [by apply keeps_NoteNoTest|by apply keeps_NotePending]. }
  intros [] d' _ Hfr. eapply keeps_write; [exact Hvn|exact Es|done|done|]. by intros [].
Qed.

Lemma keeps_setNetAtt vi si pre post na full d : has_slot d vi si → keeps P (setNetAtt vi si pre post na full) d.
Proof.
  intros Hs Hd. destruct (has_slot_net d vi si Hd Hs) as (vn & s & Hvn & _ & Es & Hsok). revert Hd.
  unfold setNetAtt. eapply keeps_read; [by eapply get_slot_eq|].
  eapply keeps_write; [exact Hvn|exact Es|apply frame_refl|done|]. intros _. by eexists.
Qed.

Lemma keeps_observe_times s ns nm d : keeps P (observe_times s ns nm) d.
Proof.
  unfold observe_times. apply keeps_bind; [apply keeps_if; [apply keeps_ret|apply keeps_ObserveAt]|]. intros [] d1 _ _.
  apply keeps_bind; [apply keeps_if; [apply keeps_ret|apply keeps_ObserveAt]|]. intros [] d2 _ _.
  apply keeps_if; [apply keeps_ret|]. apply keeps_bind; [apply keeps_ObserveAt|]. intros [] d3 _ _.
  apply keeps_bind; [apply keeps_ObserveAt|]. intros [] d4 _ _. apply keeps_Inc.
Qed.

Lemma keeps_close vi si ns d vn :
  nth_z (virtNets d) vi = Some vn → has_slot d vi si → keeps P (close vi si (ID vn) ns) d.
Proof.
  intros Hvn Hs Hd. destruct (has_slot_net d vi si Hd Hs) as (vn' & s & Hvn' & _ & Es & Hsok).
  rewrite Hvn in Hvn'. injection Hvn' as <-. destruct Hd as [Hd1 Hid]. pose proof (conj Hd1 Hid) as Hd.
  rewrite Forall_forall in Hid. destruct (Hid vn (nth_z_elem _ _ _ Hvn)) as (vj & Ej & Hj). revert Hd.
  unfold close. eapply keeps_read; [by eapply get_slot_eq|]. cbn zeta. apply keeps_bind.
  - destruct (Z.eqb_spec (preCreateTime s) 0) as [_|Hpre]; [apply keeps_ret|]. destruct (Hsok Hpre) as [na ->].
    eapply keeps_read; [done|]. apply keeps_bind; [apply keeps_if; [apply keeps_ret|apply keeps_ObserveAt]|].
    intros [] d1 _ Hfr. apply keeps_bind; [|intros [] d2 _ _; apply keeps_observe_times].
    apply keeps_if; [apply keeps_ret|]. rewrite Ej. eapply keeps_ipAddressChanged, frame_net; [exact Hfr|exact Hj].
  - intros [] d1 _ Hfr. apply keeps_bind; [|intros [] d2 _ _; apply keeps_ret].
    eapply keeps_write; [exact Hvn|exact Es|done|done|]. by intros [].
Qed.

Lemma keeps_OnAdd now na notes d :
  (∀ a vi si, notes = Some a → subnetToVirtNet d !! SubnetOf (na_Spec na) = Some vi →
              Atoi (default "" (a !! slotKey)) = Some si → has_slot d vi si) →
  keeps P (Attachment_OnAdd F now na notes) d.
Proof.
  intros Hs. unfold Attachment_OnAdd. destruct notes as [a|]; [|apply keeps_ret]. eapply keeps_read; [done|].
  destruct (subnetToVirtNet d !! SubnetOf (na_Spec na)) as [vi|]; [|apply keeps_ret].
  destruct (Atoi (default "" (a !! slotKey))) as [si|] eqn:Ea; [|apply keeps_ret].
  pose proof (Hs a vi si eq_refl eq_refl Ea) as Hsl. intros Hd.
  destruct (has_slot_net d vi si Hd Hsl) as (vn & s & Hvn & _ & Es & _). revert Hd.
  eapply keeps_read; [by eapply get_slot_eq|]. by apply keeps_observeState.
Qed.

(** *** Creating *)

(** The slots that a thread owns, and the networks that it runs with. *)
Section Own.
Context (own : VirtNetAttachment → Prop) (sh : list (Z * Z) * gmap Z Z * gmap string Z).

(** What others may do meanwhile: nothing to the indices of these slots. *)
Definition polite {A} (m : M Driver A) : Prop := ∀ d, shape d = sh → keeps own m d.

Lemma get_cd_eq d vi :
  nets_ok d → is_Some (nth_z (virtNets d) vi) →
  ∃ cd, get_cd vi d = Ok (cd, d) ∧ (latestIndex cd = -1 ∨ has_slot d vi (latestIndex cd)).
Proof.
  intros [Hd _] [vn Hvn]. rewrite Forall_forall in Hd. destruct (Hd vn (nth_z_elem _ _ _ Hvn)) as ((cd & Ecd & Hl) & _).
  exists cd. split.
  - unfold get_cd, mbind, M_bind. rewrite (get_net_eq d vi vn) by done. by rewrite Ecd.
  - destruct Hl as [Hl|Hl]; [by left|right]. by exists vn.
Qed.

(** The waits of a thread end when the clock passes the limit. *)
Definition wait_ok (w : WaitEnv) : Prop :=
  Forall (λ x, polite x.2) (w_waits w) ∧ Exists (λ x, w_before w + pendingWait F ≤ x.1) (w_waits w).

Lemma keeps_wait vi lim waits d :
  shape d = sh → is_Some (nth_z (virtNets d) vi) → Forall (λ x, polite x.2) waits → Exists (λ x, lim ≤ x.1) waits →
  keeps own (wait_ready vi lim waits) d.
Proof.
  revert d. induction waits as [|[now others] waits IH]; intros d Hsh Hvn Hp He; [by apply Exists_nil in He|].
  apply Forall_cons in Hp as [Hp Hps]. intros Hd. destruct (get_cd_eq d vi Hd Hvn) as (cd & Ecd & _). revert Hd.
  cbn [wait_ready]. eapply keeps_read; [exact Ecd|]. apply keeps_if; [|apply keeps_ret].
  destruct (Z.leb_spec lim now) as [_|Hlt]; [apply keeps_ret|]. apply keeps_bind; [by apply Hp|].
  intros [] d' _ Hfr. apply IH; [rewrite (proj1 Hfr); done|by eapply frame_net|done|].
  apply Exists_cons in He as [He|He]; [cbn in He; lia|done].
Qed.

Lemma keeps_waiters vi g d :
  is_Some (nth_z (virtNets d) vi) → (∀ cd, latestIndex (g cd) = latestIndex cd) → keeps own (upd_net vi (set_cd g)) d.
Proof.
  intros [vn Hvn] Hg. eapply keeps_upd; [exact Hvn|]. intros Hok. apply harmless_cd; [|done]. intros cd. by rewrite Hg.
Qed.

Lemma keeps_GetReady vi w d :
  shape d = sh → is_Some (nth_z (virtNets d) vi) → wait_ok w → keeps own (GetReadyAttachment F vi w) d.
Proof.
  intros Hsh Hvn [Hw1 Hw2] Hd. destruct (get_cd_eq d vi Hd Hvn) as (cd & Ecd & _). revert Hd.
  unfold GetReadyAttachment. eapply keeps_read; [exact Ecd|]. apply keeps_bind.
  - apply keeps_if; [|apply keeps_ret]. apply keeps_bind; [by apply keeps_waiters|]. intros [] d1 _ Hf1.
    pose proof (frame_net _ _ _ _ Hf1 Hvn) as Hv1. apply keeps_bind; [apply keeps_wait; [rewrite (proj1 Hf1); done|done..]|]. intros [] d2 _ Hf2.
    pose proof (frame_net _ _ _ _ Hf2 Hv1) as Hv2. apply keeps_bind; [by apply keeps_waiters|]. intros [] d3 Hd3 Hf3.
    pose proof (frame_net _ _ _ _ Hf3 Hv2) as Hv3. destruct (get_cd_eq d3 vi Hd3 Hv3) as (cd3 & Ecd3 & _).
    eapply keeps_read; [exact Ecd3|]. apply keeps_if; [|apply keeps_ret]. eapply keeps_read; [done|]. cbn zeta.
    apply keeps_bind; [by apply keeps_modify|]. intros; apply keeps_ret.
  - intros delays d1 Hd1 Hf1. pose proof (frame_net _ _ _ _ Hf1 Hvn) as Hv1.
    destruct (get_cd_eq d1 vi Hd1 Hv1) as (cd1 & Ecd1 & Hl). eapply keeps_read; [exact Ecd1|].
    destruct (Z.eqb_spec (latestIndex cd1) (-1)) as [_|Hne]; [apply keeps_ret|].
    destruct Hl as [Hl|Hl]; [done|]. destruct (has_slot_net d1 _ _ Hd1 Hl) as (vn & s & Hvn1 & _ & Es & _).
    eapply keeps_read; [by eapply get_slot_eq|]. apply keeps_ret.
Qed.

Lemma keeps_exec_lists vi vn w d :
  shape d = sh → is_Some (nth_z (virtNets d) vi) → wait_ok w → keeps own (exec_lists F vi vn w) d.
Proof.
  intros Hsh Hvn Hw. unfold exec_lists. apply keeps_if; [apply keeps_ret|]. apply keeps_bind; [by apply keeps_GetReady|].
  intros r d1 _ _. apply keeps_bind; [by apply keeps_modify|]. intros [] d2 _ _. eapply keeps_read; [done|].
  cbn zeta. destruct (r.1.1); apply keeps_ret.
Qed.

Lemma keeps_pick_subnet vi vn d :
  nth_z (virtNets d) vi = Some vn → subnets vn ≠ [] → keeps own (pick_subnet vi vn) d.
Proof.
  intros Hvn Hne. unfold pick_subnet. destruct (Nat.ltb_spec 1 (length (subnets vn))) as [Hl|_].
  - apply keeps_bind; [eapply keeps_upd; [exact Hvn|]; intros Hok; by split_and!|]. intros [] d' _ _.
    destruct (proj2 (nth_z_is_Some (subnets vn) (u32 (createdCount vn + 1) mod Z.of_nat (length (subnets vn))))) as [s ->];
      [apply Z.mod_pos_bound; lia|apply keeps_ret].
  - destruct (subnets vn); [done|apply keeps_ret].
Qed.

Lemma pick_node_eq job i rand d :
  (onlyNode F ≠ "" ∨ 0 ≤ rand < Z.of_nat (length (nodes job))) → ∃ nd, pick_node F job i rand d = Ok (nd, d).
Proof.
  intros Hn. unfold pick_node. destruct (String.eqb_spec (onlyNode F) "") as [E|]; [|by eexists].
  destruct Hn as [Hn|Hn]; [done|]. cbn [negb]. rewrite (proj2 (Z.eqb_neq _ 0)) by lia.
  assert (Hx : ∀ x, 0 ≤ x < Z.of_nat (length (nodes job)) → ∃ nd, nth_z (nodes job) x = Some nd)
    by (intros x Hx; by apply nth_z_is_Some).
  destruct (roundRobin job).
  - destruct (Hx (u64 (thd job + u64 (stride job * i)) mod Z.of_nat (length (nodes job)))) as [nd ->];
      [apply Z.mod_pos_bound; lia|by eexists].
  - destruct (Hx rand Hn) as [nd ->]. by eexists.
Qed.

(** What surrounds a round is as it should be. *)
Record round_ok (job : Job) (r : Round) : Prop := {
  ok_before : polite (r_before r);
  ok_during : polite (r_during r);
  ok_node : onlyNode F ≠ "" ∨ 0 ≤ r_node r < Z.of_nat (length (nodes job));
  ok_wait : wait_ok (r_wait r);
  ok_delete : ∃ k, (k < r_attempts r)%nat ∧
    (match (r_deletes r k).2 with None => true | Some e => IsNotFound e end = true ∨ r_stopped r k = true) }.

Lemma create_in_gives job th r vi si d vn s :
  round_ok job r → shape d = sh → nth_z (virtNets d) vi = Some vn → nth_z (slots vn) si = Some s → has_slot d vi si →
  gives own (.= objname (nattDigits job) (ID vn) (nextIndex s)) (create_in F job th r vi si) d.
Proof.
  intros [_ Hdur Hnode Hwait _] Hsh Hvn Es Hs Hd. pose proof (proj1 Hd) as Hok. rewrite Forall_forall in Hok.
  destruct (Hok vn (nth_z_elem _ _ _ Hvn)) as (_ & Hsub & _). revert Hd. unfold create_in.
  eapply gives_read; [by apply get_net_eq|]. eapply gives_read; [by eapply get_slot_eq|].
  apply gives_bind; [by apply keeps_pick_subnet|]. intros subnet d1 _ Hf1. pose proof (frame_slot _ _ _ _ _ Hf1 Hs) as Hs1.
  cbn zeta. destruct (pick_node_eq job (iCreate th) (r_node r) d1 Hnode) as [nd End].
  eapply gives_read; [exact End|]. apply gives_bind; [apply keeps_exec_lists; [rewrite (proj1 Hf1); done|by eapply has_slot_is_net|done]|].
  intros [[full postCreate] postDelete] d2 _ Hf2. pose proof (frame_slot _ _ _ _ _ Hf2 Hs1) as Hs2.
  apply gives_bind; [by apply keeps_mono, keeps_setCurrentName|]. intros [] d3 _ Hf3.
  pose proof (frame_slot _ _ _ _ _ Hf3 Hs2) as Hs3. apply gives_bind; [apply Hdur; by rewrite (proj1 Hf3), (proj1 Hf2), (proj1 Hf1)|]. intros [] d4 _ Hf4.
  pose proof (frame_slot _ _ _ _ _ Hf4 Hs3) as Hs4. apply gives_bind; [apply keeps_ObserveAt|]. intros [] d5 _ Hf5.
  pose proof (frame_slot _ _ _ _ _ Hf5 Hs4) as Hs5. apply gives_bind; [|intros; by apply gives_ret].
  destruct (r_answer r _ _) as [e|retObj]; apply keeps_bind.
  - by apply keeps_mono, keeps_setCurrentName.
  - intros. apply keeps_Inc.
  - by apply keeps_mono, keeps_setNetAtt.
  - intros. apply keeps_Inc.
Qed.
End Own.
End Flags.
End DriverRun.
