(* ===== verification/DriverThread.v ===== *)
(** * The loop of a thread of the throughput driver

    A thread that is not stopped makes its attachments in the order of its slots, gives
    each name once, deletes them in the same order, and ends. *)

From S2P Require Import Prelude GoStr GoNet ApiTypes SubnetStrategy Driver DriverWork DriverRun.
Import GoNet Driver DriverWork DriverRun.

Module DriverThread.

(** ** Deleting *)

Section Delete.
Context (F : Flags).

Lemma tryDelete_gives P na r k d :
  gives P (.= match (r_deletes r k).2 with None => true | Some e => IsNotFound e end) (tryDelete F na r k) d.
Proof.
  unfold tryDelete. destruct (r_deletes r k) as [[ti0 tif] [e|]]; cbn [snd];
    (apply gives_bind; [apply keeps_ObserveAt|]); intros [] d1 _ _; [destruct (IsNotFound e)|];
    (apply gives_bind; [apply keeps_Inc|]); intros; by apply gives_ret.
Qed.

(** The retries end at the first success or closing of [stopCh]. *)
Lemma keeps_withRetries P attempt (ok : nat → bool) stopped max fuel k wait d :
  (∀ k d, gives P (.= ok k) (attempt k) d) →
  (∃ j, k ≤ j < k + fuel ∧ (ok j = true ∨ stopped j = true))%nat →
  keeps P (withRetries fuel k attempt stopped wait max) d.
Proof.
  intros Ha. revert k wait d. induction fuel as [|fuel IH]; intros k wait d (j & Hj & Hend); [lia|].
  cbn [withRetries]. apply (keeps_bind_post _ _ _ _ (.= ok k)); [apply Ha|]. intros b d' -> _ _.
  destruct (ok k) eqn:Eok; [apply keeps_ret|]. destruct (stopped k) eqn:Est; [apply keeps_ret|].
  apply keeps_bind; [|intros; apply keeps_ret]. apply IH. exists j. split; [|done].
  destruct (decide (j = k)) as [->|]; [|lia]. rewrite Eok, Est in Hend. by destruct Hend.
Qed.

Definition but (w w' : VirtNetAttachment) : Prop := w' ≠ w.

(** A slot gets another index. *)
Lemma put_index vi si vn s s' d :
  nets_ok d → nth_z (virtNets d) vi = Some vn → nth_z (slots vn) si = Some s → slot_ok s' →
  runs (put_slot vi si s') d
    (λ _ d', nets_ok d' ∧ frame (but (MkVNA vi si)) d d' ∧ index_of d' (MkVNA vi si) = Some (nextIndex s')).
Proof.
  intros Hd Hvn Hs Hok'. assert (Hvi : 0 ≤ vi) by (apply (nth_z_is_Some (virtNets d)); by eexists).
  assert (Hsi : 0 ≤ si) by (apply (nth_z_is_Some (slots vn)); by eexists).
  assert (Hk : keeps (but (MkVNA vi si)) (put_slot vi si s') d).
  { eapply keeps_upd; [exact Hvn|]. intros (Hcd & Hsub & Hlen & Hss).
    split_and!; [split_and!; [done|done|cbn; by rewrite length_insert|cbn; by apply Forall_insert]|done|].
    intros sj Hne. cbn. unfold nth_z. destruct (Z.ltb_spec sj 0); [done|].
    rewrite list_lookup_insert_ne; [done|]. intros E. apply Hne. f_equal. lia. }
  apply Hk in Hd. destruct (runs_inv _ _ _ Hd) as ([] & d' & E & Hd' & Hfr). eapply runs_eq; [exact E|].
  split_and!; [done|done|]. injection E as <-. unfold index_of. cbn. rewrite nth_z_alter, decide_True, Hvn by done.
  cbn. rewrite nth_z_lookup in Hs |- * by done. rewrite list_lookup_insert_eq by by eapply lookup_lt_Some. done.
Qed.

Lemma index_of_inv d w vn idx :
  nth_z (virtNets d) (vnIndex w) = Some vn → index_of d w = Some idx →
  ∃ s, nth_z (slots vn) (slotIndex w) = Some s ∧ nextIndex s = idx.
Proof.
  unfold index_of. intros -> E. cbn in E. destruct (nth_z (slots vn) (slotIndex w)) as [s|]; [|done].
  injection E as <-. by exists s.
Qed.

Lemma delete_in_gives r w d vn idx :
  (∃ k, (k < r_attempts r)%nat ∧
     (match (r_deletes r k).2 with None => true | Some e => IsNotFound e end = true ∨ r_stopped r k = true)) →
  nets_ok d → nth_z (virtNets d) (vnIndex w) = Some vn → 0 ≤ slotIndex w < size vn → index_of d w = Some idx →
  runs (delete_in F r (vnIndex w) (slotIndex w)) d
    (λ _ d', nets_ok d' ∧ frame (but w) d d' ∧ index_of d' w = Some (u32 (idx + u32 (size vn)))).
Proof.
  destruct w as [vi si]. cbn [vnIndex slotIndex]. intros (k & Hk & Hend) Hd Hvn Hsi Hidx. unfold delete_in. apply runs_bind. eapply runs_eq; [by apply get_net_eq|].
  assert (Hs : has_slot d vi si) by by exists vn.
  apply runs_bind. eapply runs_conseq; [by apply (keeps_close _ _ (runID F) _ vn Hvn Hs)|].
  intros na d1 [Hd1 Hf1]. apply runs_bind. eapply (runs_conseq _ _ (λ _ d', nets_ok d' ∧ frame any_slot d1 d')).
  { revert Hd1. destruct na as [na|]; [|apply keeps_ret]. apply keeps_bind; [|intros; apply keeps_ret].
    eapply keeps_withRetries; [intros; apply tryDelete_gives|]. exists k. split; [lia|exact Hend]. }
  intros _ d2 [Hd2 Hf2]. pose proof (frame_trans _ _ _ _ Hf1 Hf2) as Hf.
  destruct (frame_key _ _ _ _ _ Hf Hvn) as (vn2 & Hvn2 & Hk2). injection Hk2 as _ Hsz.
  pose proof (proj2 Hf (MkVNA vi si) I) as Hi. rewrite Hidx in Hi.
  destruct (index_of_inv d2 (MkVNA vi si) vn2 idx Hvn2 Hi) as (s2 & Hs2 & Hn2). cbn [slotIndex] in Hs2.
  apply runs_bind. eapply runs_eq; [by apply get_net_eq|].
  apply runs_bind. eapply runs_eq; [by eapply get_slot_eq|].
  destruct (has_slot_net d2 vi si Hd2) as (vn2' & s2' & E1 & _ & E2 & Hok2).
  { exists vn2. by rewrite Hsz. }
  rewrite Hvn2 in E1. injection E1 as <-. rewrite Hs2 in E2. injection E2 as <-.
  eapply runs_conseq; [eapply put_index; [exact Hd2|exact Hvn2|exact Hs2|exact Hok2]|].
  intros _ d3 (Hd3 & Hf3 & Hi3). split_and!; [done| |].
  - eapply frame_trans; [|exact Hf3]. by eapply frame_mono, Hf.
  - rewrite Hi3. cbn [nextIndex]. by rewrite Hn2, Hsz.
Qed.
End Delete.

(** ** The turns of the slots

    Operation number [i] of a kind is for slot number [i mod W] of the [W] slots. *)

(** How many of the first [D] deletions were for slot [j]. *)
Definition turns (W D j : Z) : Z := (D + W - 1 - j) / W.

Lemma turns_eq W q m j : 0 ≤ j < W → 0 ≤ m < W → turns W (q * W + m) j = q + (if j <? m then 1 else 0).
Proof.
  intros Hj Hm. unfold turns. symmetry. destruct (Z.ltb_spec j m).
  - apply (Z.div_unique _ _ _ (m - 1 - j)); [lia|nia].
  - apply (Z.div_unique _ _ _ (m + W - 1 - j)); [lia|nia].
Qed.

Lemma turns_next W D j :
  0 ≤ j < W → 0 ≤ D → turns W (D + 1) j = turns W D j + (if decide (j = D mod W) then 1 else 0).
Proof.
  intros Hj HD. pose proof (Z.mod_pos_bound D W ltac:(lia)) as Hm. rewrite (Z.div_mod D W) by lia.
  rewrite (Z.mul_comm W (D / W)) in *. rewrite (turns_eq W (D / W) (D mod W) j) by lia.
  rewrite (Z.add_comm _ (D mod W)), Z.mod_add, Z.mod_mod by lia. destruct (Z.eqb_spec (D mod W + 1) W) as [E|Hne].
  - replace (D mod W + D / W * W + 1) with ((D / W + 1) * W + 0) by nia. rewrite turns_eq by lia.
    destruct (Z.ltb_spec j 0), (Z.ltb_spec j (D mod W)); case_decide; lia.
  - replace (D mod W + D / W * W + 1) with (D / W * W + (D mod W + 1)) by nia. rewrite turns_eq by lia.
    destruct (Z.ltb_spec j (D mod W + 1)), (Z.ltb_spec j (D mod W)); case_decide; lia.
Qed.

Lemma turns_created W D i : 0 ≤ D ≤ i → i < D + W → turns W D (i mod W) = i / W.
Proof.
  intros HD Hi. pose proof (Z.mod_pos_bound i W ltac:(lia)). pose proof (Z.div_mod i W ltac:(lia)).
  unfold turns. symmetry. apply (Z.div_unique _ _ _ (D - i + W - 1)); [lia|nia].
Qed.

(** ** The loop *)

Section Thread.
Context (F : Flags) (job : Job).
Abbreviation W := (Z.of_nat (length (work job))).
Abbreviation own := (λ w, w ∈ work job).

(** After [D] deletions every slot of the thread has the index of its turn. *)
Definition at_turn (d : Driver) (D : Z) : Prop :=
  ∀ j w, nth_z (work job) j = Some w →
    ∃ vn, nth_z (virtNets d) (vnIndex w) = Some vn ∧ 0 ≤ slotIndex w < size vn ∧
      index_of d w = Some (u32 (slotIndex w + 1 + turns W D j * size vn)).

Lemma at_turn_frame d d' D : at_turn d D → frame own d d' → at_turn d' D.
Proof.
  intros Ht Hf j w Hw. destruct (Ht j w Hw) as (vn & Hvn & Hsi & Hi).
  destruct (frame_key _ _ _ _ _ Hf Hvn) as (vn' & Hvn' & [= _ Es]). exists vn'. rewrite Es.
  split_and!; [done|lia|lia|]. rewrite (proj2 Hf); [done|]. by eapply nth_z_elem.
Qed.

Lemma at_turn_next d d' D w vn idx :
  NoDup (work job) → 0 ≤ D → at_turn d D → nth_z (work job) (D mod W) = Some w →
  nth_z (virtNets d) (vnIndex w) = Some vn → index_of d w = Some idx →
  frame (but w) d d' → index_of d' w = Some (u32 (idx + u32 (size vn))) → at_turn d' (D + 1).
Proof.
  intros Hnd HD Ht Hw Hvn Hi Hf Hi' j x Hx. destruct (Ht j x Hx) as (vx & Hvx & Hsi & Hix).
  destruct (frame_key _ _ _ _ _ Hf Hvx) as (vx' & Hvx' & [= _ Es]). exists vx'. rewrite Es.
  split_and!; [done|lia|lia|]. assert (Hj : 0 ≤ j < W) by (apply nth_z_is_Some; by eexists).
  rewrite turns_next by lia. case_decide as Hdj.
  - subst j. rewrite Hw in Hx. injection Hx as ->. rewrite Hvn in Hvx. injection Hvx as ->.
    rewrite Hi in Hix. injection Hix as ->. rewrite Hi'. f_equal. unfold u32. rewrite <- Zplus_mod. f_equal. lia.
  - rewrite Z.add_0_r. rewrite (proj2 Hf); [done|]. intros ->.
    assert (Hm : 0 ≤ D mod W < W) by (apply Z.mod_pos_bound; lia). apply Hdj. rewrite nth_z_lookup in Hw, Hx by lia.
    pose proof (NoDup_lookup _ _ _ _ Hnd Hw Hx). lia.
Qed.

(** The name of the [i]th attachment of the thread. *)
Definition expected (nets : list VirtNet) (i : Z) : option string :=
  w ← nth_z (work job) (i mod W);
  vn ← nth_z nets (vnIndex w);
  Some (objname (nattDigits job) (ID vn) (u32 (slotIndex w + 1 + i / W * size vn))).

Lemma expected_shape d d' i : shape d' = shape d → expected (virtNets d') i = expected (virtNets d) i.
Proof.
  intros [= Hf _ _]. unfold expected. destruct (nth_z (work job) (i mod W)) as [w|]; [|done]. cbn.
  assert (E : net_key <$> nth_z (virtNets d') (vnIndex w) = net_key <$> nth_z (virtNets d) (vnIndex w))
    by by rewrite <- !nth_z_fmap, Hf.
  destruct (nth_z (virtNets d') (vnIndex w)), (nth_z (virtNets d) (vnIndex w)); try done.
  injection E as E1 E2. cbn. by rewrite E1, E2.
Qed.

(** A thread between its rounds. *)
Record thread_ok (th : Thread) : Prop := {
  ok_iCreate : 0 ≤ iCreate th ≤ num job;
  ok_iDelete : 0 ≤ iDelete th ≤ num job;
  ok_window : createAllowed th = true → iDelete th ≤ iCreate th ≤ iDelete th + W;
  ok_justCreate : justCreate job = true → iDelete th = 0 }.

Section Loop.
Context (sh : list (Z * Z) * gmap Z Z * gmap string Z).
Hypothesis Hne : work job ≠ [].

Lemma work_pos : 0 < W.
Proof. destruct (work job); [done|cbn; lia]. Qed.

Lemma work_item_eq i d : 0 ≤ i → ∃ w, work_item job i d = Ok (w, d) ∧ nth_z (work job) (i mod W) = Some w.
Proof.
  intros Hi. pose proof work_pos as Hp. unfold work_item. rewrite (proj2 (Z.eqb_neq _ 0)) by lia.
  destruct (proj2 (nth_z_is_Some (work job) (i mod W))) as [w Hw]; [apply Z.mod_pos_bound; lia|].
  exists w. by rewrite Hw.
Qed.

Hypothesis Hnodup : NoDup (work job).
Hypothesis Hnum : num job < 2 ^ 63 ∧ W < 2 ^ 63.

(** What a round leaves behind. *)
Definition round_post (th : Thread) (d : Driver) (o : option (Thread * list string)) (d' : Driver) : Prop :=
  nets_ok d' ∧ shape d' = shape d ∧
  match o with
  | None => 0 < stoppers d' ∨ justCreate job = true
  | Some (th', names) =>
      thread_ok th' ∧ at_turn d' (iDelete th') ∧
      iCreate th' + iDelete th' = iCreate th + iDelete th + 1 ∧ iCreate th ≤ iCreate th' ∧
      Some <$> names = expected (virtNets d) <$> seqZ (iCreate th) (iCreate th' - iCreate th)
  end.

Lemma seqZ_one i : seqZ i (i + 1 - i) = [i].
Proof. replace (i + 1 - i) with 1 by lia. done. Qed.

Lemma round_creates th r d allowed :
  round_ok F own sh job r → shape d = sh → nets_ok d → thread_ok th → at_turn d (iDelete th) → iDelete th < num job →
  (allowed = true → createAllowed th = true) →
  allowed && (iCreate th <? u64 (iDelete th + W)) && (iCreate th <? num job) = true →
  runs (w ← work_item job (iCreate th); name ← create_in F job th r (vnIndex w) (slotIndex w);
        mret (Some (MkThread (u64 (iCreate th + 1)) (iDelete th) allowed, [name]))) d (round_post th d).
Proof.
  intros Hr Hsh Hd [Hic Hid Hwin Hjc] Ht HD Hall [[Ha Hlt%Z.ltb_lt]%andb_prop Hn%Z.ltb_lt]%andb_prop.
  specialize (Hwin (Hall Ha)). pose proof work_pos as Hp. rewrite u64_small in Hlt by lia.
  destruct (work_item_eq (iCreate th) d) as (w & Ew & Hw); [lia|]. apply runs_bind. eapply runs_eq; [exact Ew|].
  destruct (Ht _ _ Hw) as (vn & Hvn & Hsi & Hidx). destruct (index_of_inv _ _ _ _ Hvn Hidx) as (s & Hs & Hns).
  apply runs_bind. eapply runs_conseq.
  { apply (create_in_gives F own sh job th r _ _ d vn s Hr Hsh Hvn Hs); [by exists vn|exact Hd]. }
  intros name d' (-> & Hd' & Hf). rewrite u64_small by lia. apply runs_ret.
  split_and!; cbn [iCreate iDelete createAllowed]; [done| |constructor; cbn; [lia|lia|intros _; lia|done]| |lia|lia|].
  - by apply Hf.
  - by eapply at_turn_frame.
  - rewrite seqZ_one. cbn [fmap list_fmap]. f_equal. unfold expected. rewrite Hw. cbn. rewrite Hvn. cbn.
    by rewrite Hns, turns_created by lia.
Qed.

Lemma round_deletes th r d allowed :
  round_ok F own sh job r → shape d = sh → nets_ok d → thread_ok th → at_turn d (iDelete th) → iDelete th < num job →
  (allowed = true → createAllowed th = true) → justCreate job = false →
  allowed && (iCreate th <? u64 (iDelete th + W)) && (iCreate th <? num job) = false →
  runs (w ← work_item job (iDelete th); delete_in F r (vnIndex w) (slotIndex w);;
        mret (Some (MkThread (iCreate th) (u64 (iDelete th + 1)) allowed, []))) d (round_post th d).
Proof.
  intros Hr Hsh Hd [Hic Hid Hwin Hjc] Ht HD Hall HJ Hno. pose proof work_pos as Hp. rewrite u64_small in Hno by lia.
  destruct (work_item_eq (iDelete th) d) as (w & Ew & Hw); [lia|]. apply runs_bind. eapply runs_eq; [exact Ew|].
  destruct (Ht _ _ Hw) as (vn & Hvn & Hsi & Hidx). apply runs_bind. eapply runs_conseq.
  { by apply (delete_in_gives F r w d vn _ (ok_delete _ _ _ _ _ Hr) Hd Hvn Hsi Hidx). }
  intros _ d' (Hd' & Hf & Hi'). rewrite u64_small by lia. apply runs_ret.
  split_and!; cbn [iCreate iDelete createAllowed]; [done| | | |lia|lia|].
  - by apply Hf.
  - constructor; cbn; [lia|lia| |congruence]. intros Ha. specialize (Hwin (Hall Ha)). rewrite Ha in Hno. cbn in Hno.
    apply andb_false_iff in Hno as [?%Z.ltb_ge|?%Z.ltb_ge]; lia.
  - by eapply at_turn_next; try exact Hw; try exact Hvn; try exact Hidx; try exact Hf; try exact Hi'; [apply Hnodup|lia|].
  - by rewrite Z.sub_diag.
Qed.

Lemma round_runs th r d :
  round_ok F own sh job r → shape d = sh → nets_ok d → thread_ok th → at_turn d (iDelete th) → iDelete th < num job →
  runs (round F job th r) d (round_post th d).
Proof.
  intros Hr Hsh Hd Hth Ht HD. unfold round. apply runs_bind. eapply runs_conseq; [by apply (ok_before _ _ _ _ _ Hr)|].
  intros _ d1 [Hd1 Hf1]. apply runs_bind, runs_gets.
  pose proof (at_turn_frame _ _ _ Ht Hf1) as Ht1.
  assert (Hsh1 : shape d1 = sh) by (by rewrite (proj1 Hf1)).
  assert (Hpost : ∀ o d', round_post th d1 o d' → round_post th d o d').
  { intros o d' (H1 & H2 & H3). split_and!; [done|by rewrite H2, (proj1 Hf1)|]. destruct o as [[th' names]|]; [|done].
    destruct H3 as (H3 & H4 & H5 & H6 & H7). split_and!; [done..|]. rewrite H7.
    apply list_fmap_ext. intros; by apply expected_shape, (proj1 Hf1). }
  destruct (Z.ltb_spec 0 (stoppers d1)) as [Hst|_]; [apply runs_ret; split_and!; [done|apply Hf1|by left]|].
  cbn zeta. assert (Hall : createAllowed th && negb (r_stopCh r) = true → createAllowed th = true) by by intros [? _]%andb_prop.
  destruct (_ && _ && _) eqn:Ec; [|destruct (justCreate job) eqn:EJ].
  - eapply runs_conseq; [|apply Hpost]. by apply round_creates.
  - apply runs_ret. split_and!; [done|apply Hf1|by right].
  - eapply runs_conseq; [|apply Hpost]. by apply round_deletes.
Qed.

Lemma RunThread_runs th rounds d :
  Forall (round_ok F own sh job) rounds → shape d = sh → nets_ok d → thread_ok th → at_turn d (iDelete th) →
  2 * num job ≤ iCreate th + iDelete th + Z.of_nat (length rounds) →
  runs (RunThread F job th rounds) d (λ r d',
    nets_ok d' ∧ thread_ok r.1 ∧ iCreate th ≤ iCreate r.1 ∧
    Some <$> r.2 = expected (virtNets d) <$> seqZ (iCreate th) (iCreate r.1 - iCreate th) ∧
    (iDelete r.1 = num job ∨ 0 < stoppers d' ∨ justCreate job = true)).
Proof.
  revert th d. induction rounds as [|r rounds IH]; intros th d Hr Hsh Hd Hth Ht Hfuel; cbn [RunThread];
    pose proof Hth as [Hic Hid _ _].
  { destruct (Z.ltb_spec (iDelete th) (num job)); [cbn in Hfuel; lia|]. apply runs_ret.
    split_and!; [done|done|done|by rewrite Z.sub_diag|left; cbn; lia]. }
  destruct (Z.ltb_spec (iDelete th) (num job)) as [HD|HD];
    [|apply runs_ret; split_and!; [done|done|done|by rewrite Z.sub_diag|left; cbn; lia]].
  apply Forall_cons in Hr as [Hr Hrs]. apply runs_bind. eapply runs_conseq; [by apply round_runs|].
  intros [[th' names]|] d1 (Hd1 & He & Hpost); [|apply runs_ret; split_and!; [done|done|done|by rewrite Z.sub_diag|by right]].
  destruct Hpost as (Hth' & Ht' & Hsum & Hle & Hnames). apply runs_bind. eapply runs_conseq.
  { apply IH; [done|by rewrite He|done|done|done|]. cbn [length] in Hfuel. lia. }
  intros [th2 names2] d2 (Hd2 & Hth2 & Hle2 & Hnames2 & Hend). cbn [fst snd] in *. apply runs_ret.
  split_and!; [done|done|cbn; lia| |done]. cbn [fst snd]. rewrite fmap_app, Hnames, Hnames2.
  rewrite (list_fmap_ext (expected (virtNets d1)) (expected (virtNets d)) _) by (intros; by apply expected_shape).
  rewrite <- fmap_app. f_equal. replace (iCreate th2 - iCreate th) with
    ((iCreate th' - iCreate th) + (iCreate th2 - iCreate th')) by lia.
  rewrite seqZ_app by lia. by replace (iCreate th + (iCreate th' - iCreate th)) with (iCreate th') by lia.
Qed.
End Loop.
End Thread.
End DriverThread.
