(* ===== verification/DriverCorrect.v ===== *)
(** * What the threads of the throughput driver achieve

    The work of a thread is done, in order, whatever the other threads and the
    notifications do meanwhile; no two attachments get the same name. *)

From S2P Require Import Prelude GoStr GoNet ApiTypes SubnetStrategy Driver DriverWork DriverRun DriverThread.
Import GoNet Driver DriverWork DriverRun DriverThread.

Module DriverCorrect.

(** ** What others do meanwhile *)

Section Others.
Context (F : Flags) (own : VirtNetAttachment → Prop) (sh : list (Z * Z) * gmap Z Z * gmap string Z).

(** A slot of the networks of [sh]. *)
Definition slot_in (vi si : Z) : Prop := ∃ k, nth_z sh.1.1 vi = Some k ∧ 0 ≤ si < k.2.

Lemma slot_in_has d vi si : shape d = sh → slot_in vi si → has_slot d vi si.
Proof.
  intros Hsh (k & Hk & Hsi). rewrite <- Hsh in Hk. cbn [fst shape] in Hk. rewrite nth_z_fmap in Hk.
  destruct (nth_z (virtNets d) vi) as [vn|] eqn:E; [|done]. injection Hk as <-. by exists vn.
Qed.

Lemma polite_ret {A} (a : A) : polite own sh (mret a).
Proof. intros d _. apply keeps_ret. Qed.

Lemma polite_bind {A B} (m : M Driver A) (f : A → M Driver B) :
  polite own sh m → (∀ a, polite own sh (f a)) → polite own sh (m ≫= f).
Proof.
  intros Hm Hf d Hsh. apply keeps_bind; [by apply Hm|]. intros a d' _ Hfr. apply Hf. by rewrite (proj1 Hfr).
Qed.

(** Notifications whose slot annotation is in range. *)
Lemma OnAdd_polite now na notes :
  (∀ a vi si, notes = Some a → sh.2 !! SubnetOf (na_Spec na) = Some vi →
              Atoi (default "" (a !! slotKey)) = Some si → slot_in vi si) →
  polite own sh (Attachment_OnAdd F now na notes).
Proof.
  intros Hs d Hsh. apply keeps_mono, keeps_OnAdd. intros a vi si Ha Hvi Hsi. apply slot_in_has; [done|].
  eapply Hs; [exact Ha| |exact Hsi]. by rewrite <- Hsh.
Qed.

(** Deletions, unless they come with a tombstone, which ends the driver. *)
Lemma OnDelete_polite na : polite own sh (Attachment_OnDelete (Object na)).
Proof. apply polite_ret. Qed.

Lemma OnDelete_tombstone na d :
  ∃ msg, Attachment_OnDelete (DeletedFinalStateUnknown (Object na)) d = Panic msg.
Proof. by eexists. Qed.

Lemma keeps_delete_in r w d idx :
  ¬ own w → shape d = sh → slot_in (vnIndex w) (slotIndex w) → index_of d w = Some idx →
  (∃ k, (k < r_attempts r)%nat ∧
     (match (r_deletes r k).2 with None => true | Some e => IsNotFound e end = true ∨ r_stopped r k = true)) →
  keeps own (delete_in F r (vnIndex w) (slotIndex w)) d.
Proof.
  intros Hw Hsh Hsl Hi Hk Hd. destruct (slot_in_has _ _ _ Hsh Hsl) as (vn & Hvn & Hsi).
  eapply runs_conseq; [by apply (delete_in_gives F r w d vn idx)|]. intros _ d' (Hd' & Hf & _). split; [done|].
  eapply frame_mono, Hf. by intros w' Hw' ->.
Qed.

(** The rounds of a thread with other slots. *)
Lemma round_polite job th r :
  (∀ w, w ∈ work job → ¬ own w ∧ slot_in (vnIndex w) (slotIndex w)) → work job ≠ [] →
  0 ≤ iCreate th → 0 ≤ iDelete th → round_ok F own sh job r → polite own sh (round F job th r).
Proof.
  intros Hw Hne Hic Hid Hr d Hsh. unfold round. apply keeps_bind; [by apply (ok_before _ _ _ _ _ Hr)|].
  intros _ d1 Hd1 Hf1. assert (Hsh1 : shape d1 = sh) by by rewrite (proj1 Hf1). eapply keeps_read; [done|].
  apply keeps_if; [apply keeps_ret|]. cbn zeta.
  assert (Hitem : ∀ i, 0 ≤ i → ∃ w vn s, work_item job i d1 = Ok (w, d1) ∧ w ∈ work job ∧
    nth_z (virtNets d1) (vnIndex w) = Some vn ∧ nth_z (slots vn) (slotIndex w) = Some s).
  { intros i Hi. destruct (work_item_eq job Hne i d1) as (w & Ew & Hin); [done|].
    apply nth_z_elem in Hin. destruct (Hw w Hin) as [_ Hsl].
    destruct (has_slot_net d1 _ _ Hd1 (slot_in_has _ _ _ Hsh1 Hsl)) as (vn & s & Hvn & _ & Hs & _). by exists w, vn, s. }
  apply keeps_if; [|apply keeps_if; [apply keeps_ret|]].
  - destruct (Hitem (iCreate th) Hic) as (w & vn & s & Ew & Hin & Hvn & Hs). eapply keeps_read; [exact Ew|].
    apply keeps_bind; [|intros; apply keeps_ret]. intros Hd. eapply runs_conseq.
    { eapply (create_in_gives F own sh job th r _ _ d1 vn s Hr Hsh1 Hvn Hs); [|exact Hd]. by apply slot_in_has, Hw. }
    by intros a d' [_ ?].
  - destruct (Hitem (iDelete th) Hid) as (w & vn & s & Ew & Hin & Hvn & Hs). eapply keeps_read; [exact Ew|].
    apply keeps_bind; [|intros; apply keeps_ret]. apply (keeps_delete_in r w d1 (nextIndex s)); [by apply Hw|done|by apply Hw| |apply Hr].
    unfold index_of. rewrite Hvn. cbn. by rewrite Hs.
Qed.
End Others.

(** ** A thread *)

(** What a thread is given: slots of its own, each with its first index. *)
Record job_ok (job : Job) (d : Driver) : Prop := {
  job_nodup : NoDup (work job);
  job_work : work job ≠ [];
  job_num : 0 ≤ num job < 2 ^ 63 ∧ Z.of_nat (length (work job)) < 2 ^ 63;
  job_slots : ∀ w, w ∈ work job →
    has_slot d (vnIndex w) (slotIndex w) ∧ index_of d w = Some (u32 (slotIndex w + 1)) }.

Lemma job_at_turn job d : job_ok job d → at_turn job d 0.
Proof.
  intros [Hnd Hne _ Hs] j w Hw. destruct (Hs w (nth_z_elem _ _ _ Hw)) as [(vn & Hvn & Hsi) Hi].
  exists vn. split_and!; [done|lia|lia|]. rewrite Hi. pose proof (work_pos job Hne) as Hp.
  assert (Hj : 0 ≤ j < Z.of_nat (length (work job))) by (apply nth_z_is_Some; by eexists).
  pose proof (turns_eq (Z.of_nat (length (work job))) 0 0 j Hj ltac:(lia)) as Ht.
  rewrite Z.mul_0_l, Z.add_0_l in Ht. rewrite Ht.
  by rewrite (proj2 (Z.ltb_ge j 0)), Z.mul_0_l, Z.add_0_r by lia.
Qed.

Definition new_thread : Thread := MkThread 0 0 true.

Lemma new_thread_ok job d : job_ok job d → thread_ok job new_thread.
Proof. intros [_ _ Hn _]. constructor; cbn; [lia|lia|intros _; lia|done]. Qed.

(** C29: a thread of the driver never fails and ends after at most two rounds per attachment: it
    deletes as many as it was told to, unless it is told to stop or only to create.  It never
    runs ahead of its deletions by more than its slots, and while it may create it creates
    before it deletes, so it makes them all; each gets the name of its turn.  This holds whatever
    notifications and other threads do to the shared data meanwhile, as long as they are
    polite: they leave the indices of the slots of this thread alone and do not fail themselves.  Other threads with
    slots of their own are polite ([round_polite]), and so are notifications, except for two kinds that end the
    driver: an attachment, of whatever owner, whose slot annotation is out of range ([OnAdd_polite] excludes it), and a
    deletion with a tombstone ([OnDelete_tombstone]).  Assumed of each round, besides: an in-range random choice
    of a node; a clock that passes the limit of the wait; and a deletion that, within the attempts considered,
    succeeds, finds nothing, or is interrupted by the order to stop (the code retries without end). *)
Theorem thread_ends (F : Flags) job rounds d :
  nets_ok d → job_ok job d → Forall (round_ok F (λ w, w ∈ work job) (shape d) job) rounds →
  2 * num job ≤ Z.of_nat (length rounds) →
  runs (RunThread F job new_thread rounds) d (λ r d',
    nets_ok d' ∧
    (iDelete r.1 = num job ∨ 0 < stoppers d' ∨ justCreate job = true ∧ iDelete r.1 = 0) ∧
    (createAllowed r.1 = true → iDelete r.1 ≤ iCreate r.1 ≤ iDelete r.1 + Z.of_nat (length (work job))) ∧
    iCreate r.1 ≤ num job ∧
    Some <$> r.2 = expected job (virtNets d) <$> seqZ 0 (iCreate r.1)).
Proof.
  intros Hd Hjob Hr Hlen. pose proof (job_num _ _ Hjob) as [Hnum HW]. eapply runs_conseq.
  { apply (RunThread_runs F job (shape d) (job_work _ _ Hjob) (job_nodup _ _ Hjob));
      [lia|done|done|done|by eapply new_thread_ok|by apply job_at_turn|cbn; lia]. }
  intros [th names] d' (Hd' & [Hic Hid Hwin Hjc] & _ & Hnames & Hend). cbn [fst snd iCreate new_thread] in *.
  rewrite Z.sub_0_r in Hnames. split_and!; [done| |done|lia|done]. naive_solver.
Qed.

(** With more threads than slots a thread has no slot, and ends the process. *)
Lemma thread_without_slots (F : Flags) job r rounds d d1 :
  work job = [] → 0 < num job → justCreate job = false → r_before r d = Ok (tt, d1) → stoppers d1 = 0 →
  RunThread F job new_thread (r :: rounds) d = Panic "division by zero".
Proof.
  intros Hw Hn HJ Hb Hst. cbn [RunThread iDelete new_thread]. rewrite (proj2 (Z.ltb_lt _ _) Hn).
  unfold mbind at 1, M_bind, round. unfold mbind at 1, M_bind. rewrite Hb. unfold gets, mbind at 1, M_bind.
  rewrite Hst, Hw, HJ. cbn. rewrite andb_false_r. cbn. unfold work_item. by rewrite Hw.
Qed.

(** ** Names *)

Definition no_wrap (job : Job) (d : Driver) : Prop :=
  ∀ w vn, w ∈ work job → nth_z (virtNets d) (vnIndex w) = Some vn →
    size vn * (num job / Z.of_nat (length (work job)) + 1) < 2 ^ 32.

(** The VNIs tell the networks apart. *)
Definition nets_named (d : Driver) : Prop :=
  NoDup (ID <$> virtNets d) ∧ Forall (λ vn, is_u32 (ID vn)) (virtNets d).

Lemma expected_inv job d i nm :
  job_ok job d → no_wrap job d → nets_named d → 0 ≤ i < num job → expected job (virtNets d) i = Some nm →
  ∃ w vn, nth_z (work job) (i mod Z.of_nat (length (work job))) = Some w ∧ nth_z (virtNets d) (vnIndex w) = Some vn ∧
    0 ≤ slotIndex w < size vn ∧ is_u32 (ID vn) ∧
    is_u32 (slotIndex w + 1 + i / Z.of_nat (length (work job)) * size vn) ∧
    nm = objname (nattDigits job) (ID vn) (slotIndex w + 1 + i / Z.of_nat (length (work job)) * size vn).
Proof.
  intros [_ Hne _ Hs] Hwrap [_ Hu] Hi. pose proof (work_pos job Hne) as Hp. unfold expected.
  destruct (nth_z (work job) _) as [w|] eqn:Hw; [|done]. cbn.
  destruct (Hs w (nth_z_elem _ _ _ Hw)) as [(vn & Hvn & Hsi) _]. rewrite Hvn. cbn. intros [= <-]. exists w, vn.
  specialize (Hwrap w vn (nth_z_elem _ _ _ Hw) Hvn). rewrite Forall_forall in Hu.
  pose proof (Z.div_le_mono i (num job) (Z.of_nat (length (work job))) ltac:(lia) ltac:(lia)) as Hq.
  pose proof (Z.div_pos i (Z.of_nat (length (work job))) ltac:(lia) ltac:(lia)) as Hq0.
  assert (Hix : is_u32 (slotIndex w + 1 + i / Z.of_nat (length (work job)) * size vn)) by (unfold is_u32; nia).
  split_and!; [done|done|lia|lia|by eapply Hu, nth_z_elem|exact Hix|]. by rewrite u32_small.
Qed.

Lemma same_keys d1 d2 vi vn :
  shape d2 = shape d1 → nth_z (virtNets d2) vi = Some vn →
  ∃ vn', nth_z (virtNets d1) vi = Some vn' ∧ net_key vn' = net_key vn.
Proof.
  intros Hsh. apply (frame_key (λ _, False)). split; [done|]. by intros w [].
Qed.

Lemma nets_named_shape d1 d2 : shape d2 = shape d1 → nets_named d1 → nets_named d2.
Proof.
  intros [= Hk _ _] [H1 H2]. unfold nets_named.
  assert (E : ID <$> virtNets d2 = ID <$> virtNets d1).
  { change ID with (fst ∘ net_key). by rewrite !list_fmap_compose, Hk. }
  split; [by rewrite E|]. apply (Forall_fmap ID is_u32). rewrite E. by apply (Forall_fmap ID is_u32).
Qed.

Lemma expected_inj job1 job2 d1 d2 i1 i2 nm :
  job_ok job1 d1 → job_ok job2 d2 → no_wrap job1 d1 → no_wrap job2 d2 → nets_named d1 → shape d2 = shape d1 →
  nattDigits job1 = nattDigits job2 → 0 ≤ i1 < num job1 → 0 ≤ i2 < num job2 →
  expected job1 (virtNets d1) i1 = Some nm → expected job2 (virtNets d2) i2 = Some nm →
  ∃ w, nth_z (work job1) (i1 mod Z.of_nat (length (work job1))) = Some w ∧
    nth_z (work job2) (i2 mod Z.of_nat (length (work job2))) = Some w ∧
    i1 / Z.of_nat (length (work job1)) = i2 / Z.of_nat (length (work job2)).
Proof.
  intros Hj1 Hj2 Hn1 Hn2 Hnet Hsh Hdig Hi1 Hi2 E1 E2. pose proof (nets_named_shape _ _ Hsh Hnet) as Hnet2.
  destruct (expected_inv _ _ _ _ Hj1 Hn1 Hnet Hi1 E1) as (w1 & vn1 & Hw1 & Hv1 & Hs1 & Hu1 & Hx1 & ->).
  destruct (expected_inv _ _ _ _ Hj2 Hn2 Hnet2 Hi2 E2) as (w2 & vn2 & Hw2 & Hv2 & Hs2 & Hu2 & Hx2 & Enm).
  rewrite <- Hdig in Enm. apply objname_inj in Enm as [EID Eix]; [|done..].
  destruct (same_keys _ _ _ _ Hsh Hv2) as (vn2' & Hv2' & [= EID' Esz]). rewrite <- EID' in EID. rewrite <- Esz in *.
  assert (Evi : vnIndex w1 = vnIndex w2).
  { assert (0 ≤ vnIndex w1) by (apply (nth_z_is_Some (virtNets d1)); by eexists).
    assert (0 ≤ vnIndex w2) by (apply (nth_z_is_Some (virtNets d1)); by eexists).
    rewrite nth_z_lookup in Hv1, Hv2' by done. destruct Hnet as [Hnd _].
    assert (Z.to_nat (vnIndex w1) = Z.to_nat (vnIndex w2)); [|lia].
    eapply (NoDup_lookup _ _ _ _ Hnd); rewrite list_lookup_fmap; [by rewrite Hv1|rewrite Hv2'; cbn; by rewrite EID]. }
  rewrite <- Evi, Hv1 in Hv2'. injection Hv2' as <-.
  assert (i1 / Z.of_nat (length (work job1)) = i2 / Z.of_nat (length (work job2))) as Eq by nia.
  exists w1. split_and!; [done| |done]. rewrite Hw2. f_equal. destruct w1, w2; cbn in *. f_equal; [done|nia].
Qed.

(** The names that a thread used, by number. *)
Lemma thread_names F job rounds d r d' :
  nets_ok d → job_ok job d → Forall (round_ok F (λ w, w ∈ work job) (shape d) job) rounds →
  2 * num job ≤ Z.of_nat (length rounds) → RunThread F job new_thread rounds d = Ok (r, d') →
  ∀ a nm, r.2 !! a = Some nm → expected job (virtNets d) (Z.of_nat a) = Some nm ∧ 0 ≤ Z.of_nat a < num job.
Proof.
  intros Hd Hjob Hr Hlen E a nm Ha.
  pose proof (RunThread_runs F job (shape d) (job_work _ _ Hjob) (job_nodup _ _ Hjob)
    ltac:(pose proof (job_num _ _ Hjob); lia) new_thread rounds d Hr eq_refl Hd (new_thread_ok _ _ Hjob)
    (job_at_turn _ _ Hjob) ltac:(cbn; lia)) as Hrun.
  unfold runs in Hrun. rewrite E in Hrun. destruct Hrun as (_ & [Hic _ _ _] & _ & Hnames & _).
  cbn [iCreate new_thread] in Hnames. assert (Ha' : (Some <$> r.2) !! a = Some (Some nm)) by by rewrite list_lookup_fmap, Ha.
  rewrite Hnames, list_lookup_fmap in Ha'. destruct (seqZ 0 _ !! a) as [i|] eqn:Ei; [|done].
  injection Ha' as Ha'. apply lookup_seqZ in Ei as [-> Hlt]. rewrite Z.add_0_l in *. split; [done|lia].
Qed.

Lemma names_nodup job d l :
  job_ok job d → no_wrap job d → nets_named d →
  (∀ a nm, l !! a = Some nm → expected job (virtNets d) (Z.of_nat a) = Some nm ∧ 0 ≤ Z.of_nat a < num job) → NoDup l.
Proof.
  intros Hjob Hw Hnet Hl. apply NoDup_alt. intros a b nm [Ea Ha]%Hl [Eb Hb]%Hl.
  destruct (expected_inj _ _ _ _ _ _ _ Hjob Hjob Hw Hw Hnet eq_refl eq_refl Ha Hb Ea Eb) as (w & Hwa & Hwb & Eq).
  pose proof (work_pos job (job_work _ _ Hjob)) as Hp.
  pose proof (Z.mod_pos_bound (Z.of_nat a) _ Hp) as Hma. pose proof (Z.mod_pos_bound (Z.of_nat b) _ Hp) as Hmb.
  rewrite nth_z_lookup in Hwa, Hwb by lia. pose proof (NoDup_lookup _ _ _ _ (job_nodup _ _ Hjob) Hwa Hwb) as Em.
  pose proof (Z.div_mod (Z.of_nat a) (Z.of_nat (length (work job))) ltac:(lia)).
  pose proof (Z.div_mod (Z.of_nat b) (Z.of_nat (length (work job))) ltac:(lia)). rewrite Eq in *. lia.
Qed.

(** C30: two threads, each with slots of its own, never use a name twice, neither one of
    them nor both, as long as the VNIs differ and no index leaves its 32 bits. *)
Theorem names_unique (F : Flags) job1 job2 rounds1 rounds2 d1 d2 r1 r2 d1' d2' :
  nets_ok d1 → nets_ok d2 → shape d2 = shape d1 → nets_named d1 → nattDigits job1 = nattDigits job2 →
  job_ok job1 d1 → job_ok job2 d2 → no_wrap job1 d1 → no_wrap job2 d2 → NoDup (work job1 ++ work job2) →
  Forall (round_ok F (λ w, w ∈ work job1) (shape d1) job1) rounds1 → 2 * num job1 ≤ Z.of_nat (length rounds1) →
  Forall (round_ok F (λ w, w ∈ work job2) (shape d1) job2) rounds2 → 2 * num job2 ≤ Z.of_nat (length rounds2) →
  RunThread F job1 new_thread rounds1 d1 = Ok (r1, d1') → RunThread F job2 new_thread rounds2 d2 = Ok (r2, d2') →
  NoDup (r1.2 ++ r2.2).
Proof.
  intros Hd1 Hd2 Hsh Hnet Hdig Hj1 Hj2 Hw1 Hw2 Hnd Hr1 Hl1 Hr2 Hl2 E1 E2. rewrite <- Hsh in Hr2.
  pose proof (thread_names _ _ _ _ _ _ Hd1 Hj1 Hr1 Hl1 E1) as H1.
  pose proof (thread_names _ _ _ _ _ _ Hd2 Hj2 Hr2 Hl2 E2) as H2.
  apply NoDup_app. split_and!; [by apply (names_nodup job1 d1)| |].
  2: { apply (names_nodup job2 d2); [done|done|by eapply nets_named_shape|done]. }
  intros nm [a [Ea Ha]%H1]%list_elem_of_lookup [b [Eb Hb]%H2]%list_elem_of_lookup.
  destruct (expected_inj _ _ _ _ _ _ _ Hj1 Hj2 Hw1 Hw2 Hnet Hsh Hdig Ha Hb Ea Eb) as (w & Hwa & Hwb & _).
  apply NoDup_app in Hnd as (_ & Hnd & _). eapply Hnd; by eapply nth_z_elem.
Qed.
End DriverCorrect.
