(* ===== verification/DriverStart.v ===== *)
(** * The start of the throughput driver

    The networks that [main] makes are as the threads need them. *)

From S2P Require Import Prelude GoStr GoNet ApiTypes SubnetStrategy Driver DriverWork DriverRun DriverThread DriverCorrect.
Import GoNet Driver DriverWork DriverRun DriverThread DriverCorrect.

Module DriverStart.

(** ** The networks *)

Definition fresh_net (vn : VirtNet) : Prop :=
  theCD vn = Some (MkCD (ID vn) 0 0 (-1) ∅) ∧ subnets vn ≠ [] ∧ slots vn = fresh_slot <$> seqZ 0 (size vn).

Lemma bind_Ok {A B} (m : res A) (f : A → res B) b : m ≫= f = Ok b → ∃ a, m = Ok a ∧ f a = Ok b.
Proof. destruct m as [a|]; [|done]. by exists a. Qed.

Definition vni_of (vni0 i : Z) : Z := (vni0 + i) mod 2 ^ 21.

Lemma vni_land x : Z.land (u32 x) 0x1FFFFF = x mod 2 ^ 21.
Proof.
  change 0x1FFFFF with (Z.ones 21). rewrite Z.land_ones by lia. unfold u32. change (2 ^ 21) with 2097152.
  Z.div_mod_to_equations. lia.
Qed.

Lemma vni_inj vni0 n : 0 ≤ n ≤ 2 ^ 21 → NoDup (vni_of vni0 <$> seqZ 0 n).
Proof.
  intros Hn. apply NoDup_alt. intros a b x Ha Hb. rewrite !list_lookup_fmap in Ha, Hb.
  destruct (seqZ 0 n !! a) as [i|] eqn:Ei; [|done]. destruct (seqZ 0 n !! b) as [j|] eqn:Ej; [|done].
  injection Ha as <-. injection Hb as E. apply lookup_seqZ in Ei as [-> Hi], Ej as [-> Hj].
  unfold vni_of in E. change (2 ^ 21) with 2097152 in *. Z.div_mod_to_equations. lia.
Qed.

Section Start.
Context (F : Flags) (singleNetwork : bool) (suffixBits : Z → Z) (created : Subnet → option Subnet).
Abbreviation make_net := (make_net F singleNetwork suffixBits created).
Abbreviation make_nets := (make_nets F singleNetwork suffixBits created).

Lemma make_net_fresh VNI addr nsz vn : make_net VNI addr nsz = Ok vn → fresh_net vn ∧ net_key vn = (VNI, nsz).
Proof.
  unfold Driver.make_net. cbn zeta. intros (net1 & _ & E)%bind_Ok. apply bind_Ok in E as (nets & Enets & [= <-]).
  split; [|done]. split_and!; [done| |done]. cbn. destruct (0 <? _); [|by injection Enets as <-].
  by apply bind_Ok in Enets as (net2 & _ & [= <-]).
Qed.

Lemma make_nets_fresh i vni0 addr sizes nets :
  make_nets i vni0 addr sizes = Ok nets →
  Forall fresh_net nets ∧
  net_key <$> nets = zip (vni_of vni0 <$> seqZ i (Z.of_nat (length sizes))) sizes.
Proof.
  revert i addr nets. induction sizes as [|nsz sizes IH]; intros i addr nets; cbn [Driver.make_nets].
  - by intros [= <-].
  - intros (vn & [Hvn Hk]%make_net_fresh & E)%bind_Ok. apply bind_Ok in E as (nets' & [Hn Hks]%IH & [= <-]).
    split; [by constructor|]. rewrite fmap_cons, Hk, Hks. cbn [length].
    rewrite (seqZ_cons i) by lia. replace (Z.pred (Z.of_nat (S (length sizes)))) with (Z.of_nat (length sizes)) by lia.
    rewrite fmap_cons. cbn [zip zip_with]. by rewrite vni_land.
Qed.
End Start.

(** ** The index of the networks *)

Section Index.
Context {K : Type} `{Countable K} (keys : VirtNet → list K).

Lemma insert_all (v : Z) ks (m : gmap K Z) k :
  foldl (λ m k, <[k := v]> m) m ks !! k = (if decide (k ∈ ks) then Some v else m !! k).
Proof.
  revert m. induction ks as [|k' ks IH]; intros m; [done|]. cbn [foldl]. rewrite IH.
  destruct (decide (k ∈ ks)) as [Hin|Hin]; [by rewrite decide_True by by right|].
  destruct (decide (k = k')) as [->|Hne].
  - rewrite lookup_insert_eq. by rewrite decide_True by left.
  - rewrite lookup_insert_ne by done. rewrite decide_False; [done|]. by apply not_elem_of_cons.
Qed.

Lemma index_foldl (Q : Z → Prop) l (m : gmap K Z) :
  Forall (λ ivn, Q ivn.1) l → ∀ k,
  (∃ v, m !! k = Some v ∧ Q v) ∨ (∃ ivn, ivn ∈ l ∧ k ∈ keys ivn.2) →
  ∃ v, foldl (λ m ivn, foldl (λ m k, <[k := ivn.1]> m) m (keys ivn.2)) m l !! k = Some v ∧ Q v.
Proof.
  revert m. induction l as [|[i vn] l IH]; intros m Hl k Hk; cbn [foldl].
  - destruct Hk as [?|(ivn & Hin & _)]; [done|]. by apply elem_of_nil in Hin.
  - apply Forall_cons in Hl as [Hi Hl]. apply IH; [done|]. cbn [fst snd] in *.
    destruct (decide (k ∈ keys vn)) as [Hin|Hin].
    + left. exists i. by rewrite insert_all, decide_True.
    + destruct Hk as [(v & Hv & HQ)|(ivn & [->|Hivn]%elem_of_cons & Hks)]; [|done|right; by exists ivn].
      left. exists v. by rewrite insert_all, decide_False.
Qed.

Lemma index_nets_total nets vn k :
  vn ∈ nets → k ∈ keys vn → ∃ vj, index_nets keys nets !! k = Some vj ∧ is_Some (nth_z nets vj).
Proof.
  intros Hin Hk. unfold index_nets. apply index_foldl.
  - apply Forall_forall. intros [i x] (p & y & [= -> ->] & Hp)%elem_of_lookup_imap. apply nth_z_is_Some.
    apply lookup_lt_Some in Hp. cbn. lia.
  - right. apply list_elem_of_lookup in Hin as [p Hp]. exists (Z.of_nat p, vn). split; [|done].
    apply elem_of_lookup_imap. by exists p, vn.
Qed.
End Index.

(** ** All of it *)

Lemma fresh_net_ok vn : fresh_net vn → 0 ≤ size vn → net_ok vn.
Proof.
  intros (Hcd & Hsub & Hs) Hsz. split_and!; [|done|rewrite Hs, length_fmap, length_seqZ; lia|].
  - eexists. split; [exact Hcd|by left].
  - rewrite Hs. apply Forall_fmap, Forall_forall. by intros j _ Hpre.
Qed.

Lemma fresh_index d w vn :
  fresh_net vn → nth_z (virtNets d) (vnIndex w) = Some vn → 0 ≤ slotIndex w < size vn →
  index_of d w = Some (u32 (slotIndex w + 1)).
Proof.
  intros (_ & _ & Hs) Hvn Hsi. unfold index_of. rewrite Hvn. cbn. rewrite Hs, nth_z_fmap, nth_z_lookup by lia.
  rewrite (lookup_seqZ_lt 0 (size vn) (Z.to_nat (slotIndex w))) by lia. cbn. do 2 f_equal. lia.
Qed.

(** Once the networks are made the shared data is well formed, no two networks have the
    same VNI, and any selection of their slots is a proper job for a thread. *)
Lemma start_ready (F : Flags) (singleNetwork : bool) suffixBits created vni0 addr01I sizes d :
  Forall (Z.le 0) sizes → Z.of_nat (length sizes) ≤ 2 ^ 21 →
  start F singleNetwork suffixBits created vni0 addr01I sizes = Ok d →
  nets_ok d ∧ nets_named d ∧ size <$> virtNets d = sizes ∧
  ∀ job, NoDup (work job) → work job ≠ [] → (∀ w, w ∈ work job → w ∈ all_slots (virtNets d)) →
    0 ≤ num job < 2 ^ 63 → Z.of_nat (length (work job)) < 2 ^ 63 → job_ok job d.
Proof.
  intros Hsz Hlen (nets & Enets & [= <-])%bind_Ok. apply make_nets_fresh in Enets as [Hfresh Hkeys].
  assert (Hids : ID <$> nets = vni_of vni0 <$> seqZ 0 (Z.of_nat (length sizes))).
  { change ID with (fst ∘ net_key). rewrite list_fmap_compose, Hkeys. apply fst_zip.
    rewrite length_fmap, length_seqZ. lia. }
  assert (Hszs : size <$> nets = sizes).
  { change size with (snd ∘ net_key). rewrite list_fmap_compose, Hkeys, snd_zip; [done|].
    rewrite length_fmap, length_seqZ. lia. }
  assert (Hsizes : Forall (λ vn, 0 ≤ size vn) nets) by (apply (Forall_fmap size (Z.le 0)); by rewrite Hszs).
  rewrite Forall_forall in Hfresh, Hsizes. split_and!; [split|split|exact Hszs|]; cbn [virtNets idToVirtNet].
  - apply Forall_forall. intros vn Hvn. by apply fresh_net_ok; [apply Hfresh|apply Hsizes].
  - apply Forall_forall. intros vn Hvn. apply (index_nets_total (λ vn, [ID vn]) nets vn); [done|by left].
  - rewrite Hids. apply vni_inj. lia.
  - apply (Forall_fmap ID is_u32). rewrite Hids. apply Forall_fmap, Forall_forall. intros i _. unfold is_u32. cbn.
    pose proof (Z.mod_pos_bound (vni0 + i) (2 ^ 21) ltac:(lia)). unfold vni_of. lia.
  - intros job Hnd Hne Hw Hnum Hwl. constructor; [done|done|done|].
    intros w (vn & Hvn & Hsi)%Hw%all_slots_elem. split; [by exists vn|].
    by apply (fresh_index _ w vn); [eapply Hfresh, nth_z_elem| |].
Qed.
End DriverStart.
