(* ===== verification/DriverMain.v ===== *)
(** * The process of the throughput driver

    [main] of [cmd/attachment-tput-driver/main.go], up to the threads: its flags, its exit
    codes, the networks, the division of the work and the informers.  The environment gives
    what [main] computes in floating point (the sizes of the networks and the bits of their
    addresses), random numbers and the answers of files, clients and the API server. *)

From S2P Require Import Prelude GoStr GoNet ApiTypes SubnetStrategy Informers.
From S2P Require Import Driver DriverWork DriverRun DriverThread DriverCorrect DriverStart.
Import GoNet Driver DriverWork DriverRun DriverThread DriverCorrect DriverStart.

Module DriverMain.

(** The flags that only [main] looks at. *)
Record Args := MkArgs {
  runid : string; base_address : string; just_count : bool; singleNetwork : bool; num_attachments : Z; threads : Z;
  kubeconfigPath : string; nodeLabelSelector : string; roundRobin : bool; others : Flags }.

Record Env := MkEnv {
  randomRunID : string;
  MkdirAll : option error;
  CreateDistribution : option error;
  CreateOutline : option error;
  BuildConfigFromFlags : string → option error;
  NewForConfig_kube : option error;
  NewForConfig_kos : option error;
  CreateNamespace : string → option error;
  vni0 : Z;
  sizes : list Z;
  suffixBits : Z → Z;
  CreateSubnet : Subnet → option Subnet;
  Intn1 : nat → nat → nat;
  Intn2 : nat → nat → nat;
  ListNodes : string → error + list string;
  digits : nat }.

(** [^[-a-zA-Z0-9!@#$%^&()+=][-a-zA-Z0-9!@#$%^&()+=.]*$]. *)
Definition runid_char (c : ascii) : bool :=
  negb (lacks c "-abcdefghijklmnopqrstuvwxyzABCDEFGHIJKLMNOPQRSTUVWXYZ0123456789!@#$%^&()+=").
Definition good_runid (s : string) : bool :=
  match s with
  | EmptyString => false
  | String c s => runid_char c && str_forall (λ c, runid_char c || char_is c ".") s
  end.

Definition with_runID (F : Flags) (id : string) : Flags :=
  MkFlags id (omitTest F) (pingCount F) (pendingWait F) (stopOnPingFail F) (stopOnBreak F) (waitAfterCreate F) (onlyNode F).

(** What [main] launches: the shared data, and one job per thread. *)
Inductive Outcome :=
| Exit (code : Z)
| Estimated
| Launched (F : Flags) (d : Driver) (jobs : list Job) (networkInformer attachmentInformer : nat).

(** The connection to the API server. *)
Definition connect (A : Args) (E : Env) (theKubeNS : string) : option Z :=
  match BuildConfigFromFlags E (kubeconfigPath A) with
  | Some _ => Some 20
  | None =>
      match NewForConfig_kube E with
      | Some _ => Some 21
      | None =>
          match NewForConfig_kos E with
          | Some _ => Some 22
          | None => match CreateNamespace E theKubeNS with Some _ => Some 23 | None => None end
          end
      end
  end.

Definition fullNodeLabelSelector (A : Args) : string :=
  let s := "role.kos.example.com/workload=true" in
  if String.eqb (nodeLabelSelector A) "" then s else s +:+ "," +:+ nodeLabelSelector A.

(** The informers, which run before [main] waits for the notifications of the subnets. *)
Definition run_informers : M Informers.State (nat * nat) :=
  kosInformerFactory ← Informers.NewSharedInformerFactory 0;
  subnets ← Informers.Network kosInformerFactory Informers.Subnets;
  networkInformer ← Informers.Informer_ subnets;
  Informers.call (Informers.AddEventHandler networkInformer);;
  netatts ← Informers.Network kosInformerFactory Informers.NetworkAttachments;
  attachmentInformer ← Informers.Informer_ netatts;
  Informers.call (Informers.AddEventHandler attachmentInformer);;
  Informers.call (Informers.GoRun networkInformer);;
  Informers.call (Informers.GoRun attachmentInformer);;
  mret (networkInformer, attachmentInformer).

(** The jobs of threads [thds] of [T]. *)
Fixpoint make_jobs (A : Args) (E : Env) (slots : list VirtNetAttachment) (nodes : list string) (T : Z) (thds : list Z)
    : res (list Job) :=
  match thds with
  | [] => Ok []
  | thd :: thds =>
      w ← selectWork thd T slots;
      jobs ← make_jobs A E slots nodes T thds;
      Ok (MkJob w nodes (digits E) (numHere (num_attachments A) T thd) (thd + 1) T (roundRobin A)
            (negb (waitAfterCreate (others A) =? 0)) :: jobs)
  end.

Definition lift {X} (r : res X) : M Informers.State X := λ s, a ← r; Ok (a, s).

(** After the networks are made. *)
Definition launch (A : Args) (E : Env) (F : Flags) (d : Driver) (nneI : Z) : M Informers.State Outcome :=
  if negb (waitAfterCreate F =? 0) && (nneI <? num_attachments A) then mret (Exit 27)
  else
    let T := if nneI <? threads A then nneI else threads A in
    let vnAttachments := shuffle (Intn2 E) (shuffle (Intn1 E) (all_slots (virtNets d))) in
    match ListNodes E (fullNodeLabelSelector A) with
    | inl _ => mret (Exit 30)
    | inr nodes =>
        if negb (String.eqb (onlyNode F) "") && negb (bool_decide (onlyNode F ∈ nodes)) then mret (Exit 31)
        else
          '(networkInformer, attachmentInformer) ← run_informers;
          (* the nominal life time of an attachment *)
          if (waitAfterCreate F =? 0) && (T =? 0) then panic "integer divide by zero"
          else
            jobs ← lift (make_jobs A E vnAttachments nodes T (seqZ 0 T));
            mret (Launched F d jobs networkInformer attachmentInformer)
    end.

Definition main (A : Args) (E : Env) : M Informers.State Outcome :=
  let id := if String.eqb (runid A) "" then randomRunID E else runid A in
  if negb (String.eqb (runid A) "") && negb (good_runid (runid A)) then mret (Exit 2)
  else
    match MkdirAll E with
    | Some _ => mret (Exit 3)
    | None =>
        let addr0 := ParseIP (base_address A) in
        if bool_decide (addr0 = []) then mret (Exit 5)
        else
          match CreateDistribution E with
          | Some e => panic (message e)
          | None =>
              match (if just_count A then None else connect A E id) with
              | Some code => mret (Exit code)
              | None =>
                  let F := with_runID (others A) id in
                  addr01I ← lift (MakeUint32FromIPv4 addr0);
                  if just_count A then
                    match CreateOutline E with Some e => panic (message e) | None => mret Estimated end
                  else
                    d ← lift (start F (singleNetwork A) (suffixBits E) (CreateSubnet E) (vni0 E) addr01I (sizes E));
                    match CreateOutline E with
                    | Some e => panic (message e)
                    | None => launch A E F d (foldr Z.add 0 (sizes E))
                    end
              end
          end
    end.

(** ** What the process does *)

Lemma make_jobs_zip A E slots nodes T thds works :
  Forall2 (λ t w, selectWork t T slots = Ok w) thds works →
  make_jobs A E slots nodes T thds = Ok (zip_with (λ t w, MkJob w nodes (digits E) (numHere (num_attachments A) T t)
    (t + 1) T (roundRobin A) (negb (waitAfterCreate (others A) =? 0))) thds works).
Proof. induction 1 as [|t w thds works Hw _ IH]; [done|]. cbn [make_jobs zip_with]. by rewrite Hw, IH. Qed.

(** The two informers are set up and run. *)
Definition informers_run (s : Informers.State) (ni ai : nat) : Prop :=
  Informers.caches s ni Informers.Subnets ∧ Informers.caches s ai Informers.NetworkAttachments ∧
  Forall (λ i, Informers.wired i (Informers.calls s) = true ∧ Informers.AddEventHandler i ∈ Informers.calls s) [ni; ai].

Lemma run_informers_runs (Q : nat * nat → Informers.State → Prop) :
  (∀ s, informers_run s 0 1 → Q (0, 1)%nat s) → runs run_informers Informers.init Q.
Proof.
  intros HQ. eapply runs_eq; [vm_compute; reflexivity|]. apply HQ. split; [by eexists|]. split; [by eexists|].
  repeat apply Forall_cons_2; try apply Forall_nil_2; (split; [done|set_solver]).
Qed.

(** Why the process exits. *)
Definition exits (A : Args) (E : Env) (code : Z) : Prop :=
  (code = 2 ∧ runid A ≠ "" ∧ good_runid (runid A) = false) ∨ (code = 3 ∧ is_Some (MkdirAll E)) ∨
  (code = 5 ∧ ParseIP (base_address A) = []) ∨
  (∃ ns, just_count A = false ∧ connect A E ns = Some code ∧ 20 ≤ code ≤ 23) ∨
  (code = 27 ∧ waitAfterCreate (others A) ≠ 0 ∧ foldr Z.add 0 (sizes E) < num_attachments A) ∨
  (code = 30 ∧ ∃ e, ListNodes E (fullNodeLabelSelector A) = inl e) ∨
  (code = 31 ∧ ∃ nodes, ListNodes E (fullNodeLabelSelector A) = inr nodes ∧ onlyNode (others A) ∉ nodes).

(** What the threads are launched with. *)
Definition launched (A : Args) (E : Env) (d : Driver) (jobs : list Job) : Prop :=
  nets_ok d ∧ nets_named d ∧ size <$> virtNets d = sizes E ∧ Forall (λ job, job_ok job d) jobs ∧
  Z.of_nat (length jobs) = Z.min (foldr Z.add 0 (sizes E)) (threads A) ∧
  (jobs ≠ [] → concat (work <$> jobs) ≡ₚ all_slots (virtNets d) ∧ NoDup (concat (work <$> jobs)) ∧
     foldr Z.add 0 (num <$> jobs) = num_attachments A) ∧
  Forall (λ job, justCreate job = negb (waitAfterCreate (others A) =? 0) ∧
    (justCreate job = true → num job ≤ Z.of_nat (length (work job)))) jobs.

Lemma connect_code A E ns code : connect A E ns = Some code → 20 ≤ code ≤ 23.
Proof.
  unfold connect. destruct (BuildConfigFromFlags E _); [intros [= <-]; lia|]. destruct (NewForConfig_kube E); [intros [= <-]; lia|].
  destruct (NewForConfig_kos E); [intros [= <-]; lia|]. destruct (CreateNamespace E ns); [intros [= <-]; lia|done].
Qed.

Lemma all_slots_length nets :
  Forall (Z.le 0) (size <$> nets) → Z.of_nat (length (all_slots nets)) = foldr Z.add 0 (size <$> nets).
Proof.
  unfold all_slots. change (imap ?f nets) with (imap (f ∘ (Nat.add 0)) nets). generalize 0%nat as base.
  induction nets as [|vn nets IH]; intros base Hs; [done|]. rewrite fmap_cons in Hs |- *. apply Forall_cons in Hs as [Hv Hs].
  cbn [imap concat foldr]. rewrite length_app. unfold compose at 1. rewrite length_fmap, length_seqZ.
  rewrite Nat2Z.inj_add, Z2Nat.id by done. f_equal. rewrite <- (IH (S base) Hs). do 3 f_equal.
  apply imap_ext. intros i x _. unfold compose. by rewrite Nat.add_succ_r.
Qed.

Lemma zip_with_first {X Y V U} (g : X → Y → V) (h : V → U) (f : X → U) (l : list X) (k : list Y) :
  (∀ x y, h (g x y) = f x) → length l = length k → h <$> zip_with g l k = f <$> l.
Proof.
  intros Hf. revert k. induction l as [|x l IH]; intros [|y k] Hl; [done..|]. cbn [zip_with].
  rewrite !fmap_cons, Hf. f_equal. apply IH. by injection Hl.
Qed.

Lemma sum_pos (l : list Z) : Forall (Z.le 1) l → Z.of_nat (length l) ≤ foldr Z.add 0 l.
Proof. induction 1 as [|x l Hx _ IH]; [done|]. cbn [length foldr]. lia. Qed.

(** One part of a division. *)
Lemma part_of {X} (parts : list (list X)) (all part : list X) :
  concat parts ≡ₚ all → NoDup (concat parts) → part ∈ parts →
  NoDup part ∧ (∀ x, x ∈ part → x ∈ all) ∧ (length part ≤ length all)%nat.
Proof.
  intros Hc Hnd (l1 & l2 & ->)%list_elem_of_split. rewrite concat_app in Hc, Hnd. cbn in Hc, Hnd.
  split_and!.
  - apply NoDup_app in Hnd as (_ & _ & Hnd). by apply NoDup_app in Hnd as (? & _).
  - intros x Hx. rewrite <- Hc, !elem_of_app. by right; left.
  - rewrite <- Hc, !length_app. lia.
Qed.

Section Process.
Context (A : Args) (E : Env).
Hypothesis sizes_pos : Forall (Z.le 1) (sizes E).
Hypothesis few_nets : Z.of_nat (length (sizes E)) ≤ 2 ^ 21.
Hypothesis few_slots : foldr Z.add 0 (sizes E) < 2 ^ 63.
Hypothesis Intn1_ok : ∀ k m, (0 < m)%nat → (Intn1 E k m < m)%nat.
Hypothesis Intn2_ok : ∀ k m, (0 < m)%nat → (Intn2 E k m < m)%nat.
Hypothesis num_ok : 0 ≤ num_attachments A < 2 ^ 63.
Hypothesis threads_ok : 0 ≤ threads A.

Lemma jobs_launched F d addr01I nodes T :
  start F (singleNetwork A) (suffixBits E) (CreateSubnet E) (vni0 E) addr01I (sizes E) = Ok d →
  T = Z.min (foldr Z.add 0 (sizes E)) (threads A) →
  (waitAfterCreate (others A) ≠ 0 → num_attachments A ≤ foldr Z.add 0 (sizes E)) →
  ∃ jobs, make_jobs A E (shuffle (Intn2 E) (shuffle (Intn1 E) (all_slots (virtNets d)))) nodes T (seqZ 0 T) = Ok jobs ∧
    launched A E d jobs.
Proof.
  intros Hd HT Hfit.
  assert (H0 : Forall (Z.le 0) (sizes E)) by (eapply Forall_impl; [exact sizes_pos|]; cbn; intros; lia).
  destruct (start_ready F (singleNetwork A) _ _ _ _ _ _ H0 few_nets Hd) as (Hok & Hnamed & Hszs & Hjob).
  assert (Hsl : Z.of_nat (length (all_slots (virtNets d))) = foldr Z.add 0 (sizes E)).
  { by rewrite all_slots_length, Hszs by by rewrite Hszs. }
  destruct (decide (T ≤ 0)) as [HT0|HT0].
  { exists []. split; [rewrite (seqZ_nil 0 T); [done|lia]|]. unfold launched.
    split_and!; [done..|constructor|cbn [length]|done|constructor].
    pose proof (sum_pos _ sizes_pos). lia. }
  destruct (work_is_divided (Intn1 E) (Intn2 E) (virtNets d) T (num_attachments A)) as (works & Hw & Hc & Hnd & Hs);
    [done|done|lia|lia|].
  exists (zip_with (λ t w, MkJob w nodes (digits E) (numHere (num_attachments A) T t)
    (t + 1) T (roundRobin A) (negb (waitAfterCreate (others A) =? 0))) (seqZ 0 T) works).
  split; [apply make_jobs_zip; eapply Forall2_impl; [exact Hw|by intros t w [? _]]|].
  assert (Hlen : length (seqZ 0 T) = length works) by by eapply Forall2_length.
  set (jobs := zip_with _ _ _).
  assert (Ework : work <$> jobs = works).
  { unfold jobs. rewrite fmap_zip_with_r; [done|by intros|lia]. }
  assert (Enum : num <$> jobs = numHere (num_attachments A) T <$> seqZ 0 T).
  by (apply zip_with_first; [by intros|done]).
  assert (Hall : Forall (λ job, ∃ t, 0 ≤ t < T ∧ num job = numHere (num_attachments A) T t ∧ work job ≠ [] ∧
     justCreate job = negb (waitAfterCreate (others A) =? 0) ∧
     (num_attachments A ≤ Z.of_nat (length (all_slots (virtNets d))) → num job ≤ Z.of_nat (length (work job)))) jobs).
  { unfold jobs. assert (Hr : Forall (λ t, 0 ≤ t < T) (seqZ 0 T)) by (apply Forall_forall; intros t ?%elem_of_seqZ; lia).
    clear -Hw Hr. induction Hw as [|t w ts ws (_ & Hne & Hle) _ IH]; [constructor|]. apply Forall_cons in Hr as [Ht Hr].
    constructor; [|by apply IH]. by exists t. }
  unfold launched. rewrite Ework, Enum. split_and!; [done..| | | |].
  - apply Forall_forall. intros job Hj. rewrite Forall_forall in Hall.
    destruct (Hall _ Hj) as (t & Ht & En & Hne & _).
    assert (Hin : work job ∈ works) by (rewrite <- Ework; by apply list_elem_of_fmap_2).
    destruct (part_of works _ _ Hc Hnd Hin) as (Hndj & Hsub & Hlj).
    apply Hjob; [done|done|done| |lia].
    rewrite En. unfold numHere. split; [apply Z.div_pos; lia|]. apply Z.div_lt_upper_bound; nia.
  - rewrite <- (length_fmap work), Ework, <- Hlen, length_seqZ. lia.
  - done.
  - eapply Forall_impl; [exact Hall|]. intros job (t & _ & _ & _ & -> & Hle). split; [done|]. intros Hw0.
    apply Hle. rewrite Hsl. apply Hfit. intros E0. by rewrite E0 in Hw0.
Qed.
Lemma start_fails F single bits created vni0 addr01I ss msg :
  start F single bits created vni0 addr01I ss = Panic msg → ∃ sn, created sn = None.
Proof.
  intros H. assert (Hm : ∃ msg, make_nets F single bits created 0 vni0 addr01I ss = Panic msg).
  { unfold start in H. destruct (make_nets _ _ _ _ _ _ _ _); [done|by eexists]. }
  clear H msg. destruct Hm as [msg Hm]. revert msg Hm. generalize 0 as i. revert addr01I.
  induction ss as [|nsz ss IH]; intros addr i msg; cbn [make_nets]; [done|].
  assert (Hc : ∀ sn st msg, create_subnet created sn st = Panic msg → created sn = None).
  { intros sn st m. unfold create_subnet. by destruct (created sn). }
  destruct (make_net _ _ _ _ _ _ _) as [vn|m] eqn:En; [|intros _].
  - unfold mbind at 1, res_bind at 1. destruct (make_nets _ _ _ _ _ _ _ _) as [|m] eqn:Em; [done|intros _; by eapply IH].
  - unfold make_net in En. cbn zeta in En. unfold mbind at 1, res_bind at 1 in En.
    destruct (create_subnet _ _ "26") eqn:E1; [|by eexists; eapply Hc].
    destruct (0 <? _); [|done]. unfold mbind, res_bind in En. destruct (create_subnet _ _ "27") eqn:E2; [done|].
    by eexists; eapply Hc.
Qed.

Lemma launch_ok F d addr01I :
  start F (singleNetwork A) (suffixBits E) (CreateSubnet E) (vni0 E) addr01I (sizes E) = Ok d →
  waitAfterCreate F = waitAfterCreate (others A) → onlyNode F = onlyNode (others A) →
  match launch A E F d (foldr Z.add 0 (sizes E)) Informers.init with
  | Panic _ => waitAfterCreate (others A) = 0 ∧ (threads A = 0 ∨ sizes E = [])
  | Ok (Exit code, s) => exits A E code ∧ Informers.calls s = []
  | Ok (Estimated, s) => False
  | Ok (Launched F' d' jobs ni ai, s) => F' = F ∧ launched A E d' jobs ∧ informers_run s ni ai
  end.
Proof.
  intros Hd Hwait Hnode. unfold launch. rewrite Hwait, Hnode.
  destruct (negb (waitAfterCreate (others A) =? 0) && _) eqn:E27.
  { apply andb_true_iff in E27 as [Hw%negb_true_iff%Z.eqb_neq Hn%Z.ltb_lt]. split; [|done].
    do 4 right. by left. }
  assert (Hfit : waitAfterCreate (others A) ≠ 0 → num_attachments A ≤ foldr Z.add 0 (sizes E)).
  { intros Hw%Z.eqb_neq. rewrite Hw in E27. by apply Z.ltb_ge in E27. }
  set (T := if _ <? threads A then _ else _).
  assert (HT : T = Z.min (foldr Z.add 0 (sizes E)) (threads A))
    by (unfold T; destruct (Z.ltb_spec (foldr Z.add 0 (sizes E)) (threads A)); lia).
  destruct (ListNodes E (fullNodeLabelSelector A)) as [e|nodes] eqn:En.
  { split; [|done]. do 5 right. left. eauto. }
  destruct (negb (String.eqb (onlyNode (others A)) "") && _) eqn:E31.
  { apply andb_true_iff in E31 as [_ Hn%negb_true_iff%bool_decide_eq_false]. split; [|done]. do 6 right. eauto. }
  unfold mbind at 1, M_bind at 1.
  destruct (run_informers Informers.init) as [[[ni ai] s]|] eqn:Er; [|by vm_compute in Er].
  assert (Hi : informers_run s ni ai).
  { assert (H : runs run_informers Informers.init (λ r s, informers_run s r.1 r.2)) by by apply run_informers_runs.
    unfold runs in H. by rewrite Er in H. }
  destruct (Z.eqb_spec (waitAfterCreate (others A)) 0) as [E0|E0], (Z.eqb_spec T 0) as [ET|ET]; cbn [andb].
  { split; [done|]. destruct (sizes E) as [|x l] eqn:Es; [by right|left].
    pose proof (sum_pos _ sizes_pos) as Hp. cbn [length] in Hp. lia. }
  all: destruct (jobs_launched F d addr01I nodes T Hd HT Hfit) as (jobs & Hj & Hl);
    unfold mbind, M_bind, lift; rewrite Hj; done.
Qed.

(** C32: the driver's process exits, with the code that says why, before it has made an informer;
    or panics because a file or a subnet cannot be created, or because it has neither a
    thread nor the flag not to delete; or only estimates; or launches its threads.  Then the
    networks have the sizes that were computed, VNIs of their own and well-formed data; there
    are as many threads as the flag says, but no more than slots; each has a proper job, the
    jobs share out all slots and all attachments, and when nothing is to be deleted no thread
    is to make more than it has slots; both informers have their handler and run once. *)
Theorem driver_process :
  match main A E Informers.init with
  | Panic _ => is_Some (CreateDistribution E) ∨ is_Some (CreateOutline E) ∨
      (just_count A = false ∧ ∃ sn, CreateSubnet E sn = None) ∨
      (just_count A = false ∧ waitAfterCreate (others A) = 0 ∧ (threads A = 0 ∨ sizes E = []))
  | Ok (Exit code, s) => exits A E code ∧ Informers.calls s = []
  | Ok (Estimated, s) => just_count A = true ∧ Informers.calls s = []
  | Ok (Launched F d jobs ni ai, s) => just_count A = false ∧
      F = with_runID (others A) (if String.eqb (runid A) "" then randomRunID E else runid A) ∧
      (runid A = "" ∨ good_runid (runid A) = true) ∧ launched A E d jobs ∧ informers_run s ni ai
  end.
Proof.
  unfold main. set (id := if String.eqb (runid A) "" then _ else _).
  destruct (negb (String.eqb (runid A) "") && negb (good_runid (runid A))) eqn:Eid.
  { apply andb_true_iff in Eid as [Hr%negb_true_iff Hg%negb_true_iff]. apply String.eqb_neq in Hr. split; [by left|done]. }
  assert (Hid : runid A = "" ∨ good_runid (runid A) = true).
  { apply andb_false_iff in Eid as [Hr%negb_false_iff|Hg%negb_false_iff]; [left; by apply String.eqb_eq|by right]. }
  destruct (MkdirAll E) as [e|] eqn:Ed; [split; [right; left; by rewrite Ed|done]|].
  case_bool_decide as Ha; [split; [by do 2 right; left|done]|].
  destruct (CreateDistribution E) as [e|] eqn:Ef; [by left; eexists|].
  destruct (if just_count A then _ else _) as [code|] eqn:Ec.
  { destruct (just_count A) eqn:Ej; [done|]. split; [|done]. do 3 right. left. exists id.
    split_and!; [done|done|by eapply connect_code..]. }
  destruct (MakeUint32FromIPv4 (ParseIP (base_address A))) as [addr01I|] eqn:Eu.
  2: { destruct (MakeUint32_total (ParseIP (base_address A))) as [u Hu]; [|congruence].
       destruct (ParseIP_bytes _ Ha) as [-> _]. lia. }
  unfold mbind at 1, M_bind at 1, lift at 1. cbn [mbind res_bind].
  destruct (just_count A) eqn:Ej.
  { destruct (CreateOutline E); [by right; left; eexists|done]. }
  unfold mbind, M_bind, lift. destruct (start _ _ _ _ _ _ _) as [d|msg] eqn:Es.
  2: { do 2 right. left. split; [done|]. by eapply start_fails. }
  cbn. destruct (CreateOutline E); [by right; left; eexists|].
  pose proof (launch_ok _ _ _ Es eq_refl eq_refl) as HL.
  destruct (launch _ _ _ _ _ _) as [[[code| |F d' jobs ni ai] s]|msg]; [done|done| |].
  - by destruct HL as (-> & ? & ?).
  - by do 3 right.
Qed.
End Process.
End DriverMain.
