(* ===== verification/DriverAddrs.v ===== *)
(** * Addresses and notifications in the throughput driver

    The driver's account of who has which address, and notifications that it does not
    expect. *)

From S2P Require Import Prelude GoStr GoNet ApiTypes Driver DriverWork DriverRun.
Import GoNet Driver DriverWork DriverRun.

Module DriverAddrs.

(** ** The owners of an address *)

Definition owners (a : gmap string (gset string)) (ip : string) : gset string := default ∅ (a !! ip).

(** An address that nobody has is not in the map. *)
Definition tidy (a : gmap string (gset string)) : Prop := map_Forall (λ _ s, s ≠ ∅) a.

(** The owners once [name] has moved from one address to another; an empty address is none. *)
Definition moved (old new name ip : string) (s : gset string) : gset string :=
  (if bool_decide (ip = old ∧ ip ≠ "") then s ∖ {[name]} else s) ∪
  (if bool_decide (ip = new ∧ ip ≠ "") then {[name]} else ∅).

Definition released (a : gmap string (gset string)) (old name : string) : gmap string (gset string) :=
  if String.eqb old "" then a else
    match a !! old with
    | None => a
    | Some s => if bool_decide (s ∖ {[name]} = ∅) then delete old a else <[old := s ∖ {[name]}]> a
    end.

Lemma released_owners a old name ip :
  owners (released a old name) ip = (if bool_decide (ip = old ∧ ip ≠ "") then owners a ip ∖ {[name]} else owners a ip).
Proof.
  unfold released. destruct (String.eqb_spec old "") as [->|Hne].
  { rewrite bool_decide_eq_false_2; [done|]. naive_solver. }
  destruct (decide (ip = old)) as [->|Hip].
  - rewrite bool_decide_eq_true_2 by done. unfold owners. destruct (a !! old) as [s|] eqn:E.
    + cbn. case_bool_decide as Hs; [by rewrite lookup_delete_eq, Hs|by rewrite lookup_insert_eq].
    + rewrite E. cbn. set_solver.
  - rewrite bool_decide_eq_false_2 by naive_solver. unfold owners. destruct (a !! old) as [s|]; [|done].
    case_bool_decide; [by rewrite lookup_delete_ne by done|by rewrite lookup_insert_ne by done].
Qed.

Lemma released_tidy a old name : tidy a → tidy (released a old name).
Proof.
  intros Ha. unfold released. destruct (String.eqb old ""); [done|]. destruct (a !! old) as [s|]; [|done].
  case_bool_decide; [by apply map_Forall_delete|by apply map_Forall_insert_2].
Qed.

(** A set with an element has more when it has another. *)
Lemma others_size (s : gset string) x : (1 < base.size ({[x]} ∪ s))%nat ↔ ∃ y, y ∈ s ∧ y ≠ x.
Proof.
  split.
  - intros Hs. destruct (set_choose_or_empty (s ∖ {[x]})) as [[y Hy]|He]; [exists y; set_solver|].
    assert (E : {[x]} ∪ s ⊆@{gset string} {[x]}).
    { clear Hs. intros y Hy. destruct (decide (y = x)); set_solver. }
    apply subseteq_size in E. rewrite size_singleton in E. lia.
  - intros (y & Hy & Hne). assert (E : {[x; y]} ⊆@{gset string} {[x]} ∪ s) by set_solver. apply subseteq_size in E.
    rewrite size_union, !size_singleton in E by set_solver. lia.
Qed.

Lemma alter_is_insert vi (g : VirtNet → VirtNet) nets vn :
  nth_z nets vi = Some vn → alter g (Z.to_nat vi) nets = <[Z.to_nat vi := g vn]> nets.
Proof.
  unfold nth_z. destruct (vi <? 0); [done|]. intros Hvn. apply list_eq. intros j.
  destruct (decide (j = Z.to_nat vi)) as [->|Hne].
  - rewrite list_lookup_alter_eq, list_lookup_insert_eq by by eapply lookup_lt_Some. by rewrite Hvn.
  - by rewrite list_lookup_alter_ne, list_lookup_insert_ne by done.
Qed.

(** When the address of an attachment changes it leaves the owners of the old address
    and joins those of the new one, nothing else changes, no empty set stays, and there is
    a warning exactly when somebody else owns the new address. *)
Lemma address_owners vi old new name d vn :
  nth_z (virtNets d) vi = Some vn → tidy (addrs vn) →
  runs (ipAddressChangedInNS vi old new name) d (λ _ d',
    ∃ a, virtNets d' = <[Z.to_nat vi := set_addrs a vn]> (virtNets d) ∧ tidy a ∧
      (∀ ip, owners a ip = moved old new name ip (owners (addrs vn) ip)) ∧
      multiOwnerWarnings d' =
        (if bool_decide (new ≠ "" ∧ set_Exists (.≠ name) (owners (addrs vn) new))
         then u32 (multiOwnerWarnings d + 1) else multiOwnerWarnings d)).
Proof.
  intros Hvn Ht. unfold ipAddressChangedInNS. apply runs_bind. eapply runs_eq; [by apply get_net_eq|]. cbn zeta.
  fold (released (addrs vn) old name). set (m := released (addrs vn) old name).
  pose proof (released_tidy (addrs vn) old name Ht) as Hm. fold m in Hm.
  pose proof (released_owners (addrs vn) old name) as Ho. fold m in Ho.
  destruct (String.eqb_spec new "") as [->|Hnew].
  - apply runs_modify. exists m. split_and!; [by apply alter_is_insert|done| |].
    + intros ip. rewrite Ho. unfold moved. rewrite (bool_decide_eq_false_2 (ip = "" ∧ _)) by naive_solver. set_solver.
    + rewrite bool_decide_eq_false_2; [done|]. naive_solver.
  - fold (owners m new). set (a := <[new := {[name]} ∪ owners m new]> m).
    assert (Ha : ∀ ip, owners a ip = moved old new name ip (owners (addrs vn) ip)).
    { intros ip. unfold moved. rewrite <- Ho. unfold owners at 1, a. destruct (decide (ip = new)) as [->|Hne].
      - rewrite lookup_insert_eq, bool_decide_eq_true_2 by done. cbn. set_solver.
      - rewrite lookup_insert_ne, bool_decide_eq_false_2 by naive_solver. unfold owners. set_solver. }
    assert (Hw : (1 < base.size ({[name]} ∪ owners m new))%nat ↔
      new ≠ "" ∧ set_Exists (.≠ name) (owners (addrs vn) new)).
    { rewrite others_size, Ho. case_bool_decide; unfold set_Exists; set_solver. }
    assert (Hta : tidy a) by (apply map_Forall_insert_2; [set_solver|done]).
    apply runs_bind, runs_modify. destruct (Nat.ltb_spec 1 (base.size ({[name]} ∪ owners m new))) as [Hlt|Hge].
    + apply runs_modify. exists a. split_and!; [by apply alter_is_insert|done|done|].
      rewrite bool_decide_eq_true_2 by by apply Hw. done.
    + apply runs_ret. exists a. split_and!; [by apply alter_is_insert|done|done|].
      rewrite bool_decide_eq_false_2; [done|]. rewrite <- Hw. lia.
Qed.

(** ** Notifications of other namespaces *)

(** The notification of an attachment of another namespace, on a subnet with the name of
    one of the run's, changes nothing when its slot annotation is a slot of that network,
    and ends the process otherwise. *)
Lemma foreign_notifications (F : Flags) now na notes vi vn si d :
  Namespace (na_meta na) ≠ runID F →
  subnetToVirtNet d !! SubnetOf (na_Spec na) = Some vi → nth_z (virtNets d) vi = Some vn →
  Atoi (default "" (notes !! slotKey)) = Some si →
  Attachment_OnAdd F now na (Some notes) d =
    if bool_decide (0 ≤ si < Z.of_nat (length (slots vn))) then Ok (tt, d) else Panic "index out of range".
Proof.
  intros Hns Hvi Hvn Hsi. unfold Attachment_OnAdd. unfold mbind at 1, M_bind, get. rewrite Hvi, Hsi.
  unfold mbind at 1, M_bind. case_bool_decide as Hs; rewrite <- nth_z_is_Some in Hs.
  - destruct Hs as [s Hs]. rewrite (get_slot_eq d vi si vn s) by done.
    unfold observeState, mbind, M_bind. rewrite (get_slot_eq d vi si vn s) by done.
    rewrite (proj2 (String.eqb_neq _ _) Hns). by rewrite orb_true_r.
  - unfold get_slot, mbind, M_bind. rewrite (get_net_eq d vi vn) by done.
    destruct (nth_z (slots vn) si); [by destruct Hs|done].
Qed.
End DriverAddrs.
