(* ===== verification/DriverRuns.v ===== *)
(** * Runs of the throughput driver

    Two threads with two networks of two slots: the theorems at these inputs, and an
    early notification that leaves an address with an owner that is gone. *)

From S2P Require Import Prelude GoStr GoNet ApiTypes Driver DriverWork DriverRun DriverThread DriverCorrect DriverStart DriverAddrs.
From S2P Require Import Informers DriverMain.
Import GoNet Driver DriverWork DriverRun DriverThread DriverCorrect DriverStart DriverAddrs.

Module DriverRuns.

(** ** The set-up *)

Definition flags : Flags := MkFlags "run1" false 5 10 false false 0 "".

Definition started : res Driver := start flags true (λ _, 3) Some 1 (10 * 2 ^ 24) [2; 2].

Definition d0 : Driver := match started with Ok d => d | Panic _ => MkDriver [] ∅ ∅ ∅ 0 0 0 0 0 0 ∅ ∅ end.

Definition job0 : Job := MkJob [MkVNA 0 0; MkVNA 1 0] ["n1"; "n2"] 1 3 1 2 true false.
Definition job1 : Job := MkJob [MkVNA 0 1; MkVNA 1 1] ["n1"; "n2"] 1 3 2 2 true false.

Definition own (job : Job) (w : VirtNetAttachment) : Prop := w ∈ work job.

Definition wait : WaitEnv := MkWaitEnv 1 1 11 11 [(11, mret tt)].

(** A round in which the server accepts; others act before it and during a creation. *)
Definition a_round (before during : M Driver unit) : Round :=
  MkRound before during false 0 wait 1 "1" 2 (λ na _, inr na) (λ _, (3, 4, None)) (λ _, false) 1.

Definition quiet : Round := a_round (mret tt) (mret tt).

(** The state of an attachment of the first network's first slot. *)
Definition na (name ipv4 : string) : NetworkAttachment :=
  MkNA (MkMeta "run1" name "" "" 0 [] ∅ false) (MkNASpec "n1" "000001-a" [] [])
    (MkNAStatus (MkNAErrors [] []) "" 1 ipv4 "" "" "" None).

Definition notified (name ipv4 : string) : M Driver unit :=
  Attachment_OnAdd flags 5 (na name ipv4) (Some {[slotKey := "0"]}).

(** The first rounds of thread 0: the other thread creates its first attachment, then
    a notification comes. *)
Definition rounds0 : list Round :=
  a_round (round flags job1 new_thread quiet;; mret tt) (mret tt) ::
  a_round (notified "000001-1" "10.0.0.3") (mret tt) :: replicate 4 quiet.
Definition rounds1 : list Round := replicate 6 quiet.

Definition run0 : M Driver (Thread * list string) := RunThread flags job0 new_thread rounds0.

Example run0_ends :
  runs run0 d0 (λ r d, r = (MkThread 3 3 true, ["000001-1"; "000002-1"; "000001-3"]) ∧ multiOwnerWarnings d = 0).
Proof. vm_compute. split; reflexivity. Qed.

(** ** The hypotheses hold *)

Lemma d0_ok : nets_ok d0.
Proof.
  split.
  - repeat constructor; try (by vm_compute); try (eexists; split; [reflexivity|by left]); by intros [].
  - repeat constructor; eexists; (split; [vm_compute; reflexivity|by eexists]).
Qed.

Lemma d0_named : nets_named d0.
Proof. split; apply (bool_decide_unpack _); vm_compute; exact I. Qed.

Lemma job0_ok : job_ok job0 d0.
Proof.
  constructor; [apply (bool_decide_unpack _); vm_compute; exact I|done|done|].
  intros w [->|[->|[]%elem_of_nil]%elem_of_cons]%elem_of_cons; (split; [eexists; split; [reflexivity|by vm_compute]|reflexivity]).
Qed.

Lemma job1_ok : job_ok job1 d0.
Proof.
  constructor; [apply (bool_decide_unpack _); vm_compute; exact I|done|done|].
  intros w [->|[->|[]%elem_of_nil]%elem_of_cons]%elem_of_cons; (split; [eexists; split; [reflexivity|by vm_compute]|reflexivity]).
Qed.

Lemma a_round_ok own job before during :
  nodes job = ["n1"; "n2"] → polite own (shape d0) before → polite own (shape d0) during →
  round_ok flags own (shape d0) job (a_round before during).
Proof.
  intros Hn Hb Hd. constructor; [done|done|right; cbn; rewrite Hn; cbn; lia| |exists 0%nat; split; [cbn; lia|by left]].
  split; [apply Forall_cons_2; [apply polite_ret|by apply Forall_nil_2]|by repeat constructor].
Qed.

Lemma quiet_ok own job : nodes job = ["n1"; "n2"] → round_ok flags own (shape d0) job quiet.
Proof. intros Hn. by apply a_round_ok; [done|apply polite_ret..]. Qed.

Lemma notified_polite job name ipv4 : polite (own job) (shape d0) (notified name ipv4).
Proof.
  apply OnAdd_polite. intros a vi si [= <-]. vm_compute (_ !! _). intros [= <-]. vm_compute (Atoi _). intros [= <-].
  eexists. split; [reflexivity|by vm_compute].
Qed.

(** The rounds of thread 1 leave the slots of thread 0 alone. *)
Lemma other_polite : polite (own job0) (shape d0) (round flags job1 new_thread quiet;; mret tt).
Proof.
  apply polite_bind; [|intros; apply polite_ret]. apply round_polite; [|done|done|done|by apply quiet_ok].
  intros w [->|[->|[]%elem_of_nil]%elem_of_cons]%elem_of_cons;
    (split; [unfold own; apply (bool_decide_unpack _); vm_compute; exact I|eexists; split; [reflexivity|by vm_compute]]).
Qed.

Lemma rounds0_ok : Forall (round_ok flags (own job0) (shape d0) job0) rounds0.
Proof.
  repeat apply Forall_cons_2; try (by apply quiet_ok); [| |by apply Forall_nil_2]; apply a_round_ok; try done;
    try apply polite_ret; [apply other_polite|apply notified_polite].
Qed.

Lemma rounds1_ok : Forall (round_ok flags (own job1) (shape d0) job1) rounds1.
Proof. apply Forall_replicate. by apply quiet_ok. Qed.

(** ** The theorems at this set-up *)

Definition no_random (k m : nat) : nat := 0%nat.

Lemma thread_ends_witness :
  runs run0 d0 (λ r d',
    nets_ok d' ∧
    (iDelete r.1 = 3 ∨ 0 < stoppers d' ∨ false = true ∧ iDelete r.1 = 0) ∧
    (createAllowed r.1 = true → iDelete r.1 ≤ iCreate r.1 ≤ iDelete r.1 + 2) ∧
    iCreate r.1 ≤ 3 ∧
    Some <$> r.2 = expected job0 (virtNets d0) <$> seqZ 0 (iCreate r.1)).
Proof. apply (thread_ends flags job0 rounds0 d0 d0_ok job0_ok rounds0_ok). vm_compute. discriminate. Defined.

Definition result (job : Job) (rounds : list Round) : Thread * list string * Driver :=
  match RunThread flags job new_thread rounds d0 with Ok r => r | Panic _ => (new_thread, [], d0) end.

(** Every network has two slots. *)
Lemma d0_sizes vi vn : nth_z (virtNets d0) vi = Some vn → size vn = 2.
Proof.
  intros Hvn%nth_z_elem. assert (H : Forall (λ vn, size vn = 2) (virtNets d0)).
  { apply (bool_decide_unpack _). vm_compute. exact I. }
  rewrite Forall_forall in H. by apply H.
Qed.

Lemma no_wrap_sizes job : num job / Z.of_nat (length (work job)) = 1 → no_wrap job d0.
Proof. intros E w vn _ Hvn%d0_sizes. by rewrite E, Hvn. Qed.

Lemma names_unique_witness : NoDup ((result job0 rounds0).1.2 ++ (result job1 rounds1).1.2).
Proof.
  apply (names_unique flags job0 job1 rounds0 rounds1 d0 d0 (result job0 rounds0).1 (result job1 rounds1).1
           (result job0 rounds0).2 (result job1 rounds1).2);
    [apply d0_ok|apply d0_ok|done|apply d0_named|done|apply job0_ok|apply job1_ok| | | |apply rounds0_ok| |apply rounds1_ok| | |].
  1-2: by apply no_wrap_sizes.
  - apply (bool_decide_unpack _). vm_compute. exact I.
  - vm_compute. discriminate.
  - vm_compute. discriminate.
  - vm_compute. reflexivity.
  - vm_compute. reflexivity.
Defined.

Definition net0 : VirtNet := set_addrs {["10.0.0.3" := {["000001-1"]}]} (default (MkVirtNet 0 0 0 0 0 [] None [] 0 ∅ ∅) (nth_z (virtNets d0) 0)).
Definition d1 : Driver := set_nets <[0%nat := net0]> d0.

Lemma address_owners_witness :
  runs (ipAddressChangedInNS 0 "10.0.0.4" "10.0.0.3" "000001-2") d1 (λ _ d',
    ∃ a, virtNets d' = <[Z.to_nat 0 := set_addrs a net0]> (virtNets d1) ∧ tidy a ∧
      (∀ ip, owners a ip = moved "10.0.0.4" "10.0.0.3" "000001-2" ip (owners (addrs net0) ip)) ∧
      multiOwnerWarnings d' =
        (if bool_decide ("10.0.0.3" ≠ "" ∧ set_Exists (.≠ "000001-2") (owners (addrs net0) "10.0.0.3"))
         then u32 (multiOwnerWarnings d1 + 1) else multiOwnerWarnings d1)).
Proof. apply (address_owners 0 "10.0.0.4" "10.0.0.3" "000001-2" d1 net0); [reflexivity|]. by apply map_Forall_singleton. Defined.

(** An attachment of another run, in slot 7 of a network of this size or larger. *)
Definition foreign : NetworkAttachment :=
  MkNA (MkMeta "run0" "000001-8" "" "" 0 [] ∅ false) (MkNASpec "n1" "000001-a" [] [])
    (MkNAStatus (MkNAErrors [] []) "" 1 "" "" "" "" None).

Lemma foreign_notifications_witness :
  Attachment_OnAdd flags 5 foreign (Some {[slotKey := "7"]}) d1 = Panic "index out of range".
Proof.
  rewrite (foreign_notifications flags 5 foreign {[slotKey := "7"]} 0 net0 7 d1) by (try reflexivity; discriminate).
  reflexivity.
Defined.

(** ** An early notification

    The first attachment of slot 0 gets its address before the answer to its creation,
    which has none, and no notification follows.  When the slot is closed the address
    keeps its owner, and the next attachment with that address, on its own, counts as
    one owner too many. *)
Definition early : list Round :=
  a_round (mret tt) (notified "000001-1" "10.0.0.3") :: quiet :: quiet :: quiet ::
  a_round (notified "000001-3" "10.0.0.3") (mret tt) :: [quiet].

Lemma early_notification :
  runs (RunThread flags job0 new_thread early) d0 (λ r d,
    r = (MkThread 3 3 true, ["000001-1"; "000002-1"; "000001-3"]) ∧ multiOwnerWarnings d = 1 ∧
    (λ vn, owners (addrs vn) "10.0.0.3") <$> nth_z (virtNets d) 0 = Some {["000001-1"]}).
Proof. vm_compute. split_and!; reflexivity. Qed.
(** ** The process *)

Definition args (threads : Z) : DriverMain.Args :=
  DriverMain.MkArgs "run1" "10.0.0.0" false true 5 threads "" "" true flags.
Definition env : DriverMain.Env :=
  DriverMain.MkEnv "" None None None (λ _, None) None None (λ _, None) 1 [2; 2] (λ _, 3) Some no_random no_random
    (λ _, inr ["n1"; "n2"]) 1.

Lemma driver_process_witness :
  match DriverMain.main (args 2) env Informers.init with
  | Ok (DriverMain.Launched F d jobs ni ai, s) =>
      DriverMain.launched (args 2) env d jobs ∧ DriverMain.informers_run s ni ai ∧ length jobs = 2%nat
  | _ => False
  end.
Proof.
  pose proof (DriverMain.driver_process (args 2) env
    ltac:(repeat apply Forall_cons_2; try apply Forall_nil_2; vm_compute; discriminate)
    ltac:(vm_compute; discriminate) ltac:(vm_compute; reflexivity) (λ k m H, H) (λ k m H, H)
    ltac:(vm_compute; split; [discriminate|reflexivity]) ltac:(vm_compute; discriminate)) as H.
  destruct (DriverMain.main (args 2) env Informers.init) as [[[code| |F d jobs ni ai] s]|msg] eqn:E;
    [vm_compute in E; discriminate|vm_compute in E; discriminate| |vm_compute in E; discriminate].
  destruct H as (_ & _ & _ & Hl & Hi). split; [exact Hl|]. split; [exact Hi|].
  destruct Hl as (_ & _ & _ & _ & Hn & _). change (Z.of_nat (length jobs) = 2) in Hn. lia.
Defined.

(** Without threads, or networks, the nominal life time of an attachment has no value. *)
Example no_threads : DriverMain.main (args 0) env Informers.init = Panic "integer divide by zero".
Proof. vm_compute. reflexivity. Qed.
End DriverRuns.
